(* ===== verification/_CoqProject ===== *)
-Q . S2P
Prelude.v
JsString.v
Regex.v
JsNumber.v
NumberOrder.v
Numeric.v
JsValue.v
Json.v
BillingExpr.v
BillingRoundtrip.v
BillingSplit.v
BillingRules.v
ModelMapping.v
AdvancedCustom.v
AdvancedCustomProofs.v
Subscription.v
OrderedMap.v
Currency.v
CurrencyProofs.v
Aggregate.v
Flow.v
FlowProofs.v
FlowMarks.v
FlowLimit.v
FlowSankey.v
RegexHits.v
TierExpr.v
TierRoundtrip.v
RecordUpdate.v
Messages.v
ThinkTags.v
ChatHandler.v
ChatText.v
ChatProgress.v
HttpStatusRules.v
ModelPricing.v
PricingSnapshots.v
PricingJson.v
PricingJsonProofs.v
PricingFieldsProofs.v
PricingEditor.v
PricingEditorProofs.v
ParamOverride.v
ParamOverrideEditor.v
ParamOverrideProofs.v
ParamOverrideSave.v
ParamOverridePrune.v
ChannelForm.v
ChannelFormProofs.v
ChannelReopen.v
ChannelRights.v
TieredEditor.v
TieredEditorProofs.v
TieredSwitch.v
PriceList.v
PriceListProofs.v
PriceDisplay.v
PriceDisplayProofs.v
PriceTiers.v
RatioSync.v
