(* ===== verification/Prelude.v ===== *)
(** * The NovapuraAI router's browser application: a verified model

    The repository is a gateway for language models: a server in Go and a browser
    application in TypeScript (src/web/default). The development models the parts of the
    application that compute something on their own: the billing language and its
    editors, model prices and the documents and editors that set them, the rules of
    channels, subscriptions and price synchronisation, the quota flow chart of the
    dashboard, currencies and the public price list, and the playground's chat. Below, F stands for src/web/default/src.

    ** Layers

    Foundation. [Prelude] (this file): strings as lists of UTF-16 code units with a
    literal notation, tactics, the hint database [js]. [JsString]: the methods of
    String.prototype. [Regex]: an executable backtracking matcher for the patterns of the
    source; [RegexHits]: lemmas that follow a match along a text. [JsNumber]: binary64
    numbers as [spec_float] with decimal input and output; [NumberOrder]: their order and the
    sign of a difference. [JsValue]: untyped values,
    objects in enumeration order, the error type [res]. [Json]: JSON.parse and
    JSON.stringify with their round trip. [Numeric]: arithmetic as a class with its
    binary64 instance, and what its sums satisfy: whole numbers below 2^53 are added exactly,
    and sums of numbers that are not negative stay so. [OrderedMap]: Map, Set and the stable
    sort; [Aggregate]: what an accumulating loop over a Map leaves in it, key by key.

    Components. Each operation has the name it has in the source.

    - [BillingExpr] (F/features/pricing/lib/billing-expr.ts): the parsers of tiers and of
      request rules, the rule builder, splitting and combining. [BillingRoundtrip],
      [BillingSplit] and [BillingRules] show that built rules read back
      ([request_rules_roundtrip]), that combining and splitting are inverse
      ([combine_split_roundtrip]), the shape of a normalised condition
      ([normalize_condition_type]) and the comparison the parser never reads back
      ([comparison_not_read_back]).
    - [TierExpr] (F/features/pricing/lib/tier-expr.ts): the visual tier editor.
      [TierRoundtrip] shows that a canonical configuration is read back from its
      expression with the same tiers, but for the conditions of the last of several, which
      is written as the fallback ([visual_config_roundtrip]).
    - [TieredEditor] (F/features/system-settings/models/tiered-pricing-editor.tsx): the
      editor of tiers and rules as a state machine whose effects run after each render and
      call back into the page. [TieredEditorProofs]: five renders after each action the page
      has what the editor shows ([editor_settles]); what is opened and edited reaches the page
      ([opening_keeps], [edits_sent]); and what opening the editor destroys
      ([opening_loses_expression], [opening_loses_rules]). [TieredSwitch]: switching to the
      text of the expression and back changes nothing while the tiers end with a fallback
      and no label has a parenthesis ([mode_switch_roundtrip]).
    - [ModelMapping] (F/features/channels/lib/model-mapping-validation.ts): model lists,
      missing models, categories and the JSON object of renamings.
    - [AdvancedCustom] (F/features/channels/lib/advanced-custom.ts): parsing, normalising,
      validating and summarising the route table of a channel.
      [AdvancedCustomProofs] gives the validation loop a declarative specification that
      it implements, error order included ([validate_implements_table],
      [validate_reports_first]), and the text round trip.
    - [Subscription] (F/features/subscriptions/lib/subscription-offer.ts): which price of
      an offer can be bought, conflicts at checkout, and the life of a subscription.
    - [Flow] (F/features/dashboard/lib/flow.ts): from quota rows to the nodes and links of
      a Sankey chart. [FlowProofs]: the metrics are conserved
      ([flow_conservation], [columns_carry_the_summary]) in binary64, for whole amounts with
      a total below 2^53; shares and filters. [FlowMarks]: what a masked graph can show
      ([masking_hides_names]) and what a selection lights ([highlights_mark_lit_paths]).
      [FlowLimit]: the nodes kept by the limit ([top_nodes_ranked], for amounts that are not
      negative). [FlowSankey]: the chart specification and the reading of a click.
    - [Messages] and [ChatHandler] (F/features/playground): the messages and, as one state
      machine, the three hooks that stream, retry and edit them. [ThinkTags]: the think
      tag parser takes every text apart in one way, and its loop ends. [ChatText]: what a
      stream becomes whenever the flush timer fires. [ChatProgress]: the invariant of
      refs, timers and sources ([chat_invariant]), the bound on requests however often
      the load effect runs ([auto_resend_bounded]), and that the page comes to rest after a
      bounded number of events that end something, whatever these are
      ([generation_settles]).
    - [ModelPricing], [PricingSnapshots] (F/features/system-settings/models:
      model-pricing-core.ts, pricing-format.ts, model-global-discount.ts,
      model-pricing-snapshots.ts): default ratios, lanes, previews and the rows of the price
      table; a row per priced model ([snapshots_show_options]) and signatures that tell
      rows apart ([signature_tells_changes]).
    - [PricingJson] (model-pricing-bulk-json.ts, model-pricing-fields-json.ts): the two
      editors of prices as documents. [PricingJsonProofs]: a document is applied exactly
      when it is well formed and decides the prices it names ([bulk_accepts_valid],
      [bulk_apply_spec]). [PricingFieldsProofs]: the fields shown can be applied
      ([shown_fields_apply]) and applied fields are sound, names included
      ([fields_applied_spec]).
    - [PricingEditor] (model-pricing-sheet.tsx, model-ratio-visual-editor.tsx): the editor
      panel as a state machine and the saving of its drafts. [PricingEditorProofs]: ratios
      follow prices ([ratios_follow_prices]), what a save decides ([visual_save_spec]), and
      that saving an unedited model keeps every price when what it has is what the editor
      writes ([unedited_save_keeps_prices]). The
      texts of the options are taken to be JSON objects, as the server stores them.
    - [ParamOverride], [ParamOverrideEditor] (F/features/channels/components/dialogs/
      param-override-editor-dialog.tsx): the rules that rewrite a request, and the dialog
      that edits them as a state machine whose identifiers come from a counter.
      [ParamOverrideProofs]: identifiers are distinct and the dialog's invariant
      ([override_invariant]). [ParamOverrideSave]: saved rules are complete
      ([saved_rules_sound]) and reopening them is stable, but for texts that read as JSON
      ([reopen_save_stable], [text_value_retyped]).
      [ParamOverridePrune]: the drafts of single rules. [RecordUpdate]: the notation for
      updates of records that the state machines share.
    - [ChannelForm] (F/features/channels/lib/channel-form.ts, channel-form-errors.ts,
      hooks/use-channel-mutate-form.ts): the form of a channel, its check, how a stored
      channel opens and what is sent. [ChannelFormProofs]: the settings a form writes, key by
      key ([settings_written]). [ChannelReopen]: what the server stores of an update, and that
      a saved form opens as it was saved ([saved_form_reopens]). [ChannelRights]: the rule by
      which the server refuses sensitive changes (controller/channel_authz.go), which a
      restricted update always meets ([restricted_update]).
    - [Currency] (F/lib/currency.ts, billing-currency.ts, stores/system-config-store.ts,
      hooks/use-system-config.ts, components/currency-switcher.tsx): the currency of the site
      and of the browser, and the formats of amounts. [CurrencyProofs]: rates are positive
      ([config_sound]), a choice is shown ([choice_is_shown]), and an amount that is not zero
      is not shown as zero ([nonzero_amount_shown]), except in the compact notation
      ([compact_amount_shown_as_zero]).
    - [PriceList] (F/features/pricing: lib/filters.ts, lib/model-helpers.ts, hooks,
      pricing-sidebar.tsx, model-card-grid.tsx): the models of the public price list, its
      filters as a state machine, the counts of the side bar and the pages.
      [PriceListProofs]: what is shown and in which order ([shown_models_spec]), that the
      counts are true ([option_counts]) and the pages are the list ([pages_partition]).
    - [PriceDisplay] (lib/price.ts, lib/dynamic-price.ts, model-card.tsx,
      pricing-columns.tsx, model-details.tsx, dynamic-pricing-breakdown.tsx): the prices that
      cards, tables and details show. [PriceDisplayProofs]: a card shows the cheapest group
      ([card_shows_cheapest_group]); and prices shown wrongly
      ([free_group_at_full_price], [group_tiers_in_site_currency]). [PriceTiers]: the price
      list shows what the tier editor writes ([list_shows_editor]).
    - [RatioSync] (F/features/system-settings/models/upstream-ratio-sync-helpers.ts and the
      merge of upstream-ratio-sync.tsx): selections never mix a price with ratios, and
      the merge implements its specification.
    - [HttpStatusRules] (F/lib/http-status-code-rules.ts): parser and normal form.

    They interact as in the source: the tier editor and the price list use the variable
    registry and the patterns of the billing language, and prices the formats of currencies; the chart, the statistics and the validations use
    the string, number and JSON operations of the foundation; the chat hooks call the
    message functions and nothing else writes messages.

    ** Conventions

    Data from JSON.parse, from the server or through an [as] cast is an untyped [jsval];
    where a method call on it may throw, the operation returns [res] with the error. Data
    the source types and builds itself is a record. State is passed explicitly; an event
    of the chat is a function from state to state, and [ChatHandler.run] relates the
    states before and after a sequence of events the environment may produce.

    Fuel. [unwrap_go], [split_go] and [think_loop] get the length of the text, which each
    round shortens; [unwrap_go_fuel], [split_go_fields] and [think_tags_spec] show that it
    is never used up. JSON.parse gets twice the length and two; each level of its descent
    consumes a unit within two calls, and the reading lemmas of [Json] show it to be enough
    for everything JSON.stringify writes; [parse_no_fuel] shows it is never used up. A page
    of tiered prices is rendered five times after an action; [editor_settles] shows that
    nothing changes any more. The shortest decimal text of a number tries at most 17 digits,
    which always identify a binary64 number. Times and counters that stay far below 2^53
    (milliseconds, retry counts, token positions) are integers; prices and quotas are
    binary64; the flow chart is written over the class [Numeric].

    Environment, as arguments or as events: the clock and identifiers of nanoid, Date.parse
    and the locale with its collation and number formats, the translation function, the chart library's colour table, the
    function made by new Function from a billing expression, and for the chat the package
    sse.js, axios and the scheduling of React. Callbacks run to completion; events that an
    event source dispatches while being closed come right after the callback.

    ** Not modelled

    Properties inherited from Object.prototype, and assignment to the key __proto__, which
    JavaScript ignores for a value that is not an object and [obj_set] stores; a null in a
    list of tiers or of conditions, whose properties the source would fail to read and
    [as_tier] reads as an empty object; numbers of a channel update that are not integers,
    which the server refuses with the whole request; letters outside ASCII in toLowerCase and
    toUpperCase; unmounting of the chat page and the zod schemas of its storage. The server in Go, the earlier front end in JavaScript,
    rendering, forms, tables, translations and API calls are not modelled: they hold no
    computation of their own, or are not TypeScript. *)
From stdpp Require Export base option list sets.
From Stdlib Require Export NArith ZArith Lia.
From Stdlib Require Import Strings.Byte.

#[export] Set Default Goal Selector "!".

(** ** JavaScript strings and their literals

    A string is the list of its UTF-16 code units. A literal written in
    [js_scope] is decoded from UTF-8. *)

Abbreviation jstr := (list N).

Inductive lit :=
| LNil
| LCons (c : N) (l : lit).

(** One code point as UTF-16 code units. *)
Definition utf16_units (cp : N) (rest : lit) : lit :=
  if (cp <? 65536)%N then LCons cp rest
  else
    let v := (cp - 65536)%N in
    LCons (55296 + N.shiftr v 10) (LCons (56320 + N.land v 1023) rest).

Definition utf8_low (b : byte) : N := N.land (Byte.to_N b) 63.

Fixpoint lit_parse (bs : list byte) : lit :=
  match bs with
  | [] => LNil
  | b :: t =>
      let n := Byte.to_N b in
      if (n <? 128)%N then LCons n (lit_parse t)
      else if (n <? 224)%N then
        match t with
        | b1 :: t' => utf16_units (N.shiftl (N.land n 31) 6 + utf8_low b1) (lit_parse t')
        | _ => LNil
        end
      else if (n <? 240)%N then
        match t with
        | b1 :: b2 :: t' =>
            utf16_units
              (N.shiftl (N.land n 15) 12 + N.shiftl (utf8_low b1) 6 + utf8_low b2)
              (lit_parse t')
        | _ => LNil
        end
      else
        match t with
        | b1 :: b2 :: b3 :: t' =>
            utf16_units
              (N.shiftl (N.land n 7) 18 + N.shiftl (utf8_low b1) 12
               + N.shiftl (utf8_low b2) 6 + utf8_low b3)
              (lit_parse t')
        | _ => LNil
        end
  end.

(** Only printable ASCII is printed back as a literal. *)
Fixpoint lit_print (l : lit) : option (list byte) :=
  match l with
  | LNil => None
  | LCons c l' =>
      if ((31 <? c) && (c <? 127))%N then
        match Byte.of_N c, l' with
        | Some b, LNil => Some [b]
        | Some b, _ => option_map (cons b) (lit_print l')
        | None, _ => None
        end
      else None
  end.

Declare Scope js_scope.
Delimit Scope js_scope with js.

#[warnings="-via-type-mismatch"]
String Notation list lit_parse lit_print
  (via lit mapping [[nil] => LNil, [cons] => LCons]) : js_scope.

Open Scope js_scope.

(** Boolean equality on any decidable type, as [===] is used by the source. *)
Notation "x ==? y" := (bool_decide (x = y)) (at level 70, no associativity) : js_scope.
Notation "x !=? y" := (negb (bool_decide (x = y))) (at level 70, no associativity) : js_scope.

(** ** Errors

    A JavaScript computation either returns or throws. *)

Inductive res (A : Type) :=
| Ok (a : A)
| Throw (msg : jstr).
Arguments Ok {A} _.
Arguments Throw {A} _.

Definition res_bind {A B} (m : res A) (k : A -> res B) : res B :=
  match m with
  | Ok a => k a
  | Throw e => Throw e
  end.

Notation "'let*' x ':=' m 'in' k" := (res_bind m (fun x => k))
  (at level 10, x pattern, m at level 100, k at level 200) : js_scope.

(** [Array.prototype.map] with a callback that may throw. *)
Fixpoint res_map {A B} (f : A -> res B) (l : list A) : res (list B) :=
  match l with
  | [] => Ok []
  | x :: t => let* y := f x in let* ys := res_map f t in Ok (y :: ys)
  end.

Fixpoint res_fold {A S} (f : S -> A -> res S) (s : S) (l : list A) : res S :=
  match l with
  | [] => Ok s
  | x :: t => let* s' := f s x in res_fold f s' t
  end.

(** [try { m } catch { d }] *)
Definition res_catch {A} (m : res A) (d : A) : A :=
  match m with
  | Ok a => a
  | Throw _ => d
  end.

(** ** Tactics *)

(** Case analysis on the boolean comparisons the models use. *)
Ltac bd :=
  repeat match goal with
    | H : context [bool_decide ?P] |- _ => destruct (bool_decide_reflect P); simplify_eq/=
    | |- context [bool_decide ?P] => destruct (bool_decide_reflect P); simplify_eq/=
    end.

(** Evaluates a comparison of closed keys, or all of them. *)
Ltac closed_key :=
  match goal with
  | |- context [bool_decide (@eq jstr ?a ?b)] =>
      let r := eval vm_compute in (bool_decide (@eq jstr a b)) in
      lazymatch r with
      | true => change (bool_decide (@eq jstr a b)) with true
      | false => change (bool_decide (@eq jstr a b)) with false
      end
  end.
Ltac closed_keys := repeat closed_key.

(** Split a conjunction of boolean facts in the hypotheses. *)
Ltac bools :=
  repeat match goal with
    | H : _ && _ = true |- _ => apply andb_true_iff in H; destruct H
    | H : _ || _ = false |- _ => apply orb_false_iff in H; destruct H
    | H : negb _ = true |- _ => apply negb_true_iff in H
    | H : negb _ = false |- _ => apply negb_false_iff in H
    | H : bool_decide _ = true |- _ => apply bool_decide_eq_true in H
    | H : bool_decide _ = false |- _ => apply bool_decide_eq_false in H
    | H : (_ <? _)%N = true |- _ => apply N.ltb_lt in H
    | H : (_ <=? _)%N = true |- _ => apply N.leb_le in H
    | H : (_ <? _)%N = false |- _ => apply N.ltb_ge in H
    | H : (_ <=? _)%N = false |- _ => apply N.leb_gt in H
    | H : (_ =? _)%N = true |- _ => apply N.eqb_eq in H
    | H : (_ =? _)%N = false |- _ => apply N.eqb_neq in H
    end.

(** ** Computations that return *)

Lemma Ok_inj {A} (x y : A) : Ok x = Ok y -> x = y.
Proof. by intros [= ->]. Qed.

Lemma res_bind_Ok {A B} (m : res A) (k : A -> res B) b :
  res_bind m k = Ok b <-> exists a, m = Ok a /\ k a = Ok b.
Proof.
  split; [|by intros (a & -> & H)]. destruct m as [a|e]; [|done]. cbn. eauto.
Qed.

(** Split a returning computation into its steps. *)
Ltac res_inv :=
  repeat match goal with
    | H : Ok _ = Ok _ |- _ => injection H as H; try subst
    | H : Throw _ = Ok _ |- _ => discriminate H
    | H : res_bind _ _ = Ok _ |- _ =>
        let a := fresh "r" in let E := fresh "E" in
        apply res_bind_Ok in H as (a & E & H); cbn beta in H
    end.

Lemma res_map_Ok {A B} (f : A -> res B) l ys :
  res_map f l = Ok ys <-> Forall2 (fun x y => f x = Ok y) l ys.
Proof.
  revert ys; induction l as [|x l IH]; intros ys; cbn.
  - split; [intros [= <-]; constructor|by inversion 1].
  - rewrite res_bind_Ok. split.
    + intros (y & Hy & H). apply res_bind_Ok in H as (ys' & Hys & [= <-]).
      constructor; [done|by apply IH].
    + inversion 1 as [|? y ? ys' Hy Hys]; subst. exists y. split; [done|].
      apply IH in Hys. by rewrite Hys.
Qed.

(** ** Generic list lemmas *)

Lemma forallb_Forall {A} (p : A -> bool) l :
  forallb p l = true <-> Forall (fun x => p x = true) l.
Proof. rewrite forallb_forall, List.Forall_forall. done. Qed.

Lemma elem_of_filter_bool {A} (p : A -> bool) l x :
  x ∈ List.filter p l <-> p x = true /\ x ∈ l.
Proof. rewrite !list_elem_of_In, filter_In. tauto. Qed.

Lemma elem_of_map {A B} (f : A -> B) l y : y ∈ map f l <-> exists x, x ∈ l /\ y = f x.
Proof.
  rewrite list_elem_of_In, in_map_iff. split.
  - intros (x & <- & H). exists x. by rewrite list_elem_of_In.
  - intros (x & H & ->). exists x. by rewrite <- list_elem_of_In.
Qed.

Lemma flat_map_nil {A B} (f : A -> list B) l :
  (forall x, In x l -> f x = []) -> flat_map f l = [].
Proof.
  induction l as [|x l IH]; intros H; cbn; [done|].
  rewrite (H x) by (left; done). apply IH. intros y Hy. apply H. by right.
Qed.

Lemma flat_map_ext_in {A B} (f g : A -> list B) l :
  (forall x, In x l -> f x = g x) -> flat_map f l = flat_map g l.
Proof.
  induction l as [|x l IH]; intros H; cbn; [done|].
  rewrite (H x) by (left; done). f_equal. apply IH. intros y Hy. apply H. by right.
Qed.

Lemma flat_map_singleton {A B} (f : A -> list B) x : flat_map f [x] = f x.
Proof. cbn. apply app_nil_r. Qed.

Lemma filter_sublist {X} (p : X -> bool) l : List.filter p l `sublist_of` l.
Proof.
  induction l as [|x l IH]; cbn; [constructor|].
  destruct (p x); [by apply sublist_skip|by apply sublist_cons].
Qed.

Lemma rev_app_cons {A} (l : list A) x r : rev l ++ x :: r = rev (x :: l) ++ r.
Proof. cbn. by rewrite <- app_assoc. Qed.

Create Rewrite HintDb jsdb.
#[export] Hint Rewrite @app_nil_r @app_nil_l @flat_map_singleton : jsdb.
