(* ===== verification/JsString.v ===== *)
(** * Strings: the [String.prototype] operations the source uses *)
From S2P Require Import Prelude.

(** ** Code units *)

Definition is_digit (c : N) : bool := ((48 <=? c) && (c <=? 57))%N.

(** WhiteSpace and LineTerminator of ECMAScript: what [trim] removes and what
    [\s] matches. *)
Definition is_space (c : N) : bool :=
  (((9 <=? c) && (c <=? 13)) || (c =? 32) || (c =? 160) || (c =? 5760)
   || ((8192 <=? c) && (c <=? 8202)) || (c =? 8232) || (c =? 8233)
   || (c =? 8239) || (c =? 8287) || (c =? 12288) || (c =? 65279))%N.

Definition is_line_terminator (c : N) : bool :=
  ((c =? 10) || (c =? 13) || (c =? 8232) || (c =? 8233))%N.

(** [\w] *)
Definition is_word (c : N) : bool :=
  (((48 <=? c) && (c <=? 57)) || ((65 <=? c) && (c <=? 90))
   || (c =? 95) || ((97 <=? c) && (c <=? 122)))%N.

Definition dquote : jstr := [34%N].
Definition backslash : jstr := [92%N].
Definition newline : jstr := [10%N].

(** A literal in which an apostrophe stands for a double quote. *)
Definition sq (s : jstr) : jstr := map (fun c => if (c =? 39)%N then 34%N else c) s.

(** ** Operations *)

Fixpoint strip_prefix (p s : jstr) : option jstr :=
  match p, s with
  | [], _ => Some s
  | a :: p', c :: s' => if (a =? c)%N then strip_prefix p' s' else None
  | _ :: _, [] => None
  end.

Definition startsWith (s p : jstr) : bool :=
  match strip_prefix p s with Some _ => true | None => false end.

Definition endsWith (s p : jstr) : bool := startsWith (rev s) (rev p).

Fixpoint includes (s p : jstr) : bool :=
  startsWith s p || match s with [] => false | _ :: t => includes t p end.

Fixpoint trimStart (s : jstr) : jstr :=
  match s with
  | c :: t => if is_space c then trimStart t else s
  | [] => []
  end.

Definition trimEnd (s : jstr) : jstr := rev (trimStart (rev s)).
Definition trim (s : jstr) : jstr := trimEnd (trimStart s).

(** [s.slice(1, -1)] *)
Definition slice_inner (s : jstr) : jstr := removelast (tl s).

Fixpoint join (sep : jstr) (l : list jstr) : jstr :=
  match l with
  | [] => []
  | [x] => x
  | x :: t => x ++ sep ++ join sep t
  end.

(** [s.split(sep)] for a non-empty separator: [cur] is the reversed current
    field. *)
Fixpoint split_go (sep : jstr) (fuel : nat) (cur s : jstr) : list jstr :=
  match fuel with
  | O => [rev cur]
  | S f =>
      match s with
      | [] => [rev cur]
      | c :: t =>
          match strip_prefix sep s with
          | Some rest => rev cur :: split_go sep f [] rest
          | None => split_go sep f (c :: cur) t
          end
      end
  end.

Definition split (sep s : jstr) : list jstr := split_go sep (S (length s)) [] s.

(** [toLowerCase] on ASCII letters; the other code units are left alone. *)
Definition lower_unit (c : N) : N := if ((65 <=? c) && (c <=? 90))%N then (c + 32)%N else c.
Definition toLowerCase (s : jstr) : jstr := map lower_unit s.

(** [toUpperCase] on ASCII letters; the other code units are left alone. *)
Definition upper_unit (c : N) : N := if ((97 <=? c) && (c <=? 122))%N then (c - 32)%N else c.
Definition toUpperCase (s : jstr) : jstr := map upper_unit s.

(** [.filter(Boolean)] on strings. *)
Definition non_empty (s : jstr) : bool := match s with [] => false | _ => true end.

(** [s || d] on strings. *)
Definition str_or (s d : jstr) : jstr := match s with [] => d | _ => s end.

(** [[...new Set(l)]]: first occurrences, in order. *)
Fixpoint uniq_go {A} `{EqDecision A} (seen l : list A) : list A :=
  match l with
  | [] => []
  | x :: t =>
      if bool_decide (x ∈ seen) then uniq_go seen t
      else x :: uniq_go (x :: seen) t
  end.
Definition uniq {A} `{EqDecision A} (l : list A) : list A := uniq_go [] l.

(** The position of the first occurrence of [p] in [s]. *)
Fixpoint index_of (p s : jstr) : option nat :=
  if startsWith s p then Some 0%nat
  else match s with [] => None | _ :: t => option_map S (index_of p t) end.

(** [s.indexOf(p, from)]; [None] is [-1]. *)
Definition index_from (s p : jstr) (from : nat) : option nat :=
  option_map (Nat.add from) (index_of p (drop from s)).

(** [s.slice(a, b)] for [0 <= a <= b]. *)
Definition slice (s : jstr) (a b : nat) : jstr := take (b - a) (drop a s).

(** A string [trim] leaves alone. *)
Definition trimmed (s : jstr) : bool :=
  match s with
  | [] => true
  | c :: _ => negb (is_space c) && match rev s with d :: _ => negb (is_space d) | [] => true end
  end.

(** ** Lemmas *)

Lemma strip_prefix_app p s : strip_prefix p (p ++ s) = Some s.
Proof. induction p; cbn; [done|]. by rewrite N.eqb_refl. Qed.

Lemma strip_prefix_Some p s r : strip_prefix p s = Some r <-> s = p ++ r.
Proof.
  revert s; induction p as [|a p IH]; intros s; cbn.
  { split; [intros [=->] | intros ->]; done. }
  destruct s as [|c s]; [split; discriminate|].
  destruct (N.eqb_spec a c) as [->|Hne].
  - rewrite IH. split; [intros -> | intros [=]]; done.
  - split; [discriminate | intros [= Hac _]]. done.
Qed.

Lemma startsWith_app p s : startsWith (p ++ s) p = true.
Proof. unfold startsWith. by rewrite strip_prefix_app. Qed.

Lemma startsWith_true s p : startsWith s p = true <-> exists r, s = p ++ r.
Proof.
  unfold startsWith. destruct (strip_prefix p s) as [r|] eqn:E.
  - apply strip_prefix_Some in E. split; eauto.
  - split; [discriminate|]. intros [r ->]. by rewrite strip_prefix_app in E.
Qed.

Lemma trimStart_id s : match s with c :: _ => is_space c = false | [] => True end -> trimStart s = s.
Proof. destruct s as [|c s]; cbn; [done|]. by intros ->. Qed.

Lemma trim_id s : trimmed s = true -> trim s = s.
Proof.
  unfold trim, trimEnd, trimmed. destruct s as [|c s]; [done|].
  intros H. apply andb_true_iff in H as [H1 H2]. apply negb_true_iff in H1.
  rewrite (trimStart_id (c :: s)) by done.
  rewrite trimStart_id; [by rewrite rev_involutive|].
  destruct (rev (c :: s)); [done|]. by apply negb_true_iff in H2.
Qed.

Lemma trimStart_head s : match trimStart s with c :: _ => is_space c = false | [] => True end.
Proof. induction s as [|c s IH]; cbn; [done|]. destruct (is_space c) eqn:E; done. Qed.

Lemma trimStart_last s : forall c l, trimStart s = l ++ [c] -> exists l', s = l' ++ [c].
Proof.
  induction s as [|a s IH]; intros c l; cbn.
  { by destruct l. }
  destruct (is_space a).
  - intros [l' ->]%IH. by exists (a :: l').
  - intros ->. eauto.
Qed.

Lemma trimmed_trim s : trimmed (trim s) = true.
Proof.
  unfold trim, trimEnd. set (t := trimStart s).
  pose proof (trimStart_head s) as Hh. fold t in Hh.
  pose proof (trimStart_head (rev t)) as Hl.
  destruct (trimStart (rev t)) as [|d u] eqn:E; [done|].
  unfold trimmed. rewrite rev_involutive, Hl.
  destruct (rev (d :: u)) as [|c v] eqn:Er; [done|].
  assert (exists w, t = c :: w) as [w Hw].
  { destruct (trimStart_last (rev t) c (rev v)) as [l' Hl'].
    - rewrite E. rewrite <- (rev_involutive (d :: u)), Er. done.
    - exists (rev l'). rewrite <- (rev_involutive t), Hl', rev_app_distr. done. }
  rewrite Hw in Hh. by rewrite Hh.
Qed.

Lemma trim_idemp s : trim (trim s) = trim s.
Proof. apply trim_id, trimmed_trim. Qed.

#[export] Hint Rewrite trim_idemp strip_prefix_app startsWith_app : jsdb.

Lemma uniq_go_In {A} `{EqDecision A} (seen l : list A) x :
  x ∈ uniq_go seen l <-> x ∈ l /\ x ∉ seen.
Proof.
  revert seen; induction l as [|y l IH]; intros seen; cbn.
  { set_solver. }
  bd.
  - rewrite IH. set_solver.
  - rewrite elem_of_cons, IH. destruct (decide (x = y)); set_solver.
Qed.

Lemma elem_of_uniq {A} `{EqDecision A} (l : list A) x : x ∈ uniq l <-> x ∈ l.
Proof. unfold uniq. rewrite uniq_go_In. set_solver. Qed.

Lemma NoDup_uniq_go {A} `{EqDecision A} (seen l : list A) : NoDup (uniq_go seen l).
Proof.
  revert seen; induction l as [|y l IH]; intros seen; cbn; [constructor|].
  bd; [apply IH|]. constructor; [|apply IH]. rewrite uniq_go_In. set_solver.
Qed.

Lemma NoDup_uniq {A} `{EqDecision A} (l : list A) : NoDup (uniq l).
Proof. apply NoDup_uniq_go. Qed.

Lemma uniq_go_id {A} `{EqDecision A} (seen l : list A) :
  NoDup l -> (forall x, x ∈ l -> x ∉ seen) -> uniq_go seen l = l.
Proof.
  revert seen; induction l as [|y l IH]; intros seen Hnd Hs; cbn; [done|].
  inversion Hnd; subst. bd.
  - exfalso. apply (Hs y); set_solver.
  - f_equal. apply IH; [done|]. set_solver.
Qed.

Lemma uniq_id {A} `{EqDecision A} (l : list A) : NoDup l -> uniq l = l.
Proof. intros H. apply uniq_go_id; set_solver. Qed.

Lemma uniq_idemp {A} `{EqDecision A} (l : list A) : uniq (uniq l) = uniq l.
Proof. apply uniq_id, NoDup_uniq. Qed.

Lemma join_cons sep x y l : join sep (x :: y :: l) = x ++ sep ++ join sep (y :: l).
Proof. done. Qed.

(** *** Splitting a joined list on a one-unit separator *)

Definition without (c : N) (s : jstr) : bool := forallb (fun d => negb (d =? c)%N) s.

Lemma split_go_without c s : forall fuel cur rest,
  without c s = true -> length (s ++ rest) < fuel ->
  split_go [c] fuel cur (s ++ rest) = split_go [c] (fuel - length s) (rev s ++ cur) rest.
Proof.
  induction s as [|d s IH]; intros fuel cur rest H Hf; [by rewrite Nat.sub_0_r|].
  destruct fuel as [|fuel]; [cbn in Hf; lia|]. unfold without in H. cbn in H, Hf. bools.
  cbn [app split_go strip_prefix]. rewrite N.eqb_sym, (proj2 (N.eqb_neq d c)) by done.
  rewrite IH by (done || lia). cbn [length Nat.sub rev]. by rewrite <- app_assoc.
Qed.

Lemma split_go_join c l : forall fuel,
  forallb (without c) l = true -> l <> [] -> length (join [c] l) < fuel ->
  split_go [c] fuel [] (join [c] l) = l.
Proof.
  induction l as [|s l IH]; intros fuel H Hne Hf; [done|]. cbn in H. bools.
  destruct l as [|s2 l].
  - cbn [join] in *. rewrite <- (app_nil_r s) at 1.
    rewrite split_go_without by (done || by rewrite app_nil_r).
    rewrite app_nil_r. destruct (fuel - length s); cbn; by rewrite rev_involutive.
  - rewrite join_cons in *. rewrite split_go_without by done. rewrite !length_app in Hf.
    destruct (fuel - length s) as [|f] eqn:E; [cbn [length] in Hf; lia|].
    cbn [app split_go strip_prefix]. rewrite N.eqb_refl, app_nil_r, rev_involutive.
    f_equal. apply IH; [done..|]. cbn [length] in Hf. lia.
Qed.

Lemma split_join c l : forallb (without c) l = true -> l <> [] -> split [c] (join [c] l) = l.
Proof. intros H Hne. apply split_go_join; [done..|lia]. Qed.

Lemma split_go_fields c : forall fuel cur s,
  without c cur = true -> length s < fuel -> forallb (without c) (split_go [c] fuel cur s) = true.
Proof.
  assert (forall s, without c s = true -> without c (rev s) = true) as Hrev.
  { intros s. unfold without. rewrite !forallb_forall. intros H x Hx. by apply H, in_rev. }
  induction fuel as [|fuel IH]; intros cur s Hc Hf; [lia|]. cbn [split_go].
  destruct s as [|d s]; [by cbn; rewrite Hrev|]. cbn [strip_prefix]. cbn in Hf.
  destruct (N.eqb_spec c d) as [->|Hne].
  - cbn [forallb]. rewrite Hrev by done. apply IH; [done|lia].
  - apply IH; [|lia]. unfold without in *. cbn. rewrite Hc.
    by rewrite (proj2 (N.eqb_neq d c)).
Qed.

Lemma split_fields c s : forallb (without c) (split [c] s) = true.
Proof. apply split_go_fields; [done|lia]. Qed.

Lemma without_trim c s : without c s = true -> without c (trim s) = true.
Proof.
  assert (forall s, without c s = true -> without c (trimStart s) = true) as Ht.
  { induction s0 as [|d s0 IH]; cbn; [done|]. intros H. bools.
    destruct (is_space d); [by apply IH|]. unfold without. cbn. by rewrite H0, (proj2 (N.eqb_neq d c)). }
  assert (forall s, without c s = true -> without c (rev s) = true) as Hrev.
  { intros s0. unfold without. rewrite !forallb_forall. intros H x Hx. by apply H, in_rev. }
  intros H. unfold trim, trimEnd. auto.
Qed.

Lemma filter_all {A} (p : A -> bool) l : forallb p l = true -> List.filter p l = l.
Proof. induction l as [|a l IH]; cbn; [done|]. intros H. bools. rewrite H. f_equal. auto. Qed.

(** *** Searching *)

Lemma includes_here a p b : includes (a ++ p ++ b) p = true.
Proof.
  induction a as [|c a IH]; cbn [app].
  - destruct (p ++ b) eqn:E; cbn [includes]; rewrite <- E, startsWith_app; done.
  - cbn [includes]. rewrite IH. by rewrite orb_true_r.
Qed.

Lemma includes_index p s : includes s p = match index_of p s with Some _ => true | None => false end.
Proof.
  induction s as [|c s IH]; cbn [includes index_of]; destruct (startsWith _ p); try done.
  cbn. rewrite IH. by destruct (index_of p s).
Qed.

Lemma startsWith_drop s p : startsWith s p = true -> s = p ++ drop (length p) s.
Proof. intros [r ->]%startsWith_true. by rewrite drop_app_length. Qed.

Lemma index_of_Some p s i : index_of p s = Some i -> s = take i s ++ p ++ drop (i + length p) s.
Proof.
  revert i; induction s as [|c s IH]; intros i; cbn [index_of]; destruct (startsWith _ p) eqn:E.
  - intros [= <-]. by apply startsWith_drop.
  - done.
  - intros [= <-]. by apply startsWith_drop.
  - destruct (index_of p s) as [j|] eqn:Ej; [|done]. intros [= <-]. cbn. f_equal. by apply IH.
Qed.

Lemma index_of_head p r : index_of p (p ++ r) = Some 0%nat.
Proof.
  pose proof (startsWith_app p r) as H. destruct (p ++ r); cbn [index_of]; by rewrite H.
Qed.

(** A pattern whose first unit occurs nowhere else in it does not overlap itself: the
    first occurrence after a text without the pattern is where it was put. *)
Lemma index_of_app c p v r : c ∉ p -> index_of (c :: p) v = None ->
  index_of (c :: p) (v ++ (c :: p) ++ r) = Some (length v).
Proof.
  intros Hc. induction v as [|a v IH]; intros Hn.
  - cbn [app length]. apply (index_of_head (c :: p) r).
  - cbn [index_of app length] in Hn |- *.
    destruct (startsWith (a :: v ++ c :: p ++ r) (c :: p)) eqn:E.
    + exfalso. apply startsWith_true in E as [r' Hr]. cbn in Hr. injection Hr as -> Hr.
      destruct (startsWith (c :: v) (c :: p)) eqn:E2; [discriminate Hn|].
      assert (length v < length p)%nat as Hl.
      { destruct (decide (length p <= length v)%nat) as [Hle|]; [|lia]. exfalso.
        assert (v = p ++ drop (length p) v) as Hv.
        { rewrite <- (firstn_skipn (length p) v) at 1. f_equal.
          apply (f_equal (take (length p))) in Hr. rewrite take_app_le in Hr by lia.
          by rewrite take_app_length in Hr. }
        rewrite Hv in E2. change (c :: p ++ drop (length p) v) with ((c :: p) ++ drop (length p) v) in E2.
        by rewrite startsWith_app in E2. }
      apply Hc. apply (f_equal (fun l => l !! length v)) in Hr.
      rewrite list_lookup_middle in Hr by done. rewrite lookup_app_l in Hr by lia.
      symmetry in Hr. by apply list_elem_of_lookup_2 in Hr.
    + destruct (startsWith (a :: v) (c :: p)); [done|].
      destruct (index_of (c :: p) v); [done|].
      cbn [app] in IH. by rewrite IH.
Qed.

(** There is no occurrence before the first. *)
Lemma startsWith_take s p n : startsWith (take n s) p = true -> startsWith s p = true.
Proof.
  intros [r Hr]%startsWith_true. apply startsWith_true. exists (r ++ drop n s).
  rewrite app_assoc, <- Hr. by rewrite take_drop.
Qed.

Lemma index_of_take p s i : p <> [] -> index_of p s = Some i -> index_of p (take i s) = None.
Proof.
  intros Hp. revert i; induction s as [|c s IH]; intros i; cbn [index_of]; destruct (startsWith _ p) eqn:E; try done.
  - intros [= <-]. cbn. by destruct p.
  - intros [= <-]. cbn. by destruct p.
  - destruct (index_of p s) as [j|] eqn:Ej; [|done]. intros [= <-]. cbn [take index_of].
    destruct (startsWith (c :: take j s) p) eqn:E2.
    + by rewrite (startsWith_take (c :: s) p (S j)) in E.
    + by rewrite (IH j).
Qed.
