(* ===== verification/Regex.v ===== *)
(** * Regular expressions: an executable backtracking matcher

    The syntax is the fragment of ECMAScript's patterns the source uses.  The
    matcher returns every way to match, in the order in which a backtracking
    engine tries them, so the first element is the engine's answer. *)
From S2P Require Import Prelude JsString.

Inductive rx :=
| RLit (s : jstr)
| RSet (p : N -> bool)
| RSeq (a b : rx)
| RAlt (a b : rx)
| RStar (a : rx)
| RCap (n : nat) (a : rx)
| RBack (n : nat)
| RBol
| REol
| RWordB.

(** A matcher state: what is consumed (reversed), what is left, the captures. *)
Record mst := MSt {
  ms_pre : jstr;
  ms_suf : jstr;
  ms_caps : list (nat * jstr)
}.

Definition advance (l rest : jstr) (st : mst) : mst :=
  MSt (rev l ++ ms_pre st) rest (ms_caps st).

Fixpoint cap_get (n : nat) (l : list (nat * jstr)) : option jstr :=
  match l with
  | [] => None
  | (k, v) :: t => if Nat.eqb k n then Some v else cap_get n t
  end.

Definition lit_run (s : jstr) (st : mst) : list mst :=
  match strip_prefix s (ms_suf st) with
  | Some rest => [advance s rest st]
  | None => []
  end.

Definition set_run (p : N -> bool) (st : mst) : list mst :=
  match ms_suf st with
  | c :: t => if p c then [MSt (c :: ms_pre st) t (ms_caps st)] else []
  | [] => []
  end.

(** Greedy iteration. An iteration that consumes nothing is rejected, so as
    many iterations as there are characters left are enough. *)
Fixpoint star_run (step : mst -> list mst) (fuel : nat) (st : mst) : list mst :=
  match fuel with
  | O => [st]
  | S f =>
      flat_map
        (fun st' =>
           if (length (ms_suf st') <? length (ms_suf st))%nat
           then star_run step f st' else [])
        (step st)
      ++ [st]
  end.

Definition cap_set (n : nat) (st st' : mst) : mst :=
  MSt (ms_pre st') (ms_suf st')
    ((n, take (length (ms_suf st) - length (ms_suf st')) (ms_suf st)) :: ms_caps st').

Definition word_at (s : jstr) : bool :=
  match s with c :: _ => is_word c | [] => false end.

Fixpoint rx_run (r : rx) (st : mst) : list mst :=
  match r with
  | RLit s => lit_run s st
  | RSet p => set_run p st
  | RSeq a b => flat_map (rx_run b) (rx_run a st)
  | RAlt a b => rx_run a st ++ rx_run b st
  | RStar a => star_run (rx_run a) (length (ms_suf st)) st
  | RCap n a => map (cap_set n st) (rx_run a st)
  | RBack n => lit_run (default [] (cap_get n (ms_caps st))) st
  | RBol => match ms_pre st with [] => [st] | _ => [] end
  | REol => match ms_suf st with [] => [st] | _ => [] end
  | RWordB => if xorb (word_at (ms_pre st)) (word_at (ms_suf st)) then [st] else []
  end.

(** ** Derived syntax *)

Fixpoint rseq (l : list rx) : rx :=
  match l with
  | [] => RLit []
  | [a] => a
  | a :: t => RSeq a (rseq t)
  end.

Fixpoint ralts (l : list rx) : rx :=
  match l with
  | [] => RSet (fun _ => false)
  | [a] => a
  | a :: t => RAlt a (ralts t)
  end.

Definition rplus (a : rx) : rx := RSeq a (RStar a).
Definition ropt (a : rx) : rx := RAlt a (RLit []).
Definition rlits (l : list jstr) : rx := ralts (map RLit l).

(** [.] with and without the [s] flag, [\s], [\d], [\w], [[^x]]. *)
Definition any_unit : N -> bool := fun _ => true.
Definition dot_unit : N -> bool := fun c => negb (is_line_terminator c).
Definition not_unit (x : N) : N -> bool := fun c => negb (c =? x)%N.
Definition one_of (s : jstr) : N -> bool := fun c => existsb (N.eqb c) s.
Definition rspaces : rx := RStar (RSet is_space).

(** ** Matching *)

(** The first match at or after a position. *)
Fixpoint rx_search (r : rx) (pre suf : jstr) : option mst :=
  match rx_run r (MSt pre suf []) with
  | st :: _ => Some st
  | [] => match suf with [] => None | c :: t => rx_search r (c :: pre) t end
  end.

(** [s.match(r)] without the [g] flag. *)
Definition rx_exec (r : rx) (s : jstr) : option mst := rx_search r [] s.

(** [r.test(s)] *)
Definition rx_test (r : rx) (s : jstr) : bool :=
  match rx_exec r s with Some _ => true | None => false end.

(** [m[n]]: [None] is [undefined]. *)
Definition group (m : mst) (n : nat) : option jstr := cap_get n (ms_caps m).
Definition group_or (m : mst) (n : nat) : jstr := default [] (group m n).

(** The [while ((m = re.exec(s)) !== null)] loop of a [g] pattern. *)
Fixpoint rx_exec_from (r : rx) (fuel : nat) (pre suf : jstr) : list mst :=
  match fuel with
  | O => []
  | S f =>
      match rx_search r pre suf with
      | None => []
      | Some m => m :: rx_exec_from r f (ms_pre m) (ms_suf m)
      end
  end.

Definition rx_exec_all (r : rx) (s : jstr) : list mst :=
  rx_exec_from r (S (length s)) [] s.

(** [s.split(r)]: separators are the successive non-empty matches. *)
Fixpoint rx_split_go (r : rx) (fuel : nat) (cur pre suf : jstr) : list jstr :=
  match fuel with
  | O => [rev cur]
  | S f =>
      match suf with
      | [] => [rev cur]
      | c :: t =>
          match rx_run r (MSt pre suf []) with
          | m :: _ =>
              if (length (ms_suf m) <? length suf)%nat
              then rev cur :: rx_split_go r f [] (ms_pre m) (ms_suf m)
              else rx_split_go r f (c :: cur) (c :: pre) t
          | [] => rx_split_go r f (c :: cur) (c :: pre) t
          end
      end
  end.

Definition rx_split (r : rx) (s : jstr) : list jstr := rx_split_go r (S (length s)) [] [] s.

(** [s.replaceAll(r, by)] for a pattern with no empty match. *)
Fixpoint rx_replace_go (r : rx) (by' : jstr) (fuel : nat) (pre suf : jstr) : jstr :=
  match fuel with
  | O => suf
  | S f =>
      match suf with
      | [] => []
      | c :: t =>
          match rx_run r (MSt pre suf []) with
          | m :: _ =>
              if (length (ms_suf m) <? length suf)%nat
              then by' ++ rx_replace_go r by' f (ms_pre m) (ms_suf m)
              else c :: rx_replace_go r by' f (c :: pre) t
          | [] => c :: rx_replace_go r by' f (c :: pre) t
          end
      end
  end.

Definition rx_replace_all (r : rx) (by' s : jstr) : jstr :=
  rx_replace_go r by' (length s) [] s.

(** ** Lemmas: literals *)

Lemma run_lit s pre rest caps :
  rx_run (RLit s) (MSt pre (s ++ rest) caps) = [MSt (rev s ++ pre) rest caps].
Proof. cbn. unfold lit_run. cbn. by rewrite strip_prefix_app. Qed.

Lemma run_lit_fail s pre suf caps :
  startsWith suf s = false -> rx_run (RLit s) (MSt pre suf caps) = [].
Proof. cbn. unfold lit_run, startsWith. cbn. by destruct (strip_prefix s suf). Qed.

Lemma run_seq a b st : rx_run (RSeq a b) st = flat_map (rx_run b) (rx_run a st).
Proof. done. Qed.

Lemma run_lit_seq s b pre rest caps :
  rx_run (RSeq (RLit s) b) (MSt pre (s ++ rest) caps) = rx_run b (MSt (rev s ++ pre) rest caps).
Proof. rewrite run_seq, run_lit. apply flat_map_singleton. Qed.

Lemma run_lit_seq_fail s b pre suf caps :
  startsWith suf s = false -> rx_run (RSeq (RLit s) b) (MSt pre suf caps) = [].
Proof. intros H. by rewrite run_seq, run_lit_fail. Qed.

(** ** Lemmas: character classes *)

(** The splits of [l], longest prefix first. *)
Fixpoint splits_desc (l : jstr) : list (jstr * jstr) :=
  match l with
  | [] => [([], [])]
  | c :: t => map (fun ab => (c :: ab.1, ab.2)) (splits_desc t) ++ [([], c :: t)]
  end.

Definition head_not (p : N -> bool) (s : jstr) : Prop :=
  match s with c :: _ => p c = false | [] => True end.

Lemma star_set_run p l : forall fuel pre rest caps,
  forallb p l = true -> head_not p rest -> length (l ++ rest) <= fuel ->
  star_run (set_run p) fuel (MSt pre (l ++ rest) caps)
  = map (fun ab => MSt (rev ab.1 ++ pre) (ab.2 ++ rest) caps) (splits_desc l).
Proof.
  induction l as [|c l IH]; intros fuel pre rest caps Hp Hr Hf.
  { destruct fuel; cbn; [done|]. unfold set_run. cbn.
    destruct rest as [|d rest]; cbn; [done|]. cbn in Hr. by rewrite Hr. }
  cbn in Hp. apply andb_true_iff in Hp as [Hc Hp].
  destruct fuel as [|fuel]; cbn in Hf; [lia|]. cbn [star_run app].
  unfold set_run at 2. cbn [ms_suf ms_pre ms_caps]. rewrite Hc, flat_map_singleton. cbn [ms_suf].
  replace (length (l ++ rest) <? length (c :: l ++ rest)) with true
    by (symmetry; apply Nat.ltb_lt; cbn; lia).
  rewrite IH by (done || lia). cbn [splits_desc]. rewrite map_app, map_map. f_equal.
  apply map_ext. intros [a b]. cbn. by rewrite <- app_assoc.
Qed.

Lemma splits_desc_app l a b : In (a, b) (splits_desc l) -> l = a ++ b.
Proof.
  revert a b; induction l as [|c l IH]; intros a b; cbn.
  { intros [[= <- <-]|[]]; done. }
  rewrite in_app_iff, in_map_iff. intros [[[a' b'] [[= <- <-] H]]|[[= <- <-]|[]]]; [|done].
  cbn. f_equal. by apply IH.
Qed.

Lemma splits_desc_flat {B} (f : jstr * jstr -> list B) l a b :
  l = a ++ b ->
  (forall a' b', l = a' ++ b' -> a' <> a -> f (a', b') = []) ->
  flat_map f (splits_desc l) = f (a, b).
Proof.
  revert f a; induction l as [|c l IH]; intros f a Hl Hf; cbn.
  { destruct a, b; try done. cbn. apply app_nil_r. }
  rewrite flat_map_app. cbn. rewrite app_nil_r.
  destruct a as [|c' a]; cbn in Hl.
  - subst b. rewrite (flat_map_nil f (map _ _)); [done|].
    intros [a' b'] [[a'' b''] [[= <- <-] Hin]]%in_map_iff.
    apply Hf; [|done]. apply splits_desc_app in Hin. by cbn; rewrite Hin.
  - simplify_eq. rewrite (Hf [] (c' :: a ++ b)) by done. rewrite app_nil_r.
    rewrite flat_map_concat_map, map_map, <- flat_map_concat_map.
    rewrite (IH (fun ab => f (c' :: ab.1, ab.2)) a); [done..|].
    intros a' b' E Hne. apply Hf; [by cbn; rewrite E|cbn; congruence].
Qed.

(** What a continuation that cannot start with a [p]-unit does with the
    shorter prefixes. *)
Definition rejects (p : N -> bool) (b : rx) : Prop :=
  forall pre c t caps, p c = true -> rx_run b (MSt pre (c :: t) caps) = [].

Lemma rejects_lit p c s : p c = false -> rejects p (RLit (c :: s)).
Proof.
  intros Hc pre d t caps Hd. cbn. unfold lit_run. cbn.
  destruct (N.eqb_spec c d); [congruence|done].
Qed.

Lemma rejects_seq p a b : rejects p a -> rejects p (RSeq a b).
Proof. intros H pre c t caps Hc. cbn. by rewrite H. Qed.

Lemma rejects_eol p : rejects p REol.
Proof. intros pre c t caps _. done. Qed.

Lemma rejects_set p q : (forall c, p c = true -> q c = false) -> rejects p (RSet q).
Proof. intros H pre c t caps Hc. cbn. unfold set_run. cbn. by rewrite (H c Hc). Qed.

#[export] Hint Resolve rejects_lit rejects_seq rejects_eol : core.

(** One mandatory unit, then a class star. *)
Lemma run_plus_set p c l rest pre caps :
  p c = true -> forallb p l = true -> head_not p rest ->
  rx_run (rplus (RSet p)) (MSt pre (c :: l ++ rest) caps)
  = map (fun ab => MSt (rev ab.1 ++ c :: pre) (ab.2 ++ rest) caps) (splits_desc l).
Proof.
  intros Hc Hp Hr. unfold rplus. rewrite run_seq.
  change (rx_run (RSet p) (MSt pre (c :: l ++ rest) caps))
    with (if p c then [MSt (c :: pre) (l ++ rest) caps] else []).
  rewrite Hc, flat_map_singleton. by apply (star_set_run p l).
Qed.

Lemma run_plus_set_fail p pre suf caps :
  head_not p suf -> rx_run (rplus (RSet p)) (MSt pre suf caps) = [].
Proof.
  intros H. unfold rplus. rewrite run_seq. destruct suf as [|c t]; [done|].
  cbn in H. cbn [rx_run set_run ms_suf]. by rewrite H.
Qed.

Lemma run_cap n a b st :
  rx_run (RSeq (RCap n a) b) st = flat_map (fun s => rx_run b (cap_set n st s)) (rx_run a st).
Proof. cbn [rx_run]. by rewrite flat_map_concat_map, map_map, <- flat_map_concat_map. Qed.

(** Some continuation of [.*]-like stars: only one split survives. *)
Lemma run_cap_plus_split n p b l rest a z pre caps :
  forallb p l = true -> head_not p rest -> l = a ++ z -> a <> [] ->
  (forall a' z' pre' caps', l = a' ++ z' -> a' <> a -> a' <> [] ->
     rx_run b (MSt pre' (z' ++ rest) caps') = []) ->
  rx_run (RSeq (RCap n (rplus (RSet p))) b) (MSt pre (l ++ rest) caps)
  = rx_run b (MSt (rev a ++ pre) (z ++ rest) ((n, a) :: caps)).
Proof.
  intros Hp Hr Hl Hne Hb. destruct a as [|c a]; [done|]. subst l. cbn [app] in *.
  cbn in Hp. apply andb_true_iff in Hp as [Hc Hp].
  rewrite run_cap, (run_plus_set p c (a ++ z)) by done.
  rewrite flat_map_concat_map, map_map, <- flat_map_concat_map.
  set (f := fun x : jstr * jstr => _).
  rewrite (splits_desc_flat f (a ++ z) a z); [|done|].
  - unfold f, cap_set. cbn. f_equal. f_equal; [by rewrite <- app_assoc|].
    f_equal. f_equal. rewrite !length_app.
    replace (S (length a + length z + length rest) - (length z + length rest))
      with (S (length a)) by lia.
    cbn. f_equal. rewrite <- app_assoc. apply take_app_length.
  - intros a' b' E Hne'. unfold f, cap_set. cbn.
    apply (Hb (c :: a') b'); [by cbn; rewrite E|congruence|done].
Qed.

(** The common case: the class and its continuation are disjoint. *)
Lemma run_cap_plus n p b l rest pre caps :
  l <> [] -> forallb p l = true -> head_not p rest -> rejects p b ->
  rx_run (RSeq (RCap n (rplus (RSet p))) b) (MSt pre (l ++ rest) caps)
  = rx_run b (MSt (rev l ++ pre) rest ((n, l) :: caps)).
Proof.
  intros Hne Hp Hr Hb.
  rewrite (run_cap_plus_split n p b l rest l []); [done|done|done|by rewrite app_nil_r|done|].
  intros a' z' pre' caps' -> Hne' _. destruct z' as [|c z']; [by rewrite app_nil_r in Hne'|].
  apply Hb. rewrite forallb_app in Hp. cbn in Hp. bools. done.
Qed.

(** The same at the end of the input. *)
Lemma run_cap_plus_end n p b l pre caps :
  l <> [] -> forallb p l = true -> rejects p b ->
  rx_run (RSeq (RCap n (rplus (RSet p))) b) (MSt pre l caps)
  = rx_run b (MSt (rev l ++ pre) [] ((n, l) :: caps)).
Proof.
  intros Hne Hp Hb. rewrite <- (app_nil_r l) at 1. by apply run_cap_plus.
Qed.

Lemma run_star_seq p b l rest pre caps :
  forallb p l = true -> head_not p rest -> rejects p b ->
  rx_run (RSeq (RStar (RSet p)) b) (MSt pre (l ++ rest) caps)
  = rx_run b (MSt (rev l ++ pre) rest caps).
Proof.
  intros Hp Hr Hb. rewrite run_seq. cbn [rx_run ms_suf].
  change (rx_run (RSet p)) with (set_run p). rewrite star_set_run by done.
  rewrite flat_map_concat_map, map_map, <- flat_map_concat_map.
  rewrite (splits_desc_flat _ l l []); [done|by rewrite app_nil_r|].
  intros a' z' -> Hne. destruct z' as [|c z']; [by rewrite app_nil_r in Hne|].
  apply Hb. rewrite forallb_app in Hp. cbn in Hp. bools. done.
Qed.

(** A pattern that needs a unit of [p] first fails elsewhere. *)
Lemma run_cap_plus_fail n p b pre suf caps :
  head_not p suf -> rx_run (RSeq (RCap n (rplus (RSet p))) b) (MSt pre suf caps) = [].
Proof. intros H. by rewrite run_cap, run_plus_set_fail. Qed.

(** Every split of a class star, when no continuation matches. *)
Lemma run_cap_plus_none n p b l rest pre caps :
  forallb p l = true -> head_not p rest ->
  (forall a z pre' caps', l = a ++ z -> a <> [] -> rx_run b (MSt pre' (z ++ rest) caps') = []) ->
  rx_run (RSeq (RCap n (rplus (RSet p))) b) (MSt pre (l ++ rest) caps) = [].
Proof.
  intros Hp Hr Hb. destruct l as [|c l].
  { apply run_cap_plus_fail. done. }
  cbn in Hp. apply andb_true_iff in Hp as [Hc Hp].
  rewrite run_cap. cbn [app]. rewrite run_plus_set by done.
  apply flat_map_nil. intros st [[a z] [<- Hin]]%in_map_iff.
  apply splits_desc_app in Hin as ->. cbn.
  by apply (Hb (c :: a) z).
Qed.

(** ** Lemmas: captured literals, back references, alternatives *)

Lemma cap_set_lit n pre s rest caps pre' caps' :
  cap_set n (MSt pre (s ++ rest) caps) (MSt pre' rest caps') = MSt pre' rest ((n, s) :: caps').
Proof.
  unfold cap_set. cbn. rewrite length_app. do 2 f_equal. f_equal.
  replace (length s + length rest - length rest) with (length s) by lia. apply take_app_length.
Qed.

Lemma run_lits_unique l : forall s pre rest caps,
  s ∈ l -> NoDup l -> (forall s', s' ∈ l -> s' <> s -> startsWith (s ++ rest) s' = false) ->
  rx_run (rlits l) (MSt pre (s ++ rest) caps) = [MSt (rev s ++ pre) rest caps].
Proof.
  assert (forall l st, (forall s', s' ∈ l -> rx_run (RLit s') st = []) -> rx_run (rlits l) st = []) as Hnone.
  { induction l0 as [|a l0 IH]; intros st H; [by destruct st as [? [|] ?]|].
    unfold rlits in *. destruct l0 as [|b l0]; cbn [map ralts] in *.
    - apply H. left.
    - change (rx_run (RLit a) st ++ rx_run (ralts (map RLit (b :: l0))) st = []).
      rewrite IH, H; [done|left|]. intros s' Hs'. apply H. by right. }
  induction l as [|a l IH]; intros s pre rest caps Hin Hnd H; [by apply elem_of_nil in Hin|].
  inversion Hnd as [|? ? Hni Hnd']; subst.
  assert (rx_run (rlits (a :: l)) (MSt pre (s ++ rest) caps)
          = rx_run (RLit a) (MSt pre (s ++ rest) caps) ++ rx_run (rlits l) (MSt pre (s ++ rest) caps)) as ->.
  { destruct l; [|done]. cbn -[lit_run]. unfold set_run. cbn.
    destruct (s ++ rest); by rewrite app_nil_r. }
  destruct (decide (a = s)) as [->|Hne].
  - rewrite run_lit, Hnone; [done|]. intros s' Hs'. apply run_lit_fail, H; [by right|]. by intros ->.
  - rewrite run_lit_fail by (apply H; [left|done]). apply elem_of_cons in Hin as [->|Hin]; [done|].
    apply IH; [done..|]. intros s' Hs'. apply H. by right.
Qed.

Lemma run_cap_lits n l s b pre rest caps :
  s ∈ l -> NoDup l -> (forall s', s' ∈ l -> s' <> s -> startsWith (s ++ rest) s' = false) ->
  rx_run (RSeq (RCap n (rlits l)) b) (MSt pre (s ++ rest) caps)
  = rx_run b (MSt (rev s ++ pre) rest ((n, s) :: caps)).
Proof.
  intros H1 H2 H3. rewrite run_cap, run_lits_unique, flat_map_singleton by done.
  by rewrite cap_set_lit.
Qed.

Lemma run_back_seq n b v pre rest caps :
  cap_get n caps = Some v ->
  rx_run (RSeq (RBack n) b) (MSt pre (v ++ rest) caps) = rx_run b (MSt (rev v ++ pre) rest caps).
Proof.
  intros H. cbn [rx_run ms_caps]. rewrite H. unfold lit_run. cbn [ms_suf default from_option id].
  rewrite strip_prefix_app. apply flat_map_singleton.
Qed.

Lemma run_eol pre caps : rx_run REol (MSt pre [] caps) = [MSt pre [] caps].
Proof. done. Qed.

(** Two step functions that agree on the suffixes of the input iterate alike. *)
Lemma star_run_ext (P : jstr -> Prop) f g fuel : forall st,
  (forall st, P (ms_suf st) -> f st = g st) ->
  (forall st st', P (ms_suf st) -> In st' (g st) -> P (ms_suf st')) ->
  P (ms_suf st) -> star_run f fuel st = star_run g fuel st.
Proof.
  induction fuel as [|n IH]; intros st Hfg Hstep HP; cbn [star_run]; [done|].
  rewrite Hfg by done. f_equal. apply flat_map_ext_in. intros st' Hin.
  destruct (_ <? _)%nat; [|done]. apply IH; [done..|]. by apply (Hstep st).
Qed.

(** ** Lemmas: anchors and searching *)

Lemma rx_search_bol r c pre suf : rx_search (RSeq RBol r) (c :: pre) suf = None.
Proof. revert c pre; induction suf as [|d suf IH]; intros c pre; cbn; [done|apply IH]. Qed.

Lemma rx_exec_bol r s : rx_exec (RSeq RBol r) s = head (rx_run r (MSt [] s [])).
Proof.
  unfold rx_exec. destruct s as [|c s]; cbn [rx_search]; cbn [rx_run ms_pre];
    rewrite flat_map_singleton.
  - by destruct (rx_run r _).
  - destruct (rx_run r _); [apply rx_search_bol|done].
Qed.

(** ** What a match consumes *)

(** Every unit a pattern can consume is in [p]. *)
Fixpoint rx_only (p : N -> bool) (r : rx) : Prop :=
  match r with
  | RLit s => forallb p s = true
  | RSet q => forall c, q c = true -> p c = true
  | RSeq a b | RAlt a b => rx_only p a /\ rx_only p b
  | RStar a | RCap _ a => rx_only p a
  | RBack _ => False
  | RBol | REol | RWordB => True
  end.

Fixpoint ends_eol (r : rx) : Prop :=
  match r with
  | RSeq _ b => ends_eol b
  | REol => True
  | _ => False
  end.

Definition consumes (p : N -> bool) (st st' : mst) : Prop :=
  exists l, ms_suf st = l ++ ms_suf st' /\ forallb p l = true.

Lemma consumes_refl p st : consumes p st st.
Proof. by exists []. Qed.

Lemma consumes_trans p a b c : consumes p a b -> consumes p b c -> consumes p a c.
Proof.
  intros (l & E1 & H1) (k & E2 & H2). exists (l ++ k). rewrite E1, E2, forallb_app, H1, H2.
  by rewrite <- app_assoc.
Qed.

Lemma rx_run_only p r : forall st st', rx_only p r -> In st' (rx_run r st) -> consumes p st st'.
Proof.
  induction r as [s|q|a IHa b IHb|a IHa b IHb|a IHa|n a IHa|n| | |]; intros st st'; cbn [rx_only].
  - intros Hs. cbn. unfold lit_run. destruct (strip_prefix s (ms_suf st)) as [r|] eqn:E; [|done].
    intros [<-|[]]. apply strip_prefix_Some in E. by exists s.
  - intros Hq. cbn. unfold set_run. destruct (ms_suf st) as [|c t] eqn:E; [done|].
    destruct (q c) eqn:Ec; [|done]. intros [<-|[]]. exists [c]. cbn. by rewrite E, Hq.
  - intros [Ha Hb]. cbn. rewrite in_flat_map. intros [s [H1 H2]].
    eapply consumes_trans; eauto.
  - intros [Ha Hb]. cbn. rewrite in_app_iff. intros [H|H]; eauto.
  - intros Ha. cbn [rx_run]. generalize (length (ms_suf st)) as fuel. revert st.
    induction st as [pre suf caps]. intros fuel. revert pre suf caps.
    induction fuel as [|f IHf]; intros pre suf caps; cbn [star_run].
    { intros [<-|[]]. apply consumes_refl. }
    rewrite in_app_iff, in_flat_map. intros [[[pre' suf' caps'] [Hin H]]|[<-|[]]].
    + destruct (_ <? _)%nat; [|by destruct H]. eapply consumes_trans; [by apply IHa|by apply IHf].
    + apply consumes_refl.
  - intros Ha. cbn. rewrite in_map_iff. intros [s [<- H]]. by apply IHa in H.
  - done.
  - intros _. cbn. destruct (ms_pre st); [|done]. intros [<-|[]]. apply consumes_refl.
  - intros _. cbn. destruct (ms_suf st) eqn:E; [|done]. intros [<-|[]]. apply consumes_refl.
  - intros _. cbn. destruct (xorb _ _); [|done]. intros [<-|[]]. apply consumes_refl.
Qed.

Lemma ends_eol_suf r : forall st st', ends_eol r -> In st' (rx_run r st) -> ms_suf st' = [].
Proof.
  induction r as [s|q|a IHa b IHb|a IHa b IHb|a IHa|n a IHa|n| | |]; intros st st' H; try done.
  - cbn. rewrite in_flat_map. intros [s [_ Hs]]. by apply IHb in Hs.
  - cbn. destruct (ms_suf st) eqn:E; [|done]. intros [<-|[]]. done.
Qed.

(** A string that an anchored pattern accepts is made of the pattern's units. *)
Lemma rx_test_only p r s :
  rx_only p r -> ends_eol r -> rx_test (RSeq RBol r) s = true -> forallb p s = true.
Proof.
  intros Ho He. unfold rx_test. rewrite rx_exec_bol.
  destruct (rx_run r (MSt [] s [])) as [|st l] eqn:E; [done|]. intros _.
  assert (In st (rx_run r (MSt [] s []))) as Hin by (rewrite E; by left).
  pose proof (ends_eol_suf r _ _ He Hin) as Hs.
  destruct (rx_run_only p r _ _ Ho Hin) as (k & Hk & Hp). cbn in Hk.
  by rewrite Hk, Hs, app_nil_r.
Qed.

(** ** Progress: every match of a pattern consumes at least [rx_min] units *)

Fixpoint rx_min (r : rx) : nat :=
  match r with
  | RLit s => length s
  | RSet _ => 1
  | RSeq a b => rx_min a + rx_min b
  | RAlt a b => Nat.min (rx_min a) (rx_min b)
  | RCap _ a => rx_min a
  | RStar _ | RBack _ | RBol | REol | RWordB => 0
  end.

Lemma lit_run_shrinks s st st' :
  In st' (lit_run s st) -> length (ms_suf st') + length s <= length (ms_suf st).
Proof.
  unfold lit_run. destruct (strip_prefix s (ms_suf st)) as [rest|] eqn:E; [|done].
  intros [<-|[]]. apply strip_prefix_Some in E. rewrite E, length_app. cbn. lia.
Qed.

Lemma star_run_shrinks step fuel : forall st st',
  (forall s s', In s' (step s) -> length (ms_suf s') <= length (ms_suf s)) ->
  In st' (star_run step fuel st) -> length (ms_suf st') <= length (ms_suf st).
Proof.
  induction fuel as [|f IH]; intros st st' Hs; cbn [star_run].
  { intros [<-|[]]. done. }
  rewrite in_app_iff, in_flat_map. intros [[s [Hin H]]|[<-|[]]]; [|done].
  destruct (Nat.ltb_spec (length (ms_suf s)) (length (ms_suf st))) as [Hlt|Hge]; [|by destruct H].
  apply IH in H; [lia|done].
Qed.

Lemma rx_run_shrinks r : forall st st',
  In st' (rx_run r st) -> length (ms_suf st') + rx_min r <= length (ms_suf st).
Proof.
  induction r as [s|p|a IHa b IHb|a IHa b IHb|a IHa|n a IHa|n| | |]; intros st st'; cbn.
  - apply lit_run_shrinks.
  - unfold set_run. destruct (ms_suf st) as [|c t]; [done|]. destruct (p c); [|done].
    intros [<-|[]]. cbn. lia.
  - rewrite in_flat_map. intros [s [H1%IHa H2%IHb]]. lia.
  - rewrite in_app_iff. intros [H%IHa|H%IHb]; lia.
  - intros H. eapply star_run_shrinks in H; [lia|]. intros s s' Hs%IHa. lia.
  - rewrite in_map_iff. intros [s [<- H%IHa]]. done.
  - intros H%lit_run_shrinks. lia.
  - destruct (ms_pre st); [|done]. intros [<-|[]]. lia.
  - destruct (ms_suf st) eqn:E; [|done]. intros [<-|[]]. rewrite E. done.
  - destruct (xorb _ _); [|done]. intros [<-|[]]. lia.
Qed.

Lemma rx_search_shrinks r pre suf m :
  rx_search r pre suf = Some m -> length (ms_suf m) + rx_min r <= length suf.
Proof.
  revert pre; induction suf as [|c t IH]; intros pre; cbn.
  - destruct (rx_run r (MSt pre [] [])) as [|st l] eqn:E; [done|]. intros [= <-].
    apply (rx_run_shrinks r (MSt pre [] [])). rewrite E. by left.
  - destruct (rx_run r (MSt pre (c :: t) [])) as [|st l] eqn:E.
    + intros H%IH. lia.
    + intros [= <-]. apply (rx_run_shrinks r (MSt pre (c :: t) [])). rewrite E. by left.
Qed.

(** The fuel of [rx_exec_all] is enough: more fuel changes nothing. *)
Lemma rx_exec_from_fuel r f1 : forall f2 pre suf,
  0 < rx_min r -> length suf < f1 -> length suf < f2 ->
  rx_exec_from r f1 pre suf = rx_exec_from r f2 pre suf.
Proof.
  induction f1 as [|f1 IH]; intros [|f2] pre suf Hm H1 H2; [lia..|]. cbn.
  destruct (rx_search r pre suf) as [m|] eqn:E; [|done].
  apply rx_search_shrinks in E. f_equal. apply IH; lia.
Qed.
