(* ===== verification/JsNumber.v ===== *)
(** * Numbers: IEEE 754 binary64, as ECMAScript has them

    A number is a [spec_float] of the Standard Library's specification of
    floating-point arithmetic, at precision 53 and maximal exponent 1024.
    Conversion from and to decimal text is the correctly rounded one. *)
From Stdlib Require Export SpecFloat.
From S2P Require Import Prelude JsString.

Abbreviation num := spec_float.

#[global] Instance num_eq_dec : EqDecision num.
Proof. solve_decision. Defined.

Definition nan : num := S754_nan.
Definition inf : num := S754_infinity false.
Definition nzero : num := S754_zero false.

Definition nadd : num -> num -> num := SFadd 53 1024.
Definition nsub : num -> num -> num := SFsub 53 1024.
Definition nmul : num -> num -> num := SFmul 53 1024.
Definition ndiv : num -> num -> num := SFdiv 53 1024.

(** [a < b], [a <= b] and [a == b]: false when an operand is [NaN]. *)
Definition nlt (a b : num) : bool := SFltb a b.
Definition nle (a b : num) : bool := SFleb a b.
Definition neq (a b : num) : bool := SFeqb a b.

Definition is_finite (x : num) : bool :=
  match x with
  | S754_zero _ | S754_finite _ _ _ => true
  | S754_infinity _ | S754_nan => false
  end.

Definition is_nan (x : num) : bool :=
  match x with S754_nan => true | _ => false end.

(** [Boolean(x)]: zero and [NaN] are falsy. *)
Definition num_truthy (x : num) : bool :=
  match x with S754_zero _ | S754_nan => false | _ => true end.

(** [x || d] on numbers. *)
Definition num_or (x d : num) : num := if num_truthy x then x else d.

Definition num_of_Z (z : Z) : num := binary_normalize 53 1024 z 0 false.

(** ** Decimal text to number *)

Fixpoint dec_len (fuel : nat) (z : Z) : Z :=
  match fuel with
  | O => 1
  | S f => if (z <? 10)%Z then 1 else (1 + dec_len f (z / 10))%Z
  end.

(** The number nearest to [m * 10^e], for [m >= 0]. Magnitudes outside
    [10^-324, 10^309) round to zero or infinity. *)
Definition num_of_dec (neg : bool) (m e : Z) : num :=
  if (m =? 0)%Z then S754_zero neg
  else
    let d := dec_len (S (Z.to_nat (Z.log2 m))) m in
    if (309 <=? d - 1 + e)%Z then S754_infinity neg
    else if (d + e <=? -324)%Z then S754_zero neg
    else if (0 <=? e)%Z then
      binary_round 53 1024 neg (Z.to_pos (m * 10 ^ e)) 0
    else
      let '(q, e', l) := SFdiv_core_binary 53 1024 m 0 (10 ^ (- e)) 0 in
      binary_round_aux 53 1024 neg q e' l.

Fixpoint span (p : N -> bool) (s : jstr) : jstr * jstr :=
  match s with
  | c :: t => if p c then let '(a, b) := span p t in (c :: a, b) else ([], s)
  | [] => ([], [])
  end.

Definition digits_val (s : jstr) : Z :=
  fold_left (fun acc c => (acc * 10 + (Z.of_N c - 48))%Z) s 0%Z.

(** An exponent part: [None] when it is malformed, [Some 0] when absent. *)
Definition parse_exponent (s : jstr) : option (Z * jstr) :=
  match s with
  | c :: t =>
      if ((c =? 101) || (c =? 69))%N then
        let '(neg, t') :=
          match t with
          | d :: t' => if (d =? 45)%N then (true, t') else if (d =? 43)%N then (false, t') else (false, t)
          | [] => (false, t)
          end in
        let '(ds, rest) := span is_digit t' in
        match ds with
        | [] => None
        | _ => Some ((if neg : bool then - digits_val ds else digits_val ds)%Z, rest)
        end
      else Some (0%Z, s)
  | [] => Some (0%Z, [])
  end.

(** StrUnsignedDecimalLiteral, without [Infinity]: mantissa and exponent. *)
Definition parse_unsigned (s : jstr) : option (Z * Z) :=
  let '(ip, rest) := span is_digit s in
  let '(fp, rest') :=
    match rest with
    | c :: t => if (c =? 46)%N then span is_digit t else ([], rest)
    | [] => ([], [])
    end in
  match ip ++ fp with
  | [] => None
  | ds =>
      match parse_exponent rest' with
      | Some (e, []) => Some (digits_val ds, (e - Z.of_nat (length fp))%Z)
      | _ => None
      end
  end.

Definition digit_in_base (b c : N) : option Z :=
  let v :=
    if is_digit c then Some (c - 48)%N
    else if ((97 <=? c) && (c <=? 102))%N then Some (c - 87)%N
    else if ((65 <=? c) && (c <=? 70))%N then Some (c - 55)%N
    else None in
  match v with
  | Some d => if (d <? b)%N then Some (Z.of_N d) else None
  | None => None
  end.

Fixpoint parse_base (b : N) (acc : Z) (s : jstr) : option Z :=
  match s with
  | [] => Some acc
  | c :: t =>
      match digit_in_base b c with
      | Some d => parse_base b (acc * Z.of_N b + d) t
      | None => None
      end
  end.

Definition parse_prefixed (s : jstr) : option Z :=
  match s with
  | z :: x :: _ :: _ =>
      if (z =? 48)%N then
        if ((x =? 120) || (x =? 88))%N then parse_base 16 0 (tl (tl s))
        else if ((x =? 111) || (x =? 79))%N then parse_base 8 0 (tl (tl s))
        else if ((x =? 98) || (x =? 66))%N then parse_base 2 0 (tl (tl s))
        else None
      else None
  | _ => None
  end.

(** [Number(s)] on a string. *)
Definition num_of_string (s : jstr) : num :=
  let t := trim s in
  match t with
  | [] => nzero
  | c :: u =>
      match parse_prefixed t with
      | Some z => num_of_Z z
      | None =>
          let '(neg, body) :=
            if (c =? 45)%N then (true, u) else if (c =? 43)%N then (false, u) else (false, t) in
          if body ==? "Infinity" then S754_infinity neg
          else
            match parse_unsigned body with
            | Some (m, e) => num_of_dec neg m e
            | None => nan
            end
      end
  end.

(** ** Number to text *)

Fixpoint pos_digits (fuel : nat) (z : Z) (acc : jstr) : jstr :=
  match fuel with
  | O => acc
  | S f =>
      let acc' := Z.to_N (48 + z mod 10) :: acc in
      if (z <? 10)%Z then acc' else pos_digits f (z / 10) acc'
  end.

(** The decimal digits of a non-negative integer. *)
Definition Z_digits (z : Z) : jstr := pos_digits (S (Z.to_nat (Z.log2 z))) z [].
Definition Z_to_jstr (z : Z) : jstr :=
  if (z <? 0)%Z then 45%N :: Z_digits (- z) else Z_digits z.

(** [m * 2^e] as a fraction. *)
Definition frac_of (m : positive) (e : Z) : Z * Z :=
  if (0 <=? e)%Z then (Zpos m * 2 ^ e, 1)%Z else (Zpos m, 2 ^ (- e))%Z.

Definition scale10 (a b k : Z) : Z * Z :=
  if (0 <=? k)%Z then (a * 10 ^ k, b)%Z else (a, b * 10 ^ (- k))%Z.

(** The least [n] with [x < 10^n], searched from a lower estimate. *)
Fixpoint dec_exponent (fuel : nat) (a b n : Z) : Z :=
  match fuel with
  | O => n
  | S f =>
      let '(a', b') := scale10 a b (- n) in
      if (a' <? b')%Z then n else dec_exponent f a b (n + 1)
  end.

(** The [k]-digit decimals around [x]: those that read back as [x], the
    closest first, an even one on a tie. *)
Definition candidates (x : num) (a b n k : Z) : option Z :=
  let '(a', b') := scale10 a b (k - n) in
  let lo := (a' / b')%Z in
  let hi := (lo + 1)%Z in
  let ok z := num_of_dec false z (n - k) ==? x in
  let r2 := (2 * (a' - lo * b'))%Z in
  let closer_lo := ((r2 <? b') || ((r2 =? b') && Z.even lo))%Z in
  if ok lo && (closer_lo || negb (ok hi)) then Some lo
  else if ok hi then Some hi else None.

Fixpoint shortest (x : num) (a b n : Z) (fuel : nat) (k : Z) : Z * Z :=
  match fuel with
  | O => (k, (let '(a', b') := scale10 a b (k - n) in a' / b')%Z)
  | S f =>
      match candidates x a b n k with
      | Some z => (k, z)
      | None => shortest x a b n f (k + 1)
      end
  end.

Definition zeros (n : Z) : jstr := repeat 48%N (Z.to_nat n).

Fixpoint strip_zeros (rds : jstr) : jstr :=
  match rds with
  | c :: t => if (c =? 48)%N then strip_zeros t else rds
  | [] => []
  end.

(** Number::toString with digits [ds] ([k] of them) and [x = 0.ds * 10^n]. *)
Definition layout (ds : jstr) (n : Z) : jstr :=
  let k := Z.of_nat (length ds) in
  if ((k <=? n) && (n <=? 21))%Z then ds ++ zeros (n - k)
  else if ((0 <? n) && (n <=? 21))%Z then
    take (Z.to_nat n) ds ++ "." ++ drop (Z.to_nat n) ds
  else if ((-6 <? n) && (n <=? 0))%Z then "0." ++ zeros (- n) ++ ds
  else
    let e := (n - 1)%Z in
    let es := (if (e <? 0)%Z then "-" else "+") ++ Z_digits (Z.abs e) in
    match ds with
    | [d] => d :: "e" ++ es
    | d :: t => d :: "." ++ t ++ "e" ++ es
    | [] => []
    end.

Definition pos_to_string (m : positive) (e : Z) : jstr :=
  let '(a, b) := frac_of m e in
  let est := ((Zpos (digits2_pos m) + e) * 30103 / 100000 - 1)%Z in
  let n := dec_exponent 4 a b est in
  let '(k, z) := shortest (S754_finite false m e) a b n 17 1 in
  let ds := Z_digits z in
  layout (rev (strip_zeros (rev ds))) (n + (Z.of_nat (length ds) - k)).

(** [String(x)] *)
Definition num_to_string (x : num) : jstr :=
  match x with
  | S754_nan => "NaN"
  | S754_zero _ => "0"
  | S754_infinity s => if s then "-Infinity" else "Infinity"
  | S754_finite s m e => if s then "-" ++ pos_to_string m e else pos_to_string m e
  end.

(** [Math.floor(x)] as an integer: [None] when it is not finite. *)
Definition num_floor (x : num) : option Z :=
  match x with
  | S754_zero _ => Some 0%Z
  | S754_finite s m e =>
      let z := if s then Zneg m else Zpos m in
      Some (if (0 <=? e)%Z then z * 2 ^ e else z / 2 ^ (- e))%Z
  | S754_infinity _ | S754_nan => None
  end.

Definition pad_zeros (n : nat) (ds : jstr) : jstr := repeat 48%N (n - length ds) ++ ds.

(** [x.toFixed(f)]; from [10^21] on it is [String(x)]. *)
Definition to_fixed (f : nat) (x : num) : jstr :=
  match x with
  | S754_nan => "NaN"
  | S754_infinity s => if s then "-Infinity" else "Infinity"
  | S754_zero _ =>
      match f with O => "0" | S _ => "0." ++ repeat 48%N f end
  | S754_finite s m e =>
      let '(a, b) := frac_of m e in
      if (10 ^ 21 * b <=? a)%Z then num_to_string x else
      let n := ((2 * (a * 10 ^ Z.of_nat f) + b) / (2 * b))%Z in
      let ds := pad_zeros (S f) (Z_digits n) in
      let body :=
        match f with
        | O => ds
        | S _ => take (length ds - f) ds ++ "." ++ drop (length ds - f) ds
        end in
      if s then "-" ++ body else body
  end.

Example to_fixed_1 : to_fixed 2 (num_of_string "0.34") = "0.34". Proof. vm_compute. reflexivity. Qed.
Example to_fixed_2 : to_fixed 1 (num_of_string "1.45") = "1.4". Proof. vm_compute. reflexivity. Qed.
Example to_fixed_3 : to_fixed 2 (num_of_string "-12.005") = "-12.01". Proof. vm_compute. reflexivity. Qed.

(** [Math.round(x)]: ties go up, and what rounds to zero keeps its sign. *)
Definition math_round (x : num) : num :=
  match x with
  | S754_finite s m e =>
      if (0 <=? e)%Z then x
      else
        let z := if s then Zneg m else Zpos m in
        let r := ((2 * z + 2 ^ (- e)) / 2 ^ (1 - e))%Z in
        if (r =? 0)%Z then S754_zero s else num_of_Z r
  | _ => x
  end.

(** [Math.max(a, b)] *)
Definition math_max (a b : num) : num :=
  if is_nan a || is_nan b then nan else if nlt a b then b else a.

(** A number whose text reads back as itself. *)
Definition num_roundtrips (x : num) : bool := num_of_string (num_to_string x) ==? x.

(** ** Concrete checks of the conversions *)

Example num_text_1 :
  map (fun s => num_to_string (num_of_string s))
    ["0.1"; "1e21"; "123456789012345680000"; "5e-324"; "1.7976931348623157e308";
     "0.000001"; "1e-7"; " 42 "; "-1.50"; "0x1F"; "1e400"; "abc"; ".5"; "5."]
  = ["0.1"; "1e+21"; "123456789012345680000"; "5e-324"; "1.7976931348623157e+308";
     "0.000001"; "1e-7"; "42"; "-1.5"; "31"; "Infinity"; "NaN"; "0.5"; "5"].
Proof. vm_compute. reflexivity. Qed.

Example num_text_2 :
  num_to_string (nadd (num_of_string "0.1") (num_of_string "0.2")) = "0.30000000000000004".
Proof. vm_compute. reflexivity. Qed.

(** ** Order *)

Lemma nlt_Lt a b : nlt a b = true <-> SFcompare a b = Some Lt.
Proof. unfold nlt, SFltb. destruct (SFcompare a b) as [[]|]; naive_solver. Qed.

Lemma nle_cases a b : nle a b = true <-> SFcompare a b = Some Lt \/ SFcompare a b = Some Eq.
Proof. unfold nle, SFleb. destruct (SFcompare a b) as [[]|]; naive_solver. Qed.

(** The position of a number in the order: sign class, exponent, mantissa. *)
Definition num_key (x : num) : option (Z * Z * Z) :=
  match x with
  | S754_nan => None
  | S754_infinity s => Some (if s then (-2, 0, 0)%Z else (2, 0, 0)%Z)
  | S754_zero _ => Some (0, 0, 0)%Z
  | S754_finite s m e => Some (if s then (-1, - e, - Zpos m)%Z else (1, e, Zpos m)%Z)
  end.

Definition key_lt (a b : Z * Z * Z) : Prop :=
  (a.1.1 < b.1.1 \/ a.1.1 = b.1.1 /\ (a.1.2 < b.1.2 \/ a.1.2 = b.1.2 /\ a.2 < b.2))%Z.

Ltac key_side :=
  split; (split; (let H := fresh in intros H;
    first [discriminate H | done | lia | exfalso; lia | exfalso; injection H; lia])).

Lemma SFcompare_key a b :
  match num_key a, num_key b with
  | Some ka, Some kb =>
      (SFcompare a b = Some Lt <-> key_lt ka kb) /\ (SFcompare a b = Some Eq <-> ka = kb)
  | _, _ => SFcompare a b = None
  end.
Proof.
  unfold key_lt. destruct a as [sa|sa| |sa ma ea], b as [sb|sb| |sb mb eb];
    try destruct sa; try destruct sb; cbn; try done; try key_side.
  all: destruct (Z.compare_spec ea eb); subst; try key_side.
  all: change (Pos.compare_cont Eq ma mb) with (Pos.compare ma mb).
  all: destruct (Pos.compare_spec ma mb); subst; cbn; key_side.
Qed.

Lemma nlt_key a b :
  nlt a b = true <-> exists ka kb, num_key a = Some ka /\ num_key b = Some kb /\ key_lt ka kb.
Proof.
  rewrite nlt_Lt. pose proof (SFcompare_key a b) as H.
  destruct (num_key a) as [ka|], (num_key b) as [kb|]; [destruct H; naive_solver|..]; rewrite H;
    naive_solver.
Qed.

Lemma nle_key a b :
  nle a b = true
  <-> exists ka kb, num_key a = Some ka /\ num_key b = Some kb /\ (key_lt ka kb \/ ka = kb).
Proof.
  rewrite nle_cases. pose proof (SFcompare_key a b) as H.
  destruct (num_key a) as [ka|], (num_key b) as [kb|]; [destruct H; naive_solver|..]; rewrite H;
    naive_solver.
Qed.

Lemma nle_nlt_trans a b c : nle a b = true -> nlt b c = true -> nlt a c = true.
Proof.
  rewrite nle_key, !nlt_key. intros (ka & kb & Ha & Hb & H1) (kb' & kc & Hb' & Hc & H2).
  simplify_eq. exists ka, kc. split_and!; [done..|].
  destruct H1 as [H1| ->]; [|done]. unfold key_lt in *. lia.
Qed.

Lemma nle_negb_nlt a b : is_finite a = true -> is_finite b = true -> nle a b = negb (nlt b a).
Proof.
  intros Ha Hb. apply eq_true_iff_eq. rewrite negb_true_iff, <- not_true_iff_false, nle_key, nlt_key.
  assert (forall x, is_finite x = true -> exists k, num_key x = Some k) as Hk.
  { intros [] H; try done; eexists; reflexivity. }
  destruct (Hk a Ha) as [[[a1 a2] a3] Ea], (Hk b Hb) as [[[b1 b2] b3] Eb]. rewrite Ea, Eb. clear.
  unfold key_lt. cbn. split.
  - intros (ka & kb & [= <-] & [= <-] & H) (kb' & ka' & [= <-] & [= <-] & H'). cbn in *.
    destruct H as [H|[= -> -> ->]]; lia.
  - intros H. do 2 eexists. split_and!; [done|done|]. cbn.
    assert (~ ((b1 < a1)%Z \/ b1 = a1 /\ ((b2 < a2)%Z \/ b2 = a2 /\ (b3 < a3)%Z))) as Hn.
    { intros Hc. apply H. do 2 eexists. split_and!; [done|done|exact Hc]. }
    destruct (decide ((a1, a2, a3) = (b1, b2, b3))) as [E|E]; [by right|left].
    assert (a1 <> b1 \/ a2 <> b2 \/ a3 <> b3)%Z.
    { destruct (decide (a1 = b1)) as [->|]; [|by left]. destruct (decide (a2 = b2)) as [->|]; [|by right; left].
      right; right. intros ->. by apply E. }
    lia.
Qed.

(** ** [Number.parseFloat(s)]: the longest decimal literal at the start *)
Definition parse_float (s : jstr) : num :=
  let t := trimStart s in
  let '(neg, body) :=
    match t with
    | c :: u => if (c =? 45)%N then (true, u) else if (c =? 43)%N then (false, u) else (false, t)
    | [] => (false, t)
    end in
  if startsWith body "Infinity" then S754_infinity neg
  else
    let '(ip, rest) := span is_digit body in
    let '(fp, rest') :=
      match rest with
      | c :: u => if (c =? 46)%N then span is_digit u else ([], rest)
      | [] => ([], [])
      end in
    match ip ++ fp with
    | [] => nan
    | ds =>
        let e := match parse_exponent rest' with Some (e, _) => e | None => 0%Z end in
        num_of_dec neg (digits_val ds) (e - Z.of_nat (length fp))
    end.

Example parse_float_ex :
  map (fun s => num_to_string (parse_float s)) ["1.5"; " 2x"; "3e"; "-.5e1 "; "."; "1e400"; "0x10"; "1_000"]
  = ["1.5"; "2"; "3"; "-5"; "NaN"; "Infinity"; "0"; "1"].
Proof. vm_compute. reflexivity. Qed.

(** [Number.isInteger(n)] *)
Definition is_integer (n : num) : bool :=
  match num_floor n with Some z => neq (num_of_Z z) n | None => false end.
