(* ===== verification/NumberOrder.v ===== *)
(** * The sign of a difference

    Comparators of the source return [a - b]. On finite numbers the sign of that
    difference is the order of [a] and [b]: the subtraction rounds, but binary64 keeps
    enough small numbers for a difference never to round to zero. *)
From S2P Require Import Prelude JsNumber.

(** What [JSON.parse] and arithmetic produce: a mantissa in its normal form. *)
Abbreviation valid := (valid_binary 53 1024).

(** ** Rounding keeps the sign *)

Lemma digits_bounds m : (2 ^ (Zpos (digits2_pos m) - 1) <= Zpos m < 2 ^ Zpos (digits2_pos m))%Z.
Proof.
  induction m as [m IH|m IH|]; cbn [digits2_pos]; [| |done].
  all: rewrite Pos2Z.inj_succ; replace (Z.succ (Zpos (digits2_pos m)) - 1)%Z with (Zpos (digits2_pos m)) by lia.
  all: rewrite Z.pow_succ_r by lia.
  all: replace (Zpos (digits2_pos m)) with (Z.succ (Zpos (digits2_pos m) - 1)) at 1 by lia.
  all: rewrite Z.pow_succ_r by lia; lia.
Qed.

Lemma shr_1_half r : (0 <= shr_m r)%Z -> shr_m (shr_1 r) = (shr_m r / 2)%Z.
Proof.
  destruct r as [m x y]. cbn [shr_m]. intros Hm. rewrite <- Z.div2_div.
  destruct m as [|[p|p|]|p]; [reflexivity..|lia].
Qed.

Lemma shr_iter p : forall r, (0 <= shr_m r)%Z -> shr_m (iter_pos shr_1 p r) = (shr_m r / 2 ^ Zpos p)%Z.
Proof.
  assert (forall m, (0 <= m)%Z -> forall q, (0 <= m / 2 ^ Zpos q)%Z) as Hpos.
  { intros m Hm q. apply Z.div_pos; lia. }
  induction p as [p IH|p IH|]; intros r Hr; cbn [iter_pos].
  - assert (0 <= shr_m (shr_1 r))%Z by (rewrite shr_1_half by done; apply Z.div_pos; lia).
    rewrite !IH; [|done|rewrite IH by done; by apply Hpos].
    rewrite shr_1_half by done. rewrite !Z.div_div by lia. f_equal.
    replace (Zpos p~1) with (1 + Zpos p + Zpos p)%Z by lia. rewrite !Z.pow_add_r by lia. ring.
  - rewrite !IH; [|done|rewrite IH by done; by apply Hpos].
    rewrite Z.div_div by lia. f_equal.
    replace (Zpos p~0) with (Zpos p + Zpos p)%Z by lia. rewrite Z.pow_add_r by lia. ring.
  - by rewrite shr_1_half.
Qed.

(** A shift to 53 digits leaves some of them. *)
Lemma shr_fexp_pos m e l : (0 < m)%Z -> (-1074 <= e)%Z ->
  (0 < shr_m (fst (shr_fexp 53 1024 m e l)))%Z /\ (-1074 <= snd (shr_fexp 53 1024 m e l))%Z.
Proof.
  intros Hm He. unfold shr_fexp, shr, fexp, emin.
  assert (shr_m (shr_record_of_loc m l) = m) as Em by (by destruct l as [|[]]).
  destruct m as [|m|m]; [lia| |lia]. cbn [Zdigits2].
  pose proof (digits_bounds m) as [Hlo _]. set (d := Zpos (digits2_pos m)) in *.
  destruct (_ - e)%Z as [|n|n] eqn:En; cbn [fst snd]; [lia| |lia].
  split; [|lia]. rewrite shr_iter by lia. rewrite Em.
  assert (Zpos n = d - 53)%Z as -> by lia. apply Z.div_str_pos. split; [lia|].
  etransitivity; [|exact Hlo]. apply Z.pow_le_mono_r; lia.
Qed.

(** A number that is not zero, of the sign [s]. *)
Definition signed (s : bool) (x : num) : Prop :=
  match x with S754_finite s' _ _ | S754_infinity s' => s' = s | _ => False end.

Lemma round_signed s m e l : (-1074 <= e)%Z -> signed s (binary_round_aux 53 1024 s (Zpos m) e l).
Proof.
  intros He. unfold binary_round_aux.
  destruct (shr_fexp_pos (Zpos m) e l) as [H1 H2]; [lia|done|].
  destruct (shr_fexp 53 1024 (Zpos m) e l) as [r1 e1]. cbn [fst snd] in *.
  set (m2 := round_nearest_even _ _).
  assert (0 < m2)%Z as Hm2.
  { subst m2. destruct (loc_of_shr_record r1) as [|[]]; cbn; try lia. destruct (Z.even _); lia. }
  destruct (shr_fexp_pos m2 e1 loc_Exact) as [H3 H4]; [done|done|].
  destruct (shr_fexp 53 1024 m2 e1 loc_Exact) as [r2 e2]. cbn [fst snd] in *.
  destruct (shr_m r2) as [|k|k]; [lia| |lia]. by destruct (e2 <=? _)%Z.
Qed.

Lemma binary_round_signed s m e : (-1074 <= e)%Z -> signed s (binary_round 53 1024 s m e).
Proof.
  intros He. unfold binary_round, shl_align.
  destruct (_ - e)%Z as [|n|n] eqn:En; apply round_signed; try done. unfold fexp, emin in *. lia.
Qed.

(** The sign of an exact value. *)
Lemma normalize_sign z e : (-1074 <= e)%Z ->
  SFcompare (binary_normalize 53 1024 z e false) nzero = Some (z ?= 0)%Z.
Proof.
  intros He. destruct z as [|m|m]; cbn [binary_normalize]; [done| |].
  - pose proof (binary_round_signed false m e He) as H. destruct (binary_round _ _ _ _ _); cbn in *; by subst.
  - pose proof (binary_round_signed true m e He) as H. destruct (binary_round _ _ _ _ _); cbn in *; by subst.
Qed.

(** ** The order of mantissas at different exponents *)

Lemma aligned m e e' : (e' <= e)%Z -> Zpos (fst (shl_align m e e')) = (Zpos m * 2 ^ (e - e'))%Z.
Proof.
  intros He. unfold shl_align. destruct (e' - e)%Z as [|n|n] eqn:En; cbn [fst]; [|lia|].
  - replace (e - e')%Z with 0%Z by lia. lia.
  - replace (e - e')%Z with (Zpos n) by lia.
    clear. induction n as [|n IH] using Pos.peano_ind; [cbn; lia|].
    rewrite Pos.iter_succ, Pos2Z.inj_succ, Z.pow_succ_r by lia.
    rewrite (Pos2Z.inj_xO). lia.
Qed.

Lemma larger_exponent m1 e1 m2 e2 : bounded 53 1024 m1 e1 = true -> bounded 53 1024 m2 e2 = true ->
  (e1 < e2)%Z -> (Zpos m1 < Zpos m2 * 2 ^ (e2 - e1))%Z.
Proof.
  unfold bounded, canonical_mantissa, fexp, emin. intros [H1 _]%andb_true_iff [H2 _]%andb_true_iff He.
  apply Z.eqb_eq in H1, H2. pose proof (digits_bounds m1) as [_ Hm1]. pose proof (digits_bounds m2) as [Hm2 _].
  assert (Zpos (digits2_pos m2) = 53)%Z as E2 by lia. rewrite E2 in Hm2.
  assert (Zpos m1 < 2 ^ 53)%Z by (eapply Z.lt_le_trans; [exact Hm1|apply Z.pow_le_mono_r; lia]).
  assert (2 ^ 1 <= 2 ^ (e2 - e1))%Z by (apply Z.pow_le_mono_r; lia). nia.
Qed.

Lemma exponent_low m e : bounded 53 1024 m e = true -> (-1074 <= e)%Z.
Proof. unfold bounded, canonical_mantissa, fexp, emin. intros [H _]%andb_true_iff. apply Z.eqb_eq in H. lia. Qed.

(** The exact values of two mantissas, at their common exponent. *)
Lemma aligned_compare m1 e1 m2 e2 : bounded 53 1024 m1 e1 = true -> bounded 53 1024 m2 e2 = true ->
  let ez := Z.min e1 e2 in
  (Zpos (fst (shl_align m1 e1 ez)) ?= Zpos (fst (shl_align m2 e2 ez)))%Z
  = match (e1 ?= e2)%Z with Eq => Pos.compare_cont Eq m1 m2 | c => c end.
Proof.
  intros H1 H2 ez. rewrite !aligned by lia. subst ez. destruct (Z.compare_spec e1 e2) as [->|He|He].
  - by rewrite Z.min_id, Z.sub_diag, !Z.mul_1_r.
  - rewrite Z.min_l by lia. rewrite Z.sub_diag, Z.mul_1_r. apply Z.compare_lt_iff. by apply larger_exponent.
  - rewrite Z.min_r by lia. rewrite Z.sub_diag, Z.mul_1_r. apply Z.compare_gt_iff. by apply larger_exponent.
Qed.

(** [a - b] has the sign of the comparison of [a] with [b]. *)
Lemma nsub_sign a b : is_finite a = true -> is_finite b = true -> valid a = true -> valid b = true ->
  SFcompare (nsub a b) nzero = SFcompare a b.
Proof.
  destruct a as [sa|sa| |sa ma ea], b as [sb|sb| |sb mb eb]; try done; intros _ _ Ha Hb.
  - by destruct sa, sb.
  - by destruct sb.
  - cbn in Ha, Hb. pose proof (exponent_low _ _ Ha). pose proof (exponent_low _ _ Hb).
    unfold nsub, SFsub. rewrite normalize_sign by lia.
    pose proof (aligned_compare ma ea mb eb Ha Hb) as Hc. cbn zeta in Hc.
    set (x := fst (shl_align ma ea _)) in *. set (y := fst (shl_align mb eb _)) in *.
    rewrite <- Z.compare_sub. cbn [SFcompare]. f_equal. destruct sa, sb; cbn [cond_Zopp].
    + rewrite Z.compare_opp. rewrite (Z.compare_antisym (Zpos x)), Hc. by destruct (ea ?= eb)%Z.
    + done.
    + done.
    + rewrite Hc. by destruct (ea ?= eb)%Z.
Qed.

Lemma nle_trans a b c : nle a b = true -> nle b c = true -> nle a c = true.
Proof.
  rewrite !nle_key. intros (ka & kb & Ha & Hb & H1) (kb' & kc & Hb' & Hc & H2). simplify_eq.
  exists ka, kc. split_and!; [done..|]. destruct H1 as [H1| ->]; [|done].
  left. destruct H2 as [H2| <-]; [|done]. unfold key_lt in *. lia.
Qed.
