(* ===== verification/Numeric.v ===== *)
(** * Arithmetic interface

    The operations the aggregations perform on [number]s, as a class with the binary64
    instance a browser computes with, and the one law of addition the conservation
    theorems need: whole numbers are added exactly as long as they stay small enough.
    Rounded sums obey no other law; in particular their addition is not associative. *)
From S2P Require Import Prelude JsString JsNumber NumberOrder.

Class Numeric (A : Type) := {
  n_zero : A;
  n_add : A -> A -> A;
  n_div : A -> A -> A;
  (** [a < b] *)
  n_lt : A -> A -> bool;
  (** The sign of [a - b], [Eq] when the difference is [NaN]. *)
  n_cmp : A -> A -> comparison;
  n_of : num -> A
}.

Class ExactSums (A : Type) `{Numeric A} := {
  whole : N -> A;
  count_of : A -> N;
  exact_max : N;
  whole_0 : whole 0 = n_zero;
  whole_add : forall a b, (a + b <= exact_max)%N -> n_add (whole a) (whole b) = whole (a + b)
}.

(** ** Sums *)

(** [let s = 0; for (const a of l) s += a] *)
Definition n_sum {A} `{Numeric A} (l : list A) : A := fold_left n_add l n_zero.

Fixpoint total (l : list N) : N :=
  match l with
  | [] => 0
  | n :: l => n + total l
  end.

Lemma total_app l k : total (l ++ k) = (total l + total k)%N.
Proof. induction l as [|a l IH]; cbn; [done|]. rewrite IH. lia. Qed.

Lemma total_perm l k : l ≡ₚ k -> total l = total k.
Proof. induction 1; cbn; lia. Qed.

Lemma total_map_add {B} (f g : B -> N) l :
  total (map (fun x => f x + g x)%N l) = (total (map f l) + total (map g l))%N.
Proof. induction l as [|x l IH]; cbn; [done|]. rewrite IH. lia. Qed.

Lemma total_filter {B} (p : B -> bool) (f : B -> N) l :
  total (map f (List.filter p l)) = total (map (fun x => if p x then f x else 0%N) l).
Proof. induction l as [|x l IH]; cbn; [done|]. destruct (p x); cbn; by rewrite IH. Qed.

Lemma total_le {B} (f g : B -> N) l : (forall x, x ∈ l -> (f x <= g x)%N) ->
  (total (map f l) <= total (map g l))%N.
Proof.
  induction l as [|x l IH]; intros Hl; [done|]. cbn. specialize (Hl x (list_elem_of_here _ _)) as Hx.
  assert (total (map f l) <= total (map g l))%N by (apply IH; intros y Hy; apply Hl; by right). lia.
Qed.

Lemma total_elem {B} (f : B -> N) l x : x ∈ l -> (f x <= total (map f l))%N.
Proof. induction 1 as [x l|x y l _ IH]; cbn; lia. Qed.

(** A loop adds whole numbers exactly. *)
Lemma n_sum_whole {A X} `{ExactSums A} (value : X -> A) (count : X -> N) l :
  (forall x, x ∈ l -> value x = whole (count x)) -> (total (map count l) <= exact_max)%N ->
  n_sum (map value l) = whole (total (map count l)).
Proof.
  unfold n_sum. rewrite <- whole_0. intros Hv.
  enough (forall n, (n + total (map count l) <= exact_max)%N ->
    fold_left n_add (map value l) (whole n) = whole (n + total (map count l))) as Hg by apply (Hg 0%N).
  induction l as [|x l IH]; intros n Hn; cbn in *; [by rewrite N.add_0_r|].
  rewrite (Hv x), whole_add by (lia || left). rewrite IH; [f_equal; lia| |lia].
  intros y Hy. apply Hv. by right.
Qed.

(** ** Binary64 *)

#[export] Instance num_numeric : Numeric num := {
  n_zero := nzero;
  n_add := nadd;
  n_div := ndiv;
  n_lt := nlt;
  n_cmp a b := match SFcompare a b with Some c => c | None => Eq end;
  n_of x := x
}.

(** A shift by zeros loses nothing. *)
Lemma shr_exact p : forall m, (0 <= m)%Z ->
  iter_pos shr_1 p {| shr_m := (m * 2 ^ Zpos p)%Z; shr_r := false; shr_s := false |}
  = {| shr_m := m; shr_r := false; shr_s := false |}.
Proof.
  induction p as [p IH|p IH|]; intros m Hm; cbn [iter_pos].
  - assert (m * 2 ^ Zpos p~1 = 2 * (m * 2 ^ Zpos p * 2 ^ Zpos p))%Z as ->.
    { replace (Zpos p~1) with (1 + Zpos p + Zpos p)%Z by lia. rewrite !Z.pow_add_r by lia. ring. }
    assert (forall x, (0 <= x)%Z -> shr_1 {| shr_m := 2 * x; shr_r := false; shr_s := false |}
      = {| shr_m := x; shr_r := false; shr_s := false |}) as E by (intros [|x|x] Hx; [done|done|lia]).
    rewrite E by nia. rewrite IH by nia. by apply IH.
  - assert (m * 2 ^ Zpos p~0 = m * 2 ^ Zpos p * 2 ^ Zpos p)%Z as ->.
    { replace (Zpos p~0) with (Zpos p + Zpos p)%Z by lia. rewrite !Z.pow_add_r by lia. ring. }
    rewrite IH by nia. by apply IH.
  - destruct m as [|m|m]; [done| |lia]. by rewrite (Z.mul_comm (Zpos m)).
Qed.

Lemma digits_unique p d : (2 ^ (d - 1) <= Zpos p < 2 ^ d)%Z -> (0 < d)%Z -> Zpos (digits2_pos p) = d.
Proof.
  intros [H1 H2] Hd. pose proof (digits_bounds p) as [H3 H4].
  assert (d - 1 < Zpos (digits2_pos p))%Z by (apply (Z.pow_lt_mono_r_iff 2); lia).
  assert (Zpos (digits2_pos p) - 1 < d)%Z by (apply (Z.pow_lt_mono_r_iff 2); lia). lia.
Qed.

Lemma digits_shift m p k : Zpos m = (Zpos p * 2 ^ k)%Z -> (0 <= k)%Z ->
  Zpos (digits2_pos m) = (Zpos (digits2_pos p) + k)%Z.
Proof.
  intros Hm Hk. pose proof (digits_bounds p) as [H1 H2]. apply digits_unique; [|lia]. rewrite Hm.
  replace (Zpos (digits2_pos p) + k - 1)%Z with (Zpos (digits2_pos p) - 1 + k)%Z by lia.
  rewrite !Z.pow_add_r by lia. pose proof (Z.pow_pos_nonneg 2 k). nia.
Qed.

(** A number of 53 digits, followed by zeros, is rounded to itself. *)
Lemma shr_fexp_exact m e M k :
  Zpos m = (Zpos M * 2 ^ k)%Z -> Zpos (digits2_pos M) = 53%Z -> (0 <= k)%Z -> (-1074 <= e + k)%Z ->
  shr_fexp 53 1024 (Zpos m) e loc_Exact = ({| shr_m := Zpos M; shr_r := false; shr_s := false |}, e + k)%Z.
Proof.
  intros Hm Hd Hk He. pose proof (digits_shift m M k Hm Hk) as Hdm. unfold shr_fexp, shr, fexp, emin.
  cbn [Zdigits2 shr_record_of_loc]. replace (Z.max _ _ - e)%Z with k by lia. rewrite Hm.
  destruct k as [|k|k]; [by rewrite Z.mul_1_r, Z.add_0_r| |lia]. by rewrite shr_exact.
Qed.

Lemma round_aux_exact m e M k :
  Zpos m = (Zpos M * 2 ^ k)%Z -> Zpos (digits2_pos M) = 53%Z -> (0 <= k)%Z -> (-1074 <= e + k <= 971)%Z ->
  binary_round_aux 53 1024 false (Zpos m) e loc_Exact = S754_finite false M (e + k).
Proof.
  intros Hm Hd Hk He. unfold binary_round_aux. rewrite (shr_fexp_exact m e M k) by lia.
  cbn [loc_of_shr_record shr_m round_nearest_even].
  rewrite (shr_fexp_exact M (e + k) M 0) by lia. cbn [shr_m]. rewrite Z.add_0_r.
  by rewrite (proj2 (Z.leb_le (e + k) (1024 - 53))) by lia.
Qed.

(** The whole number [p], of at most 53 digits, in normal form. *)
Definition canonical (p : positive) : num :=
  let d := Zpos (digits2_pos p) in S754_finite false (Z.to_pos (Zpos p * 2 ^ (53 - d))) (d - 53).

Lemma round_canonical m p k :
  Zpos m = (Zpos p * 2 ^ k)%Z -> (0 <= k <= 1000)%Z -> (Zpos p < 2 ^ 53)%Z ->
  binary_round 53 1024 false m (- k) = canonical p.
Proof.
  intros Hm Hk Hp. pose proof (digits_shift m p k Hm ltac:(lia)) as Hdm.
  assert (Zpos (digits2_pos p) <= 53)%Z as Hd.
  { pose proof (digits_bounds p) as [H1 _]. assert (Zpos (digits2_pos p) - 1 < 53)%Z; [|lia].
    apply (Z.pow_lt_mono_r_iff 2); lia. }
  unfold canonical. cbv zeta. set (d := Zpos (digits2_pos p)) in *.
  set (M := Z.to_pos (Zpos p * 2 ^ (53 - d))).
  assert (Zpos M = (Zpos p * 2 ^ (53 - d))%Z) as HM.
  { unfold M. pose proof (Z.pow_pos_nonneg 2 (53 - d)). rewrite Z2Pos.id; nia. }
  assert (Zpos (digits2_pos M) = 53%Z) as HdM by (rewrite (digits_shift M p (53 - d)) by lia; lia).
  unfold binary_round. replace (fexp 53 1024 (Zpos (digits2_pos m) + - k)) with (d - 53)%Z
    by (unfold fexp, emin; lia).
  destruct (Z.lt_ge_cases (d - 53) (- k)) as [Hlt|Hge].
  - pose proof (aligned m (- k) (d - 53) ltac:(lia)) as Ha. unfold shl_align in *.
    destruct (d - 53 - - k)%Z as [|n|n] eqn:En; [lia|lia|]. cbn [fst] in Ha.
    rewrite (round_aux_exact _ _ M 0); [f_equal; lia| |done|lia|lia].
    rewrite Ha, Hm, HM, Z.mul_1_r, <- Z.mul_assoc, <- Z.pow_add_r by lia. do 2 f_equal. lia.
  - unfold shl_align. destruct (d - 53 - - k)%Z as [|n|n] eqn:En; [| |lia].
    all: rewrite (round_aux_exact _ _ M (d - 53 + k)); [f_equal; lia| |done|lia|lia].
    all: rewrite Hm, HM, <- Z.mul_assoc, <- Z.pow_add_r by lia; do 2 f_equal; lia.
Qed.

Lemma num_of_pos p : (Zpos p < 2 ^ 53)%Z -> num_of_Z (Zpos p) = canonical p.
Proof. intros Hp. apply (round_canonical p p 0); lia. Qed.

Lemma nadd_canonical p q : (Zpos p + Zpos q < 2 ^ 53)%Z -> nadd (canonical p) (canonical q) = canonical (p + q).
Proof.
  intros Hpq.
  assert (forall x, (Zpos x < 2 ^ 53)%Z -> (1 <= Zpos (digits2_pos x) <= 53)%Z) as Hdig.
  { intros x Hx. pose proof (digits_bounds x) as [H1 _].
    assert (Zpos (digits2_pos x) - 1 < 53)%Z; [|lia]. apply (Z.pow_lt_mono_r_iff 2); lia. }
  pose proof (Hdig p ltac:(lia)) as Hp. pose proof (Hdig q ltac:(lia)) as Hq. clear Hdig.
  unfold canonical at 1 2. cbv zeta. unfold nadd, SFadd. cbn [cond_Zopp].
  set (dp := Zpos (digits2_pos p)) in *. set (dq := Zpos (digits2_pos q)) in *.
  set (ez := Z.min (dp - 53) (dq - 53)).
  assert (forall x d, (1 <= d <= 53)%Z -> (ez <= d - 53)%Z ->
    Zpos (fst (shl_align (Z.to_pos (Zpos x * 2 ^ (53 - d))) (d - 53) ez)) = (Zpos x * 2 ^ (- ez))%Z) as Ha.
  { intros x d Hd He. rewrite aligned by lia. pose proof (Z.pow_pos_nonneg 2 (53 - d)).
    rewrite Z2Pos.id by nia. rewrite <- Z.mul_assoc, <- Z.pow_add_r by lia. do 2 f_equal. lia. }
  rewrite !Ha by lia. rewrite <- Z.mul_add_distr_r.
  change (Zpos p + Zpos q)%Z with (Zpos (p + q)).
  destruct (Zpos (p + q) * 2 ^ (- ez))%Z as [|m|m] eqn:Em; [pose proof (Z.pow_pos_nonneg 2 (- ez)); lia| |
    pose proof (Z.pow_pos_nonneg 2 (- ez)); lia].
  cbn [binary_normalize]. replace ez with (- - ez)%Z by lia. apply round_canonical; lia.
Qed.

(** Whole numbers below 2^53 are added exactly. *)
#[export] Program Instance num_exact : ExactSums num := {
  whole n := num_of_Z (Z.of_N n);
  count_of x := match num_floor x with Some z => Z.to_N z | None => 0%N end;
  exact_max := 2 ^ 53 - 1
}.
Next Obligation. done. Qed.
Next Obligation.
  intros [|p] [|q] Hab; [done| | |].
  - change (0 + N.pos q)%N with (N.pos q). cbn [Z.of_N]. by rewrite num_of_pos by lia.
  - change (N.pos p + 0)%N with (N.pos p). cbn [Z.of_N]. by rewrite num_of_pos by lia.
  - change (N.pos p + N.pos q)%N with (N.pos (p + q)). cbn [Z.of_N]. rewrite !num_of_pos by lia.
    apply nadd_canonical. lia.
Qed.

(** ** Sums of numbers that are not negative *)

Lemma round_aux_nonneg z e l : (0 <= z)%Z -> nle nzero (binary_round_aux 53 1024 false z e l) = true.
Proof.
  assert (forall z e l, (0 <= z)%Z -> (0 <= shr_m (fst (shr_fexp 53 1024 z e l)))%Z) as Hs.
  { clear. intros z e l Hz. unfold shr_fexp, shr.
    assert (shr_m (shr_record_of_loc z l) = z) as E by (by destruct l as [|[]]).
    destruct (_ - e)%Z as [|n|n]; cbn [fst]; [lia| |lia]. rewrite shr_iter by lia. apply Z.div_pos; lia. }
  intros Hz. unfold binary_round_aux. specialize (Hs z e l Hz) as H1.
  destruct (shr_fexp 53 1024 z e l) as [r1 e1]. cbn [fst] in H1. set (m := round_nearest_even _ _).
  assert (0 <= m)%Z as Hm.
  { subst m. destruct (loc_of_shr_record r1) as [|[]]; cbn; try lia. destruct (Z.even _); lia. }
  specialize (Hs m e1 loc_Exact Hm). destruct (shr_fexp 53 1024 m e1 loc_Exact) as [r2 e2]. cbn [fst] in Hs.
  destruct (shr_m r2); [done| |lia]. by destruct (e2 <=? _)%Z.
Qed.

Lemma round_nonneg m e : nle nzero (binary_round 53 1024 false m e) = true.
Proof. unfold binary_round. destruct (shl_align m e _) as [m' e']. by apply round_aux_nonneg. Qed.

Lemma nadd_nonneg a b : nle nzero a = true -> nle nzero b = true -> nle nzero (nadd a b) = true.
Proof.
  assert (forall x, nle nzero x = true -> match x with
    | S754_nan | S754_infinity true | S754_finite true _ _ => False | _ => True end) as Hx.
  { by intros [s|[]| |[] m e]. }
  intros Ha Hb. specialize (Hx a Ha) as Ha'. specialize (Hx b Hb) as Hb'. clear Hx.
  destruct a as [sa|[]| |[] ma ea], b as [sb|[]| |[] mb eb]; try done.
  - by destruct sa, sb.
  - unfold nadd, SFadd. cbn [cond_Zopp Z.add binary_normalize]. apply round_nonneg.
Qed.

Lemma n_sum_nonneg l : Forall (fun x => nle nzero x = true) l -> nle nzero (n_sum l) = true.
Proof.
  unfold n_sum. intros Hl.
  enough (forall s, nle nzero s = true -> nle nzero (fold_left n_add l s) = true) as Hg by by apply Hg.
  induction Hl as [|x l Hx _ IH]; intros s Hs; [done|]. by apply IH, nadd_nonneg.
Qed.
