(* ===== verification/JsValue.v ===== *)
(** * Values: the untyped data that crosses [JSON.parse] and [as] casts

    An object is the list of its own properties in enumeration order: integer
    keys first, ascending, then the other keys in insertion order.  Properties
    inherited from [Object.prototype] are not modelled. *)
From S2P Require Import Prelude JsString JsNumber.

#[warnings="-register-all"]
Inductive jsval :=
| JUndef
| JNull
| JBool (b : bool)
| JNum (n : num)
| JStr (s : jstr)
| JArr (l : list jsval)
| JObj (o : list (jstr * jsval)).

Abbreviation jsobj := (list (jstr * jsval)).

(** Induction with hypotheses for the elements of arrays and objects. *)
Definition jsval_rect' (P : jsval -> Type)
    (Q : list jsval -> Type) (R : jsobj -> Type)
    (hundef : P JUndef) (hnull : P JNull) (hbool : forall b, P (JBool b))
    (hnum : forall n, P (JNum n)) (hstr : forall s, P (JStr s))
    (harr : forall l, Q l -> P (JArr l)) (hobj : forall o, R o -> P (JObj o))
    (qnil : Q []) (qcons : forall v l, P v -> Q l -> Q (v :: l))
    (rnil : R []) (rcons : forall k v o, P v -> R o -> R ((k, v) :: o)) :
  forall v, P v :=
  fix go v :=
    match v with
    | JUndef => hundef
    | JNull => hnull
    | JBool b => hbool b
    | JNum n => hnum n
    | JStr s => hstr s
    | JArr l =>
        harr l ((fix gol l : Q l :=
                   match l with [] => qnil | v :: t => qcons v t (go v) (gol t) end) l)
    | JObj o =>
        hobj o ((fix goo o : R o :=
                   match o with [] => rnil | (k, v) :: t => rcons k v t (go v) (goo t) end) o)
    end.

Lemma jsval_ind' (P : jsval -> Prop) :
  P JUndef -> P JNull -> (forall b, P (JBool b)) -> (forall n, P (JNum n)) ->
  (forall s, P (JStr s)) -> (forall l, Forall P l -> P (JArr l)) ->
  (forall o, Forall (fun kv => P kv.2) o -> P (JObj o)) -> forall v, P v.
Proof.
  intros. apply (jsval_rect' P (Forall P) (Forall (fun kv => P kv.2))); auto.
Qed.

#[global] Instance jsval_eq_dec : EqDecision jsval.
Proof.
  refine (jsval_rect' (fun v => forall v', Decision (v = v'))
            (fun l => forall l', Decision (l = l')) (fun o => forall o', Decision (o = o'))
            _ _ _ _ _ _ _ _ _ _ _).
  - intros []; first [by left | by right].
  - intros []; first [by left | by right].
  - intros b [| |b'|n'|s'|l'|o']; try by right.
    destruct (decide (b = b')) as [->|]; [by left | right; congruence].
  - intros n [| |b'|n'|s'|l'|o']; try by right.
    destruct (decide (n = n')) as [->|]; [by left | right; congruence].
  - intros s [| |b'|n'|s'|l'|o']; try by right.
    destruct (decide (s = s')) as [->|]; [by left | right; congruence].
  - intros l IHv [| |b'|n'|s'|l'|o']; try by right.
    destruct (IHv l') as [->|]; [by left | right; congruence].
  - intros o IHv [| |b'|n'|s'|l'|o']; try by right.
    destruct (IHv o') as [->|]; [by left | right; congruence].
  - intros [|v' l']; first [by left | by right].
  - intros v l IHv IHl [|v' l']; [by right|].
    destruct (IHv v') as [->|]; [|right; congruence].
    destruct (IHl l') as [->|]; [by left | right; congruence].
  - intros [|v' l']; first [by left | by right].
  - intros k v o IHv IHo [|[k' v'] o']; [by right|].
    destruct (decide (k = k')) as [->|]; [|right; congruence].
    destruct (IHv v') as [->|]; [|right; congruence].
    destruct (IHo o') as [->|]; [by left | right; congruence].
Defined.

(** ** Objects *)

Section Objects.
Context {V : Type}.
Implicit Types o : list (jstr * V).

Fixpoint obj_get (k : jstr) o : option V :=
  match o with
  | [] => None
  | (k', v) :: t => if k ==? k' then Some v else obj_get k t
  end.

(** [Object.hasOwn(o, k)] *)
Definition obj_has (k : jstr) o : bool :=
  match obj_get k o with Some _ => true | None => false end.

Definition obj_keys o : list jstr := map fst o.
Definition obj_values o : list V := map snd o.

(** An array index in canonical form: the keys enumerated first. *)
Definition index_key (k : jstr) : option Z :=
  match k with
  | [] => None
  | c :: t =>
      if forallb is_digit k && ((c !=? 48%N) || (t ==? []))
      then let z := digits_val k in if (z <? 4294967295)%Z then Some z else None
      else None
  end.

Fixpoint obj_insert_index (z : Z) (k : jstr) (v : V) o : list (jstr * V) :=
  match o with
  | [] => [(k, v)]
  | (k', v') :: t =>
      match index_key k' with
      | Some z' =>
          if (z <? z')%Z then (k, v) :: o else (k', v') :: obj_insert_index z k v t
      | None => (k, v) :: o
      end
  end.

Fixpoint obj_replace (k : jstr) (v : V) o : list (jstr * V) :=
  match o with
  | [] => []
  | (k', v') :: t => if k ==? k' then (k', v) :: t else (k', v') :: obj_replace k v t
  end.

(** [o[k] = v], for a key other than [__proto__] *)
Definition obj_set (k : jstr) (v : V) o : list (jstr * V) :=
  if obj_has k o then obj_replace k v o
  else
    match index_key k with
    | Some z => obj_insert_index z k v o
    | None => o ++ [(k, v)]
    end.

(** [delete o[k]] *)
Definition obj_delete (k : jstr) o : list (jstr * V) :=
  List.filter (fun kv => k !=? kv.1) o.

(** [Object.fromEntries(l)], and what [JSON.parse] builds. *)
Definition obj_of_entries (l : list (jstr * V)) : list (jstr * V) :=
  fold_left (fun o kv => obj_set kv.1 kv.2 o) l [].

(** [{...a, ...b}] *)
Definition obj_spread (a b : list (jstr * V)) : list (jstr * V) :=
  fold_left (fun o kv => obj_set kv.1 kv.2 o) b a.

(** *** Lemmas *)

Lemma obj_get_app k o1 o2 :
  obj_get k (o1 ++ o2) = match obj_get k o1 with Some v => Some v | None => obj_get k o2 end.
Proof. induction o1 as [|[k' v'] o1 IH]; cbn; [done|]. by bd. Qed.

Lemma obj_get_replace k v o k' :
  obj_get k' (obj_replace k v o)
  = if (k' ==? k) && obj_has k o then Some v else obj_get k' o.
Proof.
  unfold obj_has. induction o as [|[k1 v1] o IH]; cbn; [by rewrite andb_false_r|].
  destruct (decide (k = k1)) as [->|Hk].
  - rewrite bool_decide_true by done. cbn. by bd.
  - rewrite (bool_decide_false (k = k1)) by done. cbn. rewrite IH. by bd.
Qed.

Lemma obj_get_insert_index z k v o k' :
  obj_has k o = false ->
  obj_get k' (obj_insert_index z k v o) = if k' ==? k then Some v else obj_get k' o.
Proof.
  unfold obj_has. induction o as [|[k1 v1] o IH]; cbn; [done|]. intros H.
  destruct (decide (k = k1)) as [->|Hk]; [by rewrite bool_decide_true in H|].
  rewrite (bool_decide_false (k = k1)) in H by done.
  destruct (index_key k1) as [z'|]; [|done].
  destruct (z <? z')%Z; [done|]. cbn. rewrite IH by done. by bd.
Qed.

Lemma obj_get_set k v o k' :
  obj_get k' (obj_set k v o) = if k' ==? k then Some v else obj_get k' o.
Proof.
  unfold obj_set. destruct (obj_has k o) eqn:E.
  - rewrite obj_get_replace, E. by rewrite andb_true_r.
  - destruct (index_key k); [by apply obj_get_insert_index|].
    rewrite obj_get_app. cbn. unfold obj_has in E.
    bd; [destruct (obj_get k o); done | by destruct (obj_get k' o)].
Qed.

Lemma obj_get_set_eq k v o : obj_get k (obj_set k v o) = Some v.
Proof. rewrite obj_get_set. by rewrite bool_decide_true. Qed.

Lemma obj_get_set_ne k v o k' : k' <> k -> obj_get k' (obj_set k v o) = obj_get k' o.
Proof. intros H. rewrite obj_get_set. by rewrite bool_decide_false. Qed.

Lemma obj_get_delete k o k' :
  obj_get k' (obj_delete k o) = if k' ==? k then None else obj_get k' o.
Proof.
  unfold obj_delete. induction o as [|[k1 v1] o IH]; cbn; [by bd|].
  destruct (decide (k = k1)) as [->|Hk].
  - rewrite bool_decide_true by done. cbn. rewrite IH. by bd.
  - rewrite (bool_decide_false (k = k1)) by done. cbn. rewrite IH. by bd.
Qed.

Lemma obj_get_In k v o : obj_get k o = Some v -> (k, v) ∈ o.
Proof.
  induction o as [|[k1 v1] o IH]; cbn; [done|].
  bd; [intros [= ->]; left | intros H; right; auto].
Qed.

Lemma obj_get_elem k v o : NoDup (obj_keys o) -> (k, v) ∈ o -> obj_get k o = Some v.
Proof.
  induction o as [|[k1 v1] o IH]; cbn.
  { intros _ H. by apply elem_of_nil in H. }
  intros Hnd H. inversion Hnd as [|? ? Hni Hnd']; subst.
  apply elem_of_cons in H as [H|H].
  - simplify_eq. by rewrite bool_decide_true.
  - rewrite bool_decide_false; [by apply IH|]. intros ->. apply Hni.
    apply list_elem_of_In, in_map_iff. exists (k1, v). split; [done|by apply list_elem_of_In].
Qed.

Lemma obj_get_None k o : obj_get k o = None <-> k ∉ obj_keys o.
Proof.
  induction o as [|[k1 v1] o IH]; cbn.
  { split; [intros _ H; by apply elem_of_nil in H | done]. }
  rewrite elem_of_cons. bd.
  - split; [done|]. intros H. exfalso. auto.
  - rewrite IH. naive_solver.
Qed.

Lemma obj_has_keys k o : obj_has k o = true <-> k ∈ obj_keys o.
Proof.
  unfold obj_has. destruct (obj_get k o) as [v|] eqn:E.
  - split; [intros _ | done]. apply obj_get_In in E. apply list_elem_of_In, in_map_iff.
    exists (k, v). split; [done|by apply list_elem_of_In].
  - apply obj_get_None in E. split; [done|]. intros H. by apply E in H.
Qed.

(** Setting keys that are not indices and not yet there appends them. *)
Lemma obj_spread_append a b :
  NoDup (obj_keys (a ++ b)) -> Forall (fun kv => index_key kv.1 = None) b ->
  obj_spread a b = a ++ b.
Proof.
  unfold obj_spread. revert a. induction b as [|[k v] b IH]; intros a Hnd Hi; cbn.
  { by rewrite app_nil_r. }
  inversion Hi as [|? ? Hk Hi']; subst. cbn in Hk.
  assert (obj_set k v a = a ++ [(k, v)]) as ->.
  { unfold obj_set. rewrite Hk. destruct (obj_has k a) eqn:E; [|done].
    apply obj_has_keys in E. unfold obj_keys in Hnd. rewrite map_app in Hnd.
    apply NoDup_app in Hnd as (_ & Hd & _). exfalso. apply (Hd k E). cbn. left. }
  rewrite IH; [by rewrite <- app_assoc | by rewrite <- app_assoc | done].
Qed.

Lemma obj_of_entries_id o :
  NoDup (obj_keys o) -> Forall (fun kv => index_key kv.1 = None) o -> obj_of_entries o = o.
Proof. intros H1 H2. by apply (obj_spread_append []). Qed.
Lemma obj_get_spread a b k : NoDup (obj_keys b) ->
  obj_get k (obj_spread a b) = match obj_get k b with Some v => Some v | None => obj_get k a end.
Proof.
  unfold obj_spread. revert a. induction b as [|[k1 v1] b IH]; intros a Hnd; [done|].
  inversion Hnd as [|? ? Hni Hnd']; subst. cbn [fold_left fst snd]. rewrite IH by done.
  rewrite obj_get_set. cbn [obj_get]. destruct (decide (k = k1)) as [->|Hne].
  - rewrite bool_decide_true by done. apply obj_get_None in Hni. by rewrite Hni.
  - by rewrite bool_decide_false.
Qed.

Lemma obj_keys_replace k v o : obj_keys (obj_replace k v o) = obj_keys o.
Proof.
  unfold obj_keys. induction o as [|[k1 v1] o IH]; cbn; [done|].
  destruct (k ==? k1); cbn; by rewrite ?IH.
Qed.

Lemma obj_insert_index_perm z k v o : obj_insert_index z k v o ≡ₚ (k, v) :: o.
Proof.
  induction o as [|[k1 v1] o IH]; cbn; [done|]. destruct (index_key k1) as [z'|]; [|done].
  destruct (z <? z')%Z; [done|]. rewrite IH. constructor.
Qed.

Lemma NoDup_obj_set k v o : NoDup (obj_keys o) -> NoDup (obj_keys (obj_set k v o)).
Proof.
  intros Hnd. unfold obj_set. destruct (obj_has k o) eqn:E; [by rewrite obj_keys_replace|].
  assert (NoDup (k :: obj_keys o)) as Hk.
  { constructor; [|done]. apply obj_get_None. unfold obj_has in E. by destruct (obj_get k o). }
  unfold obj_keys in *. destruct (index_key k) as [z|].
  - by rewrite obj_insert_index_perm.
  - rewrite map_app. change (map fst o ++ [k]) with (map fst o ++ [k]).
    by rewrite Permutation_app_comm.
Qed.

Lemma NoDup_obj_spread a b : NoDup (obj_keys a) -> NoDup (obj_keys (obj_spread a b)).
Proof.
  unfold obj_spread. revert a. induction b as [|kv b IH]; intros a Ha; [done|].
  cbn. by apply IH, NoDup_obj_set.
Qed.
End Objects.

#[export] Hint Rewrite @obj_get_set_eq : jsdb.

(** ** Conversions and property access *)

Definition truthy (v : jsval) : bool :=
  match v with
  | JUndef | JNull => false
  | JBool b => b
  | JNum n => num_truthy n
  | JStr s => non_empty s
  | JArr _ | JObj _ => true
  end.

(** [a || b] *)
Definition js_or (a b : jsval) : jsval := if truthy a then a else b.

(** [a ?? b] *)
Definition js_nullish (a b : jsval) : jsval :=
  match a with JUndef | JNull => b | _ => a end.

(** [String(v)] *)
Fixpoint js_to_string (v : jsval) : jstr :=
  match v with
  | JUndef => "undefined"
  | JNull => "null"
  | JBool b => if b then "true" else "false"
  | JNum n => num_to_string n
  | JStr s => s
  | JArr l =>
      join "," (map (fun x => match x with JUndef | JNull => [] | _ => js_to_string x end) l)
  | JObj _ => "[object Object]"
  end.

(** [Number(v)] *)
Definition js_to_number (v : jsval) : num :=
  match v with
  | JUndef => nan
  | JNull => nzero
  | JBool b => if b then num_of_Z 1 else nzero
  | JNum n => n
  | JStr s => num_of_string s
  | JArr _ | JObj _ => num_of_string (js_to_string v)
  end.

(** [o[k]] on an object, [undefined] when absent. *)
Definition prop (o : jsobj) (k : jstr) : jsval := default JUndef (obj_get k o).

Definition type_error {A} : res A := Throw "TypeError".

(** [v.k]: a [TypeError] on [undefined] and [null]. The keys the source reads
    are not properties of strings, numbers, booleans or arrays. *)
Definition js_get (v : jsval) (k : jstr) : res jsval :=
  match v with
  | JUndef | JNull => type_error
  | JObj o => Ok (prop o k)
  | _ => Ok JUndef
  end.

(** [v?.k] *)
Definition js_get_opt (v : jsval) (k : jstr) : res jsval :=
  match v with
  | JUndef | JNull => Ok JUndef
  | _ => js_get v k
  end.

(** [v.trim()]: only strings have the method. *)
Definition js_trim (v : jsval) : res jstr :=
  match v with
  | JStr s => Ok (trim s)
  | _ => type_error
  end.

(** [!v || typeof v !== 'object' || Array.isArray(v)] is false. *)
Definition plain_object (v : jsval) : option jsobj :=
  match v with JObj o => Some o | _ => None end.

(** ** Reading any value as a dictionary *)

(** The own enumerable properties: none on [undefined] and [null]. *)
Definition js_own (v : jsval) : jsobj :=
  match v with
  | JObj o => o
  | JArr l => imap (fun i x => (Z_to_jstr (Z.of_nat i), x)) l
  | JStr s => imap (fun i c => (Z_to_jstr (Z.of_nat i), JStr [c])) s
  | _ => []
  end.

(** An own property: arrays and strings also have a [length]. *)
Definition js_own_prop (v : jsval) (k : jstr) : option jsval :=
  match v with
  | JArr l => if k ==? "length" then Some (JNum (num_of_Z (Z.of_nat (length l)))) else obj_get k (js_own v)
  | JStr s => if k ==? "length" then Some (JNum (num_of_Z (Z.of_nat (length s)))) else obj_get k (js_own v)
  | _ => obj_get k (js_own v)
  end.

(** [v[k]] *)
Definition js_at (v : jsval) (k : jstr) : res jsval :=
  match v with
  | JUndef | JNull => type_error
  | _ => Ok (default JUndef (js_own_prop v k))
  end.

(** [Object.keys(v)] and [Object.hasOwn(v, k)] *)
Definition js_keys (v : jsval) : res (list jstr) :=
  match v with
  | JUndef | JNull => type_error
  | _ => Ok (obj_keys (js_own v))
  end.

Definition js_has_own (v : jsval) (k : jstr) : res bool :=
  match v with
  | JUndef | JNull => type_error
  | _ => Ok (match js_own_prop v k with Some _ => true | None => false end)
  end.
