(* ===== verification/Json.v ===== *)
(** * JSON text: [JSON.parse] and [JSON.stringify] *)
From S2P Require Import Prelude JsString JsNumber JsValue Regex.

(** ** Printing *)

Definition hex_unit (d : N) : N := if (d <? 10)%N then (48 + d)%N else (87 + d)%N.

Definition hex4 (c : N) : jstr :=
  [hex_unit (N.shiftr c 12); hex_unit (N.land (N.shiftr c 8) 15);
   hex_unit (N.land (N.shiftr c 4) 15); hex_unit (N.land c 15)].

Definition is_high (c : N) : bool := ((55296 <=? c) && (c <=? 56319))%N.
Definition is_low (c : N) : bool := ((56320 <=? c) && (c <=? 57343))%N.

Definition escape_unit (c : N) : jstr :=
  if (c =? 8)%N then backslash ++ "b"
  else if (c =? 9)%N then backslash ++ "t"
  else if (c =? 10)%N then backslash ++ "n"
  else if (c =? 12)%N then backslash ++ "f"
  else if (c =? 13)%N then backslash ++ "r"
  else if (c =? 34)%N then backslash ++ dquote
  else if (c =? 92)%N then backslash ++ backslash
  else backslash ++ "u" ++ hex4 c.

Definition must_escape (c : N) : bool := ((c <? 32) || (c =? 34) || (c =? 92))%N.

(** QuoteJSONString: a surrogate without its pair is escaped. *)
Fixpoint quote_go (prev_high : bool) (s : jstr) : jstr :=
  match s with
  | [] => []
  | c :: t =>
      let lone :=
        if is_low c then negb prev_high
        else if is_high c then negb (match t with d :: _ => is_low d | [] => false end)
        else false in
      (if must_escape c || lone then escape_unit c else [c])
      ++ quote_go (is_high c && negb lone) t
  end.

(** [JSON.stringify(s)] on a string. *)
Definition quote (s : jstr) : jstr := dquote ++ quote_go false s ++ dquote.

(** The line break and indentation of [JSON.stringify(v, null, gap)]. *)
Definition break (gap ind : jstr) : jstr :=
  match gap with [] => [] | _ => newline ++ ind end.

Definition colon (gap : jstr) : jstr := match gap with [] => ":" | _ => ": " end.

Definition wrap (gap ind : jstr) (l r : jstr) (parts : list jstr) : jstr :=
  match parts with
  | [] => l ++ r
  | _ => l ++ break gap (ind ++ gap) ++ join ("," ++ break gap (ind ++ gap)) parts
           ++ break gap ind ++ r
  end.

(** [None]: the value has no text ([undefined]). *)
Fixpoint ser (gap ind : jstr) (v : jsval) : option jstr :=
  match v with
  | JUndef => None
  | JNull => Some "null"
  | JBool b => Some (if b then "true" else "false")
  | JNum n => Some (if is_finite n then num_to_string n else "null")
  | JStr s => Some (quote s)
  | JArr l =>
      Some (wrap gap ind "[" "]"
        ((fix go l :=
            match l with
            | [] => []
            | x :: t => default "null" (ser gap (ind ++ gap) x) :: go t
            end) l))
  | JObj o =>
      Some (wrap gap ind "{" "}"
        ((fix go (o : jsobj) :=
            match o with
            | [] => []
            | (k, x) :: t =>
                match ser gap (ind ++ gap) x with
                | Some s => (quote k ++ colon gap ++ s) :: go t
                | None => go t
                end
            end) o))
  end.

Definition ser_elems (gap ind : jstr) (l : list jsval) : list jstr :=
  map (fun x => default "null" (ser gap ind x)) l.

Fixpoint ser_members (gap ind : jstr) (o : jsobj) : list jstr :=
  match o with
  | [] => []
  | (k, x) :: t =>
      match ser gap ind x with
      | Some s => (quote k ++ colon gap ++ s) :: ser_members gap ind t
      | None => ser_members gap ind t
      end
  end.

(** [JSON.stringify(v)] and [JSON.stringify(v, null, 2)], on values that have
    a text. *)
Definition stringify (v : jsval) : jstr := default [] (ser [] [] v).
Definition stringify2 (v : jsval) : jstr := default [] (ser "  " [] v).

(** ** Parsing *)

Inductive pres (A : Type) :=
| POk (a : A) (rest : jstr)
| PErr
| PFuel.
Arguments POk {A} _ _.
Arguments PErr {A}.
Arguments PFuel {A}.

Definition json_ws (c : N) : bool := ((c =? 32) || (c =? 9) || (c =? 10) || (c =? 13))%N.

Fixpoint skip_ws (s : jstr) : jstr :=
  match s with
  | c :: t => if json_ws c then skip_ws t else s
  | [] => []
  end.

Definition hex_val (c : N) : option N :=
  if is_digit c then Some (c - 48)%N
  else if ((97 <=? c) && (c <=? 102))%N then Some (c - 87)%N
  else if ((65 <=? c) && (c <=? 70))%N then Some (c - 55)%N
  else None.

Definition hex4_val (a b c d : N) : option N :=
  match hex_val a, hex_val b, hex_val c, hex_val d with
  | Some a, Some b, Some c, Some d =>
      Some (N.shiftl a 12 + N.shiftl b 8 + N.shiftl c 4 + d)%N
  | _, _, _, _ => None
  end.

Definition unescape (c : N) : option N :=
  if (c =? 98)%N then Some 8%N
  else if (c =? 116)%N then Some 9%N
  else if (c =? 110)%N then Some 10%N
  else if (c =? 102)%N then Some 12%N
  else if (c =? 114)%N then Some 13%N
  else if ((c =? 34) || (c =? 92) || (c =? 47))%N then Some c
  else None.

(** The rest of a string literal, after its opening quote. *)
Fixpoint parse_str (acc s : jstr) : option (jstr * jstr) :=
  match s with
  | [] => None
  | c :: t =>
      if (c =? 34)%N then Some (rev acc, t)
      else if (c =? 92)%N then
        match t with
        | [] => None
        | e :: t1 =>
            if (e =? 117)%N then
              match t1 with
              | h1 :: h2 :: h3 :: h4 :: t2 =>
                  match hex4_val h1 h2 h3 h4 with
                  | Some u => parse_str (u :: acc) t2
                  | None => None
                  end
              | _ => None
              end
            else
              match unescape e with
              | Some u => parse_str (u :: acc) t1
              | None => None
              end
        end
      else if (c <? 32)%N then None
      else parse_str (c :: acc) t
  end.

Definition num_char (c : N) : bool :=
  (is_digit c || (c =? 43) || (c =? 45) || (c =? 46) || (c =? 69) || (c =? 101))%N.

(** The JSON number grammar, applied to the longest run of number units. *)
Definition json_number : rx :=
  rseq [RBol; ropt (RLit "-");
        RAlt (RLit "0")
             (RSeq (RSet (fun c => (49 <=? c) && (c <=? 57))%N) (RStar (RSet is_digit)));
        ropt (RSeq (RLit ".") (rplus (RSet is_digit)));
        ropt (rseq [RSet (one_of "eE"); ropt (RSet (one_of "+-")); rplus (RSet is_digit)]);
        REol].

Definition parse_num (s : jstr) : option (num * jstr) :=
  let '(tok, rest) := span num_char s in
  if rx_test json_number tok then Some (num_of_string tok, rest) else None.

Definition parse_lit (l : jstr) (v : jsval) (s : jstr) : pres jsval :=
  match strip_prefix l s with
  | Some rest => POk v rest
  | None => PErr
  end.

Fixpoint parse_value (fuel : nat) (s : jstr) : pres jsval :=
  match fuel with
  | O => PFuel
  | S f =>
      match skip_ws s with
      | [] => PErr
      | c :: t =>
          if (c =? 34)%N then
            match parse_str [] t with
            | Some (x, rest) => POk (JStr x) rest
            | None => PErr
            end
          else if (c =? 123)%N then
            match skip_ws t with
            | d :: t' =>
                if (d =? 125)%N then POk (JObj []) t'
                else
                  match parse_members f [] t with
                  | POk o rest => POk (JObj (obj_of_entries o)) rest
                  | PErr => PErr
                  | PFuel => PFuel
                  end
            | [] => PErr
            end
          else if (c =? 91)%N then
            match skip_ws t with
            | d :: t' =>
                if (d =? 93)%N then POk (JArr []) t'
                else
                  match parse_elems f [] t with
                  | POk l rest => POk (JArr l) rest
                  | PErr => PErr
                  | PFuel => PFuel
                  end
            | [] => PErr
            end
          else if (c =? 116)%N then parse_lit "true" (JBool true) (c :: t)
          else if (c =? 102)%N then parse_lit "false" (JBool false) (c :: t)
          else if (c =? 110)%N then parse_lit "null" JNull (c :: t)
          else
            match parse_num (c :: t) with
            | Some (n, rest) => POk (JNum n) rest
            | None => PErr
            end
      end
  end
with parse_elems (fuel : nat) (acc : list jsval) (s : jstr) : pres (list jsval) :=
  match fuel with
  | O => PFuel
  | S f =>
      match parse_value f s with
      | POk v r =>
          match skip_ws r with
          | c :: t =>
              if (c =? 44)%N then parse_elems f (v :: acc) t
              else if (c =? 93)%N then POk (rev (v :: acc)) t
              else PErr
          | [] => PErr
          end
      | PErr => PErr
      | PFuel => PFuel
      end
  end
with parse_members (fuel : nat) (acc : jsobj) (s : jstr) : pres jsobj :=
  match fuel with
  | O => PFuel
  | S f =>
      match skip_ws s with
      | q :: t =>
          if (q =? 34)%N then
            match parse_str [] t with
            | Some (k, r) =>
                match skip_ws r with
                | c :: t1 =>
                    if (c =? 58)%N then
                      match parse_value f t1 with
                      | POk v r2 =>
                          match skip_ws r2 with
                          | d :: t2 =>
                              if (d =? 44)%N then parse_members f ((k, v) :: acc) t2
                              else if (d =? 125)%N then POk (rev ((k, v) :: acc)) t2
                              else PErr
                          | [] => PErr
                          end
                      | PErr => PErr
                      | PFuel => PFuel
                      end
                    else PErr
                | [] => PErr
                end
            | None => PErr
            end
          else PErr
      | [] => PErr
      end
  end.

(** [JSON.parse(s)]: [None] is a [SyntaxError]. *)
Definition parse (s : jstr) : option jsval :=
  match parse_value (2 * length s + 2) s with
  | POk v rest => match skip_ws rest with [] => Some v | _ => None end
  | _ => None
  end.

(** [JSON.parse] as a throwing operation. *)
Definition json_parse (s : jstr) : res jsval :=
  match parse s with Some v => Ok v | None => Throw "SyntaxError" end.

(** A value whose text determines it: 16-bit units, numbers that read back as
    themselves, objects in enumeration order, no [undefined]. *)
Definition num_ok (n : num) : bool :=
  is_finite n && forallb num_char (num_to_string n)
  && rx_test json_number (num_to_string n) && num_roundtrips n.

Definition str_ok (s : jstr) : bool := forallb (fun c => c <? 65536)%N s.

Fixpoint json_ok (v : jsval) : bool :=
  match v with
  | JUndef => false
  | JNull | JBool _ => true
  | JNum n => num_ok n
  | JStr s => str_ok s
  | JArr l => forallb json_ok l
  | JObj o =>
      (obj_of_entries o ==? o)
      && forallb (fun kv => str_ok kv.1 && json_ok kv.2) o
  end.

Example parse_ex :
  option_map stringify
    (parse (sq " { 'b' : [1, -2.5e3, null, true], 'a':{}, '2': 'x\u0041\n', '1':[], 'b':0 } "))
  = Some (sq "{'1':[],'2':'xA\n','b':0,'a':{}}").
Proof. vm_compute. reflexivity. Qed.

Example parse_ex_bad :
  map (fun s => parse (sq s)) ["01"; "[1,]"; "{a:1}"; "'\x'"; "nul"; "1 2"; "+1"; ".5"; "5."; []]
  = repeat None 10.
Proof. vm_compute. reflexivity. Qed.

(** ** Whitespace *)

Lemma skip_ws_app w s : forallb json_ws w = true -> skip_ws (w ++ s) = skip_ws s.
Proof. induction w as [|c w IH]; cbn; [done|]. intros H. bools. rewrite H. auto. Qed.

Lemma parse_value_ws fuel w s :
  forallb json_ws w = true -> parse_value fuel (w ++ s) = parse_value fuel s.
Proof. intros H. destruct fuel as [|f]; cbn [parse_value]; [done|]. by rewrite skip_ws_app. Qed.

Lemma parse_members_ws fuel acc w s :
  forallb json_ws w = true -> parse_members fuel acc (w ++ s) = parse_members fuel acc s.
Proof. intros H. destruct fuel as [|f]; cbn [parse_members]; [done|]. by rewrite skip_ws_app. Qed.

(** ** Strings read back *)

Lemma hex_val_unit d : (d < 16)%N -> hex_val (hex_unit d) = Some d.
Proof.
  intros H. assert (d ∈ [0;1;2;3;4;5;6;7;8;9;10;11;12;13;14;15]%N) as Hin.
  { rewrite !elem_of_cons. lia. }
  repeat (apply elem_of_cons in Hin as [->|Hin]; [done|]). by apply elem_of_nil in Hin.
Qed.

Lemma hex4_read c h1 h2 h3 h4 :
  (c < 65536)%N -> hex4 c = [h1; h2; h3; h4] -> hex4_val h1 h2 h3 h4 = Some c.
Proof.
  unfold hex4. intros Hc [= <- <- <- <-]. unfold hex4_val.
  change 15%N with (N.ones 4). rewrite !N.land_ones, !N.shiftr_div_pow2.
  assert (c / 2 ^ 12 < 16)%N by (apply N.Div0.div_lt_upper_bound; lia).
  rewrite !hex_val_unit by first [done | apply N.mod_lt; done].
  f_equal. rewrite !N.shiftl_mul_pow2.
  change (2 ^ 12)%N with 4096%N. change (2 ^ 8)%N with 256%N. change (2 ^ 4)%N with 16%N.
  assert (c / 4096 = c / 16 / 16 / 16)%N as -> by (rewrite !N.Div0.div_div; done).
  assert (c / 256 = c / 16 / 16)%N as -> by (rewrite !N.Div0.div_div; done).
  pose proof (N.div_mod c 16 ltac:(done)).
  pose proof (N.div_mod (c / 16) 16 ltac:(done)).
  pose proof (N.div_mod (c / 16 / 16) 16 ltac:(done)). lia.
Qed.

Lemma parse_str_escape c acc t :
  (c < 65536)%N -> parse_str acc (escape_unit c ++ t) = parse_str (c :: acc) t.
Proof.
  intros Hc. unfold escape_unit.
  repeat match goal with |- context [if (c =? ?k)%N then _ else _] =>
    destruct (N.eqb_spec c k) as [->|?]; [done|] end.
  destruct (hex4 c) as [|h1 [|h2 [|h3 [|h4 [|]]]]] eqn:E; try discriminate.
  cbn. by rewrite (hex4_read c).
Qed.

Lemma parse_str_raw c acc t : must_escape c = false -> parse_str acc (c :: t) = parse_str (c :: acc) t.
Proof.
  unfold must_escape. intros H. bools. cbn.
  destruct (N.eqb_spec c 34); [lia|]. destruct (N.eqb_spec c 92); [lia|].
  destruct (N.ltb_spec c 32); [lia|done].
Qed.

Lemma parse_str_quote_go s : forall b acc rest,
  str_ok s = true -> parse_str acc (quote_go b s ++ dquote ++ rest) = Some (rev acc ++ s, rest).
Proof.
  induction s as [|c s IH]; intros b acc rest Hs; cbn [quote_go].
  { cbn. by rewrite app_nil_r. }
  cbn in Hs. bools. rewrite <- app_assoc.
  match goal with |- context [if must_escape c || ?l then _ else _] => set (lone := l) end.
  destruct (must_escape c || lone) eqn:E.
  - rewrite parse_str_escape by done. rewrite IH by done. by rewrite <- rev_app_cons.
  - apply orb_false_iff in E as [E _]. cbn [app]. rewrite parse_str_raw by done.
    rewrite IH by done. by rewrite <- rev_app_cons.
Qed.

Lemma quote_cons s : exists t, quote s = 34%N :: t.
Proof. eexists. reflexivity. Qed.

Lemma parse_quote s rest :
  str_ok s = true -> parse_str [] (quote_go false s ++ dquote ++ rest) = Some (s, rest).
Proof. intros H. by rewrite parse_str_quote_go. Qed.

(** ** Numbers read back *)

Lemma span_app p l rest : forallb p l = true -> head_not p rest -> span p (l ++ rest) = (l, rest).
Proof.
  induction l as [|c l IH]; cbn; intros Hp Hr.
  - destruct rest as [|d rest]; [done|]. cbn in *. by rewrite Hr.
  - bools. rewrite H, IH; done.
Qed.

Lemma parse_num_ok n rest :
  num_ok n = true -> head_not num_char rest -> parse_num (num_to_string n ++ rest) = Some (n, rest).
Proof.
  unfold num_ok, num_roundtrips. intros H Hr. bools. unfold parse_num.
  rewrite span_app by done. by rewrite H1, H0.
Qed.

(** ** Values read back *)

Lemma ser_arr gap ind l : ser gap ind (JArr l) = Some (wrap gap ind "[" "]" (ser_elems gap (ind ++ gap) l)).
Proof. reflexivity. Qed.

Lemma ser_obj gap ind o : ser gap ind (JObj o) = Some (wrap gap ind "{" "}" (ser_members gap (ind ++ gap) o)).
Proof.
  cbn [ser]. do 2 f_equal. induction o as [|[k x] o IH]; cbn; [done|].
  destruct (ser gap (ind ++ gap) x); [f_equal|]; exact IH.
Qed.

Lemma json_ok_ser gap ind v : json_ok v = true -> exists s, ser gap ind v = Some s.
Proof. destruct v; cbn; eauto. done. Qed.

(** The first unit of a text is not blank and closes nothing. *)
Lemma ser_head gap ind v s :
  json_ok v = true -> ser gap ind v = Some s ->
  exists c t, s = c :: t /\ json_ws c = false /\ c <> 93%N /\ c <> 125%N.
Proof.
  destruct v as [| |b|n|x|l|o]; [done|..].
  - intros _ [= <-]. by eexists _, _.
  - intros _ [= <-]. destruct b; by eexists _, _.
  - cbn. unfold num_ok. intros H [= <-]. bools. rewrite H.
    destruct (num_to_string n) as [|c t] eqn:E; [done|]. exists c, t. split; [done|].
    cbn in H2. bools. revert H2. unfold num_char, is_digit, json_ws.
    rewrite !orb_true_iff, !orb_false_iff, andb_true_iff, !N.eqb_eq, !N.eqb_neq, !N.leb_le.
    intros Hc. repeat split; lia.
  - intros _ [= <-]. by eexists _, _.
  - intros _. rewrite ser_arr. intros [= <-]. unfold wrap.
    destruct (ser_elems _ _ l); by eexists _, _.
  - intros _. rewrite ser_obj. intros [= <-]. unfold wrap.
    destruct (ser_members _ _ o); by eexists _, _.
Qed.

Definition reads_back (v : jsval) : Prop :=
  forall gap ind fuel s rest,
    forallb json_ws gap = true -> forallb json_ws ind = true ->
    json_ok v = true -> ser gap ind v = Some s ->
    head_not num_char rest -> 2 * length s + 1 <= fuel ->
    parse_value fuel (s ++ rest) = POk v rest.

Lemma head_not_ws w s :
  forallb json_ws w = true -> head_not num_char s -> head_not num_char (w ++ s).
Proof.
  destruct w as [|c w]; [done|]. cbn. intros H _. bools. revert H.
  unfold json_ws, num_char, is_digit.
  rewrite !orb_true_iff, !orb_false_iff, andb_false_iff, !N.eqb_eq, !N.eqb_neq, !N.leb_gt. lia.
Qed.

Lemma skip_ws_cons c t : json_ws c = false -> skip_ws (c :: t) = c :: t.
Proof. cbn. by intros ->. Qed.

Lemma parse_elems_reads gap ind brk brk2 l : forall acc fuel w rest,
  Forall reads_back l -> l <> [] -> forallb json_ok l = true ->
  forallb json_ws gap = true -> forallb json_ws ind = true ->
  forallb json_ws brk = true -> forallb json_ws brk2 = true -> forallb json_ws w = true ->
  2 * length (join ("," ++ brk) (ser_elems gap ind l)) + 2 <= fuel ->
  parse_elems fuel acc (w ++ join ("," ++ brk) (ser_elems gap ind l) ++ brk2 ++ "]" ++ rest)
  = POk (rev acc ++ l) rest.
Proof.
  induction l as [|x l IH]; intros acc fuel w rest HF Hne Hok Hg Hi Hb Hb2 Hw Hf; [done|].
  inversion HF as [|? ? Hx HF']; subst. cbn [forallb] in Hok. apply andb_true_iff in Hok as [Hokx Hokl].
  destruct (json_ok_ser gap ind x Hokx) as [sx Hsx].
  destruct fuel as [|f]; [lia|]. cbn [parse_elems]. rewrite parse_value_ws by done.
  destruct l as [|y l].
  - cbn [ser_elems map join] in *. rewrite Hsx in *. cbn [default from_option id] in *.
    rewrite (Hx gap ind f sx) by first [done | lia | by apply head_not_ws].
    rewrite skip_ws_app by done. done.
  - cbn [ser_elems map] in *. rewrite join_cons in *. rewrite Hsx in *.
    cbn [default from_option id] in *. rewrite <- !app_assoc.
    rewrite !length_app in Hf.
    rewrite (Hx gap ind f sx) by first [done | lia]. cbn [app].
    rewrite skip_ws_cons by done.
    change (parse_elems f (x :: acc) (brk ++ join ("," ++ brk) (ser_elems gap ind (y :: l)) ++ brk2 ++ "]" ++ rest)
            = POk (rev acc ++ x :: y :: l) rest).
    rewrite IH; try done; [by rewrite <- rev_app_cons|].
    cbn [ser_elems map]. cbn [length] in Hf. lia.
Qed.

Lemma ser_members_cons gap ind k x s o :
  ser gap ind x = Some s ->
  ser_members gap ind ((k, x) :: o) = (quote k ++ colon gap ++ s) :: ser_members gap ind o.
Proof. cbn. by intros ->. Qed.

(** One member up to its value. *)
Lemma parse_members_step fuel acc k gap rest :
  str_ok k = true ->
  parse_members (S fuel) acc (quote k ++ colon gap ++ rest)
  = match parse_value fuel rest with
    | POk v r2 =>
        match skip_ws r2 with
        | d :: t2 =>
            if (d =? 44)%N then parse_members fuel ((k, v) :: acc) t2
            else if (d =? 125)%N then POk (rev ((k, v) :: acc)) t2
            else PErr
        | [] => PErr
        end
    | PErr => PErr
    | PFuel => PFuel
    end.
Proof.
  intros Hk. unfold quote. rewrite <- !app_assoc. cbn [parse_members].
  change (skip_ws (dquote ++ quote_go false k ++ dquote ++ colon gap ++ rest))
    with (34%N :: (quote_go false k ++ dquote ++ colon gap ++ rest)).
  cbn [N.eqb Pos.eqb]. rewrite parse_quote by done.
  assert (exists w, colon gap = 58%N :: w /\ forallb json_ws w = true) as (w & -> & Hw).
  { destruct gap; by eexists. }
  cbn [app]. rewrite skip_ws_cons by done. cbn [N.eqb Pos.eqb].
  by rewrite parse_value_ws.
Qed.

Lemma parse_members_reads gap ind brk brk2 o : forall acc fuel w rest,
  Forall (fun kv => reads_back kv.2) o -> o <> [] ->
  forallb (fun kv : jstr * jsval => str_ok kv.1 && json_ok kv.2) o = true ->
  forallb json_ws gap = true -> forallb json_ws ind = true ->
  forallb json_ws brk = true -> forallb json_ws brk2 = true -> forallb json_ws w = true ->
  2 * length (join ("," ++ brk) (ser_members gap ind o)) + 2 <= fuel ->
  parse_members fuel acc (w ++ join ("," ++ brk) (ser_members gap ind o) ++ brk2 ++ "}" ++ rest)
  = POk (rev acc ++ o) rest.
Proof.
  induction o as [|[k x] o IH]; intros acc fuel w rest HF Hne Hok Hg Hi Hb Hb2 Hw Hf; [done|].
  inversion HF as [|? ? Hx HF']; subst. cbn [forallb fst snd] in Hok.
  apply andb_true_iff in Hok as [Hokx Hokl]. apply andb_true_iff in Hokx as [Hk Hokx].
  cbn [snd] in Hx. destruct (json_ok_ser gap ind x Hokx) as [sx Hsx].
  rewrite (ser_members_cons _ _ _ _ _ _ Hsx) in *.
  destruct fuel as [|f]; [lia|]. rewrite parse_members_ws by done.
  destruct o as [|[k2 y] o].
  - cbn [ser_members join] in *. rewrite !length_app in Hf. rewrite <- !app_assoc.
    rewrite parse_members_step by done.
    rewrite (Hx gap ind f sx) by first [done | lia | by apply head_not_ws].
    rewrite skip_ws_app by done. done.
  - assert (json_ok y = true) as Hy by (cbn in Hokl; bools; done).
    destruct (json_ok_ser gap ind y Hy) as [sy Hsy].
    destruct (ser_members gap ind ((k2, y) :: o)) as [|m ms] eqn:Em.
    { by rewrite (ser_members_cons _ _ _ _ _ _ Hsy) in Em. }
    rewrite join_cons in *. rewrite !length_app in Hf. rewrite <- !app_assoc.
    rewrite parse_members_step by done.
    rewrite (Hx gap ind f sx) by first [done | lia]. cbn [app].
    rewrite skip_ws_cons by done. cbn [N.eqb Pos.eqb].
    change (44%N :: brk) with ("," ++ brk). change (125%N :: rest) with ("}" ++ rest).
    rewrite IH; try done; [by rewrite <- rev_app_cons|].
    cbn [length] in Hf. lia.
Qed.

Lemma break_ws gap ind :
  forallb json_ws gap = true -> forallb json_ws ind = true -> forallb json_ws (break gap ind) = true.
Proof. destruct gap; [done|]. cbn. done. Qed.

(** A text between brackets starts with neither a blank nor its closer. *)
Lemma parse_value_open_elems f t :
  match skip_ws t with c :: _ => c <> 93%N | [] => False end ->
  parse_value (S f) (91%N :: t)
  = match parse_elems f [] t with
    | POk l rest => POk (JArr l) rest
    | PErr => PErr
    | PFuel => PFuel
    end.
Proof.
  intros H. cbn [parse_value]. rewrite skip_ws_cons by done. cbn [N.eqb Pos.eqb].
  destruct (skip_ws t) as [|c u]; [done|]. destruct (N.eqb_spec c 93); done.
Qed.

Lemma parse_value_open_members f t :
  match skip_ws t with c :: _ => c <> 125%N | [] => False end ->
  parse_value (S f) (123%N :: t)
  = match parse_members f [] t with
    | POk o rest => POk (JObj (obj_of_entries o)) rest
    | PErr => PErr
    | PFuel => PFuel
    end.
Proof.
  intros H. cbn [parse_value]. rewrite skip_ws_cons by done. cbn [N.eqb Pos.eqb].
  destruct (skip_ws t) as [|c u]; [done|]. destruct (N.eqb_spec c 125); done.
Qed.

Lemma join_head sep m ms : m <> [] -> exists t, join sep (m :: ms) = m ++ t.
Proof. intros _. destruct ms; cbn; [exists []; by rewrite app_nil_r | eauto]. Qed.

Lemma reads_back_num n : reads_back (JNum n).
Proof.
  intros gap ind fuel s rest _ _ Hok Hs Hr Hf. cbn in Hok, Hs.
  assert (is_finite n = true) as Hfin by (unfold num_ok in Hok; bools; done).
  rewrite Hfin in Hs. injection Hs as <-. destruct fuel as [|f]; [lia|].
  pose proof (parse_num_ok n rest Hok Hr) as Hp.
  destruct (num_to_string n) as [|c t] eqn:E.
  { unfold num_ok in Hok. bools. by rewrite E in *. }
  assert (num_char c = true) as Hc.
  { unfold num_ok in Hok. bools. rewrite E in *. cbn in *. bools. done. }
  cbn [parse_value app]. rewrite skip_ws_cons.
  2: { revert Hc. unfold num_char, is_digit, json_ws.
       rewrite !orb_true_iff, !orb_false_iff, andb_true_iff, !N.eqb_eq, !N.eqb_neq, !N.leb_le. lia. }
  cbn [app] in Hp. rewrite Hp.
  revert Hc. unfold num_char, is_digit.
  rewrite !orb_true_iff, andb_true_iff, !N.eqb_eq, !N.leb_le. intros Hc.
  repeat match goal with |- context [if (c =? ?k)%N then _ else _] =>
    destruct (N.eqb_spec c k); [lia|] end. done.
Qed.

Lemma reads_back_arr l : Forall reads_back l -> reads_back (JArr l).
Proof.
  intros HF gap ind fuel s rest Hg Hi Hok Hs Hr Hf.
  rewrite ser_arr in Hs. injection Hs as <-. cbn in Hok.
  destruct fuel as [|f]; [lia|]. destruct l as [|x l]; [done|].
  assert (json_ok x = true) as Hx by (cbn in Hok; bools; done).
  destruct (json_ok_ser gap (ind ++ gap) x Hx) as [sx Hsx].
  destruct (ser_head _ _ _ _ Hx Hsx) as (c & t & -> & Hc & Hc1 & _).
  unfold wrap in *. destruct (ser_elems gap (ind ++ gap) (x :: l)) as [|m ms] eqn:Em; [done|].
  assert (m = c :: t) as -> by (cbn in Em; rewrite Hsx in Em; cbn in Em; congruence).
  rewrite !length_app in Hf. rewrite <- !app_assoc. cbn [app].
  assert (forallb json_ws (ind ++ gap) = true) as Hig by (by rewrite forallb_app, Hi, Hg).
  pose proof (break_ws gap _ Hg Hig) as Hb. pose proof (break_ws gap _ Hg Hi) as Hb2.
  rewrite parse_value_open_elems.
  2: { rewrite skip_ws_app by done.
       destruct (join_head (44%N :: break gap (ind ++ gap)) (c :: t) ms) as [u ->]; [done|].
       cbn [app]. by rewrite skip_ws_cons. }
  rewrite <- Em in *. change (44%N :: break gap (ind ++ gap)) with ("," ++ break gap (ind ++ gap)).
  change (93%N :: rest) with ("]" ++ rest).
  rewrite parse_elems_reads; try done. cbn [length] in Hf. lia.
Qed.

Lemma reads_back_obj o : Forall (fun kv => reads_back kv.2) o -> reads_back (JObj o).
Proof.
  intros HF gap ind fuel s rest Hg Hi Hok Hs Hr Hf.
  rewrite ser_obj in Hs. injection Hs as <-. cbn in Hok.
  apply andb_true_iff in Hok as [Hcan Hok]. apply bool_decide_eq_true in Hcan.
  destruct fuel as [|f]; [lia|]. destruct o as [|[k x] o]; [done|].
  assert (json_ok x = true) as Hx by (cbn in Hok; bools; done).
  destruct (json_ok_ser gap (ind ++ gap) x Hx) as [sx Hsx].
  unfold wrap in *. destruct (ser_members gap (ind ++ gap) ((k, x) :: o)) as [|m ms] eqn:Em.
  { by rewrite (ser_members_cons _ _ _ _ _ _ Hsx) in Em. }
  rewrite !length_app in Hf. rewrite <- !app_assoc. cbn [app].
  assert (forallb json_ws (ind ++ gap) = true) as Hig by (by rewrite forallb_app, Hi, Hg).
  pose proof (break_ws gap _ Hg Hig) as Hb. pose proof (break_ws gap _ Hg Hi) as Hb2.
  rewrite parse_value_open_members.
  2: { rewrite skip_ws_app by done. rewrite (ser_members_cons _ _ _ _ _ _ Hsx) in Em.
       injection Em as <- <-.
       edestruct (join_head (44%N :: break gap (ind ++ gap))) as [u ->]; [|by cbn].
       unfold quote. done. }
  rewrite <- Em in *. change (44%N :: break gap (ind ++ gap)) with ("," ++ break gap (ind ++ gap)).
  change (125%N :: rest) with ("}" ++ rest). rewrite parse_members_reads; try done.
  - cbn [rev app]. by rewrite Hcan.
  - cbn [length] in Hf. lia.
Qed.

Lemma json_reads_back v : reads_back v.
Proof.
  induction v as [| |b|n|x|l IH|o IH] using jsval_ind'.
  - intros gap ind fuel s rest _ _ [=].
  - intros gap ind [|f] s rest _ _ _ [= <-] _ Hf; [cbn in Hf; lia|done].
  - intros gap ind [|f] s rest _ _ _ [= <-] _ Hf; [lia|]. by destruct b.
  - apply reads_back_num.
  - intros gap ind [|f] s rest _ _ Hok [= <-] _ Hf; [lia|]. unfold quote. rewrite <- !app_assoc.
    cbn [parse_value]. change (skip_ws (dquote ++ ?t)) with (34%N :: t).
    cbn [N.eqb Pos.eqb]. by rewrite parse_quote.
  - by apply reads_back_arr.
  - by apply reads_back_obj.
Qed.

(** [JSON.parse(JSON.stringify(v, null, gap))] *)
Lemma parse_ser gap v s :
  forallb json_ws gap = true -> json_ok v = true -> ser gap [] v = Some s -> parse s = Some v.
Proof.
  intros Hg Hok Hs. unfold parse. rewrite <- (app_nil_r s) at 2.
  by rewrite (json_reads_back v gap [] _ s []) by first [done | lia].
Qed.

Lemma parse_stringify2 v : json_ok v = true -> parse (stringify2 v) = Some v.
Proof.
  intros H. destruct (json_ok_ser "  " [] v H) as [s Hs]. unfold stringify2. rewrite Hs.
  by apply (parse_ser "  ").
Qed.

Lemma parse_stringify v : json_ok v = true -> parse (stringify v) = Some v.
Proof.
  intros H. destruct (json_ok_ser [] [] v H) as [s Hs]. unfold stringify. rewrite Hs.
  by apply (parse_ser []).
Qed.

(** ** A blank text is not JSON *)

Lemma trim_blank s : trim s = [] -> forallb is_space s = true.
Proof.
  unfold trim, trimEnd. intros H.
  assert (forall l, trimStart l = [] -> forallb is_space l = true) as Hl.
  { induction l as [|c l IH]; cbn; [done|]. destruct (is_space c); [exact IH|done]. }
  apply Hl. pose proof (trimStart_head s) as Hh. destruct (trimStart s) as [|c t]; [done|].
  apply (f_equal (@rev N)) in H. rewrite rev_involutive in H. apply Hl in H. cbn [rev] in H.
  rewrite forallb_app in H. cbn in H. by rewrite Hh, andb_false_r in H.
Qed.

Lemma space_starts_nothing c : is_space c = true ->
  (c =? 34)%N = false /\ (c =? 123)%N = false /\ (c =? 91)%N = false /\ (c =? 116)%N = false /\ (c =? 102)%N = false
  /\ (c =? 110)%N = false /\ num_char c = false.
Proof.
  unfold is_space, num_char, is_digit. intros H.
  rewrite !orb_true_iff, !andb_true_iff, !N.eqb_eq, !N.leb_le in H.
  rewrite !orb_false_iff, !andb_false_iff, !N.eqb_neq, !N.leb_gt. lia.
Qed.

Lemma parse_blank s : trim s = [] -> parse s = None.
Proof.
  intros Hs%trim_blank. unfold parse. assert (exists f, (2 * length s + 2 = S f)%nat) as [f ->] by (exists (2 * length s + 1)%nat; lia).
  cbn [parse_value]. assert (forallb is_space (skip_ws s) = true) as Hw.
  { clear f. induction s as [|c s IH]; [done|]. cbn [skip_ws]. destruct (json_ws c); [|done]. cbn in Hs. bools. by apply IH. }
  destruct (skip_ws s) as [|c t]; [done|]. cbn in Hw. bools.
  destruct (space_starts_nothing c) as (-> & -> & -> & -> & -> & -> & Hn); [done|].
  unfold parse_num. cbn [span]. by rewrite Hn.
Qed.

(** ** A text has no outer spaces *)

Lemma trimmed_ends a m b : is_space a = false -> is_space b = false -> trimmed (a :: m ++ [b]) = true.
Proof. intros Ha Hb. unfold trimmed. rewrite Ha. cbn [rev]. rewrite rev_app_distr. cbn. by rewrite Hb. Qed.

Lemma trimmed_num n : num_ok n = true -> trimmed (num_to_string n) = true.
Proof.
  unfold num_ok. intros H. bools. rename H2 into Hc.
  assert (forall c, c ∈ num_to_string n -> is_space c = false) as Hs.
  { intros c Hin. apply forallb_Forall in Hc. rewrite Forall_forall in Hc. specialize (Hc c Hin). revert Hc.
    unfold num_char, is_digit. rewrite !orb_true_iff, andb_true_iff, !N.eqb_eq, !N.leb_le. intros Hc.
    assert (c ∈ [48;49;50;51;52;53;54;55;56;57;43;45;46;69;101]%N) as Hl by (rewrite !elem_of_cons; lia).
    clear -Hl. repeat (apply elem_of_cons in Hl as [->|Hl]; [done|]). by apply elem_of_nil in Hl. }
  destruct (num_to_string n) as [|c s]; [done|]. unfold trimmed. rewrite (Hs c) by left.
  destruct (rev (c :: s)) as [|d r] eqn:E; [done|]. rewrite (Hs d); [done|].
  apply list_elem_of_In, in_rev. rewrite E. by left.
Qed.

Lemma trimmed_wrap gap ind a b parts : is_space a = false -> is_space b = false ->
  trimmed (wrap gap ind [a] [b] parts) = true.
Proof.
  intros Ha Hb. unfold wrap. destruct parts; [by apply (trimmed_ends a [] b)|]. cbn [app].
  rewrite !app_assoc. by apply trimmed_ends.
Qed.

Lemma trim_ser gap ind v s : json_ok v = true -> ser gap ind v = Some s -> trim s = s.
Proof.
  intros H Hs. apply trim_id. destruct v as [| |b|n|x|l|o]; [done|..].
  - by injection Hs as <-.
  - injection Hs as <-. by destruct b.
  - cbn in Hs, H. injection Hs as <-. pose proof H as H'. unfold num_ok in H'. bools. rewrite H0.
    by apply trimmed_num.
  - injection Hs as <-. by apply (trimmed_ends 34%N).
  - rewrite ser_arr in Hs. injection Hs as <-. by apply trimmed_wrap.
  - rewrite ser_obj in Hs. injection Hs as <-. by apply trimmed_wrap.
Qed.

Lemma trim_stringify v : json_ok v = true -> trim (stringify v) = stringify v.
Proof. intros H. destruct (json_ok_ser [] [] v H) as [s Hs]. unfold stringify. rewrite Hs. by eapply trim_ser. Qed.

Lemma trim_stringify2 v : json_ok v = true -> trim (stringify2 v) = stringify2 v.
Proof. intros H. destruct (json_ok_ser "  " [] v H) as [s Hs]. unfold stringify2. rewrite Hs. by eapply trim_ser. Qed.

Lemma stringify_nonempty v : json_ok v = true -> stringify v <> [].
Proof.
  intros H. destruct (json_ok_ser [] [] v H) as [s Hs]. unfold stringify. rewrite Hs. cbn.
  destruct (ser_head _ _ _ _ H Hs) as (c & t & -> & _). done.
Qed.

(** ** The parser's fuel is enough: it never answers [PFuel] *)

Definition fine {A} (s : jstr) (p : pres A) : Prop :=
  match p with
  | POk _ r => length r < length s
  | PErr => True
  | PFuel => False
  end.

Lemma skip_ws_shrinks s : length (skip_ws s) <= length s.
Proof. induction s as [|c s IH]; cbn; [done|]. destruct (json_ws c); cbn; lia. Qed.

Lemma parse_str_shrinks n : forall acc s x r,
  length s <= n -> parse_str acc s = Some (x, r) -> length r < length s.
Proof.
  induction n as [|n IH]; intros acc s x r Hn; (destruct s as [|c t]; [done|]); cbn in Hn; [lia|].
  cbn [parse_str]. destruct (c =? 34)%N; [intros [= _ <-]; cbn; lia|].
  destruct (c =? 92)%N.
  - destruct t as [|e t1]; [done|]. cbn in Hn.
    destruct (e =? 117)%N.
    + destruct t1 as [|h1 [|h2 [|h3 [|h4 t2]]]]; try done. cbn in Hn.
      destruct (hex4_val h1 h2 h3 h4); [|done]. intros H%IH; cbn; lia.
    + destruct (unescape e); [|done]. intros H%IH; cbn; lia.
  - destruct (c <? 32)%N; [done|]. intros H%IH; cbn; lia.
Qed.

Lemma span_length p s : length (span p s).1 + length (span p s).2 = length s.
Proof.
  induction s as [|c s IH]; cbn; [done|]. destruct (p c); [|done].
  destruct (span p s) as [a b]. cbn in *. lia.
Qed.

Lemma parse_num_shrinks s n r : parse_num s = Some (n, r) -> length r < length s.
Proof.
  unfold parse_num. pose proof (span_length num_char s) as H.
  destruct (span num_char s) as [tok rest]. cbn in H.
  destruct tok as [|c tok]; [done|]. cbn in H.
  destruct (rx_test _ _); [|done]. intros [= _ <-]. lia.
Qed.

Lemma parse_lit_fine l v s : l <> [] -> fine s (parse_lit l v s).
Proof.
  intros Hl. unfold parse_lit. destruct (strip_prefix l s) as [r|] eqn:E; [|done].
  apply strip_prefix_Some in E as ->. cbn. rewrite length_app. destruct l; [done|]. cbn. lia.
Qed.

Lemma fine_le {A} (s s' : jstr) (p : pres A) : length s <= length s' -> fine s p -> fine s' p.
Proof. destruct p; cbn; [lia|done..]. Qed.

Lemma parse_fine fuel :
  (forall s, 2 * length s + 1 <= fuel -> fine s (parse_value fuel s))
  /\ (forall acc s, 2 * length s + 2 <= fuel -> fine s (parse_elems fuel acc s))
  /\ (forall acc s, 2 * length s + 2 <= fuel -> fine s (parse_members fuel acc s)).
Proof.
  induction fuel as [|f (IHv & IHe & IHm)]; [repeat split; intros; lia|].
  split_and!.
  - intros s Hf. cbn [parse_value]. pose proof (skip_ws_shrinks s) as Hs.
    destruct (skip_ws s) as [|c t]; [done|]. cbn [length] in Hs.
    apply (fine_le (c :: t) s); [done|].
    destruct (c =? 34)%N.
    { destruct (parse_str [] t) as [[x r]|] eqn:E; [|done].
      apply (parse_str_shrinks (length t)) in E; cbn; lia. }
    destruct (c =? 123)%N.
    { pose proof (skip_ws_shrinks t) as Ht. destruct (skip_ws t) as [|d t']; [done|].
      cbn in Ht. destruct (d =? 125)%N; [cbn; lia|].
      specialize (IHm [] t ltac:(lia)). destruct (parse_members f [] t); cbn in *; [lia|done..]. }
    destruct (c =? 91)%N.
    { pose proof (skip_ws_shrinks t) as Ht. destruct (skip_ws t) as [|d t']; [done|].
      cbn in Ht. destruct (d =? 93)%N; [cbn; lia|].
      specialize (IHe [] t ltac:(lia)). destruct (parse_elems f [] t); cbn in *; [lia|done..]. }
    destruct (c =? 116)%N; [by apply parse_lit_fine|].
    destruct (c =? 102)%N; [by apply parse_lit_fine|].
    destruct (c =? 110)%N; [by apply parse_lit_fine|].
    destruct (parse_num (c :: t)) as [[n r]|] eqn:E; [|done].
    by apply parse_num_shrinks in E.
  - intros acc s Hf. cbn [parse_elems]. specialize (IHv s ltac:(lia)).
    destruct (parse_value f s) as [v r| |]; [|done..]. cbn in IHv.
    pose proof (skip_ws_shrinks r) as Hr. destruct (skip_ws r) as [|c t]; [done|]. cbn in Hr.
    destruct (c =? 44)%N; [|destruct (c =? 93)%N; cbn; [lia|done]].
    apply (fine_le t); [lia|]. apply IHe. lia.
  - intros acc s Hf. cbn [parse_members]. pose proof (skip_ws_shrinks s) as Hs.
    destruct (skip_ws s) as [|q t]; [done|]. cbn in Hs. destruct (q =? 34)%N; [|done].
    destruct (parse_str [] t) as [[k r]|] eqn:E; [|done].
    apply (parse_str_shrinks (length t)) in E; [|lia].
    pose proof (skip_ws_shrinks r) as Hr. destruct (skip_ws r) as [|c t1]; [done|]. cbn in Hr.
    destruct (c =? 58)%N; [|done]. specialize (IHv t1 ltac:(lia)).
    destruct (parse_value f t1) as [v r2| |]; [|done..]. cbn in IHv.
    pose proof (skip_ws_shrinks r2) as Hr2. destruct (skip_ws r2) as [|d t2]; [done|]. cbn in Hr2.
    destruct (d =? 44)%N; [|destruct (d =? 125)%N; cbn; [lia|done]].
    apply (fine_le t2); [lia|]. apply IHm. lia.
Qed.

Lemma parse_no_fuel s : parse_value (2 * length s + 2) s <> PFuel.
Proof.
  intros H. pose proof (proj1 (parse_fine (2 * length s + 2)) s ltac:(lia)) as Hf.
  by rewrite H in Hf.
Qed.

(** An object read from JSON is made of the members of its text. *)
Lemma parse_object s o : parse s = Some (JObj o) ->
  o = [] \/ exists f t members rest, parse_members f [] t = POk members rest /\ o = obj_of_entries members.
Proof.
  unfold parse. replace (2 * length s + 2) with (S (2 * length s + 1)) by lia.
  destruct (parse_value _ s) as [v rest| |] eqn:E; [|done|done].
  destruct (skip_ws rest); [|done]. intros [= ->]. revert E. cbn [parse_value].
  destruct (skip_ws s) as [|c t]; [done|].
  destruct (c =? 34)%N; [by destruct (parse_str [] t) as [[]|]|].
  destruct (c =? 123)%N.
  { destruct (skip_ws t) as [|d t']; [done|]. destruct (d =? 125)%N; [intros [= <- _]; by left|].
    destruct (parse_members _ [] t) as [m r| |] eqn:Em; [|done|done]. intros [= <- _]. right. eauto 10. }
  destruct (c =? 91)%N.
  { destruct (skip_ws t) as [|d t']; [done|]. destruct (d =? 93)%N; [done|].
    by destruct (parse_elems _ [] t). }
  unfold parse_lit.
  destruct (c =? 116)%N; [by destruct (strip_prefix _ _)|].
  destruct (c =? 102)%N; [by destruct (strip_prefix _ _)|].
  destruct (c =? 110)%N; [by destruct (strip_prefix _ _)|].
  by destruct (parse_num _) as [[]|].
Qed.

Lemma parse_NoDup s o : parse s = Some (JObj o) -> NoDup (obj_keys o).
Proof.
  intros [->|(f & t & m & r & _ & ->)]%parse_object; [constructor|].
  unfold obj_of_entries. apply (NoDup_obj_spread [] m). constructor.
Qed.

(** What is read is never [undefined]. *)
Lemma parse_value_defined f s v r : parse_value f s = POk v r -> v <> JUndef.
Proof.
  destruct f as [|f]; [done|]. cbn [parse_value]. destruct (skip_ws s) as [|c t]; [done|].
  destruct (c =? 34)%N; [destruct (parse_str [] t) as [[]|]; naive_solver|].
  destruct (c =? 123)%N.
  { destruct (skip_ws t) as [|d t']; [done|]. destruct (d =? 125)%N; [naive_solver|].
    destruct (parse_members f [] t); naive_solver. }
  destruct (c =? 91)%N.
  { destruct (skip_ws t) as [|d t']; [done|]. destruct (d =? 93)%N; [naive_solver|].
    destruct (parse_elems f [] t); naive_solver. }
  unfold parse_lit.
  destruct (c =? 116)%N; [destruct (strip_prefix _ _); naive_solver|].
  destruct (c =? 102)%N; [destruct (strip_prefix _ _); naive_solver|].
  destruct (c =? 110)%N; [destruct (strip_prefix _ _); naive_solver|].
  destruct (parse_num _) as [[]|]; naive_solver.
Qed.

Lemma parse_members_defined f : forall acc s o r, Forall (fun kv => kv.2 <> JUndef) acc ->
  parse_members f acc s = POk o r -> Forall (fun kv => kv.2 <> JUndef) o.
Proof.
  induction f as [|f IH]; intros acc s o r Hacc; [done|]. cbn [parse_members].
  destruct (skip_ws s) as [|q t]; [done|]. destruct (q =? 34)%N; [|done].
  destruct (parse_str [] t) as [[k r0]|]; [|done]. destruct (skip_ws r0) as [|c t1]; [done|].
  destruct (c =? 58)%N; [|done]. destruct (parse_value f t1) as [v r2| |] eqn:E; [|done|done].
  apply parse_value_defined in E. assert (Forall (fun kv => kv.2 <> JUndef) ((k, v) :: acc)) by by constructor.
  destruct (skip_ws r2) as [|d t2]; [done|]. destruct (d =? 44)%N; [by apply IH|].
  destruct (d =? 125)%N; [|done]. intros H0. injection H0 as <- _.
  change (Forall (fun kv => kv.2 <> JUndef) (rev ((k, v) :: acc))). by apply Forall_rev.
Qed.

Lemma Forall_obj_spread (P : jstr * jsval -> Prop) a b : Forall P a -> Forall P b -> Forall P (obj_spread a b).
Proof.
  unfold obj_spread. revert a. induction b as [|[k v] b IH]; intros a Ha Hb; [done|]. cbn [fold_left fst snd].
  apply Forall_cons in Hb as [Hv Hb]. apply IH; [|done]. unfold obj_set. destruct (obj_has k a) eqn:E.
  - clear IH E. induction Ha as [|[k1 v1] a H1 Ha IHa]; cbn; [done|].
    destruct (decide (k = k1)) as [->|Hne]; [rewrite bool_decide_true by done|rewrite bool_decide_false by done];
      by constructor.
  - destruct (index_key k) as [z|]; [|apply Forall_app; split; [done|by constructor]].
    rewrite obj_insert_index_perm. by constructor.
Qed.

Lemma parse_defined s o : parse s = Some (JObj o) -> Forall (fun kv => kv.2 <> JUndef) o.
Proof.
  intros [->|(f & t & m & r & Hm & ->)]%parse_object; [constructor|].
  apply (Forall_obj_spread _ [] m); [constructor|]. eapply parse_members_defined; [|exact Hm]. constructor.
Qed.

Lemma parse_not_undefined s : parse s <> Some JUndef.
Proof.
  unfold parse. destruct (parse_value _ _) as [v r| |] eqn:E; [|done..]. destruct (skip_ws r); [|done].
  intros [= ->]. by apply parse_value_defined in E.
Qed.
