(* ===== verification/BillingExpr.v ===== *)
(** * Billing expressions (features/pricing/lib/billing-expr.ts)

    The tier parser, the request-rule parser and builder, and the functions
    that combine and split the two halves of a billing expression. *)
From S2P Require Import Prelude JsString JsNumber JsValue Regex Json.

(** ** Variable registry *)

Inductive BillingSide := SideInput | SideOutput | SideCondition.

Record BillingVar := {
  bv_key : jstr;
  bv_field : option jstr;
  bv_tierField : option jstr;
  bv_label : jstr;
  bv_shortLabel : jstr;
  bv_side : BillingSide;
  bv_isBase : bool;
  bv_isConditionOnly : bool;
  bv_group : option jstr
}.

Definition base_var key field tierField label shortLabel side : BillingVar :=
  {| bv_key := key; bv_field := Some field; bv_tierField := Some tierField;
     bv_label := label; bv_shortLabel := shortLabel; bv_side := side;
     bv_isBase := true; bv_isConditionOnly := false; bv_group := None |}.

Definition extra_var key field tierField label shortLabel side group : BillingVar :=
  {| bv_key := key; bv_field := Some field; bv_tierField := Some tierField;
     bv_label := label; bv_shortLabel := shortLabel; bv_side := side;
     bv_isBase := false; bv_isConditionOnly := false; bv_group := Some group |}.

Definition BILLING_VARS : list BillingVar :=
  [ base_var "p" "inputPrice" "input_unit_cost" "Input price" "Input" SideInput;
    base_var "c" "outputPrice" "output_unit_cost" "Completion price" "Output" SideOutput;
    {| bv_key := "len"; bv_field := None; bv_tierField := None;
       bv_label := "Input length"; bv_shortLabel := "Length"; bv_side := SideCondition;
       bv_isBase := false; bv_isConditionOnly := true; bv_group := None |};
    extra_var "cr" "cacheReadPrice" "cache_read_unit_cost"
      "Cache read price" "Cache Read" SideInput "cache";
    extra_var "cc" "cacheCreatePrice" "cache_create_unit_cost"
      "Cache create price" "Cache Write" SideInput "cache";
    extra_var "cc1h" "cacheCreate1hPrice" "cache_create_1h_unit_cost"
      "Cache create (1h) price" "Cache Write (1h)" SideInput "cache";
    extra_var "img" "imagePrice" "image_unit_cost"
      "Image input price" "Image In" SideInput "media";
    extra_var "img_o" "imageOutputPrice" "image_output_unit_cost"
      "Image output price" "Image Out" SideOutput "media";
    extra_var "ai" "audioInputPrice" "audio_input_unit_cost"
      "Audio input price" "Audio In" SideInput "media";
    extra_var "ao" "audioOutputPrice" "audio_output_unit_cost"
      "Audio output price" "Audio Out" SideOutput "media" ].

Definition BILLING_PRICING_VARS : list BillingVar :=
  List.filter (fun v => negb (bv_isConditionOnly v)) BILLING_VARS.

Definition BILLING_CONDITION_VARS : list jstr :=
  map bv_key (List.filter (fun v => bv_isBase v || bv_isConditionOnly v) BILLING_VARS).

Definition BILLING_VAR_KEY_TO_FIELD : list (jstr * jstr) :=
  obj_of_entries (map (fun v => (bv_key v, default "null" (bv_field v))) BILLING_PRICING_VARS).

Definition BILLING_EXTRA_VARS : list BillingVar :=
  List.filter (fun v => negb (bv_isBase v) && negb (bv_isConditionOnly v)) BILLING_VARS.

Record CacheVar := { cv_field : jstr; cv_exprVar : jstr }.

Definition BILLING_CACHE_VAR_MAP : list CacheVar :=
  map (fun v => {| cv_field := default "null" (bv_tierField v); cv_exprVar := bv_key v |})
    BILLING_EXTRA_VARS.

(** [[\d.eE+-]] and [[\d.eE+]]. *)
Definition num_unit : N -> bool := fun c => is_digit c || one_of ".eE+-" c.
Definition cond_unit : N -> bool := fun c => is_digit c || one_of ".eE+" c.

Definition BILLING_VAR_REGEX : rx :=
  rseq [RWordB; RCap 1 (rlits (map bv_key BILLING_PRICING_VARS));
        rspaces; RLit "*"; rspaces; RCap 2 (rplus (RSet num_unit))].

(** ** Request rule constants *)

Definition SOURCE_PARAM : jstr := "param".
Definition SOURCE_HEADER : jstr := "header".
Definition SOURCE_TIME : jstr := "time".

Definition MATCH_EQ : jstr := "eq".
Definition MATCH_CONTAINS : jstr := "contains".
Definition MATCH_GT : jstr := "gt".
Definition MATCH_GTE : jstr := "gte".
Definition MATCH_LT : jstr := "lt".
Definition MATCH_LTE : jstr := "lte".
Definition MATCH_EXISTS : jstr := "exists".
Definition MATCH_RANGE : jstr := "range".

Definition TIME_FUNCS : list jstr := ["hour"; "minute"; "weekday"; "month"; "day"].

Definition COMMON_TIMEZONES : list (jstr * jstr) :=
  [ ("Asia/Shanghai", "UTC+8 Shanghai (Asia/Shanghai)");
    ("UTC", "UTC");
    ("America/New_York", "UTC-5 New York (America/New_York)");
    ("America/Los_Angeles", "UTC-8 Los Angeles (America/Los_Angeles)");
    ("America/Chicago", "UTC-6 Chicago (America/Chicago)");
    ("Europe/London", "UTC+0 London (Europe/London)");
    ("Europe/Berlin", "UTC+1 Berlin (Europe/Berlin)");
    ("Asia/Tokyo", "UTC+9 Tokyo (Asia/Tokyo)");
    ("Asia/Singapore", "UTC+8 Singapore (Asia/Singapore)");
    ("Asia/Seoul", "UTC+9 Seoul (Asia/Seoul)");
    ("Australia/Sydney", "UTC+10 Sydney (Australia/Sydney)") ].

(** [/^-?(?:\d+\.?\d*|\.\d+)(?:[eE][+-]?\d+)?$/] *)
Definition NUMERIC_LITERAL_REGEX : rx :=
  rseq [RBol; ropt (RLit "-");
        RAlt (rseq [rplus (RSet is_digit); ropt (RLit "."); RStar (RSet is_digit)])
             (RSeq (RLit ".") (rplus (RSet is_digit)));
        ropt (rseq [RSet (one_of "eE"); ropt (RSet (one_of "+-")); rplus (RSet is_digit)]);
        REol].

Definition is_numeric_literal (s : jstr) : bool := rx_test NUMERIC_LITERAL_REGEX s.

Record ParamHeaderCondition := {
  ph_source : jstr;
  ph_path : jstr;
  ph_mode : jstr;
  ph_value : jstr
}.

Record TimeCondition := {
  tm_timeFunc : jstr;
  tm_timezone : jstr;
  tm_mode : jstr;
  tm_value : jstr;
  tm_rangeStart : jstr;
  tm_rangeEnd : jstr
}.

Inductive RequestCondition :=
| CondTime (t : TimeCondition)
| CondParamHeader (p : ParamHeaderCondition).

Record RequestRuleGroup := {
  rg_conditions : list RequestCondition;
  rg_multiplier : jstr
}.

Record TierCondition := {
  tc_var : jstr;
  tc_op : jstr;
  tc_value : num
}.

(** The dynamic fields of a parsed tier are an object from field to price. *)
Record ParsedTier := {
  pt_label : jstr;
  pt_conditions : list TierCondition;
  pt_fields : list (jstr * num)
}.

(** ** Tier parser *)

Record StrippedExpr := { se_version : num; se_body : jstr }.

Definition version_re : rx :=
  rseq [RBol; RLit "v"; RCap 1 (rplus (RSet is_digit)); RLit ":";
        RCap 2 (RStar (RSet any_unit)); REol].

Definition stripExprVersion (exprStr : jstr) : StrippedExpr :=
  match exprStr with
  | [] => {| se_version := num_of_Z 1; se_body := [] |}
  | _ =>
      match rx_exec version_re exprStr with
      | Some m => {| se_version := num_of_string (group_or m 1); se_body := group_or m 2 |}
      | None => {| se_version := num_of_Z 1; se_body := exprStr |}
      end
  end.

Definition parseTierBody (bodyStr : jstr) : list (jstr * num) :=
  let coeffs :=
    fold_left
      (fun coeffs m =>
         if obj_has (group_or m 1) coeffs then coeffs
         else obj_set (group_or m 1) (num_of_string (group_or m 2)) coeffs)
      (rx_exec_all BILLING_VAR_REGEX bodyStr) [] in
  fold_left
    (fun tier vf => obj_set vf.2 (num_or (default nan (obj_get vf.1 coeffs)) nzero) tier)
    BILLING_VAR_KEY_TO_FIELD [].

(** [(?:p|c|len)\s*(?:<|<=|>|>=)\s*[\d.eE+]+] *)
Definition cond_vars : rx := rlits ["p"; "c"; "len"].
Definition cond_ops : rx := rlits ["<"; "<="; ">"; ">="].
Definition cond_atom : rx :=
  rseq [cond_vars; rspaces; cond_ops; rspaces; rplus (RSet cond_unit)].

Definition condGroup : rx :=
  RCap 1 (RSeq cond_atom (RStar (rseq [rspaces; RLit "&&"; rspaces; cond_atom]))).

Definition tier_re : rx :=
  rseq [ropt (rseq [condGroup; rspaces; RLit "?"; rspaces]);
        RLit (sq "tier('"); RCap 2 (RStar (RSet (not_unit 34))); RLit (sq "',"); rspaces;
        RCap 3 (rplus (RSet (not_unit 41))); RLit ")"].

(** [/\s*&&\s*/] *)
Definition and_re : rx := rseq [rspaces; RLit "&&"; rspaces].

(** [/^(p|c|len)\s*(<|<=|>|>=)\s*([\d.eE+]+)$/] *)
Definition cond_re : rx :=
  rseq [RBol; RCap 1 cond_vars; rspaces; RCap 2 cond_ops; rspaces;
        RCap 3 (rplus (RSet cond_unit)); REol].

Definition parse_tier_conditions (condStr : jstr) : list TierCondition :=
  match condStr with
  | [] => []
  | _ =>
      flat_map
        (fun cp =>
           match rx_exec cond_re (trim cp) with
           | Some cm =>
               [{| tc_var := group_or cm 1; tc_op := group_or cm 2;
                   tc_value := num_of_string (group_or cm 3) |}]
           | None => []
           end)
        (rx_split and_re condStr)
  end.

Definition parse_tier_match (m : mst) : ParsedTier :=
  {| pt_fields := parseTierBody (group_or m 3);
     pt_label := group_or m 2;
     pt_conditions := parse_tier_conditions (group_or m 1) |}.

Definition parseTiersFromExpr (exprStr : jstr) : list ParsedTier :=
  match exprStr with
  | [] => []
  | _ => map parse_tier_match (rx_exec_all tier_re (se_body (stripExprVersion exprStr)))
  end.

(** [/<[=＝]?|≤|＜[=＝]?/g] and its mirror image. *)
Definition opt_equals : rx := ropt (RSet (one_of "=＝")).
Definition less_re : rx :=
  ralts [RSeq (RLit "<") opt_equals; RLit "≤"; RSeq (RLit "＜") opt_equals].
Definition greater_re : rx :=
  ralts [RSeq (RLit ">") opt_equals; RLit "≥"; RSeq (RLit "＞") opt_equals].

Definition normalizeTierLabel (label : option jstr) : jstr :=
  match label with
  | None | Some [] => []
  | Some l =>
      toLowerCase
        (rx_replace_all (rplus (RSet is_space)) []
           (rx_replace_all greater_re ">" (rx_replace_all less_re "<" l)))
  end.

(** ** Request rule parser *)

Definition paren_depth (depth : Z) (c : N) : Z :=
  if (c =? 40)%N then (depth + 1)%Z else if (c =? 41)%N then (depth - 1)%Z else depth.

(** The scan of [splitTopLevelMultiply] and [splitTopLevelAnd]: [cur] is the
    current part, reversed; [skip] units of a separator are still to pass. *)
Fixpoint split_top (sep : jstr) (depth : Z) (skip : nat) (cur s : jstr) : list jstr :=
  match s with
  | [] => [trim (rev cur)]
  | c :: t =>
      match skip with
      | S k => split_top sep depth k cur t
      | O =>
          let depth' := paren_depth depth c in
          if (depth' =? 0)%Z && startsWith s sep
          then trim (rev cur) :: split_top sep depth' (length sep - 1) [] t
          else split_top sep depth' 0 (c :: cur) t
      end
  end.

Definition splitTopLevelMultiply (expr : jstr) : list jstr :=
  List.filter non_empty (split_top " * " 0 0 [] expr).

Definition splitTopLevelAnd (expr : jstr) : list jstr :=
  List.filter non_empty (split_top " && " 0 0 [] expr).

(** The result is whatever [JSON.parse] returns; [JNull] stands for [null]. *)
Definition parseExprLiteral (raw : jstr) : jsval :=
  let text := trim raw in
  if (text ==? "true") || (text ==? "false") then JStr text
  else if is_numeric_literal text then JStr text
  else match parse text with Some v => v | None => JNull end.

Definition time_range_body : list rx :=
  [RCap 1 (rlits TIME_FUNCS); RLit (sq "('"); RCap 2 (rplus (RSet (not_unit 34)));
   RLit (sq "') >= "); RCap 3 (rplus (RSet num_unit)); RLit " || ";
   RBack 1; RLit (sq "('"); RBack 2; RLit (sq "') < "); RCap 4 (rplus (RSet num_unit))].

Definition time_range_re : rx := rseq (RBol :: time_range_body ++ [REol]).
Definition time_range_paren_re : rx :=
  rseq (RBol :: RLit "(" :: time_range_body ++ [RLit ")"; REol]).
Definition time_cmp_re : rx :=
  rseq [RBol; RCap 1 (rlits TIME_FUNCS); RLit (sq "('"); RCap 2 (rplus (RSet (not_unit 34)));
        RLit (sq "') "); RCap 3 (rlits ["=="; ">="; "<"]); RLit " ";
        RCap 4 (rplus (RSet num_unit)); REol].

Definition range_condition (m : mst) : RequestCondition :=
  CondTime {| tm_timeFunc := group_or m 1; tm_timezone := group_or m 2; tm_mode := MATCH_RANGE;
              tm_value := []; tm_rangeStart := group_or m 3; tm_rangeEnd := group_or m 4 |}.

Definition time_op_mode (op : jstr) : jstr :=
  default [] (obj_get op [("==", MATCH_EQ); (">=", MATCH_GTE); ("<", MATCH_LT)]).

Definition tryParseTimeCondition (expr : jstr) : option RequestCondition :=
  match rx_exec time_range_re expr with
  | Some m => Some (range_condition m)
  | None =>
      match rx_exec time_range_paren_re expr with
      | Some m => Some (range_condition m)
      | None =>
          match rx_exec time_cmp_re expr with
          | Some m =>
              Some (CondTime
                {| tm_timeFunc := group_or m 1; tm_timezone := group_or m 2;
                   tm_mode := str_or (time_op_mode (group_or m 3)) MATCH_EQ;
                   tm_value := group_or m 4; tm_rangeStart := []; tm_rangeEnd := [] |})
          | None => None
          end
      end
  end.

(** [[^"]+] captured, and the string-literal pattern ["(?:[^"\\]|\\.)*"]. *)
Definition path_cap (n : nat) : rx := RCap n (rplus (RSet (not_unit 34))).
Definition string_re : rx :=
  rseq [RLit (sq "'");
        RStar (RAlt (RSet (fun c => negb (c =? 34)%N && negb (c =? 92)%N))
                    (RSeq (RLit backslash) (RSet dot_unit)));
        RLit (sq "'")].

Definition header_exists_re : rx :=
  rseq [RBol; RLit (sq "header('"); path_cap 1; RLit (sq "') != ''"); REol].
Definition param_exists_re : rx :=
  rseq [RBol; RLit (sq "param('"); path_cap 1; RLit (sq "') != nil"); REol].
Definition header_contains_re : rx :=
  rseq [RBol; RLit (sq "has(header('"); path_cap 1; RLit (sq "'), "); RCap 2 string_re;
        RLit ")"; REol].
Definition param_contains_re : rx :=
  rseq [RBol; RLit (sq "param('"); path_cap 1; RLit (sq "') != nil && has(param('");
        path_cap 2; RLit (sq "'), "); RCap 3 string_re; RLit ")"; REol].
Definition param_cmp_re : rx :=
  rseq [RBol; RLit (sq "param('"); path_cap 1; RLit (sq "') != nil && param('");
        path_cap 2; RLit (sq "') "); RCap 3 (rlits [">"; ">="; "<"; "<="]); RLit " ";
        RCap 4 (rplus (RSet num_unit)); REol].
Definition eq_re : rx :=
  rseq [RBol; RCap 1 (rlits ["param"; "header"]); RLit (sq "('"); path_cap 2;
        RLit (sq "') == "); RCap 3 (rplus (RSet dot_unit)); REol].

Definition ph source path mode value : RequestCondition :=
  CondParamHeader {| ph_source := source; ph_path := path; ph_mode := mode; ph_value := value |}.

Definition param_op_mode (op : jstr) : jstr :=
  default "undefined"
    (obj_get op [(">", MATCH_GT); (">=", MATCH_GTE); ("<", MATCH_LT); ("<=", MATCH_LTE)]).

(** [JSON.parse] of a matched string literal throws on a malformed escape. *)
Definition literal_string (text : jstr) : res jstr :=
  let* v := json_parse text in Ok (js_to_string v).

Definition tryParseRequestCondition (expr : jstr) : res (option RequestCondition) :=
  match tryParseTimeCondition expr with
  | Some tc => Ok (Some tc)
  | None =>
  match rx_exec header_exists_re expr with
  | Some m => Ok (Some (ph SOURCE_HEADER (group_or m 1) MATCH_EXISTS []))
  | None =>
  match rx_exec param_exists_re expr with
  | Some m => Ok (Some (ph SOURCE_PARAM (group_or m 1) MATCH_EXISTS []))
  | None =>
  match rx_exec header_contains_re expr with
  | Some m =>
      let* v := literal_string (group_or m 2) in
      Ok (Some (ph SOURCE_HEADER (group_or m 1) MATCH_CONTAINS v))
  | None =>
  let eq_case :=
    match rx_exec eq_re expr with
    | Some m =>
        match parseExprLiteral (group_or m 3) with
        | JNull => Ok None
        | v => Ok (Some (ph (group_or m 1) (group_or m 2) MATCH_EQ (js_to_string v)))
        end
    | None => Ok None
    end in
  let cmp_case :=
    match rx_exec param_cmp_re expr with
    | Some m =>
        if group_or m 1 ==? group_or m 2
        then Ok (Some (ph SOURCE_PARAM (group_or m 1) (param_op_mode (group_or m 3)) (group_or m 4)))
        else eq_case
    | None => eq_case
    end in
  match rx_exec param_contains_re expr with
  | Some m =>
      if group_or m 1 ==? group_or m 2
      then
        let* v := literal_string (group_or m 3) in
        Ok (Some (ph SOURCE_PARAM (group_or m 1) MATCH_CONTAINS v))
      else cmp_case
  | None => cmp_case
  end
  end end end end.

(** [/^\((.+) \? ([\d.eE+-]+) : 1\)$/s] *)
Definition factor_re : rx :=
  rseq [RBol; RLit "("; RCap 1 (rplus (RSet any_unit)); RLit " ? ";
        RCap 2 (rplus (RSet num_unit)); RLit " : 1)"; REol].

(** The loop over the conjuncts: [None] as soon as one is not a condition. *)
Fixpoint parse_conditions (parts : list jstr) : res (option (list RequestCondition)) :=
  match parts with
  | [] => Ok (Some [])
  | ap :: t =>
      let* cond := tryParseRequestCondition (trim ap) in
      match cond with
      | None => Ok None
      | Some c =>
          let* rest := parse_conditions t in
          Ok (option_map (cons c) rest)
      end
  end.

Definition tryParseRuleGroupFactor (part : jstr) : res (option RequestRuleGroup) :=
  match rx_exec factor_re part with
  | None => Ok None
  | Some m =>
      let* conditions := parse_conditions (splitTopLevelAnd (group_or m 1)) in
      match conditions with
      | None | Some [] => Ok None
      | Some cs => Ok (Some {| rg_conditions := cs; rg_multiplier := group_or m 2 |})
      end
  end.

Fixpoint parse_groups (parts : list jstr) : res (option (list RequestRuleGroup)) :=
  match parts with
  | [] => Ok (Some [])
  | part :: t =>
      let* group := tryParseRuleGroupFactor part in
      match group with
      | None => Ok None
      | Some g =>
          let* rest := parse_groups t in
          Ok (option_map (cons g) rest)
      end
  end.

Definition tryParseRequestRuleExpr (expr : jstr) : res (option (list RequestRuleGroup)) :=
  match trim expr with
  | [] => Ok (Some [])
  | trimmed => parse_groups (splitTopLevelMultiply trimmed)
  end.

(** ** Combine / split billing expr and request rules *)

Fixpoint outer_parens_go (depth : Z) (s : jstr) : bool :=
  match s with
  | [] => (depth =? 0)%Z
  | c :: t =>
      let depth' := paren_depth depth c in
      if (depth' =? 0)%Z && non_empty t then false else outer_parens_go depth' t
  end.

Definition hasFullOuterParens (expr : jstr) : bool :=
  if negb (startsWith expr "(") || negb (endsWith expr ")") then false
  else outer_parens_go 0 expr.

(** Each round removes two units: the length is enough fuel. *)
Fixpoint unwrap_go (fuel : nat) (current : jstr) : jstr :=
  match fuel with
  | O => current
  | S f =>
      if hasFullOuterParens current then unwrap_go f (trim (slice_inner current)) else current
  end.

Definition unwrapOuterParens (expr : jstr) : jstr := unwrap_go (length expr) (trim expr).

Record SplitExpr := { sp_billingExpr : jstr; sp_requestRuleExpr : jstr }.

(** The [forEach] that sorts the factors into rules and base expressions. *)
Fixpoint sort_parts (parts : list jstr) : res (list jstr * list jstr) :=
  match parts with
  | [] => Ok ([], [])
  | part :: t =>
      let* parsed := tryParseRequestRuleExpr part in
      let* rest := sort_parts t in
      let '(rules, bases) := rest in
      match parsed with
      | Some (_ :: _) => Ok (part :: rules, bases)
      | _ => Ok (rules, part :: bases)
      end
  end.

Definition splitBillingExprAndRequestRules (expr : jstr) : res SplitExpr :=
  match trim expr with
  | [] => Ok {| sp_billingExpr := []; sp_requestRuleExpr := [] |}
  | trimmed =>
      let whole := {| sp_billingExpr := trimmed; sp_requestRuleExpr := [] |} in
      let parts := splitTopLevelMultiply trimmed in
      if (length parts <=? 1)%nat then Ok whole
      else
        let* sorted := sort_parts parts in
        match sorted with
        | ((_ :: _) as ruleParts, [base]) =>
            Ok {| sp_billingExpr := unwrapOuterParens base;
                  sp_requestRuleExpr := join " * " ruleParts |}
        | _ => Ok whole
        end
  end.

Definition combineBillingExpr (baseExpr requestRuleExpr : jstr) : jstr :=
  let base := trim baseExpr in
  let rules := trim requestRuleExpr in
  match base, rules with
  | [], _ => []
  | _, [] => base
  | _, _ => "(" ++ base ++ ") * " ++ rules
  end.

(** ** Editor: empty constructors *)

Definition createEmptyCondition : ParamHeaderCondition :=
  {| ph_source := "param"; ph_path := []; ph_mode := MATCH_EQ; ph_value := [] |}.

Definition createEmptyTimeCondition : TimeCondition :=
  {| tm_timeFunc := "hour"; tm_timezone := "Asia/Shanghai"; tm_mode := MATCH_GTE;
     tm_value := []; tm_rangeStart := []; tm_rangeEnd := [] |}.

Definition createEmptyRuleGroup : RequestRuleGroup :=
  {| rg_conditions := [CondParamHeader createEmptyCondition]; rg_multiplier := [] |}.

Definition createEmptyTimeRuleGroup : RequestRuleGroup :=
  {| rg_conditions := [CondTime createEmptyTimeCondition]; rg_multiplier := [] |}.

(** ** Editor: match options and normalisation *)

Record MatchOption := { mo_value : jstr; mo_labelKey : jstr }.

Definition opt value labelKey : MatchOption := {| mo_value := value; mo_labelKey := labelKey |}.

Definition getRequestRuleMatchOptions (source : jstr) : list MatchOption :=
  if source ==? SOURCE_TIME then
    [opt MATCH_EQ "Equals"; opt MATCH_GTE "Greater than or equal";
     opt MATCH_LT "Less than"; opt MATCH_RANGE "Overnight range"]
  else
    let base := [opt MATCH_EQ "Equals"; opt MATCH_CONTAINS "Contains"; opt MATCH_EXISTS "Exists"] in
    if source ==? SOURCE_HEADER then base
    else base ++ [opt MATCH_GT "Greater than"; opt MATCH_GTE "Greater than or equal";
                  opt MATCH_LT "Less than"; opt MATCH_LTE "Less than or equal"].

Definition isTimeFunc (value : option jstr) : bool :=
  match value with Some v => bool_decide (v ∈ TIME_FUNCS) | None => false end.

(** [Partial<RequestCondition>]: every field may be missing. *)
Record PartialCondition := {
  pc_source : option jstr;
  pc_path : option jstr;
  pc_timeFunc : option jstr;
  pc_timezone : option jstr;
  pc_mode : option jstr;
  pc_value : option jstr;
  pc_rangeStart : option jstr;
  pc_rangeEnd : option jstr
}.

Definition no_condition : PartialCondition :=
  {| pc_source := None; pc_path := None; pc_timeFunc := None; pc_timezone := None;
     pc_mode := None; pc_value := None; pc_rangeStart := None; pc_rangeEnd := None |}.

Definition to_partial (c : RequestCondition) : PartialCondition :=
  match c with
  | CondTime t =>
      {| pc_source := Some SOURCE_TIME; pc_path := None;
         pc_timeFunc := Some (tm_timeFunc t); pc_timezone := Some (tm_timezone t);
         pc_mode := Some (tm_mode t); pc_value := Some (tm_value t);
         pc_rangeStart := Some (tm_rangeStart t); pc_rangeEnd := Some (tm_rangeEnd t) |}
  | CondParamHeader p =>
      {| pc_source := Some (ph_source p); pc_path := Some (ph_path p);
         pc_timeFunc := None; pc_timezone := None;
         pc_mode := Some (ph_mode p); pc_value := Some (ph_value p);
         pc_rangeStart := None; pc_rangeEnd := None |}
  end.

Definition has_option (options : list MatchOption) (mode : option jstr) : bool :=
  existsb (fun item => Some (mo_value item) ==? mode) options.

(** [None] is [null] or [undefined]. *)
Definition normalizeCondition (cond : option PartialCondition) : RequestCondition :=
  let c := default no_condition cond in
  let source :=
    if pc_source c ==? Some "time" then SOURCE_TIME
    else if pc_source c ==? Some "header" then SOURCE_HEADER
    else SOURCE_PARAM in
  let options := getRequestRuleMatchOptions source in
  if source ==? SOURCE_TIME then
    CondTime
      {| tm_timeFunc := if isTimeFunc (pc_timeFunc c) then default [] (pc_timeFunc c) else "hour";
         tm_timezone := str_or (default [] (pc_timezone c)) "Asia/Shanghai";
         tm_mode := if has_option options (pc_mode c) then default [] (pc_mode c) else MATCH_GTE;
         tm_value := default [] (pc_value c);
         tm_rangeStart := default [] (pc_rangeStart c);
         tm_rangeEnd := default [] (pc_rangeEnd c) |}
  else
    CondParamHeader
      {| ph_source := source;
         ph_path := default [] (pc_path c);
         ph_mode := if has_option options (pc_mode c) then default [] (pc_mode c) else MATCH_EQ;
         ph_value := default [] (pc_value c) |}.

(** ** Editor: build expression strings *)

Definition buildExprLiteral (mode value : jstr) : jstr :=
  let text := trim value in
  if mode ==? MATCH_CONTAINS then quote text
  else if (text ==? "true") || (text ==? "false") then text
  else if is_numeric_literal text then text
  else quote text.

Definition time_mode_op (mode : jstr) : jstr :=
  default [] (obj_get mode [(MATCH_EQ, "=="); (MATCH_GTE, ">="); (MATCH_LT, "<")]).

Definition time_expr (t : TimeCondition) : jstr :=
  let fn := tm_timeFunc t ++ "(" ++ quote (tm_timezone t) ++ ")" in
  if tm_mode t ==? MATCH_RANGE then
    let s := trim (tm_rangeStart t) in
    let e := trim (tm_rangeEnd t) in
    if negb (is_numeric_literal s) || negb (is_numeric_literal e) then []
    else fn ++ " >= " ++ s ++ " || " ++ fn ++ " < " ++ e
  else
    let v := trim (tm_value t) in
    if negb (is_numeric_literal v) then []
    else fn ++ " " ++ str_or (time_mode_op (tm_mode t)) "==" ++ " " ++ v.

Definition buildTimeConditionExpr (cond : TimeCondition) : jstr :=
  match normalizeCondition (Some (to_partial (CondTime cond))) with
  | CondTime t => time_expr t
  | CondParamHeader _ => []
  end.

Definition param_mode_op (mode : jstr) : option jstr :=
  obj_get mode [(MATCH_GT, ">"); (MATCH_GTE, ">="); (MATCH_LT, "<"); (MATCH_LTE, "<=")].

Definition param_header_expr (p : ParamHeaderCondition) : jstr :=
  match trim (ph_path p) with
  | [] => []
  | path =>
      let header := ph_source p ==? "header" in
      let sourceExpr :=
        if header then "header(" ++ quote path ++ ")" else "param(" ++ quote path ++ ")" in
      if ph_mode p ==? MATCH_EXISTS then
        if header then sourceExpr ++ sq " != ''" else sourceExpr ++ " != nil"
      else if ph_mode p ==? MATCH_CONTAINS then
        let has := "has(" ++ sourceExpr ++ ", " ++ buildExprLiteral (ph_mode p) (ph_value p) ++ ")" in
        if header then has else sourceExpr ++ " != nil && " ++ has
      else
        match param_mode_op (ph_mode p) with
        | Some op =>
            let numText := trim (ph_value p) in
            if negb (is_numeric_literal numText) then []
            else sourceExpr ++ " != nil && " ++ sourceExpr ++ " " ++ op ++ " " ++ numText
        | None => sourceExpr ++ " == " ++ buildExprLiteral (ph_mode p) (ph_value p)
        end
  end.

Definition buildRequestConditionExpr (cond : RequestCondition) : jstr :=
  match cond with
  | CondTime t => buildTimeConditionExpr t
  | CondParamHeader _ =>
      match normalizeCondition (Some (to_partial cond)) with
      | CondParamHeader p => param_header_expr p
      | CondTime _ => []
      end
  end.

Definition paren_or (e : jstr) : jstr := if includes e " || " then "(" ++ e ++ ")" else e.

Definition buildRuleGroupFactor (group : RequestRuleGroup) : jstr :=
  let multiplier := trim (rg_multiplier group) in
  if negb (is_numeric_literal multiplier) then []
  else
    let condExprs := List.filter non_empty (map buildRequestConditionExpr (rg_conditions group)) in
    match condExprs with
    | [] => []
    | [e] => "(" ++ e ++ " ? " ++ multiplier ++ " : 1)"
    | _ => "(" ++ join " && " (map paren_or condExprs) ++ " ? " ++ multiplier ++ " : 1)"
    end.

Definition buildRequestRuleExpr (groups : list RequestRuleGroup) : jstr :=
  join " * " (List.filter non_empty (map buildRuleGroupFactor groups)).
