(* ===== verification/BillingRoundtrip.v ===== *)
(** * The request-rule builder and parser are inverse on canonical rules

    Companion of [BillingExpr]: which groups survive
    [tryParseRequestRuleExpr (buildRequestRuleExpr _)], and which do not. *)
From S2P Require Import Prelude JsString JsNumber JsValue Regex Json BillingExpr.

(** ** Canonical conditions

    Units that neither a string literal, a conjunction nor a parenthesis scan
    can mistake for syntax. *)
Definition plain_unit (c : N) : bool :=
  ((32 <=? c) && (c <? 65536))%N
  && negb (existsb (N.eqb c) [34; 38; 40; 41; 92; 124; 8232; 8233]%N)
  && negb (is_high c) && negb (is_low c).

Definition plain (s : jstr) : bool := forallb plain_unit s.
Definition plain_text (s : jstr) : bool := plain s && trimmed s.

Definition canonical_time (t : TimeCondition) : bool :=
  bool_decide (tm_timeFunc t ∈ TIME_FUNCS)
  && non_empty (tm_timezone t) && plain (tm_timezone t)
  && (if tm_mode t ==? MATCH_RANGE then
        (tm_value t ==? []) && is_numeric_literal (tm_rangeStart t)
        && is_numeric_literal (tm_rangeEnd t)
      else
        bool_decide (tm_mode t ∈ [MATCH_EQ; MATCH_GTE; MATCH_LT])
        && is_numeric_literal (tm_value t)
        && (tm_rangeStart t ==? []) && (tm_rangeEnd t ==? [])).

Definition canonical_ph (p : ParamHeaderCondition) : bool :=
  bool_decide (ph_source p ∈ [SOURCE_PARAM; SOURCE_HEADER])
  && non_empty (ph_path p) && plain_text (ph_path p)
  && (if ph_mode p ==? MATCH_EXISTS then ph_value p ==? []
      else if ph_mode p ==? MATCH_CONTAINS then
        (ph_source p ==? SOURCE_HEADER) && plain_text (ph_value p)
      else (ph_mode p ==? MATCH_EQ) && plain_text (ph_value p)).

Definition canonical_condition (c : RequestCondition) : bool :=
  match c with
  | CondTime t => canonical_time t
  | CondParamHeader p => canonical_ph p
  end.

Definition canonical_group (g : RequestRuleGroup) : bool :=
  is_numeric_literal (rg_multiplier g)
  && match rg_conditions g with [] => false | _ => true end
  && forallb canonical_condition (rg_conditions g).

(** ** Numeric literals *)

Lemma digit_num_unit c : is_digit c = true -> num_unit c = true.
Proof. unfold num_unit. by intros ->. Qed.

Lemma numeric_units s : is_numeric_literal s = true -> forallb num_unit s = true.
Proof.
  apply (rx_test_only num_unit).
  - cbn. repeat split; try apply digit_num_unit; try done.
    all: intros c; unfold num_unit, one_of; cbn; rewrite !orb_true_iff; naive_solver.
  - done.
Qed.

Lemma numeric_nonempty s : is_numeric_literal s = true -> s <> [].
Proof. by intros H ->. Qed.

Lemma num_unit_range c :
  num_unit c = true ->
  (c = 43 \/ c = 45 \/ c = 46 \/ c = 69 \/ c = 101 \/ (48 <= c /\ c <= 57))%N.
Proof.
  unfold num_unit, is_digit, one_of. cbn [existsb].
  rewrite !orb_true_iff, andb_true_iff, !N.eqb_eq, !N.leb_le. naive_solver lia.
Qed.

Lemma num_unit_not_space c : num_unit c = true -> is_space c = false.
Proof.
  intros H%num_unit_range. unfold is_space.
  rewrite !orb_false_iff, !andb_false_iff, !N.eqb_neq, !N.leb_gt. lia.
Qed.

Lemma plain_unit_props c :
  plain_unit c = true ->
  (32 <= c /\ c < 65536 /\ c <> 34 /\ c <> 38 /\ c <> 40 /\ c <> 41 /\ c <> 92 /\ c <> 124
   /\ c <> 8232 /\ c <> 8233)%N /\ is_high c = false /\ is_low c = false.
Proof.
  unfold plain_unit. cbn [existsb]. rewrite !orb_false_r. intros H. bools.
  rewrite ?orb_false_iff in *. bools. naive_solver.
Qed.

Lemma forallb_impl {A} (p q : A -> bool) l :
  (forall x, p x = true -> q x = true) -> forallb p l = true -> forallb q l = true.
Proof. intros H. rewrite !forallb_forall. eauto. Qed.

Lemma trimmed_no_space s : forallb (fun c => negb (is_space c)) s = true -> trimmed s = true.
Proof.
  intros H. unfold trimmed. destruct s as [|c t]; [done|].
  rewrite forallb_forall in H. rewrite (H c) by (by left).
  destruct (rev (c :: t)) as [|d u] eqn:E; [done|]. rewrite (H d); [done|].
  apply in_rev. rewrite E. by left.
Qed.

Lemma numeric_trimmed s : is_numeric_literal s = true -> trimmed s = true.
Proof.
  intros H%numeric_units. apply trimmed_no_space. revert H. apply forallb_impl.
  intros c H. by rewrite num_unit_not_space.
Qed.

Lemma numeric_trim s : is_numeric_literal s = true -> trim s = s.
Proof. intros H. apply trim_id, numeric_trimmed, H. Qed.

(** ** Quoting plain strings *)

Lemma quote_go_plain b s : plain s = true -> quote_go b s = s.
Proof.
  revert b; induction s as [|c s IH]; intros b H; [done|]. unfold plain in H. cbn in H. bools.
  pose proof (plain_unit_props c H) as (Hc & Hh & Hl). cbn [quote_go].
  rewrite Hh, Hl. cbn [negb andb orb]. rewrite orb_false_r.
  assert (must_escape c = false) as ->.
  { unfold must_escape. rewrite !orb_false_iff, N.ltb_ge, !N.eqb_neq. lia. }
  cbn [app]. by rewrite IH.
Qed.

Lemma quote_plain s : plain s = true -> quote s = dquote ++ s ++ dquote.
Proof. intros H. unfold quote. by rewrite quote_go_plain. Qed.

Lemma plain_str_ok s : plain s = true -> str_ok s = true.
Proof.
  apply forallb_impl. intros c H%plain_unit_props. apply N.ltb_lt. lia.
Qed.

Lemma parse_quote_plain s : plain s = true -> parse (dquote ++ s ++ dquote) = Some (JStr s).
Proof.
  intros H. rewrite <- quote_plain by done. apply (parse_ser [] (JStr s)); [done| |done].
  by apply plain_str_ok.
Qed.

Lemma plain_not_quote s : plain s = true -> forallb (not_unit 34) s = true.
Proof.
  apply forallb_impl. intros c H%plain_unit_props. unfold not_unit.
  rewrite negb_true_iff, N.eqb_neq. lia.
Qed.

Lemma plain_dot s : plain s = true -> forallb dot_unit s = true.
Proof.
  apply forallb_impl. intros c H%plain_unit_props. unfold dot_unit, is_line_terminator.
  rewrite negb_true_iff, !orb_false_iff, !N.eqb_neq. lia.
Qed.

(** ** One regular expression at a time *)

Lemma non_empty_ne s : non_empty s = true -> s <> [].
Proof. by destruct s. Qed.

Lemma sq_app a b : sq (a ++ b) = sq a ++ sq b.
Proof. apply map_app. Qed.

#[export] Hint Resolve plain_not_quote plain_dot numeric_units numeric_nonempty non_empty_ne : core.

Definition no_unit (x : N) (s : jstr) : bool := forallb (not_unit x) s.

(** The string-literal pattern on a body without quotes and backslashes. *)
Lemma string_star_run pre body rest caps :
  no_unit 34 body = true -> no_unit 92 (body ++ rest) = true ->
  rx_run (RStar (RAlt (RSet (fun c => negb (c =? 34)%N && negb (c =? 92)%N))
                      (RSeq (RLit backslash) (RSet dot_unit))))
         (MSt pre (body ++ rest) caps)
  = rx_run (RStar (RSet (not_unit 34))) (MSt pre (body ++ rest) caps).
Proof.
  intros _ H. cbn [rx_run ms_suf].
  apply (star_run_ext (fun s => no_unit 92 s = true)); [| |done].
  - intros [p [|c t] k] Hs; [done|]. cbn in Hs. bools. unfold not_unit in *. bools.
    cbn [ms_suf] in *.
    change (set_run (fun c => negb (c =? 34)%N && negb (c =? 92)%N) (MSt p (c :: t) k)
            ++ rx_run (RSeq (RLit backslash) (RSet dot_unit)) (MSt p (c :: t) k)
            = set_run (fun c => negb (c =? 34)%N) (MSt p (c :: t) k)).
    rewrite run_lit_seq_fail, app_nil_r.
    + unfold set_run. cbn [ms_suf]. destruct (N.eqb_spec c 92); [done|].
      by rewrite andb_true_r.
    + unfold startsWith, backslash. cbn [strip_prefix]. destruct (N.eqb_spec 92 c); [by subst|done].
  - intros [p [|c t] k] st' Hs; [done|]. cbn in *. bools. unfold set_run. cbn.
    destruct (not_unit 34 c); [|done]. intros [<-|[]]. done.
Qed.

Lemma run_string_cap n b body rest pre caps :
  no_unit 34 body = true -> no_unit 92 body = true -> no_unit 92 rest = true ->
  rx_run (RSeq (RCap n string_re) b) (MSt pre (dquote ++ body ++ dquote ++ rest) caps)
  = rx_run b (MSt (rev (dquote ++ body ++ dquote) ++ pre) rest ((n, dquote ++ body ++ dquote) :: caps)).
Proof.
  intros H1 H2 H3. rewrite run_cap. unfold string_re. cbn [rseq].
  change (sq "'") with dquote. rewrite run_lit_seq, run_seq.
  rewrite (string_star_run _ body (dquote ++ rest)); [|done|].
  2: { unfold no_unit in *. rewrite !forallb_app, H2, H3. done. }
  rewrite <- run_seq, run_star_seq; [|done|done|by apply rejects_lit].
  rewrite run_lit, flat_map_singleton.
  replace (dquote ++ body ++ dquote ++ rest) with ((dquote ++ body ++ dquote) ++ rest)
    by (by rewrite <- !app_assoc).
  rewrite cap_set_lit. f_equal. f_equal. rewrite !rev_app_distr, <- !app_assoc. done.
Qed.

(** A pattern that starts with a captured alternative fails on other strings. *)
Lemma run_cap_lits_none n l b st :
  forallb (fun s => negb (startsWith (ms_suf st) s)) l = true ->
  rx_run (RSeq (RCap n (rlits l)) b) st = [].
Proof.
  intros H. rewrite run_cap. replace (rx_run (rlits l) st) with (@nil mst); [done|].
  symmetry. destruct st as [pre suf caps]. cbn [ms_suf] in H.
  induction l as [|a l IH]; [by destruct suf|]. cbn in H. bools. unfold rlits in *.
  destruct l as [|b' l]; [by apply run_lit_fail|].
  cbn [map ralts]. change (rx_run (RLit a) (MSt pre suf caps)
    ++ rx_run (ralts (map RLit (b' :: l))) (MSt pre suf caps) = []).
  rewrite run_lit_fail by done. by apply IH.
Qed.

(** Run an anchored pattern over a string given as a chain of pieces. *)
Ltac rx_side := first [done | solve [auto] | apply rejects_seq, rejects_lit; reflexivity | apply rejects_eol].
Ltac rx_cap := unfold path_cap; rewrite run_cap_plus by rx_side.
Ltac rx_cap_end := rewrite run_cap_plus_end by rx_side.
Ltac rx_lit := rewrite run_lit_seq.
Ltac rx_miss := first [rewrite run_lit_seq_fail by reflexivity | rewrite run_lit_fail by reflexivity
                      | rewrite run_cap_lits_none by reflexivity].
Ltac rx_open :=
  match goal with
  | |- context [rx_exec ?r ?s] =>
      let r' := eval cbn [rseq app time_range_body] in r in
      change (rx_exec r s) with (rx_exec r' s); rewrite rx_exec_bol
  end.

(** *** What the time patterns answer *)

Lemma time_func_cases (P : jstr -> Prop) f :
  f ∈ TIME_FUNCS -> P "hour" -> P "minute" -> P "weekday" -> P "month" -> P "day" -> P f.
Proof.
  intros H ?????. repeat (apply elem_of_cons in H as [->|H]; [done|]). by apply elem_of_nil in H.
Qed.

Lemma time_func_step n b f pre rest caps :
  f ∈ TIME_FUNCS ->
  rx_run (RSeq (RCap n (rlits TIME_FUNCS)) b) (MSt pre (f ++ "(" ++ rest) caps)
  = rx_run b (MSt (rev f ++ pre) ("(" ++ rest) ((n, f) :: caps)).
Proof.
  intros Hf. apply run_cap_lits; [done| |].
  - unfold TIME_FUNCS. repeat (constructor; [set_solver|]). constructor.
  - apply (time_func_cases (fun f => forall s', s' ∈ TIME_FUNCS -> s' <> f ->
      startsWith (f ++ "(" ++ rest) s' = false) f Hf);
      intros s' Hs'; apply (time_func_cases (fun s' => s' <> _ -> startsWith _ s' = false) s' Hs'); done.
Qed.

Section TimePatterns.
Context (f tz : jstr).
Context (Hf : f ∈ TIME_FUNCS) (Hne : non_empty tz = true) (Htz : plain tz = true).

Lemma time_range_hit s e :
  is_numeric_literal s = true -> is_numeric_literal e = true ->
  exists m,
    rx_exec time_range_re
      (f ++ sq "('" ++ tz ++ sq "') >= " ++ s ++ " || " ++ f ++ sq "('" ++ tz ++ sq "') < " ++ e)
    = Some m
    /\ range_condition m
       = CondTime {| tm_timeFunc := f; tm_timezone := tz; tm_mode := MATCH_RANGE;
                     tm_value := []; tm_rangeStart := s; tm_rangeEnd := e |}.
Proof.
  intros Hs He. unfold time_range_re. rx_open.
  change (sq "('" ++ ?x) with ("(" ++ dquote ++ x).
  rewrite time_func_step by done. change ("(" ++ dquote ++ ?x) with (sq "('" ++ x).
  rx_lit. rx_cap. rx_lit. rx_cap. rx_lit. rewrite run_back_seq by reflexivity.
  rx_lit. rewrite run_back_seq by reflexivity. rx_lit.
  rx_cap_end.
  eexists. split; reflexivity.
Qed.

Lemma time_range_paren_hit s e :
  is_numeric_literal s = true -> is_numeric_literal e = true ->
  exists m,
    rx_exec time_range_paren_re
      ("(" ++ f ++ sq "('" ++ tz ++ sq "') >= " ++ s ++ " || "
       ++ f ++ sq "('" ++ tz ++ sq "') < " ++ e ++ ")")
    = Some m
    /\ range_condition m
       = CondTime {| tm_timeFunc := f; tm_timezone := tz; tm_mode := MATCH_RANGE;
                     tm_value := []; tm_rangeStart := s; tm_rangeEnd := e |}.
Proof.
  intros Hs He. unfold time_range_paren_re. rx_open. rx_lit.
  change (sq "('" ++ ?x) with ("(" ++ dquote ++ x).
  rewrite time_func_step by done. change ("(" ++ dquote ++ ?x) with (sq "('" ++ x).
  rx_lit. rx_cap. rx_lit. rx_cap. rx_lit. rewrite run_back_seq by reflexivity.
  rx_lit. rewrite run_back_seq by reflexivity. rx_lit. rx_cap.
  rewrite <- (app_nil_r ")"). rx_lit.
  eexists. split; reflexivity.
Qed.

Lemma func_not_paren x : startsWith (f ++ x) "(" = false.
Proof. by apply (time_func_cases (fun f => startsWith (f ++ x) "(" = false) f Hf). Qed.

Lemma time_paren_miss x : rx_exec time_range_paren_re (f ++ x) = None.
Proof.
  unfold time_range_paren_re. rx_open.
  rewrite run_lit_seq_fail by apply func_not_paren. done.
Qed.

Lemma time_range_miss op v :
  op ∈ ["=="; ">="; "<"] -> is_numeric_literal v = true ->
  rx_exec time_range_re (f ++ sq "('" ++ tz ++ sq "') " ++ op ++ " " ++ v) = None.
Proof.
  intros Hop Hv. unfold time_range_re. rx_open.
  change (sq "('" ++ ?x) with ("(" ++ dquote ++ x).
  rewrite time_func_step by done. change ("(" ++ dquote ++ ?x) with (sq "('" ++ x).
  rx_lit. rx_cap.
  repeat (apply elem_of_cons in Hop as [->|Hop]); [by rx_miss| |by rx_miss|by apply elem_of_nil in Hop].
  change (sq "') " ++ ">=" ++ " " ++ v) with (sq "') >= " ++ v). rx_lit.
  rx_cap_end. by rx_miss.
Qed.

Lemma time_cmp_hit op v :
  op ∈ ["=="; ">="; "<"] -> is_numeric_literal v = true ->
  exists m,
    rx_exec time_cmp_re (f ++ sq "('" ++ tz ++ sq "') " ++ op ++ " " ++ v) = Some m
    /\ group_or m 1 = f /\ group_or m 2 = tz /\ group_or m 3 = op /\ group_or m 4 = v.
Proof.
  intros Hop Hv. unfold time_cmp_re. rx_open.
  change (sq "('" ++ ?x) with ("(" ++ dquote ++ x).
  rewrite time_func_step by done. change ("(" ++ dquote ++ ?x) with (sq "('" ++ x).
  rx_lit. rx_cap. rx_lit. rewrite run_cap_lits; [|done| |].
  - rx_lit. rx_cap_end. eexists. split; [reflexivity|]. done.
  - repeat (constructor; [set_solver|]). constructor.
  - intros s' Hs' Hne'.
    repeat (apply elem_of_cons in Hop as [->|Hop]); try by apply elem_of_nil in Hop.
    all: repeat (apply elem_of_cons in Hs' as [->|Hs']); try by apply elem_of_nil in Hs'.
    all: done.
Qed.
End TimePatterns.

Lemma no_time e :
  forallb (fun f => negb (startsWith e f)) ("(" :: TIME_FUNCS) = true ->
  tryParseTimeCondition e = None.
Proof.
  intros H. assert (startsWith e "(" = false) as Hp by (cbn [forallb] in H; bools; done).
  assert (forallb (fun f => negb (startsWith e f)) TIME_FUNCS = true) as Ht
    by (cbn [forallb] in H; bools; done).
  unfold tryParseTimeCondition, time_range_re, time_range_paren_re, time_cmp_re.
  cbn [rseq app time_range_body]. rewrite !rx_exec_bol.
  rewrite !(run_cap_lits_none 1 TIME_FUNCS) by done. by rewrite run_lit_seq_fail.
Qed.

(** *** Time conditions, as [tryParseTimeCondition] reads them *)

Lemma parse_time_range f tz s e :
  f ∈ TIME_FUNCS -> non_empty tz = true -> plain tz = true ->
  is_numeric_literal s = true -> is_numeric_literal e = true ->
  let body := f ++ sq "('" ++ tz ++ sq "') >= " ++ s ++ " || " ++ f ++ sq "('" ++ tz ++ sq "') < " ++ e in
  let c := CondTime {| tm_timeFunc := f; tm_timezone := tz; tm_mode := MATCH_RANGE;
                       tm_value := []; tm_rangeStart := s; tm_rangeEnd := e |} in
  tryParseTimeCondition body = Some c /\ tryParseTimeCondition ("(" ++ body ++ ")") = Some c.
Proof.
  intros Hf Hne Htz Hs He body c. unfold tryParseTimeCondition. split.
  - destruct (time_range_hit f tz Hf Hne Htz s e Hs He) as (m & Hm & Hc).
    unfold body. by rewrite Hm, Hc.
  - replace (rx_exec time_range_re ("(" ++ body ++ ")")) with (@None mst).
    2: { symmetry. unfold time_range_re. rx_open. by rx_miss. }
    destruct (time_range_paren_hit f tz Hf Hne Htz s e Hs He) as (m & Hm & Hc).
    replace ("(" ++ body ++ ")")
      with ("(" ++ f ++ sq "('" ++ tz ++ sq "') >= " ++ s ++ " || "
            ++ f ++ sq "('" ++ tz ++ sq "') < " ++ e ++ ")")
      by (unfold body; rewrite <- !app_assoc; done).
    by rewrite Hm, Hc.
Qed.

Lemma parse_time_cmp f tz op v :
  f ∈ TIME_FUNCS -> non_empty tz = true -> plain tz = true ->
  op ∈ ["=="; ">="; "<"] -> is_numeric_literal v = true ->
  tryParseTimeCondition (f ++ sq "('" ++ tz ++ sq "') " ++ op ++ " " ++ v)
  = Some (CondTime {| tm_timeFunc := f; tm_timezone := tz;
                      tm_mode := str_or (time_op_mode op) MATCH_EQ;
                      tm_value := v; tm_rangeStart := []; tm_rangeEnd := [] |}).
Proof.
  intros Hf Hne Htz Hop Hv. unfold tryParseTimeCondition.
  rewrite time_range_miss, time_paren_miss by done.
  by destruct (time_cmp_hit f tz Hf Hne Htz op v Hop Hv) as (m & -> & -> & -> & -> & ->).
Qed.

(** *** Header and parameter conditions *)

Section PathPatterns.
Context (path : jstr) (Hne : non_empty path = true) (Hp : plain path = true).

Lemma parse_header_exists :
  tryParseRequestCondition (sq "header('" ++ path ++ sq "') != ''")
  = Ok (Some (ph SOURCE_HEADER path MATCH_EXISTS [])).
Proof.
  unfold tryParseRequestCondition. rewrite no_time by reflexivity.
  unfold header_exists_re. rx_open. rx_lit. rx_cap.
  rewrite <- (app_nil_r (sq "') != ''")). rx_lit. reflexivity.
Qed.

Lemma parse_param_exists :
  tryParseRequestCondition (sq "param('" ++ path ++ sq "') != nil")
  = Ok (Some (ph SOURCE_PARAM path MATCH_EXISTS [])).
Proof.
  unfold tryParseRequestCondition. rewrite no_time by reflexivity.
  unfold header_exists_re. rx_open. rx_miss. cbn [head].
  unfold param_exists_re. rx_open. rx_lit. rx_cap.
  rewrite <- (app_nil_r (sq "') != nil")). rx_lit. reflexivity.
Qed.

Lemma parse_header_contains value :
  plain value = true ->
  tryParseRequestCondition (sq "has(header('" ++ path ++ sq "'), " ++ dquote ++ value ++ dquote ++ ")")
  = Ok (Some (ph SOURCE_HEADER path MATCH_CONTAINS value)).
Proof.
  intros Hv. unfold tryParseRequestCondition. rewrite no_time by reflexivity.
  unfold header_exists_re. rx_open. rx_miss. cbn [head].
  unfold param_exists_re. rx_open. rx_miss. cbn [head].
  unfold header_contains_re. rx_open. rx_lit. rx_cap. rx_lit.
  rewrite run_string_cap; [|by apply plain_not_quote| |done].
  2: { revert Hv. apply forallb_impl. intros c H%plain_unit_props. unfold not_unit.
       rewrite negb_true_iff, N.eqb_neq. lia. }
  rewrite <- (app_nil_r ")"). rx_lit. rewrite run_eol. cbn [head].
  change (group_or _ 2) with (dquote ++ value ++ dquote).
  unfold literal_string, json_parse. by rewrite parse_quote_plain.
Qed.

(** Every pattern before the equality one misses an equality. *)
Lemma parse_eq src lit :
  src ∈ [SOURCE_PARAM; SOURCE_HEADER] -> lit <> [] -> forallb dot_unit lit = true ->
  tryParseRequestCondition (src ++ sq "('" ++ path ++ sq "') == " ++ lit)
  = match parseExprLiteral lit with
    | JNull => Ok None
    | v => Ok (Some (ph src path MATCH_EQ (js_to_string v)))
    end.
Proof.
  intros Hsrc Hl Hd. unfold tryParseRequestCondition.
  assert (rx_exec eq_re (src ++ sq "('" ++ path ++ sq "') == " ++ lit)
          = Some (MSt (rev lit ++ rev (sq "') == ") ++ rev path ++ rev (sq "('") ++ rev src) []
                    [(3, lit); (2, path); (1, src)])) as Heq.
  { unfold eq_re. rx_open. rewrite run_cap_lits.
    - rewrite app_nil_r. rx_lit. rx_cap. rx_lit. rx_cap_end. reflexivity.
    - set_solver.
    - repeat (constructor; [set_solver|]). constructor.
    - intros s' Hs' Hn. repeat (apply elem_of_cons in Hsrc as [->|Hsrc]); try by apply elem_of_nil in Hsrc.
      all: repeat (apply elem_of_cons in Hs' as [->|Hs']); try by apply elem_of_nil in Hs'.
      all: done. }
  rewrite Heq. cbn zeta.
  repeat (apply elem_of_cons in Hsrc as [->|Hsrc]); try by apply elem_of_nil in Hsrc.
  - change (SOURCE_PARAM ++ sq "('" ++ ?x) with (sq "param('" ++ x).
    rewrite no_time by reflexivity.
    unfold header_exists_re. rx_open. rx_miss. cbn [head].
    unfold param_exists_re. rx_open. rx_lit. rx_cap. rx_miss. cbn [head].
    unfold header_contains_re. rx_open. rx_miss. cbn [head].
    unfold param_contains_re. rx_open. rx_lit. rx_cap. rx_miss. cbn [head].
    unfold param_cmp_re. rx_open. rx_lit. rx_cap. rx_miss. reflexivity.
  - change (SOURCE_HEADER ++ sq "('" ++ ?x) with (sq "header('" ++ x).
    rewrite no_time by reflexivity.
    unfold header_exists_re. rx_open. rx_lit. rx_cap. rx_miss. cbn [head].
    unfold param_exists_re. rx_open. rx_miss. cbn [head].
    unfold header_contains_re. rx_open. rx_miss. cbn [head].
    unfold param_contains_re. rx_open. rx_miss. cbn [head].
    unfold param_cmp_re. rx_open. rx_miss. reflexivity.
Qed.
End PathPatterns.

(** ** Literals *)

Lemma literal_reads mode value :
  mode <> MATCH_CONTAINS -> plain_text value = true ->
  parseExprLiteral (buildExprLiteral mode value) = JStr value
  /\ buildExprLiteral mode value <> []
  /\ forallb dot_unit (buildExprLiteral mode value) = true.
Proof.
  intros Hm Hv. unfold plain_text in Hv. bools. unfold buildExprLiteral.
  rewrite trim_id by done. rewrite (bool_decide_false _ Hm).
  destruct ((value ==? "true") || (value ==? "false")) eqn:Eb.
  { apply orb_true_iff in Eb as [Eb|Eb]; bools; subst; done. }
  destruct (is_numeric_literal value) eqn:En.
  { unfold parseExprLiteral. rewrite trim_id, Eb, En by done. auto. }
  rewrite quote_plain by done. split_and!; [|done|].
  - unfold parseExprLiteral.
    assert (trimmed (dquote ++ value ++ dquote) = true) as Ht.
    { unfold trimmed. cbn [app dquote]. rewrite app_comm_cons, rev_app_distr. done. }
    rewrite trim_id by done.
    replace (dquote ++ value ++ dquote ==? "true") with false
      by (symmetry; by apply bool_decide_eq_false).
    replace (dquote ++ value ++ dquote ==? "false") with false
      by (symmetry; by apply bool_decide_eq_false).
    destruct (is_numeric_literal (dquote ++ value ++ dquote)) eqn:E.
    + apply numeric_units in E. done.
    + cbn [orb]. by rewrite parse_quote_plain.
  - rewrite !forallb_app, (plain_dot value) by done. done.
Qed.
