(* ===== verification/BillingSplit.v ===== *)
(** * Splitting a billing expression at its top level

    Companion of [BillingExpr]: how the parenthesis scan of [split_top] cuts a
    chain of balanced pieces, and what [unwrapOuterParens] removes. *)
From S2P Require Import Prelude JsString JsValue BillingExpr.

(** ** Balanced text *)

Definition depth_after (d : Z) (s : jstr) : Z := fold_left paren_depth s d.

(** From depth [d] the scan never goes below zero, and ends at zero. *)
Fixpoint balanced_from (d : Z) (s : jstr) : bool :=
  match s with
  | [] => (d =? 0)%Z
  | c :: t => let d' := paren_depth d c in (0 <=? d')%Z && balanced_from d' t
  end.

Definition balanced (s : jstr) : bool := balanced_from 0 s.

Definition not_paren (c : N) : bool := negb ((c =? 40)%N || (c =? 41)%N).
Definition flat (s : jstr) : bool := forallb not_paren s.

Lemma paren_depth_shift d e c : paren_depth (d + e) c = (d + paren_depth e c)%Z.
Proof. unfold paren_depth. destruct (c =? 40)%N, (c =? 41)%N; lia. Qed.

Lemma paren_depth_flat d c : not_paren c = true -> paren_depth d c = d.
Proof.
  unfold not_paren, paren_depth. by destruct (c =? 40)%N, (c =? 41)%N.
Qed.

(** A balanced piece leaves the scan of what follows as it was. *)
Lemma balanced_app_from k s : forall d rest,
  (0 <= d)%Z -> balanced_from k s = true ->
  balanced_from (d + k) (s ++ rest) = balanced_from d rest.
Proof.
  revert k; induction s as [|c s IH]; intros k d rest Hd; cbn.
  - intros H%Z.eqb_eq. f_equal. lia.
  - intros [H1%Z.leb_le H2]%andb_true_iff. rewrite paren_depth_shift.
    rewrite (IH _ d rest) by done. rewrite (proj2 (Z.leb_le _ _)) by lia. done.
Qed.

Lemma balanced_app s t : balanced s = true -> balanced (s ++ t) = balanced t.
Proof. intros H. unfold balanced. by apply (balanced_app_from 0 s 0 t). Qed.

Lemma balanced_flat_from s d rest :
  (0 <= d)%Z -> flat s = true -> balanced_from d (s ++ rest) = balanced_from d rest.
Proof.
  intros Hd. revert rest; induction s as [|c s IH]; intros rest; cbn; [done|].
  intros [H1 H2]%andb_true_iff. rewrite paren_depth_flat by done.
  rewrite (proj2 (Z.leb_le _ _)) by lia. by apply IH.
Qed.

Lemma balanced_flat s t : flat s = true -> balanced (s ++ t) = balanced t.
Proof. by apply (balanced_flat_from s 0 t). Qed.

Lemma balanced_wrap s t : balanced s = true -> balanced ("(" ++ s ++ ")" ++ t) = balanced t.
Proof.
  intros H. change (balanced_from (1 + 0) (s ++ 41%N :: t) = balanced t).
  by rewrite (balanced_app_from 0 s 1 (41%N :: t)).
Qed.

Lemma balanced_wrap_end s : balanced s = true -> balanced ("(" ++ s ++ ")") = true.
Proof. intros H. apply (balanced_wrap s [] H). Qed.

Lemma depth_app d s t : depth_after d (s ++ t) = depth_after (depth_after d s) t.
Proof. apply fold_left_app. Qed.

Lemma balanced_depth_from k s : forall d,
  balanced_from k s = true -> depth_after (d + k) s = d.
Proof.
  revert k; induction s as [|c s IH]; intros k d; cbn.
  - intros H%Z.eqb_eq. unfold depth_after. cbn. lia.
  - intros [H1 H2]%andb_true_iff. rewrite paren_depth_shift. by apply IH.
Qed.

Lemma balanced_depth s d : balanced s = true -> depth_after d s = d.
Proof. intros H. rewrite <- (Z.add_0_r d) at 1. by apply balanced_depth_from. Qed.

(** ** Pieces without a top-level separator *)

(** No separator [" x"] starts at depth zero. *)
Fixpoint quiet (x : N) (d : Z) (s : jstr) : bool :=
  match s with
  | [] => true
  | c :: t =>
      let d' := paren_depth d c in
      (negb (d' =? 0)%Z || negb (c =? 32)%N
       || match t with n :: _ => negb (n =? x)%N | [] => false end)
      && quiet x d' t
  end.

Lemma split_top_quiet x sep s : forall d cur rest,
  quiet x d s = true ->
  split_top (32%N :: x :: sep) d 0 cur (s ++ rest)
  = split_top (32%N :: x :: sep) (depth_after d s) 0 (rev s ++ cur) rest.
Proof.
  induction s as [|c s IH]; intros d cur rest H; [done|].
  cbn in H. apply andb_true_iff in H as [H1 H2]. cbn [app split_top].
  assert ((paren_depth d c =? 0)%Z
          && startsWith (c :: s ++ rest) (32%N :: x :: sep) = false) as ->.
  { rewrite !orb_true_iff in H1. apply andb_false_iff.
    destruct H1 as [[H1|H1]|H1]; [left; by apply negb_true_iff|right..].
    - unfold startsWith. cbn [strip_prefix].
      destruct (N.eqb_spec 32 c); [by subst|done].
    - unfold startsWith. cbn [strip_prefix]. destruct (32 =? c)%N; [|done].
      destruct s as [|n s]; [done|]. cbn. rewrite N.eqb_sym. by destruct (n =? x)%N. }
  rewrite IH by done. unfold depth_after. cbn. by rewrite <- app_assoc.
Qed.

Lemma quiet_no_unit x s : forall d,
  forallb (fun c => negb (c =? x)%N) s = true ->
  match rev s with c :: _ => c <> 32%N | [] => True end -> quiet x d s = true.
Proof.
  induction s as [|c s IH]; intros d H Hl; [done|]. cbn in H |- *.
  apply andb_true_iff in H as [Hc H]. rewrite IH; [|done|].
  - rewrite andb_true_r. destruct s as [|n s].
    + cbn in Hl. destruct (N.eqb_spec c 32); [done|]. by rewrite orb_true_r.
    + cbn in H. apply andb_true_iff in H as [-> _]. by rewrite orb_true_r.
  - cbn in Hl. destruct (rev s) eqn:E; [done|]. by cbn in Hl.
Qed.

(** Inside parentheses nothing is at the top level. *)
Lemma quiet_inside x k s : forall d rest,
  (0 < d)%Z -> balanced_from k s = true ->
  quiet x (d + k) (s ++ rest) = quiet x d rest.
Proof.
  revert k; induction s as [|c s IH]; intros k d rest Hd; cbn.
  - intros H%Z.eqb_eq. f_equal. lia.
  - intros [H1%Z.leb_le H2]%andb_true_iff. rewrite paren_depth_shift.
    rewrite (proj2 (Z.eqb_neq _ _)) by lia. cbn. by apply IH.
Qed.

Lemma quiet_wrap x s : balanced s = true -> quiet x 0 ("(" ++ s ++ ")") = true.
Proof.
  intros H. change (quiet x (1 + 0) (s ++ ")") = true). by rewrite (quiet_inside x 0 s 1 ")").
Qed.

(** ** The scan of a chain *)

Definition piece (x : N) (s : jstr) : bool := quiet x 0 s && balanced s && trimmed s.

Lemma piece_split x s : piece x s = true ->
  quiet x 0 s = true /\ depth_after 0 s = 0%Z /\ trim s = s.
Proof.
  unfold piece. intros H. bools. split_and!; [done|by apply balanced_depth|by apply trim_id].
Qed.

Section Chain.
Context (x : N) (sep : jstr).
Context (Hsep : forall cur rest,
  split_top (32%N :: x :: sep) 0 0 cur ((32%N :: x :: sep) ++ rest)
  = trim (rev cur) :: split_top (32%N :: x :: sep) 0 0 [] rest).

Lemma split_join_pieces l :
  l <> [] -> forallb (piece x) l = true ->
  split_top (32%N :: x :: sep) 0 0 [] (join (32%N :: x :: sep) l) = l.
Proof.
  induction l as [|s l IH]; intros Hne Hl; [done|]. cbn in Hl.
  apply andb_true_iff in Hl as [(Hq & Hd & Ht)%piece_split Hl].
  destruct l as [|s2 l].
  - cbn [join]. rewrite <- (app_nil_r s) at 1. rewrite split_top_quiet, Hd by done.
    cbn [split_top]. by rewrite app_nil_r, rev_involutive, Ht.
  - rewrite join_cons, split_top_quiet, Hd, Hsep, app_nil_r, rev_involutive, Ht by done.
    f_equal. by apply IH.
Qed.
End Chain.

Lemma splitTopLevelMultiply_join l :
  l <> [] -> forallb (piece 42) l = true -> forallb non_empty l = true ->
  splitTopLevelMultiply (join " * " l) = l.
Proof.
  intros Hne Hl Hn. unfold splitTopLevelMultiply.
  rewrite (split_join_pieces 42 [32%N]) by done. by apply filter_all.
Qed.

Lemma splitTopLevelAnd_join l :
  l <> [] -> forallb (piece 38) l = true -> forallb non_empty l = true ->
  splitTopLevelAnd (join " && " l) = l.
Proof.
  intros Hne Hl Hn. unfold splitTopLevelAnd.
  rewrite (split_join_pieces 38 [38; 32]%N) by done. by apply filter_all.
Qed.

(** ** Outer parentheses *)

Lemma outer_parens_balanced k s : forall d,
  (0 < d)%Z -> balanced_from k s = true ->
  outer_parens_go (d + k) (s ++ ")") = outer_parens_go d ")".
Proof.
  revert k; induction s as [|c s IH]; intros k d Hd; cbn [balanced_from app].
  - intros H%Z.eqb_eq. f_equal. lia.
  - intros [H1%Z.leb_le H2]%andb_true_iff. cbn [outer_parens_go]. rewrite paren_depth_shift.
    rewrite (proj2 (Z.eqb_neq _ _)) by lia. by apply IH.
Qed.

Lemma hasFullOuterParens_wrap s : balanced s = true -> hasFullOuterParens ("(" ++ s ++ ")") = true.
Proof.
  intros H. unfold hasFullOuterParens, endsWith. rewrite !rev_app_distr. cbn.
  destruct (s ++ [41%N]) as [|c t] eqn:E; [by destruct s|].
  rewrite <- E. change (outer_parens_go (1 + 0) (s ++ ")") = true).
  by rewrite (outer_parens_balanced 0 s 1).
Qed.

Lemma slice_inner_wrap s : slice_inner ("(" ++ s ++ ")") = s.
Proof. unfold slice_inner. cbn. by rewrite removelast_last. Qed.

Lemma trim_length s : length (trim s) <= length s.
Proof.
  assert (forall s, length (trimStart s) <= length s) as H.
  { induction s0 as [|c t IH]; cbn; [done|]. destruct (is_space c); cbn; lia. }
  unfold trim, trimEnd. rewrite length_rev. etransitivity; [apply H|]. rewrite length_rev. apply H.
Qed.

Lemma slice_inner_length s : length (slice_inner s) <= length s - 1.
Proof.
  unfold slice_inner. destruct s as [|c t]; cbn; [done|].
  destruct t as [|d t]; [done|].
  rewrite (app_removelast_last (l := d :: t) 0%N) at 2 by done. rewrite length_app. cbn. lia.
Qed.

(** The fuel of [unwrapOuterParens] is enough. *)
Lemma unwrap_go_fuel f1 : forall f2 s,
  length s <= f1 -> length s <= f2 -> unwrap_go f1 s = unwrap_go f2 s.
Proof.
  assert (forall f, unwrap_go f [] = []) as Hnil by (by intros []).
  induction f1 as [|f1 IH]; intros f2 s H1 H2.
  { destruct s; [|cbn in H1; lia]. by rewrite Hnil. }
  destruct s as [|c s]; [by rewrite !Hnil|].
  destruct f2 as [|f2]; [cbn in H2; lia|]. cbn [unwrap_go].
  destruct (hasFullOuterParens (c :: s)); [|done].
  pose proof (trim_length (slice_inner (c :: s))). pose proof (slice_inner_length (c :: s)).
  cbn [length] in *. apply IH; lia.
Qed.

Lemma unwrap_wrap s :
  balanced s = true -> unwrapOuterParens ("(" ++ s ++ ")") = unwrapOuterParens s.
Proof.
  intros H. unfold unwrapOuterParens.
  rewrite (trim_id ("(" ++ s ++ ")")).
  2: { unfold trimmed. rewrite !rev_app_distr. done. }
  rewrite length_app. cbn [length Nat.add unwrap_go].
  rewrite hasFullOuterParens_wrap, slice_inner_wrap by done.
  pose proof (trim_length s). apply unwrap_go_fuel; [rewrite length_app; cbn; lia|done].
Qed.
