(* ===== verification/BillingRules.v ===== *)
(** * Request rules: building, parsing, combining and splitting

    The round trips of [BillingExpr], from one condition to a whole billing
    expression, and the inputs on which they fail. *)
From S2P Require Import Prelude JsString JsNumber JsValue Regex Json.
From S2P Require Import BillingExpr BillingRoundtrip BillingSplit.

(** ** Text lemmas *)

(** The text ends with a unit that is not a space. *)
Definition tail_ok (s : jstr) : bool :=
  match rev s with d :: _ => negb (is_space d) | [] => false end.

Lemma tail_ok_app a b : tail_ok b = true -> tail_ok (a ++ b) = true.
Proof. unfold tail_ok. rewrite rev_app_distr. by destruct (rev b). Qed.

Lemma trimmed_tail s : s <> [] -> trimmed s = true -> tail_ok s = true.
Proof.
  unfold trimmed, tail_ok. destruct s as [|c s]; [done|]. intros _ H. bools.
  destruct (rev (c :: s)) eqn:E; [|done]. apply (f_equal (@length N)) in E.
  by rewrite length_rev in E.
Qed.

Lemma trimmed_app a b : a <> [] -> trimmed a = true -> tail_ok b = true -> trimmed (a ++ b) = true.
Proof.
  intros Ha H1 H2. apply (tail_ok_app a) in H2. destruct a as [|c a]; [done|].
  unfold trimmed, tail_ok in *. cbn [app] in *. bools. rewrite H.
  by destruct (rev (c :: a ++ b)).
Qed.

Lemma trimmed_last s : s <> [] -> trimmed s = true ->
  match rev s with c :: _ => c <> 32%N | [] => True end.
Proof.
  unfold trimmed. destruct s as [|c s]; [done|]. intros _ H. bools.
  destruct (rev (c :: s)) as [|d u]; [done|]. intros ->. bools. done.
Qed.

Lemma includes_no_unit p c s : no_unit c s = true -> includes s (p ++ [c]) = false.
Proof.
  assert (forall s, no_unit c s = true -> startsWith s (p ++ [c]) = false) as Hs.
  { intros s0 H. destruct (startsWith s0 (p ++ [c])) eqn:E; [|done].
    apply startsWith_true in E as [r ->]. unfold no_unit, not_unit in H.
    rewrite !forallb_app in H. cbn in H. rewrite N.eqb_refl in H. by destruct (forallb _ p). }
  induction s as [|a s IH]; intros H; cbn [includes]; rewrite Hs by done; [done|].
  cbn in H. bools. by apply IH.
Qed.

Lemma startsWith_prefix p q s : startsWith s (p ++ q) = true -> startsWith s p = true.
Proof. intros [r ->]%startsWith_true. rewrite <- app_assoc. apply startsWith_app. Qed.

Lemma includes_prefix p q s : includes s p = false -> includes s (p ++ q) = false.
Proof.
  induction s as [|c s IH]; cbn [includes]; intros H; bools.
  - destruct (startsWith [] (p ++ q)) eqn:E; [|done]. apply startsWith_prefix in E. congruence.
  - rewrite IH by done. destruct (startsWith (c :: s) (p ++ q)) eqn:E; [|done].
    apply startsWith_prefix in E. congruence.
Qed.

(** No bar: [paren_or] leaves the text alone. *)
Lemma paren_or_no_bar e : no_unit 124 e = true -> paren_or e = e.
Proof.
  intros H. unfold paren_or.
  change " || " with (([32%N] ++ [124%N]) ++ [124; 32]%N).
  by rewrite includes_prefix by (by apply includes_no_unit).
Qed.

Definition safe_unit (c : N) : bool := not_unit 38 c && not_unit 124 c && not_paren c.
Definition safe (s : jstr) : bool := forallb safe_unit s.

Lemma plain_safe s : plain s = true -> safe s = true.
Proof.
  apply forallb_impl. intros c H%plain_unit_props. unfold safe_unit, not_unit, not_paren.
  rewrite !andb_true_iff, !negb_true_iff, orb_false_iff, !N.eqb_neq. lia.
Qed.

Lemma numeric_safe s : is_numeric_literal s = true -> safe s = true.
Proof.
  intros H%numeric_units. revert H. apply forallb_impl. intros c H%num_unit_range.
  unfold safe_unit, not_unit, not_paren.
  rewrite !andb_true_iff, !negb_true_iff, orb_false_iff, !N.eqb_neq. lia.
Qed.

Lemma safe_no_amp s : safe s = true -> no_unit 38 s = true.
Proof. apply forallb_impl. unfold safe_unit. intros c H. by bools. Qed.
Lemma safe_no_bar s : safe s = true -> no_unit 124 s = true.
Proof. apply forallb_impl. unfold safe_unit. intros c H. by bools. Qed.
Lemma safe_flat s : safe s = true -> flat s = true.
Proof. apply forallb_impl. unfold safe_unit. intros c H. by bools. Qed.

Lemma no_unit_app x a b : no_unit x (a ++ b) = no_unit x a && no_unit x b.
Proof. apply forallb_app. Qed.
Lemma flat_app a b : flat (a ++ b) = flat a && flat b.
Proof. apply forallb_app. Qed.

(** ** What a built condition looks like *)

Record condition_text (c : RequestCondition) (e : jstr) : Prop := {
  ct_reads : tryParseRequestCondition e = Ok (Some c);
  ct_reads_or : tryParseRequestCondition (paren_or e) = Ok (Some c);
  ct_no_amp : no_unit 38 e = true;
  ct_balanced : balanced e = true;
  ct_trimmed : trimmed e = true;
  ct_non_empty : e <> []
}.

Lemma condition_text_plain c e :
  tryParseRequestCondition e = Ok (Some c) -> no_unit 38 e = true -> no_unit 124 e = true ->
  balanced e = true -> trimmed e = true -> e <> [] -> condition_text c e.
Proof. intros. split; try done. by rewrite paren_or_no_bar. Qed.

Lemma str_or_ne s d : non_empty s = true -> str_or s d = s.
Proof. by destruct s. Qed.

Lemma normalize_time t :
  canonical_time t = true -> normalizeCondition (Some (to_partial (CondTime t))) = CondTime t.
Proof.
  destruct t as [f tz m v s e]. unfold canonical_time. cbn [tm_timeFunc tm_timezone tm_mode tm_value tm_rangeStart tm_rangeEnd].
  intros H. bools. unfold normalizeCondition.
  cbn [default from_option id to_partial pc_source pc_timeFunc pc_timezone pc_mode pc_value
       pc_rangeStart pc_rangeEnd tm_timeFunc tm_timezone tm_mode tm_value tm_rangeStart tm_rangeEnd].
  change (if Some SOURCE_TIME ==? Some "time" then SOURCE_TIME else _) with SOURCE_TIME.
  change (SOURCE_TIME ==? SOURCE_TIME) with true. cbn iota.
  unfold isTimeFunc. rewrite bool_decide_true, str_or_ne by done.
  replace (has_option (getRequestRuleMatchOptions SOURCE_TIME) (Some m)) with true; [done|].
  destruct (bool_decide_reflect (m = MATCH_RANGE)) as [->|_]; [done|]. bools.
  repeat (match goal with Hm : m ∈ _ |- _ => apply elem_of_cons in Hm as [->|Hm]; [done|] end).
  by apply elem_of_nil in H0.
Qed.

Ltac text_facts :=
  rewrite ?no_unit_app, ?flat_app;
  repeat match goal with
  | H : safe ?s = true |- context [no_unit 38 ?s] => rewrite (safe_no_amp s H)
  | H : safe ?s = true |- context [no_unit 124 ?s] => rewrite (safe_no_bar s H)
  | H : safe ?s = true |- context [flat ?s] => rewrite (safe_flat s H)
  end; try reflexivity.

Ltac time_func f Hf := apply (time_func_cases (fun f => _ f = _) f Hf); reflexivity.

Lemma time_func_safe f : f ∈ TIME_FUNCS -> safe f = true.
Proof. intros Hf. by apply (time_func_cases (fun f => safe f = true) f Hf). Qed.

Lemma time_func_trimmed f : f ∈ TIME_FUNCS -> trimmed f = true /\ f <> [].
Proof. intros Hf. by apply (time_func_cases (fun f => trimmed f = true /\ f <> []) f Hf). Qed.

(** [f("tz")], followed by more text. *)
Lemma call_balanced f arg rest :
  safe f = true -> safe arg = true ->
  balanced (f ++ sq "('" ++ arg ++ sq "')" ++ rest) = balanced rest.
Proof.
  intros Hf Ha. rewrite balanced_flat by (by apply safe_flat).
  replace (sq "('" ++ arg ++ sq "')" ++ rest)
    with ("(" ++ (dquote ++ arg ++ dquote) ++ ")" ++ rest)
    by (by rewrite <- !app_assoc).
  apply balanced_wrap. rewrite balanced_flat by done.
  by rewrite balanced_flat by (by apply safe_flat).
Qed.

Lemma balanced_flat_end s : flat s = true -> balanced s = true.
Proof. intros H. rewrite <- (app_nil_r s). by rewrite balanced_flat. Qed.

Lemma reads_time e c : tryParseTimeCondition e = Some c -> tryParseRequestCondition e = Ok (Some c).
Proof. intros H. unfold tryParseRequestCondition. by rewrite H. Qed.

Lemma time_cmp_text f tz op v :
  f ∈ TIME_FUNCS -> non_empty tz = true -> plain tz = true ->
  op ∈ ["=="; ">="; "<"] -> is_numeric_literal v = true ->
  condition_text
    (CondTime {| tm_timeFunc := f; tm_timezone := tz; tm_mode := str_or (time_op_mode op) MATCH_EQ;
                 tm_value := v; tm_rangeStart := []; tm_rangeEnd := [] |})
    (f ++ sq "('" ++ tz ++ sq "') " ++ op ++ " " ++ v).
Proof.
  intros Hf Hne Htz Hop Hv. pose proof (time_func_safe f Hf). pose proof (plain_safe tz Htz).
  pose proof (numeric_safe v Hv). destruct (time_func_trimmed f Hf).
  assert (safe op = true) as Hop'.
  { repeat (apply elem_of_cons in Hop as [->|Hop]; [done|]). by apply elem_of_nil in Hop. }
  apply condition_text_plain.
  - by apply reads_time, parse_time_cmp.
  - text_facts.
  - text_facts.
  - change (sq "') " ++ ?x) with (sq "')" ++ " " ++ x). rewrite call_balanced by done.
    apply balanced_flat_end. text_facts.
  - apply trimmed_app; [done..|]. repeat apply tail_ok_app.
    by apply trimmed_tail; [apply numeric_nonempty|apply numeric_trimmed].
  - by destruct f.
Qed.

Lemma time_range_text f tz s e :
  f ∈ TIME_FUNCS -> non_empty tz = true -> plain tz = true ->
  is_numeric_literal s = true -> is_numeric_literal e = true ->
  condition_text
    (CondTime {| tm_timeFunc := f; tm_timezone := tz; tm_mode := MATCH_RANGE;
                 tm_value := []; tm_rangeStart := s; tm_rangeEnd := e |})
    (f ++ sq "('" ++ tz ++ sq "') >= " ++ s ++ " || " ++ f ++ sq "('" ++ tz ++ sq "') < " ++ e).
Proof.
  intros Hf Hne Htz Hs He. pose proof (time_func_safe f Hf). pose proof (plain_safe tz Htz).
  pose proof (numeric_safe s Hs). pose proof (numeric_safe e He). destruct (time_func_trimmed f Hf).
  destruct (parse_time_range f tz s e) as [Hr Hr2]; [done..|].
  set (text := f ++ _) in *. split.
  - by apply reads_time.
  - unfold paren_or. replace (includes text " || ") with true; [by apply reads_time|].
    symmetry. unfold text.
    rewrite (app_assoc (sq "') >= ")), (app_assoc tz), (app_assoc (sq "('")), (app_assoc f).
    apply includes_here.
  - unfold text. text_facts.
  - unfold text. change (sq "') >= " ++ ?x) with (sq "')" ++ " >= " ++ x).
    change (sq "') < " ++ ?x) with (sq "')" ++ " < " ++ x).
    rewrite call_balanced, (balanced_flat " >= "), (balanced_flat s), (balanced_flat " || "),
      call_balanced by (done || by apply safe_flat).
    apply balanced_flat_end. text_facts.
  - unfold text.
    apply trimmed_app; [done..|]. repeat apply tail_ok_app.
    by apply trimmed_tail; [apply numeric_nonempty|apply numeric_trimmed].
  - by destruct f.
Qed.

Lemma time_text t : canonical_time t = true -> condition_text (CondTime t) (buildTimeConditionExpr t).
Proof.
  intros H. unfold buildTimeConditionExpr. rewrite normalize_time by done.
  destruct t as [f tz m v s e]. unfold canonical_time in H.
  cbn [tm_timeFunc tm_timezone tm_mode tm_value tm_rangeStart tm_rangeEnd] in H. bools.
  unfold time_expr. cbn [tm_timeFunc tm_timezone tm_mode tm_value tm_rangeStart tm_rangeEnd].
  rewrite quote_plain by done. rewrite <- !app_assoc.
  destruct (bool_decide_reflect (m = MATCH_RANGE)) as [->|Hm]; bools; subst.
  - rewrite !numeric_trim by done.
    repeat match goal with Hn : is_numeric_literal ?x = true |- _ => rewrite Hn end.
    by apply time_range_text.
  - rewrite numeric_trim by done.
    repeat match goal with Hn : is_numeric_literal ?x = true |- _ => rewrite Hn end. cbn [negb].
    assert (exists op, op ∈ ["=="; ">="; "<"] /\ str_or (time_mode_op m) "==" = op
                       /\ m = str_or (time_op_mode op) MATCH_EQ) as (op & Hop & -> & ->).
    { repeat (match goal with Hi : m ∈ _ |- _ => apply elem_of_cons in Hi as [->|Hi] end;
        [eexists; split; [|split; reflexivity]; set_solver|]).
      match goal with Hi : m ∈ _ |- _ => by apply elem_of_nil in Hi end. }
    by apply time_cmp_text.
Qed.

Lemma normalize_ph p :
  canonical_ph p = true ->
  normalizeCondition (Some (to_partial (CondParamHeader p))) = CondParamHeader p.
Proof.
  destruct p as [src path m v]. unfold canonical_ph. cbn [ph_source ph_path ph_mode ph_value].
  intros H. bools. unfold normalizeCondition.
  cbn [default from_option id to_partial pc_source pc_path pc_mode pc_value
       ph_source ph_path ph_mode ph_value].
  repeat (match goal with Hi : src ∈ _ |- _ => apply elem_of_cons in Hi as [->|Hi] end);
    try (match goal with Hi : src ∈ [] |- _ => by apply elem_of_nil in Hi end).
  all: destruct (bool_decide_reflect (m = MATCH_EXISTS)) as [->|?]; [done|].
  all: destruct (bool_decide_reflect (m = MATCH_CONTAINS)) as [->|?]; [done|].
  all: bools; by subst.
Qed.

Section PathText.
Context (path : jstr) (Hne : non_empty path = true) (Hp : plain path = true).

Lemma header_exists_text :
  condition_text (ph SOURCE_HEADER path MATCH_EXISTS []) (sq "header('" ++ path ++ sq "') != ''").
Proof.
  pose proof (plain_safe path Hp). apply condition_text_plain; try done.
  - by apply parse_header_exists.
  - text_facts.
  - text_facts.
  - change (sq "header('" ++ ?x) with ("header" ++ sq "('" ++ x).
    by apply (call_balanced "header" path (sq " != ''")).
  - apply trimmed_app; [done..|]. by repeat apply tail_ok_app.
Qed.

Lemma param_exists_text :
  condition_text (ph SOURCE_PARAM path MATCH_EXISTS []) (sq "param('" ++ path ++ sq "') != nil").
Proof.
  pose proof (plain_safe path Hp). apply condition_text_plain; try done.
  - by apply parse_param_exists.
  - text_facts.
  - text_facts.
  - change (sq "param('" ++ ?x) with ("param" ++ sq "('" ++ x).
    by apply (call_balanced "param" path " != nil").
  - apply trimmed_app; [done..|]. by repeat apply tail_ok_app.
Qed.

Lemma header_contains_text value :
  plain value = true ->
  condition_text (ph SOURCE_HEADER path MATCH_CONTAINS value)
    (sq "has(header('" ++ path ++ sq "'), " ++ dquote ++ value ++ dquote ++ ")").
Proof.
  intros Hv. pose proof (plain_safe path Hp). pose proof (plain_safe value Hv).
  apply condition_text_plain; try done.
  - by apply parse_header_contains.
  - text_facts.
  - text_facts.
  - replace (sq "has(header('" ++ path ++ sq "'), " ++ dquote ++ value ++ dquote ++ ")")
      with ("has" ++ "(" ++ ("header" ++ sq "('" ++ path ++ sq "')"
            ++ ", " ++ dquote ++ value ++ dquote) ++ ")" ++ [])
      by (by rewrite <- !app_assoc).
    rewrite balanced_flat by done. rewrite balanced_wrap; [done|].
    rewrite call_balanced by done. apply balanced_flat_end. text_facts.
  - apply trimmed_app; [done..|]. by repeat apply tail_ok_app.
Qed.

Lemma eq_text src value :
  src ∈ [SOURCE_PARAM; SOURCE_HEADER] -> plain_text value = true ->
  condition_text (ph src path MATCH_EQ value)
    (src ++ sq "('" ++ path ++ sq "') == " ++ buildExprLiteral MATCH_EQ value).
Proof.
  intros Hsrc Hv. pose proof (plain_safe path Hp).
  destruct (literal_reads MATCH_EQ value) as (Hr & Hl & Hd); [done..|].
  assert (safe (buildExprLiteral MATCH_EQ value) = true /\ trimmed (buildExprLiteral MATCH_EQ value) = true)
    as [Hls Hlt].
  { unfold plain_text in Hv. bools. unfold buildExprLiteral. rewrite trim_id by done.
    change (MATCH_EQ ==? MATCH_CONTAINS) with false. cbn iota.
    destruct ((value ==? "true") || (value ==? "false")); [by split; [apply plain_safe|]|].
    destruct (is_numeric_literal value); [by split; [apply plain_safe|]|].
    rewrite quote_plain by done. pose proof (plain_safe value H0) as Hvs. split.
    - unfold safe in *. rewrite !forallb_app, Hvs. done.
    - apply trimmed_app; [done..|]. by apply tail_ok_app. }
  assert (safe src = true /\ src <> [] /\ trimmed src = true) as (Hs1 & Hs2 & Hs3).
  { repeat (apply elem_of_cons in Hsrc as [->|Hsrc]; [done|]). by apply elem_of_nil in Hsrc. }
  apply condition_text_plain.
  - rewrite parse_eq by done. by rewrite Hr.
  - text_facts.
  - text_facts.
  - change (sq "') == " ++ ?x) with (sq "')" ++ " == " ++ x). rewrite call_balanced by done.
    apply balanced_flat_end. text_facts.
  - apply trimmed_app; [done..|]. repeat apply tail_ok_app. by apply trimmed_tail.
  - by destruct src.
Qed.
End PathText.

Lemma ph_source_cases (P : jstr -> Prop) src :
  src ∈ [SOURCE_PARAM; SOURCE_HEADER] -> P SOURCE_PARAM -> P SOURCE_HEADER -> P src.
Proof.
  intros H ??. repeat (apply elem_of_cons in H as [->|H]; [done|]). by apply elem_of_nil in H.
Qed.

(** The goal's text is [t], up to the association of the appends. *)
Ltac text_is t :=
  change (SOURCE_PARAM ==? "header") with false; change (SOURCE_HEADER ==? "header") with true;
  cbn beta iota;
  match goal with
  | |- condition_text _ ?e => replace e with t by (rewrite <- ?app_assoc; reflexivity)
  end.

Lemma ph_text src path m v :
  canonical_ph {| ph_source := src; ph_path := path; ph_mode := m; ph_value := v |} = true ->
  condition_text (ph src path m v)
    (param_header_expr {| ph_source := src; ph_path := path; ph_mode := m; ph_value := v |}).
Proof.
  unfold canonical_ph. cbn [ph_source ph_path ph_mode ph_value]. unfold plain_text. intros H. bools.
  unfold param_header_expr. cbn [ph_source ph_path ph_mode ph_value].
  rewrite (trim_id path) by done. destruct path as [|c0 path0]; [done|].
  set (path := c0 :: path0) in *. rewrite !(quote_plain path) by done.
  destruct (bool_decide_reflect (m = MATCH_EXISTS)) as [->|?].
  { bools; subst. match goal with Hi : src ∈ _ |- _ => pattern src; apply (ph_source_cases _ src Hi) end.
    - text_is (sq "param('" ++ path ++ sq "') != nil"). by apply param_exists_text.
    - text_is (sq "header('" ++ path ++ sq "') != ''"). by apply header_exists_text. }
  destruct (bool_decide_reflect (m = MATCH_CONTAINS)) as [->|?].
  { bools; subst. unfold buildExprLiteral.
    change (MATCH_CONTAINS ==? MATCH_CONTAINS) with true. cbn iota.
    rewrite (trim_id v), (quote_plain v) by done.
    text_is (sq "has(header('" ++ path ++ sq "'), " ++ dquote ++ v ++ dquote ++ ")").
    by apply header_contains_text. }
  bools; subst. change (param_mode_op MATCH_EQ) with (@None jstr). cbn iota.
  match goal with Hi : src ∈ _ |- _ => pattern src; apply (ph_source_cases _ src Hi) end.
  - text_is (SOURCE_PARAM ++ sq "('" ++ path ++ sq "') == " ++ buildExprLiteral MATCH_EQ v).
    apply eq_text; [done..|set_solver|by unfold plain_text; apply andb_true_iff].
  - text_is (SOURCE_HEADER ++ sq "('" ++ path ++ sq "') == " ++ buildExprLiteral MATCH_EQ v).
    apply eq_text; [done..|set_solver|by unfold plain_text; apply andb_true_iff].
Qed.

Lemma condition_builds c :
  canonical_condition c = true -> condition_text c (buildRequestConditionExpr c).
Proof.
  destruct c as [t|[src path m v]]; [apply time_text|]. intros H.
  unfold buildRequestConditionExpr. cbn [canonical_condition] in H.
  rewrite normalize_ph by done. by apply ph_text.
Qed.

(** ** Groups *)

Lemma condition_piece c e : condition_text c e -> piece 38 e = true.
Proof.
  intros []. unfold piece. rewrite ct_balanced0, ct_trimmed0, quiet_no_unit; [done..|].
  by apply trimmed_last.
Qed.

Lemma paren_or_piece c e :
  condition_text c e -> piece 38 (paren_or e) = true /\ balanced (paren_or e) = true
                        /\ paren_or e <> [] /\ trimmed (paren_or e) = true.
Proof.
  intros H. pose proof (condition_piece c e H) as Hp. destruct H.
  unfold paren_or. destruct (includes e " || "); [|done].
  assert (balanced ("(" ++ e ++ ")") = true) as Hb.
  { by apply balanced_wrap_end. }
  assert (trimmed ("(" ++ e ++ ")") = true) as Ht.
  { apply trimmed_app; [done..|]. by apply tail_ok_app. }
  split_and!; try done. unfold piece. by rewrite quiet_wrap, Hb, Ht.
Qed.

Lemma balanced_join sep l :
  flat sep = true -> Forall (fun s => balanced s = true) l -> balanced (join sep l) = true.
Proof.
  intros Hs. induction 1 as [|s l H _ IH]; [done|]. destruct l as [|s2 l]; [done|].
  rewrite join_cons, balanced_app, balanced_flat by done. done.
Qed.

Lemma parse_conditions_all {A} (f : A -> jstr) (g : A -> RequestCondition) l :
  Forall (fun c => trimmed (f c) = true /\ tryParseRequestCondition (f c) = Ok (Some (g c))) l ->
  parse_conditions (map f l) = Ok (Some (map g l)).
Proof.
  induction 1 as [|c l [Ht Hc] _ IH]; [done|]. cbn. rewrite trim_id, Hc by done. cbn.
  by rewrite IH.
Qed.

(** *** The factor pattern on [(e ? m : 1)] *)

Lemma in_lit_seq s b st st' :
  In st' (rx_run (RSeq (RLit s) b) st) ->
  exists rest, ms_suf st = s ++ rest
    /\ In st' (rx_run b (MSt (rev s ++ ms_pre st) rest (ms_caps st))).
Proof.
  rewrite run_seq. cbn [rx_run]. unfold lit_run. destruct (strip_prefix s (ms_suf st)) eqn:E; [|done].
  rewrite flat_map_singleton. apply strip_prefix_Some in E. eauto.
Qed.

Definition factor_tail : rx :=
  rseq [RLit " ? "; RCap 2 (rplus (RSet num_unit)); RLit " : 1)"; REol].

(** The tail accepts one shape only. *)
Lemma factor_tail_shape st st' :
  In st' (rx_run factor_tail st) ->
  exists m, ms_suf st = " ? " ++ m ++ " : 1)" /\ forallb num_unit m = true.
Proof.
  intros (r1 & E & H)%in_lit_seq. cbn [rseq] in H.
  rewrite run_cap, in_flat_map in H. destruct H as (s & H1 & H2).
  apply (rx_run_only num_unit) in H1 as (m & Em & Hm); [|by cbn].
  apply in_lit_seq in H2 as (r2 & E2 & H2). cbn in H2. cbn [ms_suf cap_set] in *.
  destruct r2; [|done]. exists m. split; [|done]. rewrite E, Em, E2. done.
Qed.

Lemma last_space_unique a b m m' :
  a ++ " ? " ++ m = b ++ " ? " ++ m' ->
  forallb num_unit m = true -> forallb num_unit m' = true -> a = b.
Proof.
  revert m'. induction m as [|c m IH] using rev_ind; intros m' E H1 H2.
  - destruct m' as [|d m'] using rev_ind.
    + by apply app_inv_tail in E.
    + clear IHm'. rewrite forallb_app in H2. cbn in H2. bools.
      rewrite app_nil_r, !app_assoc in E. change " ? " with (" ?" ++ [32%N]) in E at 1.
      rewrite (app_assoc a) in E. by apply app_inj_tail in E as [_ <-].
  - rewrite forallb_app in H1. cbn in H1. bools.
    destruct m' as [|d m'] using rev_ind.
    + rewrite app_nil_r, !app_assoc in E.
      change (b ++ " ? ") with (b ++ " ?" ++ " ") in E. rewrite (app_assoc b) in E.
      apply app_inj_tail in E as [_ ->]. done.
    + clear IHm'. rewrite forallb_app in H2. cbn in H2. bools.
      rewrite !app_assoc in E. apply app_inj_tail in E as [E ->].
      rewrite <- !app_assoc in E. by apply (IH m').
Qed.

Lemma factor_matches e m :
  e <> [] -> is_numeric_literal m = true ->
  exists mt, rx_exec factor_re ("(" ++ e ++ " ? " ++ m ++ " : 1)") = Some mt
    /\ group_or mt 1 = e /\ group_or mt 2 = m.
Proof.
  intros He Hm. unfold factor_re. rx_open. rx_lit.
  rewrite <- (app_nil_r (e ++ _)).
  rewrite (run_cap_plus_split 1 any_unit _ (e ++ " ? " ++ m ++ " : 1)") [] e (" ? " ++ m ++ " : 1)"));
    [|by apply forallb_forall|done|done|done|].
  - rewrite !app_nil_r. rx_lit. rewrite run_cap_plus; [|by apply numeric_nonempty|by apply numeric_units|done|by apply rejects_seq, rejects_lit].
    rewrite <- (app_nil_r " : 1)"). rx_lit. eexists. split; [reflexivity|]. done.
  - intros a z pre caps E Hne _. fold factor_tail. rewrite app_nil_r.
    change (rx_run factor_tail (MSt pre z caps) = []).
    destruct (rx_run factor_tail (MSt pre z caps)) as [|st l] eqn:Er; [done|].
    destruct (factor_tail_shape (MSt pre z caps) st) as (m' & Ez & Hm'); [rewrite Er; by left|].
    cbn in Ez. subst z. exfalso. apply Hne. symmetry.
    apply (last_space_unique e a m m'); [|by apply numeric_units|done].
    apply (app_inv_tail " : 1)"). rewrite <- !app_assoc. done.
Qed.

(** *** One group *)

(** The conjunction a group's conditions are written as. *)
Definition group_text (cs : list RequestCondition) : jstr :=
  match map buildRequestConditionExpr cs with
  | [e] => e
  | es => join " && " (map paren_or es)
  end.

Lemma canonical_texts cs :
  forallb canonical_condition cs = true ->
  Forall (fun c => condition_text c (buildRequestConditionExpr c)) cs.
Proof.
  rewrite forallb_Forall. intros H. eapply Forall_impl; [exact H|apply condition_builds].
Qed.

Lemma group_factor_text g :
  canonical_group g = true ->
  buildRuleGroupFactor g = "(" ++ group_text (rg_conditions g) ++ " ? " ++ rg_multiplier g ++ " : 1)".
Proof.
  unfold canonical_group. intros H. bools.
  unfold buildRuleGroupFactor. rewrite numeric_trim by done.
  match goal with Hn : is_numeric_literal _ = true |- _ => rewrite Hn end. cbn [negb].
  rewrite filter_all.
  - unfold group_text. destruct (rg_conditions g) as [|c [|c2 cs]]; [done|done|]. cbn [map].
    by rewrite <- ?app_assoc.
  - apply forallb_Forall, Forall_map. eapply Forall_impl; [by apply canonical_texts|].
    intros c [? ? ? ? ? Hne]. by destruct (buildRequestConditionExpr c).
Qed.

Lemma group_text_reads cs :
  forallb canonical_condition cs = true -> cs <> [] ->
  parse_conditions (splitTopLevelAnd (group_text cs)) = Ok (Some cs)
  /\ balanced (group_text cs) = true /\ group_text cs <> [].
Proof.
  intros H%canonical_texts Hne. unfold group_text.
  destruct cs as [|c [|c2 cs]]; [done|..].
  - inversion H as [|? ? Hc _]; subst. cbn [map]. pose proof (condition_piece _ _ Hc).
    destruct Hc as [Hr _ _ Hb Ht He]. split_and!; [|done..].
    change (buildRequestConditionExpr c) with (join " && " [buildRequestConditionExpr c]).
    rewrite splitTopLevelAnd_join; [|done|by cbn; rewrite H0|by cbn; destruct (buildRequestConditionExpr c)].
    cbn. by rewrite trim_id, Hr.
  - set (l := c :: c2 :: cs) in *. change (match map buildRequestConditionExpr l with
      | [e] => e | es => join " && " (map paren_or es) end)
      with (join " && " (map paren_or (map buildRequestConditionExpr l))).
    rewrite map_map.
    assert (Forall (fun c => piece 38 (paren_or (buildRequestConditionExpr c)) = true
              /\ balanced (paren_or (buildRequestConditionExpr c)) = true
              /\ paren_or (buildRequestConditionExpr c) <> []
              /\ trimmed (paren_or (buildRequestConditionExpr c)) = true) l) as Hl.
    { eapply Forall_impl; [apply H|]. intros c' Hc. by apply (paren_or_piece c'). }
    rewrite splitTopLevelAnd_join; [|done|..].
    + split_and!.
      * rewrite (parse_conditions_all _ id); [by rewrite map_id|].
        rewrite Forall_forall in H, Hl. apply Forall_forall. intros c' Hc.
        split; [by apply Hl|]. by apply H.
      * apply balanced_join; [done|]. apply Forall_map. eapply Forall_impl; [apply Hl|]. naive_solver.
      * unfold l. inversion Hl as [|? ? (_ & _ & Hx & _) _]; subst. cbn [map]. rewrite join_cons.
        by destruct (paren_or (buildRequestConditionExpr c)).
    + apply forallb_Forall, Forall_map. eapply Forall_impl; [apply Hl|]. naive_solver.
    + apply forallb_Forall, Forall_map. eapply Forall_impl; [apply Hl|]. intros c' (_ & _ & Hx & _).
      cbn. by destruct (paren_or _).
Qed.

(** What the rest of the development uses of a factor. *)
Record factor_text (g : RequestRuleGroup) (f : jstr) : Prop := {
  ft_reads : tryParseRuleGroupFactor f = Ok (Some g);
  ft_piece : piece 42 f = true;
  ft_non_empty : non_empty f = true
}.

Lemma group_builds g : canonical_group g = true -> factor_text g (buildRuleGroupFactor g).
Proof.
  intros H. rewrite group_factor_text by done. unfold canonical_group in H. bools.
  destruct (group_text_reads (rg_conditions g)) as (Hr & Hb & Hne); [done|by intros E; rewrite E in *|].
  split.
  - destruct (factor_matches (group_text (rg_conditions g)) (rg_multiplier g)) as (mt & E & E1 & E2);
      [done..|].
    unfold tryParseRuleGroupFactor. rewrite E, E1, E2, Hr. cbn.
    destruct g as [[|c cs] m]; done.
  - replace ("(" ++ group_text (rg_conditions g) ++ " ? " ++ rg_multiplier g ++ " : 1)")
      with ("(" ++ (group_text (rg_conditions g) ++ " ? " ++ rg_multiplier g ++ " : 1") ++ ")")
      by (by rewrite <- !app_assoc).
    assert (balanced (group_text (rg_conditions g) ++ " ? " ++ rg_multiplier g ++ " : 1") = true) as Hi.
    { rewrite balanced_app by done. apply balanced_flat_end. rewrite !flat_app.
      rewrite (safe_flat (rg_multiplier g)); [done|by apply numeric_safe]. }
    unfold piece. rewrite quiet_wrap by done. rewrite trimmed_app; [..|by apply tail_ok_app]; [|done..].
    by rewrite balanced_wrap_end.
  - done.
Qed.

Lemma group_parses gs : forall fs,
  Forall2 factor_text gs fs -> parse_groups fs = Ok (Some gs).
Proof.
  induction 1 as [|g f gs fs [Hr _ _] _ IH]; [done|]. cbn. by rewrite Hr; cbn; rewrite IH.
Qed.

Lemma groups_build gs :
  forallb canonical_group gs = true -> Forall2 factor_text gs (map buildRuleGroupFactor gs).
Proof.
  induction gs as [|g gs IH]; cbn; [constructor|]. intros H. bools.
  constructor; [by apply group_builds|auto].
Qed.

Lemma factors_all gs fs :
  Forall2 factor_text gs fs -> forallb (piece 42) fs = true /\ forallb non_empty fs = true.
Proof. induction 1 as [|g f gs fs [] _ [IH1 IH2]]; cbn; [done|]. by rewrite ft_piece0, ft_non_empty0, IH1. Qed.

Lemma rules_text gs :
  forallb canonical_group gs = true ->
  buildRequestRuleExpr gs = join " * " (map buildRuleGroupFactor gs).
Proof.
  intros H%groups_build. unfold buildRequestRuleExpr. rewrite filter_all; [done|].
  by eapply factors_all.
Qed.


(** A chain of trimmed, non-empty texts is one. *)
Lemma tail_ok_join sep l : l <> [] -> Forall (fun s => tail_ok s = true) l -> tail_ok (join sep l) = true.
Proof.
  intros Hne. induction 1 as [|s l Hs Hl IH]; [done|]. destruct l as [|s2 l]; [done|].
  rewrite join_cons. apply tail_ok_app, tail_ok_app. by apply IH.
Qed.

Lemma join_trimmed x sep l :
  forallb (piece x) l = true -> forallb non_empty l = true -> l <> [] ->
  trimmed (join sep l) = true /\ join sep l <> [].
Proof.
  rewrite !forallb_Forall, !Forall_forall. intros Hp Hn Hne.
  assert (Forall (fun s => s <> [] /\ trimmed s = true /\ tail_ok s = true) l) as Hl.
  { apply Forall_forall. intros s Hs. specialize (Hp s Hs). specialize (Hn s Hs).
    unfold piece in Hp. bools. assert (s <> []) by (by destruct s).
    split_and!; [done..|]. by apply trimmed_tail. }
  destruct Hl as [|s l (H1 & H2 & H3) Hl]; [done|]. destruct l as [|s2 l]; [done|].
  rewrite join_cons. split; [|by destruct s]. apply trimmed_app; [done..|].
  apply tail_ok_app, tail_ok_join; [done|]. eapply Forall_impl; [exact Hl|]. naive_solver.
Qed.

Lemma rules_parse gs :
  forallb canonical_group gs = true ->
  tryParseRequestRuleExpr (buildRequestRuleExpr gs) = Ok (Some gs).
Proof.
  intros H. rewrite rules_text by done. destruct gs as [|g gs]; [done|].
  pose proof (groups_build _ H) as Hf. destruct (factors_all _ _ Hf) as [Hp Hn].
  set (fs := map buildRuleGroupFactor (g :: gs)) in *. assert (fs <> []) as Hne by done.
  destruct (join_trimmed 42 " * " fs Hp Hn Hne) as [Ht Hj].
  unfold tryParseRequestRuleExpr. rewrite trim_id by done.
  destruct (join " * " fs) as [|c t] eqn:E; [done|]. rewrite <- E.
  rewrite splitTopLevelMultiply_join by done. by apply group_parses.
Qed.

(** ** Combining and splitting *)

Lemma factor_alone g f :
  factor_text g f -> tryParseRequestRuleExpr f = Ok (Some [g]).
Proof.
  intros [Hr Hp Hn]. unfold tryParseRequestRuleExpr.
  assert (trim f = f) as -> by (by apply (piece_split 42)).
  destruct f as [|c f]; [done|]. set (s := c :: f) in *.
  change (splitTopLevelMultiply s) with (splitTopLevelMultiply (join " * " [s])).
  rewrite splitTopLevelMultiply_join; [|done|by cbn; rewrite Hp|done].
  cbn [parse_groups]. by rewrite Hr.
Qed.

Lemma sort_rule_parts gs fs : Forall2 factor_text gs fs -> sort_parts fs = Ok (fs, []).
Proof.
  induction 1 as [|g f gs fs Hf _ IH]; [done|]. cbn. by rewrite (factor_alone g), IH.
Qed.

Lemma wrapped_piece base :
  balanced base = true -> piece 42 ("(" ++ base ++ ")") = true.
Proof.
  intros H. unfold piece. rewrite quiet_wrap, balanced_wrap_end by done.
  apply trimmed_app; [done..|]. by apply tail_ok_app.
Qed.

Lemma combine_text base gs :
  trimmed base = true -> base <> [] -> gs <> [] -> forallb canonical_group gs = true ->
  combineBillingExpr base (buildRequestRuleExpr gs)
  = join " * " (("(" ++ base ++ ")") :: map buildRuleGroupFactor gs).
Proof.
  intros Ht Hb Hgs H. rewrite rules_text by done.
  destruct (factors_all _ _ (groups_build _ H)) as [Hp Hn].
  destruct (join_trimmed 42 " * " (map buildRuleGroupFactor gs) Hp Hn) as [Hjt Hj]; [by destruct gs|].
  unfold combineBillingExpr. rewrite (trim_id base), (trim_id (join _ _)) by done.
  destruct gs as [|g gs]; [done|]. cbn [map] in *. rewrite join_cons.
  destruct base as [|c base]; [done|]. destruct (join " * " (_ :: _)) as [|d t]; [done|].
  cbn [app]. f_equal. f_equal. by rewrite <- !app_assoc.
Qed.

Lemma split_combined base gs :
  trimmed base = true -> base <> [] -> balanced base = true ->
  tryParseRequestRuleExpr ("(" ++ base ++ ")") = Ok None ->
  gs <> [] -> forallb canonical_group gs = true ->
  splitBillingExprAndRequestRules (combineBillingExpr base (buildRequestRuleExpr gs))
  = Ok {| sp_billingExpr := unwrapOuterParens base; sp_requestRuleExpr := buildRequestRuleExpr gs |}.
Proof.
  intros Ht Hne Hb Hn Hgs H. rewrite combine_text by done.
  pose proof (groups_build _ H) as Hf. destruct (factors_all _ _ Hf) as [Hp Hm].
  set (parts := ("(" ++ base ++ ")") :: map buildRuleGroupFactor gs).
  assert (forallb (piece 42) parts = true) as Hps
    by (cbn [parts forallb]; by rewrite wrapped_piece, Hp).
  assert (forallb non_empty parts = true) as Hms by (cbn [parts forallb]; by rewrite Hm).
  destruct (join_trimmed 42 " * " parts Hps Hms) as [Hjt Hj]; [done|].
  unfold splitBillingExprAndRequestRules. rewrite trim_id by done.
  destruct (join " * " parts) as [|c t] eqn:E; [done|]. rewrite <- E.
  rewrite splitTopLevelMultiply_join by done.
  unfold parts. cbn [length]. rewrite length_map.
  destruct gs as [|g gs]; [done|]. cbn [length Nat.leb].
  cbn [sort_parts]. rewrite Hn, (sort_rule_parts _ _ Hf). cbn [res_bind map].
  by rewrite unwrap_wrap, rules_text by done.
Qed.

(** ** What the builder writes and the parser does not read back *)

(** Without its guard, a comparison is no condition. *)
Lemma bare_comparison path op v :
  non_empty path = true -> plain path = true -> op ∈ [">"; ">="; "<"; "<="] ->
  tryParseRequestCondition (sq "param('" ++ path ++ sq "') " ++ op ++ " " ++ v) = Ok None.
Proof.
  intros Hne Hp Hop. unfold tryParseRequestCondition. rewrite no_time by reflexivity.
  repeat (apply elem_of_cons in Hop as [->|Hop]); try by apply elem_of_nil in Hop.
  all: unfold header_exists_re; rx_open; rx_miss; cbn [head].
  all: unfold param_exists_re; rx_open; rx_lit; rx_cap; rx_miss; cbn [head].
  all: unfold header_contains_re; rx_open; rx_miss; cbn [head].
  all: unfold param_contains_re; rx_open; rx_lit; rx_cap; rx_miss; cbn [head].
  all: unfold param_cmp_re; rx_open; rx_lit; rx_cap; rx_miss; cbn [head].
  all: unfold eq_re; rx_open; change (sq "param('" ++ ?x) with ("param" ++ sq "('" ++ x).
  all: rewrite (run_cap_lits 1 ["param"; "header"] "param");
    [rx_lit; rx_cap; by rx_miss|set_solver|repeat (constructor; [set_solver|]); constructor|].
  all: intros s' Hs' Hn; repeat (apply elem_of_cons in Hs' as [->|Hs']; [done|]);
    by apply elem_of_nil in Hs'.
Qed.

Definition comparison (path mode v : jstr) : RequestCondition := ph SOURCE_PARAM path mode v.

Lemma comparison_text path mode op v :
  param_mode_op mode = Some op -> non_empty path = true -> plain_text path = true ->
  is_numeric_literal v = true ->
  buildRequestConditionExpr (comparison path mode v)
  = join " && " [sq "param('" ++ path ++ sq "') != nil";
                 sq "param('" ++ path ++ sq "') " ++ op ++ " " ++ v].
Proof.
  intros Hop Hne Hp Hv. unfold plain_text in Hp. bools.
  assert (normalizeCondition (Some (to_partial (comparison path mode v))) = comparison path mode v) as En.
  { unfold param_mode_op in Hop. cbn in Hop. by bd. }
  unfold buildRequestConditionExpr. unfold comparison, ph in *. rewrite En.
  unfold param_header_expr. cbn [ph_source ph_path ph_mode ph_value]. rewrite (trim_id path) by done.
  destruct path as [|c p]; [done|]. set (path := c :: p) in *. rewrite (quote_plain path) by done.
  change (SOURCE_PARAM ==? "header") with false. cbn iota.
  assert (mode ==? MATCH_EXISTS = false /\ mode ==? MATCH_CONTAINS = false) as [-> ->].
  { unfold param_mode_op in Hop. cbn in Hop. by bd. }
  cbn iota. rewrite Hop, numeric_trim, Hv by done. cbn [negb join]. by rewrite <- !app_assoc.
Qed.

Lemma comparison_piece path tail :
  plain path = true -> safe tail = true -> tail_ok tail = true ->
  piece 38 (sq "param('" ++ path ++ sq "') " ++ tail) = true.
Proof.
  intros Hp Ht Hk. pose proof (plain_safe path Hp). unfold piece.
  assert (trimmed (sq "param('" ++ path ++ sq "') " ++ tail) = true) as ->.
  { apply trimmed_app; [done..|]. by do 2 apply tail_ok_app. }
  assert (quiet 38 0 (sq "param('" ++ path ++ sq "') " ++ tail) = true) as ->.
  { apply quiet_no_unit.
    - change (no_unit 38 (sq "param('" ++ path ++ sq "') " ++ tail) = true). text_facts.
    - assert (tail_ok (sq "param('" ++ path ++ sq "') " ++ tail) = true) as Hk'
        by (by repeat apply tail_ok_app).
      unfold tail_ok in Hk'. destruct (rev _); [done|]. by intros ->. }
  rewrite andb_true_r. change (sq "param('" ++ ?x) with ("param" ++ sq "('" ++ x).
  change (sq "') " ++ ?x) with (sq "')" ++ " " ++ x).
  rewrite call_balanced, balanced_flat by done. by apply balanced_flat_end, safe_flat.
Qed.

Lemma comparison_lost path mode op v m :
  param_mode_op mode = Some op -> non_empty path = true -> plain_text path = true ->
  is_numeric_literal v = true -> is_numeric_literal m = true ->
  tryParseRequestRuleExpr
    (buildRequestRuleExpr [{| rg_conditions := [comparison path mode v]; rg_multiplier := m |}])
  = Ok None.
Proof.
  intros Hop Hne Hp Hv Hm.
  assert (op ∈ [">"; ">="; "<"; "<="]) as Hin.
  { unfold param_mode_op in Hop. cbn in Hop. bd; set_solver. }
  set (e1 := sq "param('" ++ path ++ sq "') != nil").
  set (e2 := sq "param('" ++ path ++ sq "') " ++ op ++ " " ++ v).
  assert (plain path = true) as Hpl by (unfold plain_text in Hp; by bools).
  assert (piece 38 e1 = true) as H1 by (by apply comparison_piece).
  assert (piece 38 e2 = true) as H2.
  { apply comparison_piece; [done|..].
    - unfold safe. rewrite !forallb_app. rewrite (numeric_safe v Hv : forallb _ _ = true).
      repeat (apply elem_of_cons in Hin as [->|Hin]; [done|]). by apply elem_of_nil in Hin.
    - do 2 apply tail_ok_app. by apply trimmed_tail; [apply numeric_nonempty|apply numeric_trimmed]. }
  set (inner := join " && " [e1; e2]).
  assert (buildRequestRuleExpr [{| rg_conditions := [comparison path mode v]; rg_multiplier := m |}]
          = "(" ++ inner ++ " ? " ++ m ++ " : 1)") as ->.
  { unfold buildRequestRuleExpr, buildRuleGroupFactor. cbn [map rg_multiplier rg_conditions].
    rewrite (comparison_text path mode op v), numeric_trim, Hm by done. done. }
  assert (tryParseRuleGroupFactor ("(" ++ inner ++ " ? " ++ m ++ " : 1)") = Ok None) as Hf.
  { destruct (factor_matches inner m) as (mt & E & E1 & E2); [done..|].
    unfold tryParseRuleGroupFactor. rewrite E, E1.
    unfold inner. rewrite splitTopLevelAnd_join; [|done|by cbn [forallb]; rewrite H1, H2|done].
    cbn [parse_conditions]. unfold piece in H1, H2. bools. rewrite !trim_id by done.
    unfold e1. rewrite parse_param_exists by done. cbn [res_bind].
    unfold e2. by rewrite bare_comparison. }
  assert (piece 42 ("(" ++ inner ++ " ? " ++ m ++ " : 1)") = true) as H3.
  { replace ("(" ++ inner ++ " ? " ++ m ++ " : 1)") with ("(" ++ (inner ++ " ? " ++ m ++ " : 1") ++ ")")
      by (by rewrite <- !app_assoc).
    apply wrapped_piece. unfold piece in H1, H2. bools.
    rewrite balanced_app by (by apply balanced_join; [|repeat constructor]).
    apply balanced_flat_end. rewrite !flat_app, (safe_flat m) by (by apply numeric_safe). done. }
  unfold tryParseRequestRuleExpr.
  assert (trim ("(" ++ inner ++ " ? " ++ m ++ " : 1)") = "(" ++ inner ++ " ? " ++ m ++ " : 1)") as ->
    by (by apply (piece_split 42)).
  set (f := "(" ++ inner ++ " ? " ++ m ++ " : 1)") in *.
  change (parse_groups (splitTopLevelMultiply (join " * " [f])) = Ok None).
  rewrite splitTopLevelMultiply_join; [|done|by cbn [forallb]; rewrite H3|done].
  cbn [parse_groups]. by rewrite Hf.
Qed.

(** ** Outer parentheses and normal forms *)

Lemma unwrap_go_done f : forall s, length s <= f -> hasFullOuterParens (unwrap_go f s) = false.
Proof.
  induction f as [|f IH]; intros s Hs; cbn [unwrap_go].
  - destruct s; [done|cbn in Hs; lia].
  - destruct (hasFullOuterParens s) eqn:E; [|done]. apply IH.
    pose proof (trim_length (slice_inner s)). pose proof (slice_inner_length s).
    destruct s; cbn in *; lia.
Qed.

Lemma unwrap_go_trimmed f : forall s, trimmed s = true -> trimmed (unwrap_go f s) = true.
Proof.
  induction f as [|f IH]; intros s Hs; cbn [unwrap_go]; [done|].
  destruct (hasFullOuterParens s); [|done]. apply IH, trimmed_trim.
Qed.

(** [unwrapOuterParens] removes every outer pair: its answer is trimmed, has
    no full outer parentheses left, and unwrapping it again changes nothing. *)
Theorem unwrap_removes_all s :
  hasFullOuterParens (unwrapOuterParens s) = false
  /\ trimmed (unwrapOuterParens s) = true
  /\ unwrapOuterParens (unwrapOuterParens s) = unwrapOuterParens s.
Proof.
  assert (trimmed (unwrapOuterParens s) = true) as Ht by apply unwrap_go_trimmed, trimmed_trim.
  assert (hasFullOuterParens (unwrapOuterParens s) = false) as Hf
    by (apply unwrap_go_done, trim_length).
  split_and!; [done..|]. unfold unwrapOuterParens at 1. rewrite trim_id by done.
  destruct (length _); cbn [unwrap_go]; [done|]. by rewrite Hf.
Qed.

(** What the editor's type promises of a condition. *)
Definition valid_condition (c : RequestCondition) : bool :=
  match c with
  | CondTime t =>
      bool_decide (tm_timeFunc t ∈ TIME_FUNCS) && non_empty (tm_timezone t)
      && has_option (getRequestRuleMatchOptions SOURCE_TIME) (Some (tm_mode t))
  | CondParamHeader p =>
      bool_decide (ph_source p ∈ [SOURCE_PARAM; SOURCE_HEADER])
      && has_option (getRequestRuleMatchOptions (ph_source p)) (Some (ph_mode p))
  end.

Lemma normalize_valid c : valid_condition (normalizeCondition c) = true.
Proof.
  unfold normalizeCondition. set (pc := default no_condition c). clearbody pc.
  destruct pc as [src path f tz m v s e]. cbn [pc_source pc_path pc_timeFunc pc_timezone pc_mode pc_value pc_rangeStart pc_rangeEnd].
  destruct (bool_decide_reflect (src = Some "time")) as [->|_].
  - change (SOURCE_TIME ==? SOURCE_TIME) with true. cbn iota.
    cbn [valid_condition tm_timeFunc tm_timezone tm_mode]. rewrite !andb_true_iff. split_and!.
    + unfold isTimeFunc. destruct f as [f|]; [|done].
      by destruct (bool_decide (f ∈ TIME_FUNCS)) eqn:E.
    + destruct tz as [[|]|]; done.
    + destruct (has_option _ m) eqn:E; [|done]. destruct m; [exact E|by vm_compute in E].
  - destruct (bool_decide_reflect (src = Some "header")) as [->|_].
    + change (SOURCE_HEADER ==? SOURCE_TIME) with false. cbn iota. cbn [valid_condition ph_source ph_mode].
      destruct (has_option _ m) eqn:E; [|done]. destruct m; [exact E|by vm_compute in E].
    + change (SOURCE_PARAM ==? SOURCE_TIME) with false. cbn iota. cbn [valid_condition ph_source ph_mode].
      destruct (has_option _ m) eqn:E; [|done]. destruct m; [exact E|by vm_compute in E].
Qed.

Lemma normalize_fix c :
  valid_condition c = true -> normalizeCondition (Some (to_partial c)) = c.
Proof.
  destruct c as [[f tz m v s e]|[src path m v]]; cbn [valid_condition tm_timeFunc tm_timezone tm_mode ph_source ph_mode];
    intros H; bools; unfold normalizeCondition;
    cbn [default from_option id to_partial pc_source pc_path pc_timeFunc pc_timezone pc_mode
         pc_value pc_rangeStart pc_rangeEnd
         tm_timeFunc tm_timezone tm_mode tm_value tm_rangeStart tm_rangeEnd
         ph_source ph_path ph_mode ph_value].
  - change (if Some SOURCE_TIME ==? Some "time" then SOURCE_TIME else _) with SOURCE_TIME.
    change (SOURCE_TIME ==? SOURCE_TIME) with true. cbn iota.
    rewrite H0. unfold isTimeFunc. by rewrite bool_decide_true, str_or_ne.
  - match goal with Hi : src ∈ _ |- _ => revert H0; pattern src; apply (ph_source_cases _ src Hi) end.
    + change (if Some SOURCE_PARAM ==? Some "time" then SOURCE_TIME else _) with SOURCE_PARAM.
      change (SOURCE_PARAM ==? SOURCE_TIME) with false. cbn iota. by intros ->.
    + change (if Some SOURCE_HEADER ==? Some "time" then SOURCE_TIME else _) with SOURCE_HEADER.
      change (SOURCE_HEADER ==? SOURCE_TIME) with false. cbn iota. by intros ->.
Qed.

(** C40: [normalizeCondition] turns any partial condition into a well-typed one
    (known source and time function, a mode its source offers, a time zone),
    and leaves well-typed conditions unchanged, so it is idempotent. *)
Theorem normalize_condition_type c :
  valid_condition (normalizeCondition c) = true
  /\ normalizeCondition (Some (to_partial (normalizeCondition c))) = normalizeCondition c
  /\ forall c', valid_condition c' = true -> normalizeCondition (Some (to_partial c')) = c'.
Proof.
  split_and!; [apply normalize_valid|apply normalize_fix, normalize_valid|apply normalize_fix].
Qed.

(** ** The round trips *)

(** C3: a list of canonical rule groups survives being written by
    [buildRequestRuleExpr] and read back by [tryParseRequestRuleExpr]. *)
Theorem request_rules_roundtrip gs :
  forallb canonical_group gs = true ->
  tryParseRequestRuleExpr (buildRequestRuleExpr gs) = Ok (Some gs).
Proof. apply rules_parse. Qed.

Definition sample_rules : list RequestRuleGroup :=
  [ {| rg_conditions :=
         [ CondTime {| tm_timeFunc := "hour"; tm_timezone := "Asia/Shanghai"; tm_mode := MATCH_RANGE;
                       tm_value := []; tm_rangeStart := "22"; tm_rangeEnd := "6" |};
           ph SOURCE_PARAM "service_tier" MATCH_EQ "fast";
           ph SOURCE_HEADER "anthropic-beta" MATCH_CONTAINS "fast-mode" ];
       rg_multiplier := "0.5" |};
    {| rg_conditions := [ CondTime {| tm_timeFunc := "weekday"; tm_timezone := "UTC"; tm_mode := MATCH_LT;
                                      tm_value := "3"; tm_rangeStart := []; tm_rangeEnd := [] |} ];
       rg_multiplier := "2" |} ].

Lemma request_rules_roundtrip_witness :
  tryParseRequestRuleExpr (buildRequestRuleExpr sample_rules) = Ok (Some sample_rules).
Proof. apply request_rules_roundtrip. vm_compute. reflexivity. Defined.

(** C7: combining a balanced base expression with canonical rules and splitting
    the result gives back both halves; the base loses only its own outer
    parentheses. *)
Theorem combine_split_roundtrip base gs :
  trimmed base = true -> base <> [] -> balanced base = true ->
  tryParseRequestRuleExpr ("(" ++ base ++ ")") = Ok None ->
  gs <> [] -> forallb canonical_group gs = true ->
  splitBillingExprAndRequestRules (combineBillingExpr base (buildRequestRuleExpr gs))
  = Ok {| sp_billingExpr := unwrapOuterParens base;
          sp_requestRuleExpr := buildRequestRuleExpr gs |}.
Proof. apply split_combined. Qed.

Definition sample_base : jstr := sq "tier('base', p * 2.5 + c * 15)".

Lemma combine_split_roundtrip_witness :
  splitBillingExprAndRequestRules (combineBillingExpr sample_base (buildRequestRuleExpr sample_rules))
  = Ok {| sp_billingExpr := unwrapOuterParens sample_base;
          sp_requestRuleExpr := buildRequestRuleExpr sample_rules |}.
Proof.
  apply combine_split_roundtrip; [by vm_compute|done|by vm_compute|by vm_compute|done|by vm_compute].
Defined.

(** A numeric comparison of a request parameter, which the editor offers and
    [buildRequestRuleExpr] writes, is not read back: the guard [!= nil && ...]
    is cut at the top level before a condition pattern sees it. *)
Theorem comparison_not_read_back path mode op v m :
  param_mode_op mode = Some op -> non_empty path = true -> plain_text path = true ->
  is_numeric_literal v = true -> is_numeric_literal m = true ->
  tryParseRequestRuleExpr
    (buildRequestRuleExpr [{| rg_conditions := [comparison path mode v]; rg_multiplier := m |}])
  = Ok None.
Proof. apply comparison_lost. Qed.

Lemma comparison_not_read_back_witness :
  tryParseRequestRuleExpr
    (buildRequestRuleExpr [{| rg_conditions := [comparison "max_tokens" MATCH_GT "1000"];
                              rg_multiplier := "2" |}]) = Ok None.
Proof. apply (comparison_not_read_back _ _ ">"); by vm_compute. Defined.

(** Two more inputs that do not survive. *)
Example backslash_path_doubles :
  let g p := [{| rg_conditions := [ph SOURCE_HEADER p MATCH_EXISTS []]; rg_multiplier := "2" |}] in
  tryParseRequestRuleExpr (buildRequestRuleExpr (g (sq "a\b"))) = Ok (Some (g (sq "a\\b"))).
Proof. vm_compute. reflexivity. Qed.

Example bad_escape_throws :
  exists msg, splitBillingExprAndRequestRules
    (sq "(tier('base', p * 1)) * (has(header('x'), '\q') ? 2 : 1)") = Throw msg.
Proof. eexists. vm_compute. reflexivity. Qed.
