(* ===== verification/ModelMapping.v ===== *)
(** * Model lists and model mappings (features/channels/lib/model-mapping-validation.ts)

    The comma-separated model list of a channel and the JSON object that
    renames models. *)
From S2P Require Import Prelude JsString JsNumber JsValue Json.

(** ** The model list *)

Definition parseModelsString (modelsStr : jstr) : list jstr :=
  match modelsStr with
  | [] => []
  | _ => List.filter non_empty (map trim (split "," modelsStr))
  end.

Definition formatModelsArray (models : list jstr) : jstr := join "," (uniq models).

Definition normalizeModelName (model : jstr) : jstr := trim model.

(** ** The mapping *)

(** [JSON.parse(s)], kept when it is an object that is not an array. *)
Definition parse_object (s : jstr) : option jsobj :=
  match parse s with
  | Some v => plain_object v
  | None => None
  end.

Definition extractMappingSourceModels (modelMapping : jstr) : list jstr :=
  match trim modelMapping with
  | [] => []
  | trimmed =>
      match parse_object trimmed with
      | Some parsed => uniq (List.filter non_empty (map trim (obj_keys parsed)))
      | None => []
      end
  end.

Definition redirect_value (v : jsval) : jstr :=
  match v with JStr s => trim s | _ => [] end.

Definition extractRedirectModels (modelMapping : jstr) : list jstr :=
  match trim modelMapping with
  | [] => []
  | trimmed =>
      match parse_object trimmed with
      | Some parsed => uniq (List.filter non_empty (map redirect_value (obj_values parsed)))
      | None => []
      end
  end.

(** [initialModelMapping] and [currentModelMapping] may be [undefined] or empty:
    both are falsy. *)
Definition hasModelConfigChanged (currentModels : list jstr) (currentModelMapping : jstr)
    (initialModels : list jstr) (initialModelMapping : jstr) : bool :=
  if (length initialModels =? 0)%nat && negb (non_empty initialModelMapping) then true
  else if negb (length currentModels =? length initialModels)%nat then true
  else if negb (forallb (fun '(a, b) => a ==? b) (combine currentModels initialModels)) then true
  else trim currentModelMapping !=? trim initialModelMapping.

Definition findMissingModelsInMapping (modelMapping : jstr) (currentModels : list jstr) : list jstr :=
  if negb (non_empty modelMapping) || (trim modelMapping ==? []) then []
  else
    match parse_object modelMapping with
    | None => []
    | Some parsedMapping =>
        let modelSet := map normalizeModelName currentModels in
        uniq (List.filter (fun key => non_empty key && negb (bool_decide (key ∈ modelSet)))
                (map normalizeModelName (obj_keys parsedMapping)))
    end.

Record MappingValidation := { mv_valid : bool; mv_error : option jstr }.

Definition mapping_invalid (error : jstr) : MappingValidation :=
  {| mv_valid := false; mv_error := Some error |}.

Definition is_string (v : jsval) : bool := match v with JStr _ => true | _ => false end.

Definition validateModelMappingJson (modelMapping : jstr) : MappingValidation :=
  let ok := {| mv_valid := true; mv_error := None |} in
  if negb (non_empty modelMapping) || (trim modelMapping ==? []) then ok
  else
    match parse modelMapping with
    | None => mapping_invalid "Model mapping must be valid JSON format"
    | Some v =>
        match plain_object v with
        | None => mapping_invalid "Model mapping must be a valid JSON object"
        | Some parsed =>
            if existsb (fun value => negb (is_string value)) (obj_values parsed)
            then mapping_invalid "Model mapping values must be strings"
            else ok
        end
    end.

Definition findExposedTargetModels (modelMapping : jstr) (currentModels : list jstr) : list jstr :=
  match extractRedirectModels modelMapping with
  | [] => []
  | redirectModels =>
      let modelSet := map normalizeModelName currentModels in
      List.filter (fun model => bool_decide (normalizeModelName model ∈ modelSet)) redirectModels
  end.

(** The four [Set]s of the result, as lists in insertion order. *)
Record ModelCategories := {
  normalizedCurrentModels : list jstr;
  normalizedRedirectModels : list jstr;
  classificationSet : list jstr;
  redirectOnlySet : list jstr
}.

Definition categorizeModelsWithRedirect (currentModels redirectModels : list jstr) : ModelCategories :=
  let current := uniq (List.filter non_empty (map normalizeModelName currentModels)) in
  let redirect := uniq (List.filter non_empty (map normalizeModelName redirectModels)) in
  {| normalizedCurrentModels := current;
     normalizedRedirectModels := redirect;
     classificationSet := uniq (current ++ redirect);
     redirectOnlySet := uniq (List.filter (fun m => negb (bool_decide (m ∈ current))) redirect) |}.

(** ** Lemmas *)

(** A model name the list format can carry. *)
Definition clean_name (m : jstr) : bool := non_empty m && trimmed m && without 44 m.

Lemma forallb_uniq (p : jstr -> bool) l : forallb p l = true -> forallb p (uniq l) = true.
Proof.
  rewrite !forallb_Forall, !Forall_forall. intros H x. rewrite elem_of_uniq. apply H.
Qed.

Lemma clean_names_kept l :
  forallb clean_name l = true -> List.filter non_empty (map trim l) = l.
Proof.
  intros H. rewrite forallb_forall in H.
  assert (map trim l = l) as ->.
  { rewrite <- (map_id l) at 2. apply map_ext_in. intros x Hx%H.
    unfold clean_name in Hx. bools. by apply trim_id. }
  apply filter_all, forallb_forall. intros x Hx%H. unfold clean_name in Hx. by bools.
Qed.

Lemma uniq_nil_iff (l : list jstr) : uniq l = [] <-> l = [].
Proof. by destruct l. Qed.

Lemma join_nil sep l : forallb non_empty l = true -> join sep l = [] -> l = [].
Proof.
  destruct l as [|s l]; [done|]. cbn [forallb join]. intros H. bools.
  destruct l; [by destruct s|]. by destruct s.
Qed.

Lemma parse_models_clean s : forallb clean_name (parseModelsString s) = true.
Proof.
  unfold parseModelsString. destruct s as [|c s]; [done|]. set (t := c :: s).
  rewrite forallb_Forall, Forall_forall. intros x. rewrite elem_of_filter_bool, elem_of_map.
  intros (Hn & y & Hy & ->). unfold clean_name. rewrite Hn, trimmed_trim.
  apply without_trim. pose proof (split_fields 44 t) as Hf. rewrite forallb_forall in Hf.
  apply Hf. by apply list_elem_of_In.
Qed.

Lemma parse_format_clean ms :
  forallb clean_name ms = true -> parseModelsString (formatModelsArray ms) = uniq ms.
Proof.
  intros H%forallb_uniq. unfold formatModelsArray. set (l := uniq ms) in *. clearbody l.
  destruct (decide (l = [])) as [->|Hne]; [done|].
  assert (forallb non_empty l = true) as Hn.
  { revert H. rewrite !forallb_forall. intros H x Hx%H. unfold clean_name in Hx. by bools. }
  assert (forallb (without 44) l = true) as Hw.
  { revert H. rewrite !forallb_forall. intros H x Hx%H. unfold clean_name in Hx. by bools. }
  unfold parseModelsString. destruct (join "," l) as [|c t] eqn:E.
  - exfalso. by apply Hne, (join_nil ",").
  - rewrite <- E. change "," with [44%N]. rewrite split_join by done. by apply clean_names_kept.
Qed.

(** ** Properties *)

(** The model list is in a normal form after one round: what
    [parseModelsString] reads has trimmed, non-empty, comma-free names, and
    writing any such list with [formatModelsArray] and reading it again gives the
    list without repetitions, so one more round changes nothing. *)
Theorem models_string_roundtrip s ms :
  forallb clean_name (parseModelsString s) = true
  /\ (forallb clean_name ms = true -> parseModelsString (formatModelsArray ms) = uniq ms)
  /\ let once := parseModelsString (formatModelsArray (parseModelsString s)) in
     once = uniq (parseModelsString s)
     /\ parseModelsString (formatModelsArray once) = once.
Proof.
  pose proof (parse_models_clean s) as Hc.
  split_and!; [done|apply parse_format_clean|]. cbn zeta.
  split; [by apply parse_format_clean|]. rewrite (parse_format_clean (parseModelsString s)) by done.
  rewrite parse_format_clean by (by apply forallb_uniq). apply uniq_idemp.
Qed.

Lemma models_string_roundtrip_witness :
  parseModelsString (formatModelsArray ["gpt-4o"; "o3"; "gpt-4o"]) = ["gpt-4o"; "o3"].
Proof. apply (proj1 (proj2 (models_string_roundtrip [] ["gpt-4o"; "o3"; "gpt-4o"]))). reflexivity. Defined.

Lemma find_missing_spec mapping o models x :
  trim mapping <> [] -> parse_object mapping = Some o ->
  x ∈ findMissingModelsInMapping mapping models
  <-> x <> [] /\ (exists k, k ∈ obj_keys o /\ x = trim k)
      /\ forall m, m ∈ models -> trim m <> x.
Proof.
  intros Hne Ho. unfold findMissingModelsInMapping.
  assert (non_empty mapping = true) as -> by (by destruct mapping).
  rewrite bool_decide_false by done. cbn [negb orb]. rewrite Ho.
  rewrite elem_of_uniq, elem_of_filter_bool, andb_true_iff, negb_true_iff,
    bool_decide_eq_false, !elem_of_map.
  unfold normalizeModelName. split.
  - intros ((Hx & Hm) & k & Hk & ->). split_and!; [by intros E; rewrite E in Hx|eauto|].
    intros m Hin E. apply Hm. eauto.
  - intros (Hx & (k & Hk & ->) & Hm). split_and!; [by destruct (trim k)| |eauto].
    intros (m & Hin & E). by apply (Hm m).
Qed.

(** On a mapping that is a JSON object, [findMissingModelsInMapping] returns,
    without repetition, exactly the trimmed non-empty source names that no listed
    model has; on any other text it returns nothing. *)
Theorem missing_models_spec mapping models :
  NoDup (findMissingModelsInMapping mapping models)
  /\ match parse_object mapping with
     | Some o =>
         trim mapping <> [] ->
         forall x, x ∈ findMissingModelsInMapping mapping models
           <-> x <> [] /\ (exists k, k ∈ obj_keys o /\ x = trim k)
               /\ forall m, m ∈ models -> trim m <> x
     | None => findMissingModelsInMapping mapping models = []
     end.
Proof.
  split.
  - unfold findMissingModelsInMapping. destruct (_ || _); [constructor|].
    destruct (parse_object mapping); [apply NoDup_uniq|constructor].
  - destruct (parse_object mapping) as [o|] eqn:Ho.
    + intros Hne x. by apply find_missing_spec.
    + unfold findMissingModelsInMapping. rewrite Ho. by destruct (_ || _).
Qed.

(** The display sets partition the names: the classification set is the union
    of the current and the redirect names, and the redirect-only names are the
    redirect names that are not current; none has a repetition. *)
Theorem categorize_partition cur red :
  let c := categorizeModelsWithRedirect cur red in
  (forall x, x ∈ classificationSet c
     <-> x ∈ normalizedCurrentModels c \/ x ∈ redirectOnlySet c)
  /\ (forall x, x ∈ redirectOnlySet c
     <-> x ∈ normalizedRedirectModels c /\ x ∉ normalizedCurrentModels c)
  /\ (forall x, x ∈ normalizedCurrentModels c <-> x <> [] /\ exists m, m ∈ cur /\ x = trim m)
  /\ NoDup (classificationSet c) /\ NoDup (redirectOnlySet c).
Proof.
  cbn [classificationSet normalizedCurrentModels normalizedRedirectModels redirectOnlySet
       categorizeModelsWithRedirect].
  assert (forall x, x ∈ uniq (List.filter (fun m : jstr => negb (bool_decide
      (m ∈ uniq (List.filter non_empty (map normalizeModelName cur)))))
      (uniq (List.filter non_empty (map normalizeModelName red))))
    <-> x ∈ uniq (List.filter non_empty (map normalizeModelName red))
        /\ x ∉ uniq (List.filter non_empty (map normalizeModelName cur))) as Hro.
  { intros x. rewrite (elem_of_uniq (List.filter _ _)), elem_of_filter_bool, negb_true_iff,
      bool_decide_eq_false. tauto. }
  split_and!; try apply NoDup_uniq; [|done|].
  - intros x. rewrite Hro, (elem_of_uniq (_ ++ _)), elem_of_app.
    destruct (decide (x ∈ uniq (List.filter non_empty (map normalizeModelName cur)))); tauto.
  - intros x. rewrite elem_of_uniq, elem_of_filter_bool, elem_of_map.
    unfold non_empty. destruct x; naive_solver.
Qed.

(** [hasModelConfigChanged] answers false exactly when the channel is not a
    new one and both the model list and the trimmed mapping are unchanged. *)
Theorem config_unchanged_iff cur cm init im :
  hasModelConfigChanged cur cm init im = false
  <-> (init <> [] \/ im <> []) /\ cur = init /\ trim cm = trim im.
Proof.
  unfold hasModelConfigChanged.
  assert (forall a b : list jstr, length a = length b ->
    forallb (fun '(x, y) => x ==? y) (combine a b) = true <-> a = b) as Heq.
  { induction a as [|x a IH]; intros [|y b] Hl; try done. cbn in Hl |- *. injection Hl as Hl.
    rewrite andb_true_iff, bool_decide_eq_true, IH by done. split; [intros [-> ->]|intros [=]]; done. }
  destruct ((length init =? 0)%nat && negb (non_empty im)) eqn:E0.
  { split; [done|]. intros (H & _). apply andb_true_iff in E0 as [E1 E2].
    destruct init, im; naive_solver. }
  assert (init <> [] \/ im <> []) as H0 by (destruct init, im; naive_solver).
  destruct (Nat.eqb_spec (length cur) (length init)) as [El|El]; cbn [negb].
  2: { split; [done|]. intros (_ & -> & _). done. }
  destruct (forallb _ _) eqn:Ef; cbn [negb].
  - apply Heq in Ef; [|done]. rewrite negb_false_iff, bool_decide_eq_true. tauto.
  - split; [done|]. intros (_ & E & _). apply Heq in E; [|done]. congruence.
Qed.

Lemma redirect_values_strings o :
  existsb (fun value => negb (is_string value)) (obj_values o) = false ->
  Forall (fun kv => exists s, kv.2 = JStr s) o.
Proof.
  induction o as [|[k v] o IH]; cbn; [constructor|]. intros H. bools.
  constructor; [|by apply IH]. destruct v; try done. eauto.
Qed.

(** A mapping [validateModelMappingJson] accepts is blank or a JSON object
    all of whose values are strings; any other text gets an error message. *)
Theorem mapping_validation_sound mapping :
  (mv_valid (validateModelMappingJson mapping) = true
   <-> trim mapping = []
       \/ exists o, parse mapping = Some (JObj o) /\ Forall (fun kv => exists s, kv.2 = JStr s) o)
  /\ (mv_valid (validateModelMappingJson mapping) = false
      <-> mv_error (validateModelMappingJson mapping) <> None).
Proof.
  unfold validateModelMappingJson.
  destruct (negb (non_empty mapping) || (trim mapping ==? [])) eqn:E.
  { split; [|done]. split; [intros _; left|done].
    apply orb_true_iff in E as [E|E]; [by destruct mapping|by bools]. }
  bools. destruct (parse mapping) as [v|] eqn:Ep.
  2: { split; [|done]. split; [done|]. intros [?|(o & ? & _)]; done. }
  destruct v as [| |b|n|s|l|o]; cbn [plain_object];
    try (split; [|done]; split; [done|]; intros [?|(o' & ? & _)]; done).
  destruct (existsb _ _) eqn:Ee; (split; [|done]); (split; [|intros [?|(o' & [= <-] & Ho)]]); try done.
  - apply existsb_exists in Ee as (v & Hv & Hn). apply list_elem_of_In in Hv.
    unfold obj_values in Hv. apply elem_of_map in Hv as ([k v'] & Hin & ->).
    rewrite Forall_forall in Ho. apply Ho in Hin as [s E]. cbn in E, Hn. by rewrite E in Hn.
  - intros _. right. exists o. split; [done|]. by apply redirect_values_strings.
Qed.
