(* ===== verification/AdvancedCustom.v ===== *)
(** * Advanced custom channels (features/channels/lib/advanced-custom.ts)

    The route table of an advanced custom channel: templates and defaults,
    parsing, normalising, validating and summarising. A configuration comes from
    [JSON.parse] through a cast, so it is an untyped value here and every method
    call on it may throw. *)
From stdpp Require Import gmap.
From S2P Require Import Prelude JsString JsNumber JsValue Json.

(** ** The URL parser

    [new URL(s)] is the browser's: only what the source reads of its result. *)

Record UrlParts := { url_host : jstr; url_protocol : jstr }.

Class UrlParser := url_parse : jstr -> option UrlParts.

(** ** Options, templates and defaults *)

Definition CHANNEL_TYPE_ADVANCED_CUSTOM : Z := 58.

Record ConverterOption := { co_value : jstr; co_label : jstr; co_triggerLabel : jstr }.

Definition converter value label trigger : ConverterOption :=
  {| co_value := value; co_label := label; co_triggerLabel := trigger |}.

Definition ADVANCED_CUSTOM_CONVERTER_OPTIONS : list ConverterOption :=
  [ converter "none" "Native forwarding" "Native forwarding";
    converter "anthropic_messages_to_openai_chat_completions"
      "Anthropic Messages to OpenAI Chat" "To OpenAI Chat";
    converter "openai_chat_completions_to_anthropic_messages"
      "OpenAI Chat to Anthropic Messages" "To Anthropic Messages";
    converter "openai_chat_completions_to_openai_responses"
      "OpenAI Chat to OpenAI Responses" "To OpenAI Responses";
    converter "openai_responses_to_openai_chat_completions"
      "OpenAI Responses to OpenAI Chat" "To OpenAI Chat";
    converter "openai_responses_to_gemini_generate_content"
      "OpenAI Responses to Gemini Generate Content" "To Gemini Generate Content";
    converter "gemini_generate_content_to_openai_chat_completions"
      "Gemini Generate Content to OpenAI Chat" "To OpenAI Chat";
    converter "openai_chat_completions_to_gemini_generate_content"
      "OpenAI Chat to Gemini Generate Content" "To Gemini Generate Content" ].

Definition ADVANCED_CUSTOM_AUTH_MODE_OPTIONS : list (jstr * jstr) :=
  [("default", "Default Bearer"); ("none", "No Auth"); ("header", "Header"); ("query", "Query")].

Record PathOption := { po_value : jstr; po_label : jstr }.

Definition path_option value label : PathOption := {| po_value := value; po_label := label |}.

Definition ADVANCED_CUSTOM_INCOMING_PATH_OPTIONS : list PathOption :=
  [ path_option "/v1/chat/completions" "OpenAI Chat";
    path_option "/v1/responses" "OpenAI Responses";
    path_option "/v1/responses/compact" "OpenAI Responses Compact";
    path_option "/v1/embeddings" "OpenAI Embeddings";
    path_option "/v1/images/generations" "OpenAI Image Generations";
    path_option "/v1/images/edits" "OpenAI Image Edits";
    path_option "/v1/completions" "OpenAI Completions";
    path_option "/v1/audio/speech" "OpenAI Audio Speech";
    path_option "/v1/audio/transcriptions" "OpenAI Audio Transcriptions";
    path_option "/v1/audio/translations" "OpenAI Audio Translations";
    path_option "/v1/rerank" "OpenAI Rerank";
    path_option "/v1/realtime" "OpenAI Realtime";
    path_option "/v1/messages" "Claude Messages";
    path_option "/v1beta/models/{model}:generateContent" "Gemini Generate Content";
    path_option "/v1beta/models/{model}:embedContent" "Gemini Embed Content";
    path_option "/v1beta/models/{model}:batchEmbedContents" "Gemini Batch Embed Contents" ].

Definition ADVANCED_CUSTOM_ROUTE_SUMMARY_LABELS : list (jstr * jstr) :=
  [("/v1/chat/completions", "OpenAI Chat")].

Record ValidationError := { ve_message : jstr; ve_routeIndex : option nat }.

Definition route_error (index : nat) (message : jstr) : ValidationError :=
  {| ve_message := message; ve_routeIndex := Some index |}.

Record ConverterDefaults := { cd_upstream_path : jstr; cd_auth : jsval }.

Definition ADVANCED_CUSTOM_MODEL_REGEX_PREFIX : jstr := "re:".

Inductive ModelRuleKind := RuleExact | RuleRegex.

Definition openAIChatPath : jstr := "/v1/chat/completions".
Definition openAIResponsesPath : jstr := "/v1/responses".
Definition claudeMessagesPath : jstr := "/v1/messages".
Definition geminiGenerateContentPath : jstr := "/v1beta/models/{model}:generateContent".

Definition auth_object (type name value : jstr) : jsval :=
  JObj [("type", JStr type); ("name", JStr name); ("value", JStr value)].

Definition bearerHeaderAuth : jsval := auth_object "header" "Authorization" "Bearer {api_key}".
Definition apiKeyHeaderAuth : jsval := auth_object "header" "x-api-key" "{api_key}".
Definition geminiQueryAuth : jsval := auth_object "query" "key" "{api_key}".

Definition route_object (incoming upstream conv : jstr) (auth : jsval) : jsval :=
  JObj [("incoming_path", JStr incoming); ("upstream_path", JStr upstream);
        ("converter", JStr conv); ("auth", auth)].

Definition config_object (routes : list jsval) : jsval := JObj [("advanced_routes", JArr routes)].

Record TemplateOption := { to_value : jstr; to_label : jstr; to_config : jsval }.

Definition template value label routes : TemplateOption :=
  {| to_value := value; to_label := label; to_config := config_object routes |}.

Definition ADVANCED_CUSTOM_TEMPLATE_OPTIONS : list TemplateOption :=
  [ template "official_openai_chat" "Official OpenAI Chat"
      [route_object "/v1/chat/completions" "/v1/chat/completions" "none" bearerHeaderAuth];
    template "official_openai_responses" "Official OpenAI Responses"
      [route_object "/v1/responses" "/v1/responses" "none" bearerHeaderAuth];
    template "official_openai_embeddings" "Official OpenAI Embeddings"
      [route_object "/v1/embeddings" "/v1/embeddings" "none" bearerHeaderAuth];
    template "official_openai_images" "Official OpenAI Images"
      [route_object "/v1/images/generations" "/v1/images/generations" "none" bearerHeaderAuth;
       route_object "/v1/images/edits" "/v1/images/edits" "none" bearerHeaderAuth];
    template "official_claude_messages" "Official Claude Messages"
      [route_object "/v1/messages" "/v1/messages" "none" apiKeyHeaderAuth];
    template "official_gemini_native" "Official Gemini Native"
      [route_object "/v1beta/models/{model}:generateContent"
         "/v1beta/models/{model}:generateContent" "none" geminiQueryAuth;
       route_object "/v1beta/models/{model}:embedContent"
         "/v1beta/models/{model}:embedContent" "none" geminiQueryAuth;
       route_object "/v1beta/models/{model}:batchEmbedContents"
         "/v1beta/models/{model}:batchEmbedContents" "none" geminiQueryAuth];
    template "official_gemini_from_openai_chat" "Official Gemini from OpenAI Chat"
      [route_object "/v1/chat/completions" "/v1beta/models/{model}:generateContent"
         "openai_chat_completions_to_gemini_generate_content" geminiQueryAuth] ].

(** [structuredClone] of plain data: an equal value. *)
Definition cloneAdvancedCustomConfig (config : jsval) : jsval := config.

Definition getAdvancedCustomTemplateConfig (templateKey : jstr) : jsval :=
  match List.find (fun o => to_value o ==? templateKey) ADVANCED_CUSTOM_TEMPLATE_OPTIONS with
  | Some t => cloneAdvancedCustomConfig (to_config t)
  | None =>
      match ADVANCED_CUSTOM_TEMPLATE_OPTIONS with
      | t :: _ => cloneAdvancedCustomConfig (to_config t)
      | [] => JUndef
      end
  end.

Definition createAdvancedCustomRoute : jsval :=
  JObj [("incoming_path", JStr openAIChatPath); ("upstream_path", JStr openAIChatPath);
        ("converter", JStr "none")].

Definition createAdvancedCustomConfig : jsval := config_object [createAdvancedCustomRoute].

Definition isConverterPathAllowed (incomingPath conv : jstr) : bool :=
  if conv ==? "none" then true
  else if conv ==? "anthropic_messages_to_openai_chat_completions" then
    incomingPath ==? "/v1/messages"
  else if (conv ==? "openai_chat_completions_to_anthropic_messages")
          || (conv ==? "openai_chat_completions_to_openai_responses")
          || (conv ==? "openai_chat_completions_to_gemini_generate_content") then
    incomingPath ==? "/v1/chat/completions"
  else if conv ==? "openai_responses_to_openai_chat_completions" then
    incomingPath ==? "/v1/responses"
  else if conv ==? "openai_responses_to_gemini_generate_content" then
    incomingPath ==? "/v1/responses"
  else includes incomingPath ":generateContent" || includes incomingPath ":streamGenerateContent".

Definition getAdvancedCustomIncomingPathOptions (conv : jstr) : list PathOption :=
  List.filter (fun o => isConverterPathAllowed (po_value o) conv)
    ADVANCED_CUSTOM_INCOMING_PATH_OPTIONS.

Definition getDefaultAdvancedCustomIncomingPath (conv : jstr) : jstr :=
  match getAdvancedCustomIncomingPathOptions conv with
  | o :: _ => str_or (po_value o) "/v1/chat/completions"
  | [] => "/v1/chat/completions"
  end.

Definition isAdvancedCustomIncomingPathAllowed (incomingPath conv : jstr) : bool :=
  isConverterPathAllowed incomingPath conv.

Definition getAdvancedCustomNativeAuth (incomingPath : jstr) : jsval :=
  if incomingPath ==? claudeMessagesPath then apiKeyHeaderAuth
  else if includes incomingPath ":generateContent"
          || includes incomingPath ":streamGenerateContent"
          || includes incomingPath ":embedContent"
          || includes incomingPath ":batchEmbedContents" then geminiQueryAuth
  else bearerHeaderAuth.

Definition getAdvancedCustomConverterDefaults (conv incomingPath : jstr) : ConverterDefaults :=
  let normalizedIncomingPath :=
    str_or (trim incomingPath) (getDefaultAdvancedCustomIncomingPath conv) in
  if conv ==? "none" then
    {| cd_upstream_path := normalizedIncomingPath;
       cd_auth := getAdvancedCustomNativeAuth normalizedIncomingPath |}
  else if (conv ==? "anthropic_messages_to_openai_chat_completions")
          || (conv ==? "gemini_generate_content_to_openai_chat_completions")
          || (conv ==? "openai_responses_to_openai_chat_completions") then
    {| cd_upstream_path := openAIChatPath; cd_auth := bearerHeaderAuth |}
  else if conv ==? "openai_chat_completions_to_openai_responses" then
    {| cd_upstream_path := openAIResponsesPath; cd_auth := bearerHeaderAuth |}
  else if conv ==? "openai_chat_completions_to_anthropic_messages" then
    {| cd_upstream_path := claudeMessagesPath; cd_auth := apiKeyHeaderAuth |}
  else if (conv ==? "openai_chat_completions_to_gemini_generate_content")
          || (conv ==? "openai_responses_to_gemini_generate_content") then
    {| cd_upstream_path := geminiGenerateContentPath; cd_auth := geminiQueryAuth |}
  else
    {| cd_upstream_path := str_or normalizedIncomingPath openAIChatPath;
       cd_auth := getAdvancedCustomNativeAuth normalizedIncomingPath |}.

(** The second parameter's default is [getDefaultAdvancedCustomIncomingPath]. *)
Definition getAdvancedCustomUpstreamPathPlaceholder (conv : jstr) (incomingPath : option jstr) : jstr :=
  cd_upstream_path
    (getAdvancedCustomConverterDefaults conv
       (default (getDefaultAdvancedCustomIncomingPath conv) incomingPath)).

Definition getAdvancedCustomConverterOptions (incomingPath : jstr) : list ConverterOption :=
  let normalizedIncomingPath := trim incomingPath in
  List.filter
    (fun o => (co_value o ==? "none") || isConverterPathAllowed normalizedIncomingPath (co_value o))
    ADVANCED_CUSTOM_CONVERTER_OPTIONS.

Definition getAdvancedCustomIncomingPathLabel (value : jstr) : jstr :=
  match List.find (fun o => po_value o ==? value) ADVANCED_CUSTOM_INCOMING_PATH_OPTIONS with
  | Some o => str_or (po_label o) value
  | None => value
  end.

(** ** Normalising, parsing, writing *)

(** [(route.upstream_path || '').trim()] *)
Definition getAdvancedCustomRouteUpstreamPath (route : jsval) : res jstr :=
  let* up := js_get route "upstream_path" in
  js_trim (js_or up (JStr [])).

Definition normalizeAdvancedCustomRouteModels (models : jsval) : res (list jstr) :=
  match models with
  | JArr l => let* names := res_map js_trim l in Ok (List.filter non_empty names)
  | _ => Ok []
  end.

Definition normalize_auth (auth : jsval) : res jsobj :=
  if truthy auth then
    let* type := js_get auth "type" in
    let* name := js_get auth "name" in
    let* value := js_get auth "value" in
    Ok [("auth", JObj [("type", type); ("name", js_or name (JStr [])); ("value", js_or value (JStr []))])]
  else Ok [].

Definition normalizeAdvancedCustomRoute (route : jsval) : res jsval :=
  let* incoming := js_get route "incoming_path" in
  let* upstream := getAdvancedCustomRouteUpstreamPath route in
  let* conv := js_get route "converter" in
  let* models0 := js_get route "models" in
  let* models := normalizeAdvancedCustomRouteModels models0 in
  let* auth0 := js_get route "auth" in
  let* auth := normalize_auth auth0 in
  Ok (JObj ([("incoming_path", js_or incoming (JStr []));
             ("upstream_path", JStr upstream);
             ("converter", js_or conv (JStr "none"))]
            ++ match models with [] => [] | _ => [("models", JArr (map JStr models))] end
            ++ auth)).

Definition normalizeAdvancedCustomConfig (config : jsval) : res jsval :=
  let* advanced_routes := js_get config "advanced_routes" in
  let* routes :=
    match advanced_routes with
    | JArr l => res_map normalizeAdvancedCustomRoute l
    | _ => Ok []
    end in
  Ok (config_object routes).

(** [None] is [null]; the argument may be [undefined]. *)
Definition parseAdvancedCustomConfig (value : option jstr) : option jsval :=
  let v := default [] value in
  if negb (non_empty (trim v)) then None
  else
    res_catch
      (let* parsed := json_parse v in
       match plain_object parsed with
       | None => Ok None
       | Some _ => let* c := normalizeAdvancedCustomConfig parsed in Ok (Some c)
       end) None.

Definition stringifyAdvancedCustomConfig (config : jsval) : res jstr :=
  let* c := normalizeAdvancedCustomConfig config in Ok (stringify2 c).

Definition parseAdvancedCustomRouteModels (value : jstr) : list jstr :=
  uniq (List.filter non_empty (map trim (split "," value))).

Definition getAdvancedCustomModelRuleKind (modelRule : jstr) : ModelRuleKind :=
  if startsWith modelRule ADVANCED_CUSTOM_MODEL_REGEX_PREFIX then RuleRegex else RuleExact.

Definition getAdvancedCustomRegexModelPattern (modelRule : jstr) : jstr :=
  drop (length ADVANCED_CUSTOM_MODEL_REGEX_PREFIX) modelRule.

(** ** Validating *)

(** One entry of [routeModelsByPath]. *)
Record PathState := { catchAllIndex : option nat; ps_models : gmap jstr nat }.

Definition empty_path_state : PathState := {| catchAllIndex := None; ps_models := ∅ |}.

Definition empty_regex (model : jstr) : bool :=
  match getAdvancedCustomModelRuleKind model with
  | RuleRegex => getAdvancedCustomRegexModelPattern model ==? []
  | RuleExact => false
  end.

(** The [for] loop over a route's models. *)
Fixpoint check_models (index : nat) (seenInRoute : gset jstr) (known : gmap jstr nat)
    (models : list jstr) : ValidationError + gmap jstr nat :=
  match models with
  | [] => inr known
  | model :: rest =>
      if empty_regex model then inl (route_error index "Model regex cannot be empty")
      else if bool_decide (model ∈ seenInRoute) then
        inl (route_error index "Duplicate model in route models")
      else
        match known !! model with
        | Some _ =>
            inl (route_error index "Route models must be unique for the same incoming path")
        | None => check_models index ({[model]} ∪ seenInRoute) (<[model := index]> known) rest
        end
  end.

(** The map is mutated in place; after an error the caller drops it. *)
Definition validateAdvancedCustomRouteModels (routeIndex : nat) (incomingPath : jstr)
    (models : list jstr) (routeModelsByPath : gmap jstr PathState)
    : ValidationError + gmap jstr PathState :=
  let state := default empty_path_state (routeModelsByPath !! incomingPath) in
  match models with
  | [] =>
      match catchAllIndex state with
      | Some _ =>
          inl (route_error routeIndex
                 "Only one catch-all route is allowed for the same incoming path")
      | None =>
          inr (<[incomingPath := {| catchAllIndex := Some routeIndex; ps_models := ps_models state |}]>
                 routeModelsByPath)
      end
  | _ =>
      match catchAllIndex state with
      | Some _ =>
          inl (route_error routeIndex "Catch-all route must be last for the same incoming path")
      | None =>
          match check_models routeIndex ∅ (ps_models state) models with
          | inl e => inl e
          | inr known =>
              inr (<[incomingPath := {| catchAllIndex := None; ps_models := known |}]>
                     routeModelsByPath)
          end
      end
  end.

Definition isFullHttpURLOrAbsolutePath `{UrlParser} (value : jstr) : bool :=
  if startsWith value "/" then negb (startsWith value "//")
  else
    match url_parse value with
    | Some u =>
        non_empty (url_host u) && ((url_protocol u ==? "http:") || (url_protocol u ==? "https:"))
    | None => false
    end.

(** The converter when it is a registered one. *)
Definition isAdvancedCustomConverter (value : jsval) : option jstr :=
  match value with
  | JStr s => if existsb (fun o => co_value o ==? s) ADVANCED_CUSTOM_CONVERTER_OPTIONS
              then Some s else None
  | _ => None
  end.

(** [v?.trim()] is falsy: a [TypeError] when [v] is there and not a string. *)
Definition blank_field (v : jsval) : res bool :=
  match v with
  | JUndef | JNull => Ok true
  | _ => let* s := js_trim v in Ok (negb (non_empty s))
  end.

Definition validateRouteAuth (auth : jsval) : res (option jstr) :=
  if negb (truthy auth) then Ok None
  else
    let* type := js_get auth "type" in
    if type ==? JStr "none" then Ok None
    else if (type !=? JStr "header") && (type !=? JStr "query") then Ok (Some "Auth type is invalid")
    else
      let* name := js_get auth "name" in
      let* no_name := blank_field name in
      if no_name : bool then Ok (Some "Auth name is required")
      else
        let* value := js_get auth "value" in
        let* no_value := blank_field value in
        if no_value : bool then Ok (Some "Auth value is required") else Ok None.

(** [route.incoming_path?.trim() || ''] *)
Definition trimmed_field (v : jsval) : res jstr :=
  match v with
  | JUndef | JNull => Ok []
  | _ => js_trim v
  end.

(** What the loop of [validateAdvancedCustomConfig] reads of a route first. *)
Record RouteView := {
  rv_incomingPath : jstr;
  rv_upstreamPath : jstr;
  rv_converter : jsval;
  rv_models : list jstr;
  rv_auth : jsval
}.

Definition route_view (route : jsval) : res RouteView :=
  let* incoming := js_get route "incoming_path" in
  let* incomingPath := trimmed_field incoming in
  let* upstreamPath := getAdvancedCustomRouteUpstreamPath route in
  let* conv := js_get route "converter" in
  let* models := js_get route "models" in
  let* routeModels := normalizeAdvancedCustomRouteModels models in
  let* auth := js_get route "auth" in
  Ok {| rv_incomingPath := incomingPath; rv_upstreamPath := upstreamPath;
        rv_converter := js_or conv (JStr "none"); rv_models := routeModels; rv_auth := auth |}.

Section Validate.
Context `{UrlParser}.

(** The body of the loop. *)
Definition validate_route (index : nat) (v : RouteView) (byPath : gmap jstr PathState)
    : res (ValidationError + gmap jstr PathState) :=
  let fail message := Ok (inl (route_error index message)) in
  let incomingPath := rv_incomingPath v in
  if negb (non_empty incomingPath) then fail "Incoming path is required"
  else if negb (startsWith incomingPath "/") then fail "Incoming path must start with /"
  else if includes incomingPath "?" then fail "Incoming path must not include query"
  else
    match validateAdvancedCustomRouteModels index incomingPath (rv_models v) byPath with
    | inl e => Ok (inl e)
    | inr byPath' =>
        if negb (non_empty (rv_upstreamPath v)) then fail "Upstream path is required"
        else if negb (isFullHttpURLOrAbsolutePath (rv_upstreamPath v)) then
          fail "Upstream path must be a full URL or a path starting with /"
        else
          match isAdvancedCustomConverter (rv_converter v) with
          | None => fail "Converter is not registered"
          | Some conv =>
              if negb (isConverterPathAllowed incomingPath conv) then
                fail "Converter does not match incoming path"
              else
                let* authError := validateRouteAuth (rv_auth v) in
                match authError with
                | Some message => fail message
                | None => Ok (inr byPath')
                end
          end
    end.

Fixpoint validate_routes (index : nat) (byPath : gmap jstr PathState) (routes : list jsval)
    : res (option ValidationError) :=
  match routes with
  | [] => Ok None
  | route :: rest =>
      let* v := route_view route in
      let* r := validate_route index v byPath in
      match r with
      | inl e => Ok (Some e)
      | inr byPath' => validate_routes (S index) byPath' rest
      end
  end.

(** [normalized.advanced_routes || []]: an array after normalising. *)
Definition routes_of (config : jsval) : list jsval :=
  match config with
  | JObj o => match prop o "advanced_routes" with JArr l => l | _ => [] end
  | _ => []
  end.

(** [None] as the argument is [null]; [Ok None] as the answer is [null]. *)
Definition validateAdvancedCustomConfig (config : option jsval) : res (option ValidationError) :=
  match config with
  | None => Ok (Some {| ve_message := "Advanced custom configuration is required";
                        ve_routeIndex := None |})
  | Some c =>
      let* normalized := normalizeAdvancedCustomConfig c in
      match routes_of normalized with
      | [] =>
          Ok (Some {| ve_message := "Advanced custom configuration requires at least one route";
                      ve_routeIndex := None |})
      | routes => validate_routes 0 ∅ routes
      end
  end.

(** [.some(...)] with a callback that may throw. *)
Fixpoint some_relative (routes : list jsval) : res bool :=
  match routes with
  | [] => Ok false
  | route :: rest =>
      let* up := getAdvancedCustomRouteUpstreamPath route in
      if startsWith up "/" then Ok true else some_relative rest
  end.

Definition advancedCustomConfigUsesRelativeUpstreamPath (config : option jsval) : res bool :=
  match config with
  | None => Ok false
  | Some c =>
      let* normalized := normalizeAdvancedCustomConfig c in some_relative (routes_of normalized)
  end.

Definition getAdvancedCustomRouteSummaryLabel (route : jsval) : res (option jstr) :=
  let* incoming := js_get route "incoming_path" in
  let* incomingPath := trimmed_field incoming in
  Ok (match incomingPath with
      | [] => None
      | _ =>
          Some (str_or (default [] (obj_get incomingPath ADVANCED_CUSTOM_ROUTE_SUMMARY_LABELS))
                  (getAdvancedCustomIncomingPathLabel incomingPath))
      end).

Record AdvancedCustomStats := {
  st_routeCount : nat;
  st_valid : bool;
  st_routeTypeLabels : list jstr
}.

(** The loop that collects the labels: the set mirrors the list. *)
Fixpoint collect_labels (labels : list jstr) (routes : list jsval) : res (list jstr) :=
  match routes with
  | [] => Ok labels
  | route :: rest =>
      let* label := getAdvancedCustomRouteSummaryLabel route in
      match label with
      | None | Some [] => collect_labels labels rest
      | Some l =>
          if bool_decide (l ∈ labels) then collect_labels labels rest
          else collect_labels (labels ++ [l]) rest
      end
  end.

Definition getAdvancedCustomStats (value : option jstr) : res AdvancedCustomStats :=
  match parseAdvancedCustomConfig value with
  | None => Ok {| st_routeCount := 0; st_valid := false; st_routeTypeLabels := [] |}
  | Some config =>
      let* normalized := normalizeAdvancedCustomConfig config in
      let routes := routes_of normalized in
      let* labels := collect_labels [] routes in
      let* error := validateAdvancedCustomConfig (Some normalized) in
      Ok {| st_routeCount := length routes;
            st_valid := match error with None => true | Some _ => false end;
            st_routeTypeLabels := labels |}
  end.
End Validate.

(** ** Authentication modes *)

(** [route.auth?.type || 'default'] *)
Definition getAdvancedCustomAuthMode (route : jsval) : res jsval :=
  let* auth := js_get route "auth" in
  let* type := js_get_opt auth "type" in
  Ok (js_or type (JStr "default")).

(** [undefined] is [JUndef]; the previous one may be [undefined]. *)
Definition buildAdvancedCustomAuth (mode : jstr) (previousAuth : jsval) : res jsval :=
  if mode ==? "default" then Ok JUndef
  else if mode ==? "none" then Ok (JObj [("type", JStr "none")])
  else
    let* name := js_get_opt previousAuth "name" in
    let* value := js_get_opt previousAuth "value" in
    if mode ==? "header" then
      Ok (JObj [("type", JStr "header"); ("name", js_or name (JStr "Authorization"));
                ("value", js_or value (JStr "Bearer {api_key}"))])
    else
      Ok (JObj [("type", JStr "query"); ("name", js_or name (JStr "api_key"));
                ("value", js_or value (JStr "{api_key}"))]).
