(* ===== verification/AdvancedCustomProofs.v ===== *)
(** * Advanced custom channels: properties

    Companion of [AdvancedCustom]: normal forms, the text round trip, and the
    specification the validation loop implements. *)
From stdpp Require Import gmap.
From S2P Require Import Prelude JsString JsNumber JsValue Json ModelMapping AdvancedCustom.

(** ** Normal forms *)

Lemma js_or_idemp a b : js_or (js_or a b) b = js_or a b.
Proof. unfold js_or. destruct (truthy a) eqn:E; [by rewrite E|by destruct (truthy b)]. Qed.

Lemma js_trim_Ok v s : js_trim v = Ok s <-> exists t, v = JStr t /\ s = trim t.
Proof.
  split.
  - destruct v; try done. intros [= <-]. eauto.
  - by intros (t & -> & ->).
Qed.

Lemma trimmed_upstream s : js_trim (js_or (JStr (trim s)) (JStr [])) = Ok (trim s).
Proof.
  unfold js_or, truthy. destruct (trim s) as [|c t] eqn:E; cbn [non_empty]; [done|].
  rewrite <- E. cbn [js_trim]. by rewrite trim_idemp.
Qed.

Lemma models_names models ms :
  normalizeAdvancedCustomRouteModels models = Ok ms ->
  forallb (fun m => non_empty m && trimmed m) ms = true.
Proof.
  destruct models; cbn; try (by intros [= <-]). intros H. res_inv. rename E into Hm.
  apply res_map_Ok in Hm. apply forallb_Forall, Forall_forall. intros m Hm'.
  apply elem_of_filter_bool in Hm' as [Hn Hin].
  apply list_elem_of_lookup in Hin as [i Hi].
  destruct (Forall2_lookup_r _ _ _ _ _ Hm Hi) as (v & _ & Hv).
  apply js_trim_Ok in Hv as (t & -> & ->). by rewrite Hn, trimmed_trim.
Qed.

Lemma names_models ms :
  forallb (fun m => non_empty m && trimmed m) ms = true ->
  normalizeAdvancedCustomRouteModels (JArr (map JStr ms)) = Ok ms.
Proof.
  intros H. cbn. assert (res_map js_trim (map JStr ms) = Ok ms) as ->.
  { apply res_map_Ok. induction ms as [|m ms IH]; cbn; [constructor|]. cbn in H. bools.
    constructor; [by cbn; rewrite trim_id|auto]. }
  cbn. rewrite filter_all; [done|]. revert H. rewrite !forallb_forall. intros H m Hm%H. by bools.
Qed.

(** The object [normalizeAdvancedCustomRoute] builds. *)
Definition normal_route (incoming : jsval) (upstream : jstr) (conv : jsval) (models : list jstr)
    (auth : jsobj) : jsval :=
  JObj ([("incoming_path", incoming); ("upstream_path", JStr upstream); ("converter", conv)]
        ++ match models with [] => [] | _ => [("models", JArr (map JStr models))] end ++ auth).

Lemma normal_route_auth i u c ms a :
  a = [] \/ (exists v, a = [("auth", v)]) ->
  js_get (normal_route i u c ms a) "auth" = Ok (default JUndef (obj_get "auth" a)).
Proof. intros [->|[v ->]]; by destruct ms. Qed.

Lemma normal_route_models i u c ms a :
  a = [] \/ (exists v, a = [("auth", v)]) ->
  forallb (fun m => non_empty m && trimmed m) ms = true ->
  (let* models := js_get (normal_route i u c ms a) "models" in
   normalizeAdvancedCustomRouteModels models) = Ok ms.
Proof.
  intros Ha Hms. destruct ms as [|m ms].
  - by destruct Ha as [->|[v ->]].
  - by apply (names_models (m :: ms)).
Qed.

Lemma normalize_auth_object t n v :
  normalize_auth (JObj [("type", t); ("name", n); ("value", v)])
  = Ok [("auth", JObj [("type", t); ("name", js_or n (JStr [])); ("value", js_or v (JStr []))])].
Proof. reflexivity. Qed.

Lemma auth_field v : default JUndef (obj_get "auth" [("auth", v)]) = v.
Proof. reflexivity. Qed.

Lemma normalize_auth_shape auth a :
  normalize_auth auth = Ok a ->
  (a = [] \/ exists v, a = [("auth", v)])
  /\ normalize_auth (default JUndef (obj_get "auth" a)) = Ok a.
Proof.
  intros H. unfold normalize_auth in H. destruct (truthy auth); res_inv; [|by split; [left|]].
  split; [right; eauto|]. rewrite auth_field, normalize_auth_object. by rewrite !js_or_idemp.
Qed.

Lemma normalize_route_idem r n :
  normalizeAdvancedCustomRoute r = Ok n -> normalizeAdvancedCustomRoute n = Ok n.
Proof.
  unfold normalizeAdvancedCustomRoute at 1. intros H. res_inv.
  rename r0 into incoming, r1 into upstream, r2 into conv, r3 into models0, r4 into models,
    r5 into auth0, r6 into auth.
  assert (exists t, upstream = trim t) as [t ->].
  { unfold getAdvancedCustomRouteUpstreamPath in E0. res_inv.
    apply js_trim_Ok in E0 as (t & _ & ->). eauto. }
  pose proof (models_names _ _ E3) as Hms. destruct (normalize_auth_shape _ _ E5) as [Ha Hna].
  pose proof (normal_route_models (js_or incoming (JStr [])) (trim t) (js_or conv (JStr "none"))
                models auth Ha Hms) as Hm.
  pose proof (normal_route_auth (js_or incoming (JStr [])) (trim t) (js_or conv (JStr "none"))
                models auth Ha) as Hg.
  unfold normal_route in Hm, Hg. set (n := JObj _) in *.
  unfold normalizeAdvancedCustomRoute.
  change (js_get n "incoming_path") with (Ok (js_or incoming (JStr []))).
  change (js_get n "converter") with (Ok (js_or conv (JStr "none"))).
  change (getAdvancedCustomRouteUpstreamPath n) with (js_trim (js_or (JStr (trim t)) (JStr []))).
  rewrite trimmed_upstream. cbn [res_bind].
  apply res_bind_Ok in Hm as (m0 & -> & Hm0). cbn [res_bind]. rewrite Hm0. cbn [res_bind].
  rewrite Hg. cbn [res_bind]. rewrite Hna. cbn [res_bind]. by rewrite !js_or_idemp.
Qed.

Lemma normalize_config_idem c n :
  normalizeAdvancedCustomConfig c = Ok n ->
  normalizeAdvancedCustomConfig n = Ok n
  /\ exists routes, n = config_object routes
       /\ Forall (fun r => normalizeAdvancedCustomRoute r = Ok r) routes.
Proof.
  unfold normalizeAdvancedCustomConfig at 1. intros H. res_inv. rename r0 into routes.
  assert (Forall (fun r => normalizeAdvancedCustomRoute r = Ok r) routes) as Hr.
  { clear E. destruct r; try (injection E0 as <-; constructor). apply res_map_Ok in E0.
    induction E0 as [|x y l l' Hxy _ IH]; [constructor|].
    constructor; [by apply (normalize_route_idem x)|done]. }
  split; [|eauto]. unfold normalizeAdvancedCustomConfig.
  change (js_get (config_object routes) "advanced_routes") with (Ok (JArr routes)). cbn [res_bind].
  replace (res_map normalizeAdvancedCustomRoute routes) with (Ok routes); [done|].
  symmetry. apply res_map_Ok. clear E0. induction Hr; constructor; auto.
Qed.

Lemma config_text_not_blank routes :
  non_empty (trim (stringify2 (config_object routes))) = true.
Proof.
  unfold stringify2. unfold config_object. rewrite ser_obj. cbn [default from_option id].
  assert (exists t, wrap "  " [] "{" "}"
      (ser_members "  " ([] ++ "  ") [("advanced_routes", JArr routes)]) = 123%N :: t) as [t ->].
  { unfold wrap. destruct (ser_members _ _ _); eauto. }
  assert (trimStart (123%N :: t) = 123%N :: t) as Hs by done.
  unfold trim. rewrite Hs. unfold trimEnd.
  pose proof (trimStart_head (rev (123%N :: t))) as _.
  assert (forall l, trimStart (l ++ [123%N]) <> []) as Hne.
  { induction l as [|c l IH]; cbn; [done|]. by destruct (is_space c). }
  cbn [rev]. specialize (Hne (rev t)). destruct (trimStart (rev t ++ [123%N])) as [|d u]; [done|].
  cbn. by destruct (rev u).
Qed.

(** C33: a configuration that can be written is read back as its normal form, and
    the normal form is a fixed point of [normalizeAdvancedCustomConfig]. *)
Theorem advanced_config_roundtrip config n :
  normalizeAdvancedCustomConfig config = Ok n -> json_ok n = true ->
  exists text, stringifyAdvancedCustomConfig config = Ok text
    /\ parseAdvancedCustomConfig (Some text) = Some n
    /\ normalizeAdvancedCustomConfig n = Ok n.
Proof.
  intros Hn Hok. destruct (normalize_config_idem _ _ Hn) as (Hi & routes & -> & _).
  exists (stringify2 (config_object routes)). unfold stringifyAdvancedCustomConfig.
  rewrite Hn. cbn [res_bind]. split_and!; [done| |done].
  unfold parseAdvancedCustomConfig. cbn [default from_option id].
  rewrite config_text_not_blank. cbn [negb]. unfold json_parse.
  rewrite parse_stringify2 by done. cbn [res_bind plain_object config_object].
  change (JObj [("advanced_routes", JArr routes)]) with (config_object routes). by rewrite Hi.
Qed.

Definition sample_config : jsval :=
  config_object
    [ JObj [("incoming_path", JStr "/v1/messages"); ("upstream_path", JStr " /v1/messages ");
            ("models", JArr [JStr "claude-3 "; JStr " "; JStr "re:^gpt"]);
            ("auth", JObj [("type", JStr "header"); ("name", JStr "x-api-key")])];
      createAdvancedCustomRoute ].

Lemma advanced_config_roundtrip_witness :
  exists text n, stringifyAdvancedCustomConfig sample_config = Ok text
    /\ parseAdvancedCustomConfig (Some text) = Some n
    /\ normalizeAdvancedCustomConfig n = Ok n.
Proof.
  destruct (advanced_config_roundtrip sample_config
              (config_object
                 [ JObj [("incoming_path", JStr "/v1/messages"); ("upstream_path", JStr "/v1/messages");
                         ("converter", JStr "none");
                         ("models", JArr [JStr "claude-3"; JStr "re:^gpt"]);
                         ("auth", JObj [("type", JStr "header"); ("name", JStr "x-api-key");
                                        ("value", JStr [])])];
                   createAdvancedCustomRoute ])) as (text & H).
  - vm_compute. reflexivity.
  - vm_compute. reflexivity.
  - exists text. eexists. exact H.
Defined.

(** ** What a valid route table is *)

Definition incoming_ok (path : jstr) : bool :=
  non_empty path && startsWith path "/" && negb (includes path "?").

(** A rule list without repetitions and without the empty regular expression. *)
Definition models_ok (models : list jstr) : Prop :=
  NoDup models /\ Forall (fun m => empty_regex m = false) models.

Section Spec.
Context `{UrlParser}.

Record route_ok (v : RouteView) : Prop := {
  ro_incoming : incoming_ok (rv_incomingPath v) = true;
  ro_models : models_ok (rv_models v);
  ro_upstream : rv_upstreamPath v <> [] /\ isFullHttpURLOrAbsolutePath (rv_upstreamPath v) = true;
  ro_converter : exists conv, isAdvancedCustomConverter (rv_converter v) = Some conv
    /\ isConverterPathAllowed (rv_incomingPath v) conv = true;
  ro_auth : validateRouteAuth (rv_auth v) = Ok None
}.

(** What an earlier route [u] demands of a later route [v]: on the same path, the
    earlier one is no catch-all and shares no model with the later one. *)
Definition compatible (u v : RouteView) : Prop :=
  rv_incomingPath u = rv_incomingPath v ->
  rv_models u <> [] /\ (forall m, m ∈ rv_models u -> m ∉ rv_models v).

Definition valid_table (vs : list RouteView) : Prop :=
  vs <> [] /\ Forall route_ok vs /\ ForallOrdPairs compatible vs.

(** *** The loop state *)

Definition path_state (byPath : gmap jstr PathState) (p : jstr) : PathState :=
  default empty_path_state (byPath !! p).

(** What [routeModelsByPath] records about the routes seen so far. *)
Record represents (seen : list RouteView) (byPath : gmap jstr PathState) : Prop := {
  rep_catch : forall p, is_Some (catchAllIndex (path_state byPath p))
    <-> exists u, u ∈ seen /\ rv_incomingPath u = p /\ rv_models u = [];
  rep_models : forall p m, is_Some (ps_models (path_state byPath p) !! m)
    <-> exists u, u ∈ seen /\ rv_incomingPath u = p /\ m ∈ rv_models u
}.

Lemma represents_nil : represents [] ∅.
Proof.
  split; intros; unfold path_state; rewrite lookup_empty; cbn.
  - split; [by intros [? [=]]|intros (u & Hu & _); by apply elem_of_nil in Hu].
  - rewrite lookup_empty. split; [by intros [? [=]]|intros (u & Hu & _); by apply elem_of_nil in Hu].
Qed.

Lemma check_models_ok index ms : forall seen known,
  match check_models index seen known ms with
  | inr known' =>
      models_ok ms
      /\ (forall m, m ∈ ms -> m ∉ seen /\ known !! m = None)
      /\ (forall m, is_Some (known' !! m) <-> is_Some (known !! m) \/ m ∈ ms)
  | inl e =>
      ve_routeIndex e = Some index
      /\ ~ (models_ok ms /\ forall m, m ∈ ms -> m ∉ seen /\ known !! m = None)
  end.
Proof.
  unfold models_ok. induction ms as [|m ms IH]; intros seen known; cbn [check_models].
  { split_and!; [constructor|constructor|intros m Hm; by apply elem_of_nil in Hm|].
    intros m. rewrite elem_of_nil. tauto. }
  destruct (empty_regex m) eqn:Ee.
  { split; [done|]. intros ((_ & He) & _). inversion He; congruence. }
  destruct (bool_decide_reflect (m ∈ seen)) as [Hs|Hs].
  { split; [done|]. intros (_ & Hf). by apply (Hf m); [left|]. }
  destruct (known !! m) as [i|] eqn:Ek.
  { split; [done|]. intros (_ & Hf). destruct (Hf m); [left|congruence]. }
  specialize (IH ({[m]} ∪ seen) (<[m := index]> known)).
  destruct (check_models _ _ _ ms) as [e|known'].
  - destruct IH as (Hi & IH). split; [done|]. intros ((Hnd & He) & Hf). apply IH.
    inversion Hnd; subst. inversion He; subst. split; [done|]. intros x Hx.
    destruct (Hf x) as [Hxs Hxk]; [by right|].
    assert (x <> m) by (by intros ->). rewrite lookup_insert_ne by done. set_solver.
  - destruct IH as ((Hnd & He) & Hf & Hk). split_and!.
    + constructor; [|done]. intros Hm. destruct (Hf m Hm). set_solver.
    + by constructor.
    + intros x Hx. apply elem_of_cons in Hx as [->|Hx]; [done|]. destruct (Hf x Hx) as [Hxs Hxk].
      apply lookup_insert_None in Hxk as [Hxk _]. set_solver.
    + intros x. rewrite Hk, elem_of_cons. destruct (decide (x = m)) as [->|Hne].
      * rewrite lookup_insert_eq. naive_solver.
      * rewrite lookup_insert_ne by done. naive_solver.
Qed.

Lemma path_state_insert byPath p s q :
  path_state (<[p := s]> byPath) q = if decide (q = p) then s else path_state byPath q.
Proof.
  unfold path_state. destruct (decide (q = p)) as [->|Hne].
  - by rewrite lookup_insert_eq.
  - by rewrite lookup_insert_ne.
Qed.

(** What adding a route does to the catch-all and to the models of its path. *)
Lemma represents_add seen byPath v s :
  represents seen byPath ->
  (is_Some (catchAllIndex s)
   <-> is_Some (catchAllIndex (path_state byPath (rv_incomingPath v))) \/ rv_models v = []) ->
  (forall m, is_Some (ps_models s !! m)
   <-> is_Some (ps_models (path_state byPath (rv_incomingPath v)) !! m) \/ m ∈ rv_models v) ->
  represents (seen ++ [v]) (<[rv_incomingPath v := s]> byPath).
Proof.
  intros [Hc Hm] Hs1 Hs2. split.
  - intros p. rewrite path_state_insert. destruct (decide (p = rv_incomingPath v)) as [->|Hne].
    + rewrite Hs1, Hc. set_solver.
    + rewrite Hc. set_solver.
  - intros p m. rewrite path_state_insert. destruct (decide (p = rv_incomingPath v)) as [->|Hne].
    + rewrite Hs2, Hm. set_solver.
    + rewrite Hm. set_solver.
Qed.

Lemma models_step index seen byPath v :
  represents seen byPath ->
  match validateAdvancedCustomRouteModels index (rv_incomingPath v) (rv_models v) byPath with
  | inr byPath' =>
      models_ok (rv_models v) /\ Forall (fun u => compatible u v) seen
      /\ represents (seen ++ [v]) byPath'
  | inl e =>
      ve_routeIndex e = Some index
      /\ ~ (models_ok (rv_models v) /\ Forall (fun u => compatible u v) seen)
  end.
Proof.
  intros Hrep. pose proof Hrep as [Hc Hm]. unfold validateAdvancedCustomRouteModels.
  fold (path_state byPath (rv_incomingPath v)). set (state := path_state byPath (rv_incomingPath v)).
  assert (is_Some (catchAllIndex state) -> ~ Forall (fun u => compatible u v) seen) as Hcatch.
  { intros Hi. apply Hc in Hi as (u & Hu & Hp & He). rewrite Forall_forall. intros Hf.
    by destruct (Hf u Hu Hp). }
  destruct (rv_models v) as [|m0 ms] eqn:Ev.
  - destruct (catchAllIndex state) as [i|] eqn:Ei.
    + split; [done|]. intros [_ Hf]. by apply Hcatch.
    + split_and!; [by split; constructor| |].
      * apply Forall_forall. intros u Hu Hp. rewrite Ev. split; [|set_solver].
        intros E. assert (is_Some (catchAllIndex state)) as [i Hi] by (apply Hc; eauto). congruence.
      * apply represents_add; [done|cbn; rewrite Ev; naive_solver|].
        intros m. cbn. rewrite Ev. fold state. set_solver.
  - rewrite <- Ev in *. destruct (catchAllIndex state) as [i|] eqn:Ei.
    + split; [done|]. intros [_ Hf]. by apply Hcatch.
    + pose proof (check_models_ok index (rv_models v) ∅ (ps_models state)) as Hk.
      destruct (check_models _ _ _ _) as [e|known].
      * destruct Hk as (Hi & Hk). split; [done|]. intros (Hok & Hf). apply Hk. split; [done|].
        intros m Hin. split; [set_solver|]. apply eq_None_not_Some. intros Hs.
        apply Hm in Hs as (u & Hu & Hp & Hum). rewrite Forall_forall in Hf.
        destruct (Hf u Hu Hp) as [_ Hd]. by apply (Hd m).
      * destruct Hk as (Hok & Hf & Hk). split_and!; [done| |].
        -- apply Forall_forall. intros u Hu Hp. split.
           ++ intros E. assert (is_Some (catchAllIndex state)) as [i Hi] by (apply Hc; eauto). congruence.
           ++ intros m Hum Hvm. destruct (Hf m Hvm) as [_ Hn].
              apply eq_None_not_Some in Hn. apply Hn, Hm. eauto.
        -- apply represents_add; [done| |intros m; cbn; by rewrite Hk].
           cbn. fold state. rewrite Ei, Ev. split; [by intros []|]. intros [[]|]; done.
Qed.
(** *** The loop *)

Lemma incoming_guards path :
  incoming_ok path = true
  <-> non_empty path = true /\ startsWith path "/" = true /\ includes path "?" = false.
Proof. unfold incoming_ok. rewrite !andb_true_iff, negb_true_iff. tauto. Qed.

(** One iteration succeeds exactly on a good route compatible with the earlier
    ones; it may throw only while reading the route's authentication. *)
Lemma route_step index seen byPath v :
  represents seen byPath ->
  match validate_route index v byPath with
  | Ok (inr byPath') =>
      route_ok v /\ Forall (fun u => compatible u v) seen /\ represents (seen ++ [v]) byPath'
  | Ok (inl e) =>
      ve_routeIndex e = Some index /\ ~ (route_ok v /\ Forall (fun u => compatible u v) seen)
  | Throw _ => forall r, validateRouteAuth (rv_auth v) <> Ok r
  end.
Proof.
  intros Hrep. unfold validate_route.
  destruct (non_empty (rv_incomingPath v)) eqn:E1; cbn [negb].
  2: { split; [done|]. intros ([[H1 _]%incoming_guards] & _). congruence. }
  destruct (startsWith (rv_incomingPath v) "/") eqn:E2; cbn [negb].
  2: { split; [done|]. intros ([(_ & H1 & _)%incoming_guards] & _). congruence. }
  destruct (includes (rv_incomingPath v) "?") eqn:E3.
  { split; [done|]. intros ([(_ & _ & H1)%incoming_guards] & _). congruence. }
  pose proof (models_step index seen byPath v Hrep) as Hstep.
  destruct (validateAdvancedCustomRouteModels _ _ _ _) as [e|byPath'].
  { destruct Hstep as [Hi Hn]. split; [done|]. intros ([_ Hm] & Hf). by apply Hn. }
  destruct Hstep as (Hm & Hf & Hrep').
  destruct (non_empty (rv_upstreamPath v)) eqn:E4; cbn [negb].
  2: { split; [done|]. intros ([_ _ [Hu _]] & _). by destruct (rv_upstreamPath v). }
  destruct (isFullHttpURLOrAbsolutePath (rv_upstreamPath v)) eqn:E5; cbn [negb].
  2: { split; [done|]. intros ([_ _ [_ Hu]] & _). congruence. }
  destruct (isAdvancedCustomConverter (rv_converter v)) as [conv|] eqn:E6.
  2: { split; [done|]. intros ([_ _ _ (c & Hc & _)] & _). congruence. }
  destruct (isConverterPathAllowed (rv_incomingPath v) conv) eqn:E7; cbn [negb].
  2: { split; [done|]. intros ([_ _ _ (c & Hc & Ha)] & _). congruence. }
  destruct (validateRouteAuth (rv_auth v)) as [[m|]|msg] eqn:E8; cbn [res_bind].
  - split; [done|]. intros ([_ _ _ _ Ha] & _). congruence.
  - split_and!; [|done|done]. split; [by apply incoming_guards|done| |eauto|done].
    split; [|done]. by destruct (rv_upstreamPath v).
  - done.
Qed.

(** The loop over the remaining routes, from any represented state. *)
Lemma routes_loop routes vs : Forall2 (fun r v => route_view r = Ok v) routes vs ->
  forall index seen byPath, represents seen byPath ->
  validate_routes index byPath routes = Ok None
  <-> Forall route_ok vs /\ Forall (fun v => Forall (fun u => compatible u v) seen) vs
      /\ ForallOrdPairs compatible vs.
Proof.
  induction 1 as [|r v routes vs Hv Hvs IH]; intros index seen byPath Hrep; cbn [validate_routes].
  { split; [intros _; split_and!; constructor|done]. }
  rewrite Hv. cbn [res_bind]. pose proof (route_step index seen byPath v Hrep) as Hstep.
  destruct (validate_route index v byPath) as [[e|byPath']|msg] eqn:Er; cbn [res_bind].
  - destruct Hstep as [_ Hn]. split; [done|]. intros (H1 & H2 & _).
    exfalso. apply Hn. by inversion H1; inversion H2; subst.
  - destruct Hstep as (Hok & Hf & Hrep'). rewrite (IH (S index) (seen ++ [v]) byPath' Hrep').
    split.
    + intros (H1 & H2 & H3). split_and!; [by constructor| |].
      * constructor; [done|]. eapply Forall_impl; [exact H2|]. intros w Hw. by apply Forall_app in Hw as [? _].
      * constructor; [|done]. apply List.Forall_forall. intros w Hw.
        rewrite Forall_forall in H2. apply list_elem_of_In in Hw. specialize (H2 w Hw).
        apply Forall_app in H2 as [_ H2]. by inversion H2.
    + intros (H1 & H2 & H3). inversion H1 as [|? ? _ Hok']; subst.
      inversion H2 as [|? ? _ Hseen]; subst. inversion H3 as [|? ? Hcv Hpairs]; subst.
      split_and!; [done| |done]. apply Forall_forall. intros w Hw. apply Forall_app.
      rewrite Forall_forall in Hseen. split; [by apply Hseen|]. constructor; [|constructor].
      rewrite List.Forall_forall in Hcv. by apply Hcv, list_elem_of_In.
  - split; [done|]. intros (H1 & _). exfalso. inversion H1 as [|? ? [_ _ _ _ Ha] _]; subst.
    by apply (Hstep None).
Qed.

(** The first error is reported: the routes before it are a valid table. *)
Lemma first_error routes vs : Forall2 (fun r v => route_view r = Ok v) routes vs ->
  forall index seen byPath e, represents seen byPath ->
  validate_routes index byPath routes = Ok (Some e) ->
  exists i v, ve_routeIndex e = Some (index + i) /\ vs !! i = Some v
    /\ Forall route_ok (take i vs)
    /\ ~ (route_ok v /\ Forall (fun u => compatible u v) (seen ++ take i vs)).
Proof.
  induction 1 as [|r v routes vs Hv Hvs IH]; intros index seen byPath e Hrep; cbn [validate_routes]; [done|].
  rewrite Hv. cbn [res_bind]. pose proof (route_step index seen byPath v Hrep) as Hstep.
  destruct (validate_route index v byPath) as [[e'|byPath']|msg] eqn:Er; cbn [res_bind]; [| |done].
  - intros [= <-]. destruct Hstep as [Hi Hn]. exists 0, v. rewrite Nat.add_0_r, app_nil_r.
    split_and!; [done|done|constructor|done].
  - destruct Hstep as (Hok & Hf & Hrep'). intros H1.
    destruct (IH (S index) (seen ++ [v]) byPath' e Hrep' H1) as (i & w & Hi & Hw & Hpre & Hn).
    exists (S i), w. rewrite <- app_assoc in Hn. cbn [app] in Hn. cbn [take lookup list_lookup].
    split_and!; [by rewrite Nat.add_succ_r|done|by constructor|done].
Qed.

Lemma validate_unfold config n vs :
  normalizeAdvancedCustomConfig config = Ok n ->
  Forall2 (fun r v => route_view r = Ok v) (routes_of n) vs -> vs <> [] ->
  validateAdvancedCustomConfig (Some config) = validate_routes 0 ∅ (routes_of n).
Proof.
  intros Hn Hvs Hne. unfold validateAdvancedCustomConfig. rewrite Hn. cbn [res_bind].
  destruct Hvs; [done|]. done.
Qed.

(** C14: [validateAdvancedCustomConfig] implements the table specification: when
    the fields it reads have the types it expects, it answers [null] exactly on the
    non-empty tables whose routes are each well formed and pairwise compatible on a
    shared incoming path (catch-all last and alone, models disjoint). *)
Theorem validate_implements_table config n vs :
  normalizeAdvancedCustomConfig config = Ok n ->
  Forall2 (fun r v => route_view r = Ok v) (routes_of n) vs ->
  validateAdvancedCustomConfig (Some config) = Ok None <-> valid_table vs.
Proof.
  intros Hn Hvs. destruct (decide (vs = [])) as [->|Hne].
  - unfold validateAdvancedCustomConfig. rewrite Hn. cbn [res_bind]. inversion Hvs.
    split; [done|]. by intros [? _].
  - rewrite (validate_unfold config n vs) by done.
    rewrite (routes_loop _ _ Hvs 0 [] ∅ represents_nil). unfold valid_table. split.
    + by intros (H1 & _ & H2).
    + intros (_ & H1 & H2). split_and!; [done| |done]. by apply Forall_forall.
Qed.

(** An error message names the first route that breaks the table: every route
    before it is well formed, and it is either ill formed itself or incompatible
    with an earlier one. *)
Theorem validate_reports_first config n vs e :
  normalizeAdvancedCustomConfig config = Ok n ->
  Forall2 (fun r v => route_view r = Ok v) (routes_of n) vs -> vs <> [] ->
  validateAdvancedCustomConfig (Some config) = Ok (Some e) ->
  exists i v, ve_routeIndex e = Some i /\ vs !! i = Some v
    /\ Forall route_ok (take i vs)
    /\ ~ (route_ok v /\ Forall (fun u => compatible u v) (take i vs)).
Proof.
  intros Hn Hvs Hne. rewrite (validate_unfold config n vs) by done.
  intros (i & v & H1)%(first_error _ _ Hvs 0 [] ∅ e represents_nil). by exists i, v.
Qed.
End Spec.

(** A URL parser for the witnesses: it knows one address. *)
Definition demo_url : UrlParser := fun s =>
  if s ==? "https://api.example.com/v1" then
    Some {| url_host := "api.example.com"; url_protocol := "https:" |}
  else None.

Definition demo_route path upstream models : jsval :=
  JObj [("incoming_path", JStr path); ("upstream_path", JStr upstream); ("models", models)].

Definition demo_view path upstream models : RouteView :=
  {| rv_incomingPath := path; rv_upstreamPath := upstream; rv_converter := JStr "none";
     rv_models := models; rv_auth := JUndef |}.

Definition demo_routes : list jsval :=
  [ demo_route "/v1/messages" "https://api.example.com/v1" (JArr [JStr "a"; JStr "re:^b"]);
    demo_route "/v1/messages" "/v1/messages" JUndef ].

Lemma validate_implements_table_witness :
  @validateAdvancedCustomConfig demo_url (Some (config_object demo_routes)) = Ok None
  <-> @valid_table demo_url [demo_view "/v1/messages" "https://api.example.com/v1" ["a"; "re:^b"];
                             demo_view "/v1/messages" "/v1/messages" []].
Proof.
  eapply (@validate_implements_table demo_url (config_object demo_routes)).
  - vm_compute. reflexivity.
  - repeat constructor.
Defined.

Example demo_table_valid :
  @validateAdvancedCustomConfig demo_url (Some (config_object demo_routes)) = Ok None.
Proof. vm_compute. reflexivity. Qed.

Lemma validate_reports_first_witness :
  exists i v, Some 1 = Some i
    /\ [demo_view "/v1/messages" "/v1/messages" []; demo_view "/v1/messages" "/v1/messages" ["a"]] !! i
       = Some v
    /\ Forall (@route_ok demo_url)
         (take i [demo_view "/v1/messages" "/v1/messages" []; demo_view "/v1/messages" "/v1/messages" ["a"]])
    /\ ~ (@route_ok demo_url v /\ Forall (fun u => compatible u v)
         (take i [demo_view "/v1/messages" "/v1/messages" []; demo_view "/v1/messages" "/v1/messages" ["a"]])).
Proof.
  pose (c := config_object [demo_route "/v1/messages" "/v1/messages" JUndef;
                            demo_route "/v1/messages" "/v1/messages" (JArr [JStr "a"])]).
  eapply (@validate_reports_first demo_url c _ _
            (route_error 1 "Catch-all route must be last for the same incoming path")).
  - vm_compute. reflexivity.
  - repeat constructor.
  - done.
  - vm_compute. reflexivity.
Defined.

(** Every template validates, survives the text form, and so does, for each
    registered converter, the route the editor proposes with its default path and
    its defaults, whatever the URL parser. *)
Theorem templates_and_defaults_valid `{UrlParser} :
  (forall t, t ∈ ADVANCED_CUSTOM_TEMPLATE_OPTIONS ->
     validateAdvancedCustomConfig (Some (getAdvancedCustomTemplateConfig (to_value t))) = Ok None
     /\ exists text, stringifyAdvancedCustomConfig (to_config t) = Ok text
          /\ parseAdvancedCustomConfig (Some text) = Some (to_config t))
  /\ (forall o, o ∈ ADVANCED_CUSTOM_CONVERTER_OPTIONS ->
     let path := getDefaultAdvancedCustomIncomingPath (co_value o) in
     let d := getAdvancedCustomConverterDefaults (co_value o) path in
     validateAdvancedCustomConfig
       (Some (config_object [route_object path (cd_upstream_path d) (co_value o) (cd_auth d)]))
     = Ok None).
Proof.
  split.
  - intros t Ht. unfold ADVANCED_CUSTOM_TEMPLATE_OPTIONS in Ht.
    repeat (apply elem_of_cons in Ht as [->|Ht];
      [split; [vm_compute; reflexivity|eexists; split; [reflexivity|vm_compute; reflexivity]]|]).
    by apply elem_of_nil in Ht.
  - intros o Ho. unfold ADVANCED_CUSTOM_CONVERTER_OPTIONS in Ho.
    repeat (apply elem_of_cons in Ho as [->|Ho]; [vm_compute; reflexivity|]).
    by apply elem_of_nil in Ho.
Qed.

(** [getAdvancedCustomStats] throws on some texts the JSON editor lets through:
    the text parses, its normal form keeps a numeric path, and [trim] is called on
    the number. *)
Theorem stats_throw_on_numeric_path `{UrlParser} :
  exists config,
    parseAdvancedCustomConfig (Some (sq "{'advanced_routes':[{'incoming_path':5}]}")) = Some config
    /\ validateAdvancedCustomConfig (Some config) = type_error
    /\ getAdvancedCustomStats (Some (sq "{'advanced_routes':[{'incoming_path':5}]}")) = type_error.
Proof. eexists. split_and!; vm_compute; reflexivity. Qed.

(** The models a route editor field yields are in the list format's normal
    form: trimmed, non-empty, comma-free and without repetitions. *)
Theorem route_models_normal value :
  NoDup (parseAdvancedCustomRouteModels value)
  /\ forallb clean_name (parseAdvancedCustomRouteModels value) = true
  /\ parseAdvancedCustomRouteModels (formatModelsArray (parseAdvancedCustomRouteModels value))
     = parseAdvancedCustomRouteModels value.
Proof.
  assert (forall s, parseAdvancedCustomRouteModels s = uniq (parseModelsString s)) as Heq.
  { intros [|c s]; done. }
  rewrite !Heq. split_and!; [apply NoDup_uniq|apply forallb_uniq, parse_models_clean|].
  rewrite parse_format_clean by apply forallb_uniq, parse_models_clean. by rewrite !uniq_idemp.
Qed.
