(* ===== verification/Subscription.v ===== *)
(** * Subscription offers (features/subscriptions/lib/subscription-offer.ts)

    Offers and subscriptions arrive from the server, so they are untyped objects
    here; [Date.parse], the clock and the locale's date format are parameters. *)
From S2P Require Import Prelude JsString JsNumber JsValue.

(** The environment: [Date.parse], and the [Intl.DateTimeFormat] text of the
    [Date] with a given time value. *)
Class DateEnv := {
  date_parse : jstr -> num;
  date_format : num -> jstr
}.

Record SubscriptionPriceCard := {
  card_tier : jstr;
  card_titleKey : jstr;
  card_priceMinor : jsval;
  card_priceDisplay : jsval;
  card_limit : jsval;
  card_remaining : jsval;
  card_available : bool
}.

Definition is_str (v : jsval) (s : jstr) : bool := v ==? JStr s.
Definition is_true (v : jsval) : bool := v ==? JBool true.

Definition getSubscriptionPriceCards (offer : jsobj) : list SubscriptionPriceCard :=
  let f := prop offer in
  let founderCard :=
    {| card_tier := "founder"; card_titleKey := "Founder 20";
       card_priceMinor :=
         if is_str (f "current_price_tier") "founder" then f "current_price_minor"
         else f "founder_amount_minor";
       card_priceDisplay :=
         if is_str (f "current_price_tier") "founder" then f "current_price_display" else JUndef;
       card_limit := f "limit"; card_remaining := f "remaining";
       card_available :=
         is_true (f "active") && is_str (f "current_price_tier") "founder"
         && negb (truthy (f "sold_out")) |} in
  let standardIsCurrent := is_str (f "current_price_tier") "standard" in
  let standardCard :=
    {| card_tier := "standard"; card_titleKey := "Standard price";
       card_priceMinor :=
         if standardIsCurrent then f "current_price_minor"
         else js_nullish (f "future_standard_price_minor") (f "standard_amount_minor");
       card_priceDisplay :=
         if standardIsCurrent then f "current_price_display" else f "future_standard_price_display";
       card_limit := JUndef; card_remaining := JUndef;
       card_available := is_true (f "active") && standardIsCurrent && negb (truthy (f "sold_out")) |} in
  [founderCard; standardCard].

Definition getOfferTierLabel (tier : jsval) : jstr :=
  if is_str tier "founder" then "Founder price"
  else if is_str tier "standard" then "Future standard seat"
  else "Current price".

Definition getOfferAvailabilityLabel (offer : jsobj) : jstr :=
  if truthy (prop offer "sold_out") then "Sold out"
  else if truthy (prop offer "pending") then "Reservation pending"
  else if truthy (prop offer "active") then "Available"
  else "Unavailable".

(** [typeof v === 'object'] and truthy: objects and arrays. *)
Definition object_like (v : jsval) : bool :=
  match v with JArr _ | JObj _ => true | _ => false end.

(** A property of an object or an array; arrays have none of the names read. *)
Definition field_of (v : jsval) (k : jstr) : jsval :=
  match v with JObj o => prop o k | _ => JUndef end.

Definition getSubscriptionCheckoutErrorKey (error : jsval) : option jstr :=
  if negb (object_like error) then None
  else
    let response := field_of error "response" in
    if negb (object_like response) then None
    else if negb (neq (js_to_number (field_of response "status")) (num_of_Z 409)) then None
    else
      let data := field_of response "data" in
      let code := if object_like data then field_of data "code" else JUndef in
      if is_str code "subscription_capacity_full" || is_str code "subscription_founder_sold_out" then
        Some "Founder capacity is full"
      else if is_str code "subscription_already_active" then
        Some "You already have an active subscription"
      else if is_str code "subscription_already_pending" then
        Some "You already have a pending reservation"
      else Some "Subscription checkout is unavailable".

(** [v.toLowerCase()]: only strings have the method. *)
Definition js_lower (v : jsval) : res jstr :=
  match v with JStr s => Ok (toLowerCase s) | _ => type_error end.

Definition LIFECYCLE_ENDED : list jstr := ["canceled"; "cancelled"; "expired"].
Definition RESERVATION_ENDED : list jstr := ["expired"; "released"; "canceled"; "cancelled"].

(** A number below 10^10 counts seconds. *)
Definition epoch_ms (n : num) : num :=
  if nlt n (num_of_Z 10000000000) then nmul n (num_of_Z 1000) else n.

Section Dates.
Context `{DateEnv}.

(** The grace period ends after [now]. *)
Definition in_grace (gracePeriodEnd : jsval) (now : num) : bool :=
  let after t := is_finite t && nlt now t in
  match gracePeriodEnd with
  | JUndef | JNull => false
  | JStr s => if trim s ==? [] then false else after (date_parse s)
  | JNum n => after (epoch_ms n)
  | v => after (date_parse (js_to_string v))
  end.

Definition isSubscriptionLifecycleActive (lifecycle : jsval) (now : num) : res bool :=
  if negb (truthy lifecycle) then Ok false
  else
    let* stripe_status := js_get lifecycle "stripe_status" in
    let* plain_status := js_get lifecycle "status" in
    let* status := js_lower (js_or (js_or stripe_status plain_status) (JStr [])) in
    if negb (bool_decide (status ∈ LIFECYCLE_ENDED)) then Ok true
    else
      let* gracePeriodEnd := js_get lifecycle "grace_period_end" in
      Ok (in_grace gracePeriodEnd now).

Definition canStartSubscriptionCheckout (offer : jsobj) (fallbackLifecycle : jsval) (now : num) : res bool :=
  let lifecycle := js_or (prop offer "subscription") fallbackLifecycle in
  if is_true (prop offer "active") && truthy (prop offer "plan_id")
     && negb (truthy (prop offer "pending")) && negb (truthy (prop offer "sold_out"))
  then let* active := isSubscriptionLifecycleActive lifecycle now in Ok (negb active)
  else Ok false.

(** [reservation.status?.trim().toLowerCase()], [""] when absent. *)
Definition reservation_status (reservation : jsval) : res jstr :=
  let* status := js_get reservation "status" in
  match status with
  | JUndef | JNull => Ok []
  | _ => let* s := js_trim status in Ok (toLowerCase s)
  end.

Definition hasSubscriptionCheckoutConflict (lifecycle reservation : jsval) (now : num) : res bool :=
  let* active := isSubscriptionLifecycleActive lifecycle now in
  if active : bool then Ok true
  else if negb (truthy reservation) then Ok false
  else
    let* status := reservation_status reservation in
    if negb (non_empty status) || bool_decide (status ∈ RESERVATION_ENDED) then Ok false
    else Ok true.

(** [None] is [null]. *)
Definition normalizeSubscriptionOffer (value : jsval) : option jsobj :=
  match plain_object value with
  | None => None
  | Some candidate =>
      plain_object (if obj_has "offer" candidate then prop candidate "offer" else value)
  end.

Definition normalizeStripeSubscriptionSummary (summary : jsval) : res (option jsobj) :=
  let* subscription := js_get_opt summary "subscription" in
  if negb (truthy subscription) then Ok None
  else
    let f := field_of subscription in
    Ok (Some
      [("stripe_status", f "status"); ("stripe_customer_id", f "stripe_customer_id");
       ("stripe_subscription_id", f "stripe_subscription_id");
       ("stripe_price_id", f "stripe_price_id");
       ("current_period_start", f "current_period_start");
       ("current_period_end", f "current_period_end");
       ("cancel_at_period_end", f "cancel_at_period_end");
       ("grace_period_end", f "grace_until"); ("price_tier", f "tier"); ("status", f "status")]).

(** [new Date(t)] is a valid date. *)
Definition valid_time (t : num) : bool :=
  is_finite t && nle (num_of_Z (-8640000000000000)) t && nle t (num_of_Z 8640000000000000).

(** The argument is a number, a string or nullish. *)
Definition formatOfferReservationExpiry (value : jsval) : option jstr :=
  match value with
  | JUndef | JNull | JStr [] => None
  | v =>
      let timestamp := match v with JNum n => epoch_ms n | _ => date_parse (js_to_string v) end in
      if negb (valid_time timestamp) then None else Some (date_format timestamp)
  end.

End Dates.

(** ** Properties *)

(** The two price cards never offer both tiers; a card is available exactly
    when the offer is active, not sold out and currently sold at its tier, and an
    available card shows the current price. *)
Theorem price_cards_exclusive offer :
  exists founder standard,
    getSubscriptionPriceCards offer = [founder; standard]
    /\ card_tier founder = "founder" /\ card_tier standard = "standard"
    /\ ~ (card_available founder = true /\ card_available standard = true)
    /\ forall card, card ∈ [founder; standard] ->
         (card_available card = true
          <-> prop offer "active" = JBool true
              /\ prop offer "current_price_tier" = JStr (card_tier card)
              /\ truthy (prop offer "sold_out") = false)
         /\ (card_available card = true ->
             card_priceMinor card = prop offer "current_price_minor"
             /\ card_priceDisplay card = prop offer "current_price_display").
Proof.
  eexists _, _. split; [reflexivity|]. cbn [card_tier card_available card_priceMinor card_priceDisplay].
  unfold is_true, is_str. split_and!; [done|done| |].
  { rewrite !andb_true_iff, !bool_decide_eq_true. intros [((_ & H1) & _) ((_ & H2) & _)]. congruence. }
  intros card Hc. repeat (apply elem_of_cons in Hc as [->|Hc]); [..|by apply elem_of_nil in Hc];
    cbn [card_tier card_available card_priceMinor card_priceDisplay];
    rewrite !andb_true_iff, !bool_decide_eq_true, negb_true_iff;
    (split; [tauto|]); intros ((_ & H) & _); by rewrite bool_decide_true.
Qed.

Section Checkout.
Context `{DateEnv}.

(** Checkout may start only on an active offer with a plan, neither pending
    nor sold out, whose subscription (or the fallback) is not active; in that case
    the same subscription raises no checkout conflict. *)
Theorem checkout_start_sound offer fallback now :
  canStartSubscriptionCheckout offer fallback now = Ok true ->
  prop offer "active" = JBool true /\ truthy (prop offer "plan_id") = true
  /\ truthy (prop offer "pending") = false /\ truthy (prop offer "sold_out") = false
  /\ let lifecycle := js_or (prop offer "subscription") fallback in
     isSubscriptionLifecycleActive lifecycle now = Ok false
     /\ hasSubscriptionCheckoutConflict lifecycle JUndef now = Ok false.
Proof.
  unfold canStartSubscriptionCheckout, is_true.
  destruct (_ && _ && _ && _) eqn:E; [|done]. bools. intros Ha. res_inv. bools. subst.
  split_and!; try done. unfold hasSubscriptionCheckoutConflict. by rewrite E.
Qed.

(** A subscription whose status is a string or absent. *)
Lemma lifecycle_active_status o status now :
  js_or (js_or (prop o "stripe_status") (prop o "status")) (JStr []) = JStr status ->
  isSubscriptionLifecycleActive (JObj o) now
  = Ok (negb (bool_decide (toLowerCase status ∈ LIFECYCLE_ENDED))
        || in_grace (prop o "grace_period_end") now).
Proof.
  intros Hs. unfold isSubscriptionLifecycleActive. cbn [truthy negb js_get res_bind].
  rewrite Hs. cbn [js_lower res_bind]. by destruct (bool_decide _).
Qed.

(** A subscription and a reservation with string statuses conflict with a new
    checkout exactly when the subscription has not ended or is in its grace period,
    or the reservation has a status that is not one of the ended ones. *)
Theorem checkout_conflict_iff o r status rstatus now :
  js_or (js_or (prop o "stripe_status") (prop o "status")) (JStr []) = JStr status ->
  prop r "status" = JStr rstatus ->
  exists b, hasSubscriptionCheckoutConflict (JObj o) (JObj r) now = Ok b
    /\ (b = true
        <-> toLowerCase status ∉ LIFECYCLE_ENDED
            \/ in_grace (prop o "grace_period_end") now = true
            \/ (trim rstatus <> [] /\ toLowerCase (trim rstatus) ∉ RESERVATION_ENDED)).
Proof.
  intros Hs Hr. unfold hasSubscriptionCheckoutConflict.
  rewrite (lifecycle_active_status o status) by done. cbn [res_bind].
  destruct (bool_decide_reflect (toLowerCase status ∈ LIFECYCLE_ENDED)) as [Hin|Hin]; cbn [negb orb].
  2: { exists true. split; [done|]. split; [by left|done]. }
  destruct (in_grace _ now) eqn:Eg; [exists true; split; [done|]; split; [by right; left|done]|].
  cbn [truthy negb]. unfold reservation_status. cbn [js_get res_bind]. rewrite Hr. cbn [js_trim res_bind].
  assert (non_empty (toLowerCase (trim rstatus)) = non_empty (trim rstatus)) as Hne
    by (by destruct (trim rstatus)).
  rewrite Hne. destruct (trim rstatus) as [|c t] eqn:Et; cbn [non_empty negb orb].
  { exists false. split; [done|]. split; [done|]. intros [?|[?|[? _]]]; done. }
  destruct (bool_decide_reflect (toLowerCase (c :: t) ∈ RESERVATION_ENDED)).
  - exists false. split; [done|]. split; [done|]. intros [?|[?|[_ ?]]]; done.
  - exists true. split; [done|]. split; [|done]. intros _. by right; right.
Qed.

Lemma in_grace_antitone g now later :
  nle now later = true -> in_grace g later = true -> in_grace g now = true.
Proof.
  intros Hn. assert (forall t, is_finite t && nlt later t = true -> is_finite t && nlt now t = true) as Ht.
  { intros t [Hf Hl]%andb_true_iff. rewrite Hf. by apply (nle_nlt_trans now later t). }
  destruct g; cbn; auto. destruct (_ ==? _); auto.
Qed.

(** Time only ends subscriptions: one that is active at some moment was active
    at every earlier one, so an ended one stays ended. *)
Theorem lifecycle_active_antitone lifecycle now later :
  nle now later = true ->
  isSubscriptionLifecycleActive lifecycle later = Ok true ->
  isSubscriptionLifecycleActive lifecycle now = Ok true.
Proof.
  intros Hn. unfold isSubscriptionLifecycleActive. destruct (negb (truthy lifecycle)); [done|].
  destruct (js_get lifecycle "stripe_status") as [s1|]; cbn [res_bind]; [|done].
  destruct (js_get lifecycle "status") as [s2|]; cbn [res_bind]; [|done].
  destruct (js_lower _) as [s|]; cbn [res_bind]; [|done]. destruct (negb _); [done|].
  destruct (js_get lifecycle "grace_period_end") as [g|]; cbn [res_bind]; [|done].
  intros [= Hg]. f_equal. by apply (in_grace_antitone g now later).
Qed.
End Checkout.

(** A clock and a format for the witnesses. *)
Definition demo_dates : DateEnv :=
  {| date_parse := fun s => if s ==? "2030-01-01" then num_of_Z 1893456000000 else nan;
     date_format := fun _ => "Jan 1, 2030, 12:00 AM" |}.

Definition demo_offer : jsobj :=
  [("active", JBool true); ("plan_id", JNum (num_of_Z 3));
   ("subscription", JObj [("status", JStr "Canceled")])].

Lemma checkout_start_sound_witness :
  let lifecycle := js_or (prop demo_offer "subscription") JUndef in
  @hasSubscriptionCheckoutConflict demo_dates lifecycle JUndef (num_of_Z 0) = Ok false.
Proof.
  eapply (@checkout_start_sound demo_dates demo_offer JUndef (num_of_Z 0)). vm_compute. reflexivity.
Defined.

Lemma checkout_conflict_iff_witness :
  exists b, @hasSubscriptionCheckoutConflict demo_dates (JObj [("status", JStr "expired")])
      (JObj [("status", JStr " Pending ")]) (num_of_Z 0) = Ok b
    /\ (b = true
        <-> toLowerCase "expired" ∉ LIFECYCLE_ENDED
            \/ @in_grace demo_dates (prop [("status", JStr "expired")] "grace_period_end") (num_of_Z 0) = true
            \/ (trim " Pending " <> [] /\ toLowerCase (trim " Pending ") ∉ RESERVATION_ENDED)).
Proof. apply (@checkout_conflict_iff demo_dates); reflexivity. Defined.

Lemma lifecycle_active_antitone_witness :
  @isSubscriptionLifecycleActive demo_dates
    (JObj [("status", JStr "canceled"); ("grace_period_end", JStr "2030-01-01")]) (num_of_Z 5) = Ok true.
Proof.
  apply (@lifecycle_active_antitone demo_dates _ _ (num_of_Z 1893455999999)); vm_compute; reflexivity.
Defined.

(** [normalizeSubscriptionOffer] unwraps one envelope: on an object without an
    [offer] key it is the identity, on an envelope it is the enclosed object, and
    anything else (arrays, scalars, an envelope without an object) gives [null]. *)
Theorem offer_unwrap value :
  normalizeSubscriptionOffer value
  = match value with
    | JObj o =>
        match obj_get "offer" o with
        | None => Some o
        | Some (JObj o') => Some o'
        | Some _ => None
        end
    | _ => None
    end.
Proof.
  unfold normalizeSubscriptionOffer. destruct value; try done. cbn [plain_object].
  unfold obj_has, prop. destruct (obj_get "offer" o); [|done]. cbn. by destruct j.
Qed.

(** A checkout error has a message exactly when it carries a response object
    with status 409. *)
Theorem checkout_error_iff error :
  is_Some (getSubscriptionCheckoutErrorKey error)
  <-> object_like error = true /\ object_like (field_of error "response") = true
      /\ neq (js_to_number (field_of (field_of error "response") "status")) (num_of_Z 409) = true.
Proof.
  unfold getSubscriptionCheckoutErrorKey. destruct (object_like error); cbn [negb].
  2: { split; [by intros [? [=]]|by intros (? & _)]. }
  destruct (object_like (field_of error "response")); cbn [negb].
  2: { split; [by intros [? [=]]|by intros (_ & ? & _)]. }
  destruct (neq _ _); cbn [negb]; [|split; [by intros [? [=]]|by intros (_ & _ & ?)]].
  split; [done|intros _]. cbn zeta.
  repeat match goal with |- is_Some (if ?b then _ else _) => destruct b; [by eexists|] end.
  by eexists.
Qed.

(** The lifecycle built from a Stripe summary is as active as the subscription
    it summarises: its status and its grace period are the subscription's. *)
Theorem stripe_summary_lifecycle `{DateEnv} s now :
  exists o, normalizeStripeSubscriptionSummary (JObj [("subscription", JObj s)]) = Ok (Some o)
  /\ isSubscriptionLifecycleActive (JObj o) now
     = isSubscriptionLifecycleActive
         (JObj [("status", prop s "status"); ("grace_period_end", prop s "grace_until")]) now.
Proof.
  eexists. split; [reflexivity|]. unfold isSubscriptionLifecycleActive. cbn [truthy negb js_get res_bind].
  set (o := [("stripe_status", _); _; _; _; _; _; _; _; _; _]).
  change (prop o "stripe_status") with (prop s "status").
  change (prop o "status") with (prop s "status").
  change (prop o "grace_period_end") with (prop s "grace_until").
  set (o' := [("status", _); _]).
  change (prop o' "stripe_status") with JUndef.
  change (prop o' "status") with (prop s "status").
  change (prop o' "grace_period_end") with (prop s "grace_until").
  unfold js_or. cbn [truthy]. by destruct (truthy (prop s "status")) eqn:E; rewrite ?E.
Qed.
