(* ===== verification/OrderedMap.v ===== *)
(** * Ordered maps: [Map] and [Set] with their insertion order

    A [Map] is the list of its entries in insertion order, a [Set] the list of its
    elements; [sort] is the stable sort of [Array.prototype]. *)
From stdpp Require Import sorting.
From S2P Require Import Prelude.

Lemma filter_filter {A} (p q : A -> bool) l : List.filter p (List.filter q l) = List.filter (fun x => q x && p x) l.
Proof. induction l as [|x l IH]; [done|]. cbn. destruct (q x); cbn; [destruct (p x)|]; by rewrite IH. Qed.

Section Maps.
Context {K V : Type} `{EqDecision K}.
Implicit Types (m : list (K * V)) (k : K) (v : V).

(** [m.get(k)] *)
Fixpoint map_get k m : option V :=
  match m with
  | [] => None
  | (k', v) :: t => if k ==? k' then Some v else map_get k t
  end.

(** [m.set(k, v)] *)
Fixpoint map_set k v m : list (K * V) :=
  match m with
  | [] => [(k, v)]
  | (k', v') :: t => if k ==? k' then (k', v) :: t else (k', v') :: map_set k v t
  end.

Definition map_keys m : list K := map fst m.
Definition map_values m : list V := map snd m.

(** [m.set(k, f(m.get(k) ?? d))] *)
Definition map_update k d (f : V -> V) m : list (K * V) :=
  map_set k (f (default d (map_get k m))) m.

Lemma map_get_set k v m k' :
  map_get k' (map_set k v m) = if k' ==? k then Some v else map_get k' m.
Proof.
  induction m as [|[k1 v1] m IH]; cbn; [by bd|].
  destruct (decide (k = k1)) as [->|Hne].
  - rewrite (bool_decide_true (k1 = k1)) by done. cbn. by bd.
  - rewrite (bool_decide_false (k = k1)) by done. cbn. rewrite IH. by bd.
Qed.

Lemma map_keys_set k v m :
  map_keys (map_set k v m) = if bool_decide (k ∈ map_keys m) then map_keys m else map_keys m ++ [k].
Proof.
  unfold map_keys. induction m as [|[k1 v1] m IH]; cbn.
  - rewrite bool_decide_false; [done|]. by intros H%elem_of_nil.
  - destruct (decide (k = k1)) as [->|Hne].
    + rewrite (bool_decide_true (k1 = k1)) by done. cbn. rewrite bool_decide_true; [done|left].
    + rewrite (bool_decide_false (k = k1)) by done. cbn. rewrite IH.
      destruct (bool_decide_reflect (k ∈ map fst m)) as [Hin|Hin].
      * rewrite bool_decide_true by (by right). done.
      * rewrite bool_decide_false; [done|]. intros [?|?]%elem_of_cons; done.
Qed.

Lemma NoDup_map_set k v m : NoDup (map_keys m) -> NoDup (map_keys (map_set k v m)).
Proof.
  intros H. rewrite map_keys_set. destruct (bool_decide_reflect (k ∈ map_keys m)); [done|].
  apply NoDup_app. split_and!; [done| |apply NoDup_singleton].
  intros x Hx ->%list_elem_of_singleton. done.
Qed.

Lemma map_get_None k m : map_get k m = None <-> k ∉ map_keys m.
Proof.
  unfold map_keys. induction m as [|[k1 v1] m IH]; cbn.
  - split; [intros _ H; by apply elem_of_nil in H|done].
  - rewrite elem_of_cons. bd; [naive_solver|]. rewrite IH. naive_solver.
Qed.

Lemma map_get_elem k v m : NoDup (map_keys m) -> (k, v) ∈ m <-> map_get k m = Some v.
Proof.
  unfold map_keys. induction m as [|[k1 v1] m IH]; cbn.
  - intros _. split; [by intros H%elem_of_nil|done].
  - intros Hnd. inversion Hnd as [|? ? Hni Hnd']; subst. rewrite elem_of_cons.
    destruct (decide (k = k1)) as [->|Hne].
    + rewrite bool_decide_true by done. split; [|intros [= ->]; by left].
      intros [[= ->]|Hin]; [done|]. exfalso. apply Hni.
      apply list_elem_of_In, in_map_iff. exists (k1, v). split; [done|by apply list_elem_of_In].
    + rewrite bool_decide_false by done. rewrite <- IH by done. naive_solver.
Qed.

Lemma map_get_is_Some k m : is_Some (map_get k m) <-> k ∈ map_keys m.
Proof. rewrite <- not_eq_None_Some, map_get_None. split; [apply dec_stable|tauto]. Qed.

(** A property of the values that each update keeps. *)
Lemma Forall_map_set (P : K * V -> Prop) k v m :
  Forall P m -> (forall k', k' = k -> P (k', v)) -> Forall P (map_set k v m).
Proof.
  intros Hm Hv. induction Hm as [|[k1 v1] m H1 Hm IH]; cbn.
  - constructor; [by apply Hv|constructor].
  - bd; constructor; auto.
Qed.

Lemma map_get_Forall (P : K * V -> Prop) k v m : Forall P m -> map_get k m = Some v -> P (k, v).
Proof.
  induction 1 as [|[k1 v1] m H1 Hm IH]; cbn; [done|]. bd; [by intros [= <-]|auto].
Qed.
End Maps.

(** The loop that copies a map, with a filter and a function on the values. *)
Lemma map_get_copy {K V W : Type} `{EqDecision K} (c : V -> bool) (g : V -> W) k (m : list (K * V)) : forall acc,
  NoDup (map_keys m) ->
  map_get k (fold_left (fun acc '(k, v) => if c v then map_set k (g v) acc else acc) m acc)
  = match map_get k m with
    | Some v => if c v then Some (g v) else map_get k acc
    | None => map_get k acc
    end.
Proof.
  induction m as [|[k1 v1] m IH]; intros acc Hnd; [done|]. cbn [fold_left map_get].
  inversion Hnd as [|? ? Hni Hnd']; subst. rewrite IH by done.
  assert (k = k1 -> map_get k m = None) as Hk by (intros ->; by apply map_get_None).
  destruct (decide (k = k1)) as [E|Hne].
  - rewrite Hk, bool_decide_true by done. destruct (c v1); [|done].
    rewrite map_get_set. by rewrite bool_decide_true.
  - rewrite bool_decide_false by done. destruct (c v1); [|done].
    rewrite map_get_set, (bool_decide_false (k = k1)) by done. done.
Qed.

(** ** Sets *)

Section Sets.
Context {K : Type} `{EqDecision K}.

(** [s.add(x)] *)
Definition set_add (x : K) (s : list K) : list K := if bool_decide (x ∈ s) then s else s ++ [x].

Lemma elem_of_set_add x y s : y ∈ set_add x s <-> y = x \/ y ∈ s.
Proof. unfold set_add. bd; set_solver. Qed.

Lemma NoDup_set_add x s : NoDup s -> NoDup (set_add x s).
Proof.
  intros H. unfold set_add. bd; [done|]. apply NoDup_app.
  split_and!; [done|set_solver|apply NoDup_singleton].
Qed.

Definition set_add_all (l s : list K) : list K := fold_left (fun s x => set_add x s) l s.

Lemma elem_of_set_add_all l : forall s y, y ∈ set_add_all l s <-> y ∈ l \/ y ∈ s.
Proof.
  unfold set_add_all. induction l as [|x l IH]; intros s y; cbn; [set_solver|].
  rewrite IH, elem_of_set_add. set_solver.
Qed.
End Sets.

(** ** Maps to sets *)

Section Multimaps.
Context {K I X : Type} `{EqDecision K} `{EqDecision I} (key : X -> K) (item : X -> I).

(** The loop that files each [x] in the set of its key. *)
Definition multimap (l : list X) (m : list (K * list I)) : list (K * list I) :=
  fold_left (fun m x => map_update (key x) [] (set_add (item x)) m) l m.

Lemma elem_of_multimap l k i : forall m,
  i ∈ default [] (map_get k (multimap l m))
  <-> i ∈ default [] (map_get k m) \/ exists x, x ∈ l /\ key x = k /\ item x = i.
Proof.
  unfold multimap. induction l as [|x l IH]; intros m; cbn [fold_left].
  - split; [by left|]. intros [?|(x & Hx & _)]; [done|by apply elem_of_nil in Hx].
  - rewrite IH. unfold map_update. rewrite map_get_set.
    destruct (bool_decide_reflect (k = key x)) as [->|Hne]; cbn.
    + rewrite elem_of_set_add. set_solver.
    + set_solver.
Qed.

Lemma multimap_keys l k : forall m,
  k ∈ map_keys (multimap l m) <-> k ∈ map_keys m \/ exists x, x ∈ l /\ key x = k.
Proof.
  unfold multimap. induction l as [|x l IH]; intros m; cbn [fold_left].
  - split; [by left|]. intros [?|(x & Hx & _)]; [done|by apply elem_of_nil in Hx].
  - rewrite IH. unfold map_update. rewrite map_keys_set.
    destruct (bool_decide_reflect (key x ∈ map_keys m)); set_solver.
Qed.

Lemma multimap_NoDup l : forall m, NoDup (map_keys m) -> NoDup (map_keys (multimap l m)).
Proof.
  induction l as [|x l IH]; intros m Hm; [done|]. by apply IH, NoDup_map_set.
Qed.
End Multimaps.

(** ** Sorting *)

Section Sort.
Context {A : Type} (cmp : A -> A -> comparison).

Fixpoint sort_insert (x : A) (l : list A) : list A :=
  match l with
  | [] => [x]
  | y :: t => match cmp x y with Gt => y :: sort_insert x t | _ => x :: l end
  end.

(** [l.sort(cmp)], stable. *)
Definition js_sort (l : list A) : list A := foldr sort_insert [] l.

Lemma sort_insert_perm x l : sort_insert x l ≡ₚ x :: l.
Proof.
  induction l as [|y l IH]; cbn; [done|]. destruct (cmp x y); [done..|].
  rewrite IH. constructor.
Qed.

Lemma js_sort_perm l : js_sort l ≡ₚ l.
Proof. induction l as [|x l IH]; cbn; [done|]. by rewrite sort_insert_perm, IH. Qed.

Definition cmp_le (x y : A) : Prop := cmp x y <> Gt.

(** The order of a sort, by any relation the comparisons decide. *)
Lemma js_sort_sorted_by (R : A -> A -> Prop) l :
  (forall x y, cmp x y <> Gt -> R x y) -> (forall x y, cmp x y = Gt -> R y x) -> Sorted R (js_sort l).
Proof.
  intros Hle Hgt. induction l as [|x l IH]; [constructor|]. cbn. unfold js_sort in IH.
  induction IH as [|y t Ht IHt Hy]; cbn; [by repeat constructor|].
  destruct (cmp x y) eqn:E.
  1,2: constructor; [by constructor|]; constructor; apply Hle; congruence.
  constructor; [done|]. destruct Hy as [|z t Hz]; cbn; [constructor; by apply Hgt|].
  destruct (cmp x z); constructor; [by apply Hgt..|done].
Qed.

(** A sorted list stays as it is. *)
Lemma js_sort_id l : Sorted cmp_le l -> js_sort l = l.
Proof.
  induction 1 as [|x l _ IH Hx]; [done|]. change (sort_insert x (js_sort l) = x :: l).
  rewrite IH. destruct Hx as [|y t Hy]; [done|].
  cbn. unfold cmp_le in Hy. by destruct (cmp x y).
Qed.

Lemma js_sort_sorted l :
  (forall x y, cmp x y = Gt -> cmp y x <> Gt) -> Sorted cmp_le (js_sort l).
Proof. intros Hc. by apply js_sort_sorted_by. Qed.
(** The sorted list, for a comparison that is transitive on the elements. *)
Lemma js_sort_strongly (P : A -> Prop) (R : A -> A -> Prop) l :
  Forall P l -> (forall x y, P x -> P y -> cmp x y <> Gt -> R x y) ->
  (forall x y, P x -> P y -> cmp x y = Gt -> R y x) ->
  (forall x y z, P x -> P y -> P z -> R x y -> R y z -> R x z) -> StronglySorted R (js_sort l).
Proof.
  intros Hl Hle Hgt Htr. induction Hl as [|x l Hx Hl IH]; [constructor|]. cbn [js_sort foldr].
  change (foldr sort_insert [] l) with (js_sort l).
  assert (Forall P (js_sort l)) as Hs by (by rewrite js_sort_perm).
  revert Hs. induction IH as [|y t Ht IHt Hy]; intros Hs; [by repeat constructor|].
  inversion Hs as [|? ? Py Pt]; subst. cbn [sort_insert]. destruct (cmp x y) eqn:E.
  1,2: assert (R x y) by (apply Hle; [done|done|congruence]); constructor; [by constructor|];
    constructor; [done|]; rewrite Forall_forall in Hy, Pt |- *; intros z Hz; eapply (Htr x y z); auto.
  constructor; [by apply IHt|]. rewrite sort_insert_perm. constructor; [by apply Hgt|done].
Qed.

(** Elements that tie keep their order. *)
Lemma js_sort_stable (P : A -> Prop) (p : A -> bool) l :
  Forall P l -> (forall x y, P x -> P y -> p x = true -> p y = true -> cmp x y <> Gt) ->
  List.filter p (js_sort l) = List.filter p l.
Proof.
  intros Hl Hp. induction Hl as [|x l Hx Hl IH]; [done|]. cbn [js_sort foldr List.filter].
  change (foldr sort_insert [] l) with (js_sort l). rewrite <- IH.
  assert (Forall P (js_sort l)) as Hs by (by rewrite js_sort_perm). clear IH.
  induction Hs as [|y t Py Pt IHt]; [done|]. cbn [sort_insert].
  destruct (cmp x y) eqn:E; [done|done|]. cbn [List.filter]. rewrite IHt.
  destruct (p x) eqn:Ex, (p y) eqn:Ey; try done. by destruct (Hp x y).
Qed.
End Sort.

(** By code units, the order of [l.sort()] on strings. *)
Fixpoint unit_order (a b : jstr) : comparison :=
  match a, b with
  | [], [] => Eq
  | [], _ => Lt
  | _, [] => Gt
  | x :: a, y :: b => match (x ?= y)%N with Eq => unit_order a b | c => c end
  end.

(** [c || d] on the results of comparisons. *)
Definition cmp_or (c d : comparison) : comparison := match c with Eq => d | _ => c end.
