(* ===== verification/Currency.v ===== *)
(** * Currency display (lib/currency.ts, lib/billing-currency.ts, stores/system-config-store.ts,
      hooks/use-system-config.ts, components/currency-switcher.tsx)

    How an amount in dollars, a quota or an amount in a local currency becomes the text
    that is shown: the configuration the server sends, the currency the user prefers in
    this browser, and the formats. [Intl.NumberFormat] is the environment's. *)
From S2P Require Import Prelude JsString JsNumber JsValue.

(** ** The environment *)

(** The options of [new Intl.NumberFormat(locale, options)] the source sets. A currency
    comes with the style [currency] and the narrow symbol. *)
Record NumberFormatOptions := {
  nf_locale : jsval;
  nf_currency : option jstr;
  nf_notation : jstr;
  nf_minimumFractionDigits : option nat;
  nf_maximumFractionDigits : nat
}.

(** [new Intl.NumberFormat(locale, options).format(value)] *)
Class NumberFormat := { format : NumberFormatOptions -> num -> jstr }.

(** [window.localStorage]: missing, throwing (as in a private window), or its items. *)
Inductive LocalStorage :=
| NoStorage
| BrokenStorage
| Storage (items : list (jstr * jstr)).

(** ** The configuration (stores/system-config-store.ts) *)

Record CurrencyConfig := {
  cc_displayInCurrency : bool;
  cc_quotaDisplayType : jstr;
  cc_quotaPerUnit : num;
  cc_usdExchangeRate : num;
  cc_customCurrencySymbol : jstr;
  cc_customCurrencyExchangeRate : num;
  cc_cadExchangeRate : num
}.

Definition DEFAULT_CURRENCY_CONFIG : CurrencyConfig :=
  {| cc_displayInCurrency := true; cc_quotaDisplayType := "CNY"; cc_quotaPerUnit := num_of_Z 500000;
     cc_usdExchangeRate := num_of_Z 1; cc_customCurrencySymbol := "¤";
     cc_customCurrencyExchangeRate := num_of_Z 1; cc_cadExchangeRate := num_of_string "1.37" |}.

(** What the browser has stored: a field that an earlier version did not know is missing. *)
Record StoredCurrency := {
  sc_displayInCurrency : option bool;
  sc_quotaDisplayType : option jstr;
  sc_quotaPerUnit : option num;
  sc_usdExchangeRate : option num;
  sc_customCurrencySymbol : option jstr;
  sc_customCurrencyExchangeRate : option num;
  sc_cadExchangeRate : option num
}.

Definition stored (c : CurrencyConfig) : StoredCurrency :=
  {| sc_displayInCurrency := Some (cc_displayInCurrency c); sc_quotaDisplayType := Some (cc_quotaDisplayType c);
     sc_quotaPerUnit := Some (cc_quotaPerUnit c); sc_usdExchangeRate := Some (cc_usdExchangeRate c);
     sc_customCurrencySymbol := Some (cc_customCurrencySymbol c);
     sc_customCurrencyExchangeRate := Some (cc_customCurrencyExchangeRate c);
     sc_cadExchangeRate := Some (cc_cadExchangeRate c) |}.

(** The page: the stored configuration, the storage of the browser and the version that
    components subscribe to. *)
Record CurrencyState := {
  cs_config : option StoredCurrency;
  cs_storage : LocalStorage;
  cs_version : Z
}.

(** ** The answer of /api/status (hooks/use-system-config.ts) *)

Definition toNumber (value : jsval) (fallback : num) : num :=
  match value with
  | JNum n => if is_nan n then fallback else n
  | JStr s => let parsed := num_of_string s in if is_nan parsed then fallback else parsed
  | _ => fallback
  end.

Record StatusData := {
  sd_display_in_currency : option bool;
  sd_quota_display_type : option jstr;
  sd_quota_per_unit : jsval;
  sd_usd_exchange_rate : jsval;
  sd_custom_currency_symbol : option jstr;
  sd_custom_currency_exchange_rate : jsval;
  sd_cad_exchange_rate : jsval
}.

(** The currency of [mapStatusDataToConfig]; no data leaves the configuration as it is. *)
Definition mapStatusDataToConfig (data : StatusData) : CurrencyConfig :=
  let d := DEFAULT_CURRENCY_CONFIG in
  {| cc_displayInCurrency := default (cc_displayInCurrency d) (sd_display_in_currency data);
     cc_quotaDisplayType := default (cc_quotaDisplayType d) (sd_quota_display_type data);
     cc_quotaPerUnit := toNumber (sd_quota_per_unit data) (cc_quotaPerUnit d);
     cc_usdExchangeRate := toNumber (sd_usd_exchange_rate data) (cc_usdExchangeRate d);
     cc_customCurrencySymbol :=
       str_or (trim (default [] (sd_custom_currency_symbol data))) (cc_customCurrencySymbol d);
     cc_customCurrencyExchangeRate :=
       toNumber (sd_custom_currency_exchange_rate data) (cc_customCurrencyExchangeRate d);
     cc_cadExchangeRate := toNumber (sd_cad_exchange_rate data) (cc_cadExchangeRate d) |}.

(** [setConfig] with the currency of an answer, every field of which is set. *)
Definition setConfig (currency : CurrencyConfig) (s : CurrencyState) : CurrencyState :=
  {| cs_config := Some (stored currency); cs_storage := cs_storage s; cs_version := cs_version s |}.

(** ** The user's preference *)

Definition DISPLAY_TYPE_VALUES : list jstr := ["USD"; "CNY"; "CAD"; "TOKENS"; "CUSTOM"].

(** Of any value; only a string can be one. *)
Definition isCurrencyDisplayType (value : jsval) : bool :=
  match value with JStr s => bool_decide (s ∈ DISPLAY_TYPE_VALUES) | _ => false end.

Definition parseCurrencyDisplayType (value : jsval) (fallback : jstr) : jstr :=
  match value with JStr s => if isCurrencyDisplayType value then s else fallback | _ => fallback end.

Definition USER_CURRENCY_PREFERENCE_KEY : jstr := "user_currency_preference".
Definition ALLOWED_USER_OVERRIDES : list jstr := ["USD"; "CNY"; "CAD"].

Definition getUserCurrencyPreference (s : CurrencyState) : option jstr :=
  match cs_storage s with
  | Storage items =>
      match obj_get USER_CURRENCY_PREFERENCE_KEY items with
      | None | Some [] => None
      | Some raw =>
          if isCurrencyDisplayType (JStr raw) && bool_decide (raw ∈ ALLOWED_USER_OVERRIDES)
          then Some raw else None
      end
  | NoStorage | BrokenStorage => None
  end.

Definition bump (s : CurrencyState) : CurrencyState :=
  {| cs_config := cs_config s; cs_storage := cs_storage s; cs_version := (cs_version s + 1)%Z |}.

(** [None] clears the preference. *)
Definition setUserCurrencyPreference (value : option jstr) (s : CurrencyState) : CurrencyState :=
  match cs_storage s with
  | NoStorage => s
  | BrokenStorage => bump s
  | Storage items =>
      let items' :=
        match value with
        | None => obj_delete USER_CURRENCY_PREFERENCE_KEY items
        | Some v =>
            if bool_decide (v ∈ ALLOWED_USER_OVERRIDES)
            then obj_set USER_CURRENCY_PREFERENCE_KEY v items else items
        end in
      bump {| cs_config := cs_config s; cs_storage := Storage items'; cs_version := cs_version s |}
  end.

(** [v && v > 0 ? v : d] *)
Definition positive_or (v : option num) (d : num) : num :=
  match v with Some n => if num_truthy n && nlt nzero n then n else d | None => d end.

Definition getConfig (s : CurrencyState) : CurrencyConfig :=
  let d := DEFAULT_CURRENCY_CONFIG in
  let currency := default (stored d) (cs_config s) in
  {| cc_displayInCurrency := default (cc_displayInCurrency d) (sc_displayInCurrency currency);
     cc_quotaDisplayType :=
       match getUserCurrencyPreference s with
       | Some override => override
       | None => default (cc_quotaDisplayType d) (sc_quotaDisplayType currency)
       end;
     cc_quotaPerUnit := positive_or (sc_quotaPerUnit currency) (cc_quotaPerUnit d);
     cc_usdExchangeRate := positive_or (sc_usdExchangeRate currency) (cc_usdExchangeRate d);
     cc_customCurrencySymbol :=
       str_or (trim (default [] (sc_customCurrencySymbol currency))) (cc_customCurrencySymbol d);
     cc_customCurrencyExchangeRate :=
       positive_or (sc_customCurrencyExchangeRate currency) (cc_customCurrencyExchangeRate d);
     cc_cadExchangeRate := positive_or (sc_cadExchangeRate currency) (cc_cadExchangeRate d) |}.

(** ** The switcher (components/currency-switcher.tsx) *)

Definition USER_CURRENCY_OPTIONS : list (jstr * jstr) := [("USD", "$"); ("CNY", "¥"); ("CAD", "C$")].

(** The currency the trigger shows, from the stored configuration of the site. *)
Definition effective (s : CurrencyState) : jstr :=
  let adminDefault :=
    match cs_config s with Some c => default [] (sc_quotaDisplayType c) | None => [] end in
  let fallback := if bool_decide (adminDefault ∈ ALLOWED_USER_OVERRIDES) then adminDefault else "USD" in
  default fallback (getUserCurrencyPreference s).

Definition handleChange (next : option jstr) (s : CurrencyState) : CurrencyState :=
  match next with
  | Some v => if bool_decide (v ∈ ALLOWED_USER_OVERRIDES) then setUserCurrencyPreference (Some v) s else s
  | None => s
  end.

(** ** What is displayed *)

Inductive DisplayMeta :=
| MetaCurrency (symbol currencyCode : jstr) (exchangeRate : num)
| MetaCustom (symbol : jstr) (exchangeRate : num)
| MetaTokens (quotaPerUnit : num).

Definition dollars : DisplayMeta := MetaCurrency "$" "USD" (num_of_Z 1).

Definition getDisplayMeta (config : CurrencyConfig) : DisplayMeta :=
  let t := cc_quotaDisplayType config in
  if t ==? "CNY" then MetaCurrency "¥" "CNY" (cc_usdExchangeRate config)
  else if t ==? "CAD" then MetaCurrency "C$" "CAD" (cc_cadExchangeRate config)
  else if t ==? "CUSTOM" then MetaCustom (cc_customCurrencySymbol config) (cc_customCurrencyExchangeRate config)
  else if t ==? "TOKENS" then MetaTokens (cc_quotaPerUnit config)
  else dollars.

Definition getBillingDisplayMeta (config : CurrencyConfig) : DisplayMeta :=
  match getDisplayMeta config with
  | MetaTokens _ => dollars
  | meta => meta
  end.

Definition getCurrencyDisplay (s : CurrencyState) : CurrencyConfig * DisplayMeta :=
  let config := getConfig s in (config, getDisplayMeta config).

(** ** Formats *)

Record CurrencyFormatOptions := {
  o_digitsLarge : option nat;
  o_digitsSmall : option nat;
  o_abbreviate : option bool;
  o_minimumNonZero : option num;
  o_compact : option bool;
  o_showSymbol : option bool;
  o_showCurrencyCode : option bool;
  o_locale : jsval
}.

Record ResolvedCurrencyFormatOptions := {
  r_digitsLarge : nat;
  r_digitsSmall : nat;
  r_abbreviate : bool;
  r_minimumNonZero : num;
  r_compact : bool;
  r_showSymbol : bool;
  r_showCurrencyCode : bool;
  r_locale : jsval
}.

Definition DEFAULT_FORMAT_OPTIONS : ResolvedCurrencyFormatOptions :=
  {| r_digitsLarge := 2; r_digitsSmall := 4; r_abbreviate := true; r_minimumNonZero := nzero;
     r_compact := false; r_showSymbol := true; r_showCurrencyCode := false; r_locale := JUndef |}.

Definition mergeOptions (options : option CurrencyFormatOptions) : ResolvedCurrencyFormatOptions :=
  let d := DEFAULT_FORMAT_OPTIONS in
  match options with
  | None => d
  | Some o =>
      {| r_digitsLarge := default (r_digitsLarge d) (o_digitsLarge o);
         r_digitsSmall := default (r_digitsSmall d) (o_digitsSmall o);
         r_abbreviate := default (r_abbreviate d) (o_abbreviate o);
         r_minimumNonZero := default (r_minimumNonZero d) (o_minimumNonZero o);
         r_compact := default (r_compact d) (o_compact o);
         r_showSymbol := default (r_showSymbol d) (o_showSymbol o);
         r_showCurrencyCode := default (r_showCurrencyCode d) (o_showCurrencyCode o);
         r_locale := js_nullish (o_locale o) (r_locale d) |}
  end.

(** The first match of the pattern with a dot, digits as few as needed, zeros and the end:
    the zeros at the end of a fraction. *)
Fixpoint strip_fraction_zeros (s : jstr) : jstr :=
  match s with
  | [] => []
  | c :: t =>
      if (c =? 46)%N && forallb is_digit t && endsWith t "0" then c :: rev (strip_zeros (rev t))
      else c :: strip_fraction_zeros t
  end.

(** [.replace(/\.$/, '')] *)
Definition strip_final_dot (s : jstr) : jstr := if endsWith s "." then removelast s else s.

Definition removeTrailingZeros (str : jstr) : jstr :=
  if negb (includes str ".") then str else strip_final_dot (strip_fraction_zeros str).

Definition nabs (x : num) : num := SFabs x.
Definition nneg (x : num) : num := SFopp x.

Definition formatNumberWithSuffix (value : num) (digitsLarge digitsSmall : nat) (abbreviate : bool) : jstr :=
  let abs := nabs value in
  if abbreviate && nle (num_of_Z 1000) abs
  then removeTrailingZeros (to_fixed 1 (ndiv value (num_of_Z 1000))) ++ "k"
  else removeTrailingZeros (to_fixed (if nle (num_of_Z 1) abs then digitsLarge else digitsSmall) value).

(** [Math.pow(10, -digits)], correctly rounded. *)
Definition pow10_neg (digits : nat) : num := num_of_dec false 1 (- Z.of_nat digits).

Definition adjustForMinimum (value : num) (digits : nat) (minimumNonZero : num) : num :=
  if neq value nzero then value
  else
    let threshold := if nlt nzero minimumNonZero then minimumNonZero else pow10_neg digits in
    let abs := nabs value in
    if nlt nzero abs && nlt abs threshold then (if nlt nzero value then threshold else nneg threshold) else value.

Section Formats.
Context `{NumberFormat}.

Definition notation_of (o : ResolvedCurrencyFormatOptions) : jstr := if r_compact o then "compact" else "standard".

(** The options of a number with at most [digits] digits of its fraction. *)
Definition number_options (o : ResolvedCurrencyFormatOptions) (digits : nat) (currency : option jstr)
  : NumberFormatOptions :=
  {| nf_locale := r_locale o; nf_currency := currency; nf_notation := notation_of o;
     nf_minimumFractionDigits := Some O;
     nf_maximumFractionDigits := if r_compact o then 1 else digits |}.

(** Compact numbers of tokens. *)
Definition compact_options (o : ResolvedCurrencyFormatOptions) : NumberFormatOptions :=
  {| nf_locale := r_locale o; nf_currency := None; nf_notation := "compact";
     nf_minimumFractionDigits := None; nf_maximumFractionDigits := 1 |}.

Definition with_code (o : ResolvedCurrencyFormatOptions) (code text : jstr) : jstr :=
  if r_showCurrencyCode o then text ++ " " ++ code else text.

Definition formatCurrencyValue (value : num) (o : ResolvedCurrencyFormatOptions) (meta : DisplayMeta) : jstr :=
  let digits := if nle (num_of_Z 1) (nabs value) then r_digitsLarge o else r_digitsSmall o in
  let adjustedValue := adjustForMinimum value digits (r_minimumNonZero o) in
  match meta with
  | MetaTokens _ =>
      if r_compact o then format (compact_options o) value
      else formatNumberWithSuffix value (r_digitsLarge o) (r_digitsSmall o) (r_abbreviate o)
  | MetaCurrency _ code _ =>
      with_code o code
        (format (number_options o digits (if r_showSymbol o then Some code else None)) adjustedValue)
  | MetaCustom symbol _ =>
      let decimal := format (number_options o digits None) adjustedValue in
      if r_showSymbol o then symbol ++ " " ++ decimal else decimal
  end.

(** [amount == null || Number.isNaN(amount)]: [None] is [null] or [undefined]. *)
Definition amount_of (amount : option num) : option num :=
  match amount with Some n => if is_nan n then None else Some n | None => None end.

Definition formatCurrencyFromUSD (s : CurrencyState) (amountUSD : option num)
    (options : option CurrencyFormatOptions) : jstr :=
  match amount_of amountUSD with
  | None => "-"
  | Some usd =>
      let '(config, meta) := getCurrencyDisplay s in
      let merged := mergeOptions options in
      match meta with
      | MetaTokens _ =>
          let tokens := nmul usd (cc_quotaPerUnit config) in
          if r_compact merged then format (compact_options merged) tokens
          else formatNumberWithSuffix tokens 0 (r_digitsSmall merged) (r_abbreviate merged)
      | MetaCurrency _ _ exchangeRate | MetaCustom _ exchangeRate =>
          formatCurrencyValue (nmul usd exchangeRate) merged meta
      end
  end.

Definition formatBillingCurrencyFromUSD (s : CurrencyState) (amountUSD : option num)
    (options : option CurrencyFormatOptions) : jstr :=
  match amount_of amountUSD with
  | None => "-"
  | Some usd =>
      let meta := getBillingDisplayMeta (getConfig s) in
      let value :=
        match meta with
        | MetaCurrency _ _ exchangeRate | MetaCustom _ exchangeRate => nmul usd exchangeRate
        | MetaTokens _ => usd
        end in
      formatCurrencyValue value (mergeOptions options) meta
  end.

Definition formatQuotaWithCurrency (s : CurrencyState) (quota : option num)
    (options : option CurrencyFormatOptions) : jstr :=
  match amount_of quota with
  | None => "-"
  | Some q => formatCurrencyFromUSD s (Some (ndiv q (cc_quotaPerUnit (getConfig s)))) options
  end.

Definition formatLocalCurrencyAmount (s : CurrencyState) (amount : option num)
    (options : option CurrencyFormatOptions) : jstr :=
  match amount_of amount with
  | None => "-"
  | Some a => formatCurrencyValue a (mergeOptions options) (getBillingDisplayMeta (getConfig s))
  end.

(** ** Amounts in a billing currency (lib/billing-currency.ts) *)

Definition BILLING_CURRENCIES : list jstr := ["cny"; "usd"; "cad"].
Definition isBillingCurrency (value : jstr) : bool := bool_decide (value ∈ BILLING_CURRENCIES).

Definition formatBillingAmount (amount : num) (currency : jstr) (maximumFractionDigits : nat) : jstr :=
  format {| nf_locale := JUndef; nf_currency := Some (toUpperCase currency); nf_notation := "standard";
            nf_minimumFractionDigits := Some O; nf_maximumFractionDigits := maximumFractionDigits |} amount.
End Formats.

Definition getCurrencyLabel (s : CurrencyState) : jstr :=
  let '(config, meta) := getCurrencyDisplay s in
  match meta with
  | MetaTokens _ => "Tokens"
  | _ =>
      let t := cc_quotaDisplayType config in
      if t ==? "CNY" then "CNY"
      else if t ==? "CAD" then "CAD"
      else if t ==? "CUSTOM" then match meta with MetaCustom symbol _ => symbol | _ => "Custom" end
      else "USD"
  end.

Definition isCurrencyDisplayEnabled (s : CurrencyState) : bool :=
  match snd (getCurrencyDisplay s) with MetaTokens _ => false | _ => true end.
