(* ===== verification/CurrencyProofs.v ===== *)
(** * Properties of the currency display

    The configuration in use is sound whatever is stored, a choice of the user is what is
    shown, amounts that are not zero are not shown as zero outside of the compact notation,
    and billing amounts never show tokens. *)
From S2P Require Import Prelude JsString JsNumber NumberOrder JsValue Currency.

(** ** The configuration in use *)

Definition sound_config (c : CurrencyConfig) : Prop :=
  nlt nzero (cc_quotaPerUnit c) = true /\ nlt nzero (cc_usdExchangeRate c) = true
  /\ nlt nzero (cc_customCurrencyExchangeRate c) = true /\ nlt nzero (cc_cadExchangeRate c) = true
  /\ cc_customCurrencySymbol c <> [].

Lemma positive_or_positive v d : nlt nzero d = true -> nlt nzero (positive_or v d) = true.
Proof.
  intros Hd. destruct v as [n|]; [|done]. cbn. destruct (num_truthy n && nlt nzero n) eqn:E; [|done].
  by apply andb_true_iff in E as [_ E].
Qed.

Lemma config_sound s : sound_config (getConfig s).
Proof.
  unfold sound_config, getConfig. cbn [cc_quotaPerUnit cc_usdExchangeRate cc_customCurrencyExchangeRate
    cc_cadExchangeRate cc_customCurrencySymbol].
  split_and!; try (apply positive_or_positive; reflexivity).
  unfold str_or. by destruct (trim _).
Qed.

(** The rate of what is displayed, 1 for dollars. *)
Definition meta_rate (meta : DisplayMeta) : num :=
  match meta with MetaCurrency _ _ r | MetaCustom _ r | MetaTokens r => r end.

Lemma rate_positive s : nlt nzero (meta_rate (getDisplayMeta (getConfig s))) = true.
Proof.
  destruct (config_sound s) as (H1 & H2 & H3 & H4 & _). unfold getDisplayMeta.
  repeat match goal with |- context [if ?b then _ else _] => destruct b; [done|] end. reflexivity.
Qed.

(** ** The user's choice *)

Lemma preference_get v items c n : v ∈ ALLOWED_USER_OVERRIDES ->
  getUserCurrencyPreference
    {| cs_config := c; cs_storage := Storage (obj_set USER_CURRENCY_PREFERENCE_KEY v items); cs_version := n |} = Some v.
Proof.
  intros Hv. unfold getUserCurrencyPreference. cbn [cs_storage]. rewrite obj_get_set_eq.
  repeat (apply elem_of_cons in Hv as [->|Hv]; [reflexivity|]). by apply elem_of_nil in Hv.
Qed.

(** Choosing a currency in the switcher shows it in the trigger, as the label, and in
    every amount, and subscribers are told. *)
Theorem choice_is_shown v s items : v ∈ ALLOWED_USER_OVERRIDES -> cs_storage s = Storage items ->
  let s' := handleChange (Some v) s in
  effective s' = v /\ getCurrencyLabel s' = v /\ cs_version s' = (cs_version s + 1)%Z
  /\ exists symbol rate, snd (getCurrencyDisplay s') = MetaCurrency symbol v rate
     /\ (v, symbol) ∈ USER_CURRENCY_OPTIONS.
Proof.
  intros Hv Hs. cbn zeta. unfold handleChange. rewrite bool_decide_true by done.
  unfold setUserCurrencyPreference. rewrite Hs, bool_decide_true by done. unfold bump. cbn [cs_config cs_storage cs_version].
  unfold effective, getCurrencyLabel, getCurrencyDisplay, getConfig. rewrite !preference_get by done.
  split_and!; [done| |done|].
  - repeat (apply elem_of_cons in Hv as [->|Hv]; [reflexivity|]). by apply elem_of_nil in Hv.
  - repeat (apply elem_of_cons in Hv as [->|Hv]; [do 2 eexists; split; [reflexivity|set_solver]|]).
    by apply elem_of_nil in Hv.
Qed.

(** Clearing it goes back to the currency of the site. *)
Lemma cleared_preference s items : cs_storage s = Storage items ->
  getUserCurrencyPreference (setUserCurrencyPreference None s) = None.
Proof.
  intros Hs. unfold setUserCurrencyPreference. rewrite Hs. unfold getUserCurrencyPreference. cbn.
  by rewrite obj_get_delete, bool_decide_true.
Qed.

(** ** Amounts that are not zero *)

Definition digits_fine (d : nat) : bool :=
  let t := pow10_neg d in
  nle t t && (nabs t ==? t) && (nabs (nneg t) ==? t) && is_finite t && nlt nzero t.

Lemma pow10_fine d : d <= 100 -> digits_fine d = true.
Proof.
  intros Hd. assert (forallb digits_fine (seq 0 101) = true) as H by (vm_compute; reflexivity).
  rewrite forallb_forall in H. apply H. apply in_seq. lia.
Qed.

(** The smallest amount that is shown: none is asked for, or one that the digits can show. *)
Definition minimum_shown (d : nat) (m : num) : bool := negb (nlt nzero m) || nle (pow10_neg d) m.

Lemma nabs_positive m : nlt nzero m = true -> nabs m = m /\ nabs (nneg m) = m.
Proof. by destruct m as [[]|[]| |[]]. Qed.

(** What is handed to the formatter has a digit to show. *)
Lemma adjusted_shown v d m : d <= 100 -> minimum_shown d m = true -> nlt nzero (nabs v) = true ->
  nle (pow10_neg d) (nabs (adjustForMinimum v d m)) = true.
Proof.
  intros Hd Hm Hv. pose proof (pow10_fine d Hd) as Ht. unfold digits_fine in Ht. cbn zeta in Ht. bools.
  unfold adjustForMinimum. assert (neq v nzero = false) as -> by (destruct v as [[]|[]| |[]]; done). rewrite Hv. cbn [andb].
  set (t := if nlt nzero m then m else pow10_neg d).
  assert (nle (pow10_neg d) t = true /\ nabs t = t /\ nabs (nneg t) = t) as (Hle & Ha & Hn).
  { subst t. unfold minimum_shown in Hm. destruct (nlt nzero m) eqn:E; [|by bools].
    destruct (nabs_positive m E). by cbn in Hm. }
  destruct (nlt (nabs v) t) eqn:E.
  - destruct (nlt nzero v); [by rewrite Ha|by rewrite Hn].
  - apply (nle_trans _ t); [done|]. destruct (is_finite t) eqn:Ft, (is_finite (nabs v)) eqn:Ef.
    + rewrite nle_negb_nlt by done. by rewrite E.
    + assert (nabs v = inf) as -> by (destruct v as [[]|[]| |[]]; done). by destruct t as [[]|[]| |[]].
    + destruct t as [[]|[]| |[]]; try done; destruct (nabs v) as [[]|[]| |[]]; try done;
        by destruct (pow10_neg d) as [[]|[]| |[]].
    + assert (nabs v = inf) as -> by (destruct v as [[]|[]| |[]]; done).
      destruct t as [[]|[]| |[]]; try done; by destruct (pow10_neg d) as [[]|[]| |[]].
Qed.

Section Shown.
Context `{NumberFormat}.

(** A number of at least its last shown digit is not written the way zero is. *)
Definition shows_digits : Prop := forall o o' x,
  nf_maximumFractionDigits o <= 100 -> nf_notation o = "standard" ->
  nle (pow10_neg (nf_maximumFractionDigits o)) (nabs x) = true -> format o x <> format o' nzero.

(** Options under which no digit is cut off after the adjustment: no compact notation, and
    no smallest amount below the last digit. *)
Definition plain_options (o : ResolvedCurrencyFormatOptions) : bool :=
  negb (r_compact o) && minimum_shown (r_digitsLarge o) (r_minimumNonZero o) && minimum_shown (r_digitsSmall o) (r_minimumNonZero o)
  && (r_digitsLarge o <=? 100)%nat && (r_digitsSmall o <=? 100)%nat.

Definition is_tokens (meta : DisplayMeta) : bool := match meta with MetaTokens _ => true | _ => false end.

Lemma with_code_inj o code a b : with_code o code a = with_code o code b -> a = b.
Proof. unfold with_code. destruct (r_showCurrencyCode o); [|done]. apply app_inv_tail. Qed.

Lemma value_shown v o meta : shows_digits -> plain_options o = true -> is_tokens meta = false ->
  nlt nzero (nabs v) = true -> formatCurrencyValue v o meta <> formatCurrencyValue nzero o meta.
Proof.
  intros Hf Ho Hm Hv. unfold plain_options in Ho. bools.
  assert (adjustForMinimum nzero (r_digitsSmall o) (r_minimumNonZero o) = nzero) as Ez by done.
  unfold formatCurrencyValue. change (nle (num_of_Z 1) (nabs nzero)) with false. cbn [negb]. rewrite Ez.
  set (d := if nle (num_of_Z 1) (nabs v) then _ else _).
  assert (d <= 100) as Hd by (subst d; destruct (nle _ _); by apply Nat.leb_le).
  assert (minimum_shown d (r_minimumNonZero o) = true) as Hmin by (subst d; by destruct (nle _ _)).
  assert (forall c c', format (number_options o d c) (adjustForMinimum v d (r_minimumNonZero o))
    <> format (number_options o (r_digitsSmall o) c') nzero) as Hne.
  { intros c c'. apply Hf; unfold number_options, notation_of; cbn;
      match goal with H : r_compact o = false |- _ => rewrite H end; [done|done|by apply adjusted_shown]. }
  destruct meta as [sy code r|sy r|r]; [|destruct (r_showSymbol o)|done]; intros E.
  - apply with_code_inj in E. by apply Hne in E.
  - repeat apply app_inv_head in E. by apply Hne in E.
  - by apply Hne in E.
Qed.

Lemma nmul_zero r : is_finite r = true -> nlt nzero r = true -> nmul nzero r = nzero.
Proof. by destruct r as [[]|[]| |[]]. Qed.

(** C31: an amount in dollars that is not zero after its conversion is never shown as zero,
    however small, unless tokens or the compact notation are asked for, or a smallest amount
    below the last digit that is shown. *)
Theorem nonzero_amount_shown s a options :
  shows_digits -> plain_options (mergeOptions options) = true ->
  let rate := meta_rate (getDisplayMeta (getConfig s)) in
  is_tokens (getDisplayMeta (getConfig s)) = false -> is_finite rate = true -> is_nan a = false ->
  nlt nzero (nabs (nmul a rate)) = true ->
  formatCurrencyFromUSD s (Some a) options <> formatCurrencyFromUSD s (Some nzero) options.
Proof.
  intros Hf Ho rate Ht Hr Ha Hv. unfold formatCurrencyFromUSD, amount_of, getCurrencyDisplay. rewrite Ha.
  change (is_nan nzero) with false. cbv beta iota zeta.
  pose proof (rate_positive s) as Hp. subst rate.
  destruct (getDisplayMeta (getConfig s)) as [sy code r|sy r|r] eqn:E; [| |done]; cbn [meta_rate is_tokens] in *;
    rewrite nmul_zero by done; by apply value_shown.
Qed.

(** Billing amounts never show tokens: a site that shows tokens shows them in dollars. *)
Lemma billing_never_tokens s a options :
  is_tokens (getBillingDisplayMeta (getConfig s)) = false
  /\ (is_tokens (getDisplayMeta (getConfig s)) = true -> is_nan a = false ->
      formatBillingCurrencyFromUSD s (Some a) options
      = formatCurrencyValue (nmul a (num_of_Z 1)) (mergeOptions options) dollars).
Proof.
  unfold formatBillingCurrencyFromUSD, amount_of, getBillingDisplayMeta.
  destruct (getDisplayMeta (getConfig s)); (split; [done|]); [done..|]. intros _ ->. done.
Qed.
End Shown.

(** ** Instances *)

(** A formatter that writes zero and everything else differently. *)
Definition toy_format : NumberFormat := {| format o x := if num_truthy x then "1" else "0" |}.

Lemma toy_shows : @shows_digits toy_format.
Proof.
  intros o o' x Hd _ Hx. pose proof (pow10_fine _ Hd) as Ht. unfold digits_fine in Ht. cbn zeta in Ht. bools.
  assert (x <> S754_zero true /\ x <> nzero /\ x <> nan) as (N1 & N2 & N3).
  { revert Hx. match goal with H : nlt nzero _ = true |- _ => revert H end. clear.
    intros H1 H2; split_and!; intros ->; revert H1 H2; by destruct (pow10_neg _) as [[]|[]| |[]]. }
  by destruct x as [[]|[]| |[]].
Qed.

Definition site_of (t : jstr) : CurrencyState :=
  {| cs_config := Some (stored
       {| cc_displayInCurrency := true; cc_quotaDisplayType := t; cc_quotaPerUnit := num_of_Z 500000;
          cc_usdExchangeRate := num_of_Z 7; cc_customCurrencySymbol := "€";
          cc_customCurrencyExchangeRate := num_of_string "0.9"; cc_cadExchangeRate := num_of_string "1.37" |});
     cs_storage := Storage []; cs_version := 0 |}.

(** The documented examples of [formatCurrencyFromUSD(10)]: tokens are abbreviated to
    thousands, and the custom symbol is followed by a space. *)
Lemma documented_formats :
  let toy := {| format o x := num_to_string x |} in
  @formatCurrencyFromUSD toy (site_of "TOKENS") (Some (num_of_Z 10)) None = "5000k"
  /\ @formatCurrencyFromUSD toy (site_of "CUSTOM") (Some (num_of_Z 10)) None = "€ 9".
Proof. split; vm_compute; reflexivity. Qed.

Definition cents_only : option CurrencyFormatOptions :=
  Some {| o_digitsLarge := Some 2; o_digitsSmall := Some 2; o_abbreviate := Some false; o_minimumNonZero := None;
          o_compact := None; o_showSymbol := None; o_showCurrencyCode := None; o_locale := JUndef |}.

(** Amounts below a cent are all shown as the same cent when two digits are asked for. *)
Lemma small_amounts_alike `{NumberFormat} :
  formatCurrencyFromUSD (site_of "USD") (Some (num_of_string "0.0001")) cents_only
  = formatCurrencyFromUSD (site_of "USD") (Some (num_of_string "0.0099")) cents_only.
Proof. vm_compute. reflexivity. Qed.

Definition compact_amounts : option CurrencyFormatOptions :=
  Some {| o_digitsLarge := None; o_digitsSmall := None; o_abbreviate := None; o_minimumNonZero := None;
          o_compact := Some true; o_showSymbol := None; o_showCurrencyCode := None; o_locale := JUndef |}.

(** In compact notation, which has one digit after the point, a small amount is shown as zero:
    it is only raised to the last of the digits that are not shown. *)
Lemma compact_amount_shown_as_zero :
  let fixed := {| format o x := to_fixed (nf_maximumFractionDigits o) x |} in
  @formatCurrencyFromUSD fixed (site_of "USD") (Some (num_of_string "1e-9")) compact_amounts = "0.0"
  /\ @formatCurrencyFromUSD fixed (site_of "USD") (Some nzero) compact_amounts = "0.0".
Proof. split; vm_compute; reflexivity. Qed.

Lemma choice_is_shown_witness :
  effective (handleChange (Some "CAD") (site_of "TOKENS")) = "CAD"
  /\ getCurrencyLabel (handleChange (Some "CAD") (site_of "TOKENS")) = "CAD".
Proof.
  destruct (choice_is_shown "CAD" (site_of "TOKENS") []) as (H1 & H2 & _); [set_solver|reflexivity|].
  by split.
Defined.

Lemma nonzero_amount_shown_witness :
  @formatCurrencyFromUSD toy_format (site_of "CNY") (Some (num_of_string "1e-9")) None
  <> @formatCurrencyFromUSD toy_format (site_of "CNY") (Some nzero) None.
Proof.
  apply nonzero_amount_shown; [exact toy_shows|reflexivity|reflexivity|reflexivity|reflexivity|].
  vm_compute. reflexivity.
Defined.
