(* ===== verification/Aggregate.v ===== *)
(** * Aggregating into an ordered map

    What a loop of [m.set(k, add(m.get(k) ?? empty, amount))] leaves in the map:
    the sum of every key, and how the sums of several keys make up the whole. *)
From S2P Require Import Prelude JsString JsNumber Numeric OrderedMap.

Section Aggregate.
Context {K V E : Type} `{EqDecision K}.
Context (key : E -> K) (fresh : E -> V) (bump : E -> V -> V).

Definition aggregate (l : list E) (m : list (K * V)) : list (K * V) :=
  fold_left (fun m e => map_update (key e) (fresh e) (bump e) m) l m.

Lemma aggregate_cons e l m :
  aggregate (e :: l) m = aggregate l (map_update (key e) (fresh e) (bump e) m).
Proof. done. Qed.

Lemma aggregate_NoDup l : forall m, NoDup (map_keys m) -> NoDup (map_keys (aggregate l m)).
Proof.
  induction l as [|e l IH]; intros m Hm; [done|]. rewrite aggregate_cons.
  by apply IH, NoDup_map_set.
Qed.

Lemma aggregate_keys l : forall m k,
  k ∈ map_keys (aggregate l m) <-> k ∈ map_keys m \/ exists e, e ∈ l /\ k = key e.
Proof.
  induction l as [|e l IH]; intros m k; [|rewrite aggregate_cons].
  - split; [by left|]. intros [?|(e & He & _)]; [done|]. by apply elem_of_nil in He.
  - rewrite IH. unfold map_update. rewrite map_keys_set.
    destruct (bool_decide_reflect (key e ∈ map_keys m)) as [Hin|Hin]; [|set_solver].
    split; [set_solver|]. intros [?|(e' & He & ->)]; [by left|].
    apply elem_of_cons in He as [->|He]; [by left|]. right. eauto.
Qed.

(** A property of the entries that a fresh entry has and a bump keeps. *)
Lemma aggregate_Forall (P : K * V -> Prop) l : forall m,
  Forall P m -> (forall e, e ∈ l -> P (key e, bump e (fresh e))) ->
  (forall e v, e ∈ l -> P (key e, v) -> P (key e, bump e v)) -> Forall P (aggregate l m).
Proof.
  induction l as [|e l IH]; intros m Hm H1 H2; [done|]. rewrite aggregate_cons. apply IH.
  - apply Forall_map_set; [done|]. intros k' ->.
    destruct (map_get (key e) m) as [v|] eqn:E0; cbn.
    + apply H2; [left|]. by apply (map_get_Forall P _ _ m).
    + apply H1. left.
  - intros e' He. apply H1. by right.
  - intros e' v He. apply H2. by right.
Qed.


(** The elements of one key. *)
Definition of_key (k : K) (l : list E) : list E := List.filter (fun e => key e ==? k) l.

(** The value of a key is the sum of its amounts, in the order of the loop. *)
Lemma aggregate_value {A} `{Numeric A} (value : V -> A) (amount : E -> A) l k v :
  (forall e, value (fresh e) = n_zero) -> (forall e v, value (bump e v) = n_add (value v) (amount e)) ->
  (k, v) ∈ aggregate l [] -> value v = n_sum (map amount (of_key k l)).
Proof.
  intros Hfresh Hbump Hv. apply map_get_elem in Hv; [|apply aggregate_NoDup; constructor].
  pose (at_key m := match map_get k m with Some v => value v | None => n_zero end).
  enough (forall m, at_key (aggregate l m) = fold_left n_add (map amount (of_key k l)) (at_key m)) as Hg.
  { specialize (Hg []). unfold at_key in Hg. by rewrite Hv in Hg. }
  clear v Hv. unfold of_key. induction l as [|e l IH]; intros m; [done|]. rewrite aggregate_cons, IH.
  cbn [List.filter]. unfold at_key, map_update. rewrite map_get_set.
  replace (k ==? key e) with (key e ==? k) by (apply bool_decide_ext; naive_solver).
  destruct (bool_decide_reflect (key e = k)) as [<-|Hne]; cbn [map fold_left]; [|done].
  rewrite Hbump. by destruct (map_get (key e) m); cbn; rewrite ?Hfresh.
Qed.

(** The totals of the keys a predicate selects make up the total of their elements. *)
Lemma total_by_key (count : E -> N) (q : K -> bool) l keys :
  NoDup keys -> (forall e, e ∈ l -> key e ∈ keys) ->
  total (map (fun k => total (map count (of_key k l))) (List.filter q keys))
  = total (map count (List.filter (fun e => q (key e)) l)).
Proof.
  intros Hnd. unfold of_key. induction l as [|e l IH]; intros Hl.
  { cbn. by induction (List.filter q keys) as [|k ks IHk]. }
  specialize (IH (fun e' He' => Hl e' (list_elem_of_further _ _ _ He'))).
  specialize (Hl e (list_elem_of_here _ _)).
  transitivity (total (map (fun k => (if key e ==? k then count e else 0)
    + total (map count (List.filter (fun e => key e ==? k) l)))%N (List.filter q keys))).
  { f_equal. apply map_ext. intros k. cbn [List.filter]. by destruct (key e ==? k). }
  rewrite total_map_add, IH. cbn [List.filter].
  enough (total (map (fun k => if key e ==? k then count e else 0%N) (List.filter q keys))
    = if q (key e) then count e else 0%N) as -> by (by destruct (q (key e))).
  clear IH l. induction Hnd as [|k ks Hk _ IH]; [by apply elem_of_nil in Hl|]. cbn [List.filter].
  destruct (decide (key e = k)) as [<-|Hne].
  - assert (total (map (fun k => if key e ==? k then count e else 0%N) (List.filter q ks)) = 0%N) as E0.
    { clear -Hk. induction ks as [|k ks IH]; [done|]. cbn [List.filter]. apply not_elem_of_cons in Hk as [H1 H2].
      destruct (q k); cbn [map total]; rewrite ?IH by done; by rewrite ?bool_decide_false by done. }
    destruct (q (key e)); cbn [map total]; rewrite E0; [|done]. rewrite bool_decide_true by done. lia.
  - apply elem_of_cons in Hl as [?|Hl]; [done|]. specialize (IH Hl).
    destruct (q k); cbn [map total]; [|done]. by rewrite bool_decide_false by done.
Qed.

(** Whole amounts: the values of the keys a predicate selects, in any order, add up to
    the amounts of their elements. *)
Lemma aggregate_group {A} `{ExactSums A} (value : V -> A) (amount : E -> A) (count : E -> N) (q : K -> bool) l L :
  (forall e, value (fresh e) = n_zero) -> (forall e v, value (bump e v) = n_add (value v) (amount e)) ->
  (forall e, e ∈ l -> amount e = whole (count e)) ->
  (total (map count (List.filter (fun e => q (key e)) l)) <= exact_max)%N ->
  L ≡ₚ map (fun kv => value kv.2) (List.filter (fun kv => q kv.1) (aggregate l [])) ->
  n_sum L = whole (total (map count (List.filter (fun e => q (key e)) l))).
Proof.
  intros Hfresh Hbump Hamount Hmax HL. pose (c k := total (map count (of_key k l))).
  assert (total (map c (List.filter q (map_keys (aggregate l [])))) = total (map count (List.filter (fun e => q (key e)) l)))
    as Et.
  { apply total_by_key; [apply aggregate_NoDup; constructor|]. intros e He. rewrite aggregate_keys. right. eauto. }
  rewrite <- Et in Hmax |- *.
  assert (map (fun kv => value kv.2) (List.filter (fun kv => q kv.1) (aggregate l []))
    = map whole (map c (List.filter q (map_keys (aggregate l []))))) as Ev.
  { unfold map_keys in *. assert (forall kv, kv ∈ aggregate l [] -> q kv.1 = true -> value kv.2 = whole (c kv.1)) as Hv.
    { intros [k v] Hkv Hq. cbn in Hq |- *. rewrite (aggregate_value value amount l k v) by done. apply n_sum_whole.
      - intros e He. apply Hamount. by apply elem_of_filter_bool in He as [_ He].
      - etransitivity; [|exact Hmax]. apply (total_elem c). apply elem_of_filter_bool. split; [done|].
        apply elem_of_map. by exists (k, v). }
    clear -Hv. induction (aggregate l []) as [|[k v] m IH]; [done|]. cbn [List.filter fst map].
    assert (forall kv, kv ∈ m -> q kv.1 = true -> value kv.2 = whole (c kv.1)) as Hm
      by (intros kv Hkv; apply Hv; by right).
    specialize (Hv (k, v) (list_elem_of_here _ _)). cbn in Hv.
    destruct (q k); cbn [map snd]; [f_equal; [by apply Hv|]|]; by apply IH. }
  rewrite Ev in HL. apply Permutation_map_inv in HL as (M & -> & HM). rewrite (total_perm _ _ HM) in Hmax |- *.
  rewrite <- (map_id M) in Hmax |- * at 2. rewrite <- (n_sum_whole whole (fun n => n)); [done|done|].
  by rewrite map_id in Hmax |- *.
Qed.
End Aggregate.

Lemma fold_left_flat_map {X Y Z : Type} (f : Z -> Y -> Z) (g : X -> list Y) l : forall z,
  fold_left (fun z x => fold_left f (g x) z) l z = fold_left f (flat_map g l) z.
Proof.
  induction l as [|x l IH]; intros z; cbn; [done|]. by rewrite fold_left_app, IH.
Qed.

Lemma fold_left_ext_in {X Z : Type} (f g : Z -> X -> Z) l : forall z,
  (forall z x, In x l -> f z x = g z x) -> fold_left f l z = fold_left g l z.
Proof.
  induction l as [|x l IH]; intros z Hfg; cbn; [done|].
  rewrite Hfg by (by left). apply IH. intros z' y Hy. apply Hfg. by right.
Qed.

Lemma fold_left_map {X Y Z : Type} (f : Z -> Y -> Z) (g : X -> Y) l : forall z,
  fold_left f (map g l) z = fold_left (fun z x => f z (g x)) l z.
Proof. induction l as [|x l IH]; intros z; cbn; [done|apply IH]. Qed.
