(* ===== verification/Flow.v ===== *)
(** * Quota flow graph (features/dashboard/lib/flow.ts)

    From quota rows to the nodes and links of a Sankey diagram: stages, filters,
    the top-node limit, masking, highlighting, colours and filter options. The
    arithmetic is any [Numeric]; the locale and the chart library's colour table
    are parameters. *)
From S2P Require Import Prelude JsString JsNumber JsValue Numeric OrderedMap.

(** ** The environment *)

(** One entry of the chart library's colour table; the entries of a scheme that
    are not strings are [None]. *)
Record ColorScheme := { cs_maxDomainLength : nat; cs_scheme : list (option jstr) }.

Class FlowEnv (A : Type) := {
  localeCompare : jstr -> jstr -> comparison;
  vchartDefaultDataScheme : list ColorScheme;
  formatNumber : A -> jstr
}.

(** ** Types *)

Inductive FlowNodeKind := KUser | KNode | KToken | KGroup | KModel | KChannel.

#[export] Instance kind_eq_dec : EqDecision FlowNodeKind.
Proof. solve_decision. Defined.

Definition kind_name (k : FlowNodeKind) : jstr :=
  match k with
  | KUser => "user" | KNode => "node" | KToken => "token"
  | KGroup => "group" | KModel => "model" | KChannel => "channel"
  end.

Inductive FlowMetric := MetricQuota | MetricTokens | MetricRequests.
Inductive FlowOverflowMode := OverflowAggregate | OverflowHide.

(** A row as the server sends it: an absent name is the empty string. *)
Record FlowQuotaDataItem := {
  fr_user_id : jsval;
  fr_username : jstr;
  fr_node_name : jstr;
  fr_use_group : jstr;
  fr_token_id : jsval;
  fr_token_name : jstr;
  fr_channel_id : jsval;
  fr_channel_name : jstr;
  fr_model_name : jstr;
  fr_token_used : jsval;
  fr_count : jsval;
  fr_quota : jsval
}.

Record FlowNodeFilter := { ff_kind : FlowNodeKind; ff_id : jstr }.
Record FlowLinkSelection := { fl_source : jstr; fl_target : jstr }.

Record FlowPathNode := { pn_id : jstr; pn_label : jstr; pn_kind : FlowNodeKind }.

(** [undefined] callbacks are [None]. *)
Record FlowPathContext := { ctx_deletedTokenLabel : option (num -> jstr) }.

Definition EMPTY_FLOW_PATH_CONTEXT : FlowPathContext := {| ctx_deletedTokenLabel := None |}.

Definition DEFAULT_FLOW_ROLE : jstr := "user".
Definition DEFAULT_FLOW_OVERFLOW_MODE : FlowOverflowMode := OverflowAggregate.
Definition DEFAULT_FLOW_CHART_COLOR : jstr := "#1664FF".

Definition FLOW_NODE_KINDS : list FlowNodeKind := [KUser; KNode; KToken; KGroup; KModel; KChannel].

Definition OTHER_FLOW_NODE_IDS (k : FlowNodeKind) : jstr :=
  match k with
  | KUser => "user:__other__" | KNode => "node:__other__" | KToken => "token:__other__"
  | KGroup => "group:__other__" | KModel => "model:__other__" | KChannel => "channel:__other__"
  end.

Definition DEFAULT_OTHER_FLOW_NODE_LABELS (k : FlowNodeKind) : jstr :=
  match k with
  | KUser => "Other users" | KNode => "Other nodes" | KToken => "Other tokens"
  | KGroup => "Other groups" | KModel => "Other models" | KChannel => "Other channels"
  end.

Definition SENSITIVE_FLOW_KINDS : list FlowNodeKind := [KUser; KNode; KToken; KGroup; KChannel].

Definition OTHER_FLOW_NODE_ID_SET : list jstr := map OTHER_FLOW_NODE_IDS FLOW_NODE_KINDS.

(** ** Rows and paths *)

Definition numberValue (value : jsval) : num :=
  let n := js_to_number value in if is_finite n then n else nzero.

Definition isFlowNodeKind (value : jsval) : option FlowNodeKind :=
  match value with
  | JStr s => List.find (fun k => kind_name k ==? s) FLOW_NODE_KINDS
  | _ => None
  end.

Definition positive_num (n : num) : bool := nlt nzero n.

Definition userNode (row : FlowQuotaDataItem) : FlowPathNode :=
  let userID := numberValue (fr_user_id row) in
  {| pn_id := if positive_num userID then "user:" ++ num_to_string userID
              else "user:" ++ str_or (fr_username row) "unknown";
     pn_label := str_or (fr_username row)
                   (if positive_num userID then "user-" ++ num_to_string userID else "Unknown User");
     pn_kind := KUser |}.

Definition nodeNameNode (row : FlowQuotaDataItem) : FlowPathNode :=
  let nodeName := str_or (fr_node_name row) "default-node" in
  {| pn_id := "node:" ++ nodeName; pn_label := nodeName; pn_kind := KNode |}.

Definition deletedTokenLabel (tokenID : num) (ctx : FlowPathContext) : jstr :=
  if nle tokenID nzero then "Unknown Token"
  else
    match ctx_deletedTokenLabel ctx with
    | Some f => f tokenID
    | None => "token-" ++ num_to_string tokenID
    end.

Definition tokenNode (row : FlowQuotaDataItem) (ctx : FlowPathContext) : FlowPathNode :=
  let tokenID := numberValue (fr_token_id row) in
  {| pn_id := if positive_num tokenID then "token:" ++ num_to_string tokenID
              else "token:" ++ str_or (fr_token_name row) "unknown";
     pn_label := str_or (fr_token_name row) (deletedTokenLabel tokenID ctx);
     pn_kind := KToken |}.

Definition groupNode (row : FlowQuotaDataItem) : FlowPathNode :=
  let useGroup := str_or (fr_use_group row) "unknown" in
  {| pn_id := "group:" ++ useGroup; pn_label := useGroup; pn_kind := KGroup |}.

Definition modelNode (row : FlowQuotaDataItem) : FlowPathNode :=
  {| pn_id := "model:" ++ str_or (fr_model_name row) "unknown";
     pn_label := str_or (fr_model_name row) "Unknown Model"; pn_kind := KModel |}.

Definition channelNode (row : FlowQuotaDataItem) : FlowPathNode :=
  let channelID := numberValue (fr_channel_id row) in
  {| pn_id := if positive_num channelID then "channel:" ++ num_to_string channelID
              else "channel:" ++ str_or (fr_channel_name row) "unknown";
     pn_label := str_or (fr_channel_name row)
                   (if positive_num channelID then "channel-" ++ num_to_string channelID else "Unknown");
     pn_kind := KChannel |}.

Definition NODE_BUILDERS (k : FlowNodeKind) (row : FlowQuotaDataItem) (ctx : FlowPathContext) : FlowPathNode :=
  match k with
  | KUser => userNode row
  | KNode => nodeNameNode row
  | KToken => tokenNode row ctx
  | KGroup => groupNode row
  | KModel => modelNode row
  | KChannel => channelNode row
  end.

Definition ROLE_FLOW_STAGES : list (jstr * list FlowNodeKind) :=
  [ ("root", [KUser; KNode; KToken; KGroup; KModel; KChannel]);
    ("admin", [KUser; KGroup; KModel; KChannel]);
    ("user", [KToken; KGroup; KModel]) ].

Definition MIN_FLOW_STAGES : nat := 2.

Definition getFlowStages (role : jstr) : list FlowNodeKind :=
  match obj_get role ROLE_FLOW_STAGES with
  | Some stages => stages
  | None => default [] (obj_get "user" ROLE_FLOW_STAGES)
  end.

Definition resolveVisibleStages (role : jstr) (visibleStages : option (list FlowNodeKind)) : list FlowNodeKind :=
  let stages := getFlowStages role in
  match visibleStages with
  | None => stages
  | Some visible =>
      let filtered := List.filter (fun stage => bool_decide (stage ∈ visible)) stages in
      if (MIN_FLOW_STAGES <=? length filtered)%nat then filtered else stages
  end.

Definition flowPathForStages (row : FlowQuotaDataItem) (stages : list FlowNodeKind) (ctx : FlowPathContext)
    : list FlowPathNode :=
  map (fun stage => NODE_BUILDERS stage row ctx) stages.

(** ** Filters *)

(** [selectedUsers ?? []] is empty or absent: no filter. *)
Definition filterRows (rows : list FlowQuotaDataItem) (selectedUsers : option (list jstr))
    : list FlowQuotaDataItem :=
  match default [] selectedUsers with
  | [] => rows
  | users => List.filter (fun row => bool_decide (pn_id (userNode row) ∈ users)) rows
  end.

Definition nodeFilterKey (filter : FlowNodeFilter) : jstr :=
  kind_name (ff_kind filter) ++ [0%N] ++ ff_id filter.

Definition normalizeSelectedNodeFilters (selectedNodes : option (list FlowNodeFilter))
    (stages : list FlowNodeKind) : list (FlowNodeKind * list jstr) :=
  fold_left
    (fun filters filter =>
       if bool_decide (ff_kind filter ∈ stages)
       then map_update (ff_kind filter) [] (set_add (ff_id filter)) filters
       else filters)
    (default [] selectedNodes) [].

Definition pathMatchesNodeFilters (path : list FlowPathNode) (filters : list (FlowNodeKind * list jstr)) : bool :=
  match filters with
  | [] => true
  | _ =>
      let pathNodesByKind :=
        fold_left (fun ids node => map_update (pn_kind node) [] (set_add (pn_id node)) ids) path [] in
      forallb
        (fun '(kind, selectedIds) =>
           match map_get kind pathNodesByKind with
           | None => false
           | Some pathIds => existsb (fun id => bool_decide (id ∈ pathIds)) selectedIds
           end)
        filters
  end.

Definition filterRowsByNodes (rows : list FlowQuotaDataItem) (selectedNodes : option (list FlowNodeFilter))
    (stages : list FlowNodeKind) (ctx : FlowPathContext) : list FlowQuotaDataItem :=
  let filters := normalizeSelectedNodeFilters selectedNodes stages in
  match filters with
  | [] => rows
  | _ => List.filter (fun row => pathMatchesNodeFilters (flowPathForStages row stages ctx) filters) rows
  end.

Definition selectedNodeFiltersExceptKind (selectedNodes : option (list FlowNodeFilter)) (kind : FlowNodeKind)
    : option (list FlowNodeFilter) :=
  match List.filter (fun filter => ff_kind filter !=? kind) (default [] selectedNodes) with
  | [] => None
  | filtered => Some filtered
  end.

(** ** The top-node limit *)

Definition otherFlowNode (kind : FlowNodeKind) (labeler : option (FlowNodeKind -> jstr)) : FlowPathNode :=
  {| pn_id := OTHER_FLOW_NODE_IDS kind;
     pn_label := match labeler with Some f => f kind | None => DEFAULT_OTHER_FLOW_NODE_LABELS kind end;
     pn_kind := kind |}.

(** The finite positive integer below the limit, if any. *)
Definition normalizeTopNodeLimit (limit : option num) : option nat :=
  match limit with
  | None => None
  | Some l =>
      match num_floor l with
      | Some parsed => if (0 <? parsed)%Z then Some (Z.to_nat parsed) else None
      | None => None
      end
  end.

(** The top ids of each stage. *)
Abbreviation top_sets := (list (FlowNodeKind * list jstr)).

Definition isTopFlowNode (node : FlowPathNode) (topNodeSets : option top_sets) : bool :=
  match topNodeSets with
  | None => true
  | Some sets =>
      match map_get (pn_kind node) sets with
      | None => true
      | Some topNodes => bool_decide (pn_id node ∈ topNodes)
      end
  end.

Definition applyTopNodeLimit (path : list FlowPathNode) (topNodeSets : option top_sets)
    (mode : FlowOverflowMode) (labeler : option (FlowNodeKind -> jstr)) : option (list FlowPathNode) :=
  match topNodeSets with
  | None => Some path
  | Some _ =>
      if negb (existsb (fun node => negb (isTopFlowNode node topNodeSets)) path) then Some path
      else
        match mode with
        | OverflowHide => None
        | OverflowAggregate =>
            Some (map (fun node => if isTopFlowNode node topNodeSets then node
                                   else otherFlowNode (pn_kind node) labeler) path)
        end
  end.

(** ** Highlighting *)

(** The pairs [path[i], path[i + 1]]. *)
Definition path_links (path : list FlowPathNode) : list (FlowPathNode * FlowPathNode) :=
  combine path (tl path).

Definition pathContainsFlowNode (path : list FlowPathNode) (filter : FlowNodeFilter) : bool :=
  existsb (fun node => (pn_kind node ==? ff_kind filter) && (pn_id node ==? ff_id filter)) path.

Definition pathContainsFlowLink (path : list FlowPathNode) (link : FlowLinkSelection) : bool :=
  existsb (fun '(s, t) => (pn_id s ==? fl_source link) && (pn_id t ==? fl_target link)) (path_links path).

Definition link_key (source target : jstr) : jstr := source ++ [0%N] ++ target.

Definition pathLinkKey (source target : FlowPathNode) : jstr := link_key (pn_id source) (pn_id target).

Record FlowHighlightSets := { hs_nodes : list jstr; hs_links : list jstr }.

Definition path_matches (activeNode : option FlowNodeFilter) (activeLink : option FlowLinkSelection)
    (path : list FlowPathNode) : bool :=
  match activeLink with
  | Some link => pathContainsFlowLink path link
  | None =>
      match activeNode with
      | Some node => pathContainsFlowNode path node
      | None => false
      end
  end.

Definition buildFlowHighlightSets (paths : list (list FlowPathNode)) (activeNode : option FlowNodeFilter)
    (activeLink : option FlowLinkSelection) (stages : list FlowNodeKind) : option FlowHighlightSets :=
  let nodeActive :=
    match activeNode with Some n => bool_decide (ff_kind n ∈ stages) | None => false end in
  let linkActive := match activeLink with Some _ => true | None => false end in
  if negb nodeActive && negb linkActive then None
  else
    let matching := List.filter (path_matches activeNode activeLink) paths in
    let nodes := set_add_all (flat_map (map pn_id) matching) [] in
    let links := set_add_all (flat_map (fun p => map (fun '(s, t) => pathLinkKey s t) (path_links p)) matching) [] in
    match nodes with
    | [] => None
    | _ => Some {| hs_nodes := nodes; hs_links := links |}
    end.

(** ** Metrics and the graph *)

Section Graph.
Context {A : Type} `{Numeric A} `{FlowEnv A}.

Record FlowMetrics := { fm_quota : A; fm_tokens : A; fm_requests : A }.

Definition rowMetrics (row : FlowQuotaDataItem) : FlowMetrics :=
  {| fm_quota := n_of (numberValue (fr_quota row));
     fm_tokens := n_of (numberValue (fr_token_used row));
     fm_requests := n_of (numberValue (fr_count row)) |}.

Definition metricValue (metrics : FlowMetrics) (metric : FlowMetric) : A :=
  match metric with
  | MetricRequests => fm_requests metrics
  | MetricTokens => fm_tokens metrics
  | MetricQuota => fm_quota metrics
  end.

Definition row_value (metric : FlowMetric) (row : FlowQuotaDataItem) : A :=
  metricValue (rowMetrics row) metric.

Record FlowSummary := { fs_quota : A; fs_tokens : A; fs_requests : A }.

Definition buildSummary (rows : list FlowQuotaDataItem) : FlowSummary :=
  fold_left
    (fun summary row =>
       let metrics := rowMetrics row in
       {| fs_quota := n_add (fs_quota summary) (fm_quota metrics);
          fs_tokens := n_add (fs_tokens summary) (fm_tokens metrics);
          fs_requests := n_add (fs_requests summary) (fm_requests metrics) |})
    rows {| fs_quota := n_zero; fs_tokens := n_zero; fs_requests := n_zero |}.

(** [undefined] flags are [None]. *)
Record DashboardFlowNode := {
  dn_id : jstr; dn_label : jstr; dn_kind : FlowNodeKind;
  dn_value : A; dn_requests : A; dn_quota : A; dn_tokens : A;
  dn_color : jstr; dn_colorKey : jstr;
  dn_highlighted : option bool; dn_dimmed : option bool
}.

Record DashboardFlowLink := {
  dl_source : jstr; dl_target : jstr;
  dl_value : A; dl_requests : A; dl_quota : A; dl_tokens : A;
  dl_sourceLabel : jstr; dl_targetLabel : jstr;
  dl_color : jstr; dl_linkColor : jstr; dl_linkAlpha : num; dl_hoverColor : jstr;
  dl_colorKey : jstr; dl_share : A;
  dl_highlighted : option bool; dl_dimmed : option bool
}.

(** *** Colours *)

Definition getDashboardChartColors (domainLength : nat) : list jstr :=
  let fits item := (cs_maxDomainLength item =? 0)%nat || (domainLength <=? cs_maxDomainLength item)%nat in
  match List.find fits vchartDefaultDataScheme with
  | Some item => omap id (cs_scheme item)
  | None => match last vchartDefaultDataScheme with Some item => omap id (cs_scheme item) | None => [] end
  end.

Definition palette_given (palette : option (list jstr)) : option (list jstr) :=
  match palette with Some (_ :: _) => palette | _ => None end.

Definition colorAt (index : nat) (palette : option (list jstr)) : jstr :=
  let colors := default (getDashboardChartColors (index + 1)) (palette_given palette) in
  match colors with
  | [] => DEFAULT_FLOW_CHART_COLOR
  | _ => default DEFAULT_FLOW_CHART_COLOR (colors !! (index mod length colors)%nat)
  end.

Definition colorPalette (colorCount : nat) (palette : option (list jstr)) : list jstr :=
  match palette_given palette with
  | Some p => p
  | None => match getDashboardChartColors colorCount with [] => [DEFAULT_FLOW_CHART_COLOR] | colors => colors end
  end.

Definition is_hex_digit (c : N) : bool :=
  match digit_in_base 16 c with Some _ => true | None => false end.

Definition alphaColor (color : jstr) (alpha : num) : jstr * num :=
  let normalized := trim color in
  let hex := if startsWith normalized "#" then drop 1 normalized else normalized in
  if negb ((length hex =? 6)%nat && forallb is_hex_digit hex) then (normalized, alpha)
  else
    let value := default 0%Z (parse_base 16 0 hex) in
    let red := Z.land (Z.shiftr value 16) 255 in
    let green := Z.land (Z.shiftr value 8) 255 in
    let blue := Z.land value 255 in
    ("rgba(" ++ Z_to_jstr red ++ ", " ++ Z_to_jstr green ++ ", " ++ Z_to_jstr blue ++ ", "
       ++ to_fixed 2 alpha ++ ")", num_of_Z 1).

Definition stableColorMap (keys : list jstr) (palette : option (list jstr)) : list (jstr * jstr) :=
  let uniqueKeys := uniq keys in
  let colors := colorPalette (length uniqueKeys) palette in
  fold_left (fun m '(index, key) => map_set key (colorAt index (Some colors)) m)
    (combine (seq 0 (length uniqueKeys)) uniqueKeys) [].

(** *** Nodes and links *)

Definition new_node (node : FlowPathNode) (color colorKey : jstr) : DashboardFlowNode :=
  {| dn_id := pn_id node; dn_label := pn_label node; dn_kind := pn_kind node;
     dn_value := n_zero; dn_requests := n_zero; dn_quota := n_zero; dn_tokens := n_zero;
     dn_color := color; dn_colorKey := colorKey; dn_highlighted := None; dn_dimmed := None |}.

Definition node_add (metrics : FlowMetrics) (metric : FlowMetric) (n : DashboardFlowNode) : DashboardFlowNode :=
  {| dn_id := dn_id n; dn_label := dn_label n; dn_kind := dn_kind n;
     dn_value := n_add (dn_value n) (metricValue metrics metric);
     dn_requests := n_add (dn_requests n) (fm_requests metrics);
     dn_quota := n_add (dn_quota n) (fm_quota metrics);
     dn_tokens := n_add (dn_tokens n) (fm_tokens metrics);
     dn_color := dn_color n; dn_colorKey := dn_colorKey n;
     dn_highlighted := dn_highlighted n; dn_dimmed := dn_dimmed n |}.

Abbreviation node_map := (list (jstr * DashboardFlowNode)).
Abbreviation link_map := (list (jstr * DashboardFlowLink)).

Definition addNode (m : node_map) (pathNode : FlowPathNode) (metrics : FlowMetrics) (metric : FlowMetric)
    (color colorKey : jstr) : node_map :=
  map_update (pn_id pathNode) (new_node pathNode color colorKey) (node_add metrics metric) m.

Definition new_link (source target : FlowPathNode) (color colorKey : jstr) : DashboardFlowLink :=
  {| dl_source := pn_id source; dl_target := pn_id target;
     dl_value := n_zero; dl_requests := n_zero; dl_quota := n_zero; dl_tokens := n_zero;
     dl_sourceLabel := pn_label source; dl_targetLabel := pn_label target;
     dl_color := color; dl_linkColor := color; dl_linkAlpha := num_of_Z 1; dl_hoverColor := color;
     dl_colorKey := colorKey; dl_share := n_zero; dl_highlighted := None; dl_dimmed := None |}.

Definition link_add (metrics : FlowMetrics) (metric : FlowMetric) (l : DashboardFlowLink) : DashboardFlowLink :=
  {| dl_source := dl_source l; dl_target := dl_target l;
     dl_value := n_add (dl_value l) (metricValue metrics metric);
     dl_requests := n_add (dl_requests l) (fm_requests metrics);
     dl_quota := n_add (dl_quota l) (fm_quota metrics);
     dl_tokens := n_add (dl_tokens l) (fm_tokens metrics);
     dl_sourceLabel := dl_sourceLabel l; dl_targetLabel := dl_targetLabel l;
     dl_color := dl_color l; dl_linkColor := dl_linkColor l; dl_linkAlpha := dl_linkAlpha l;
     dl_hoverColor := dl_hoverColor l; dl_colorKey := dl_colorKey l; dl_share := dl_share l;
     dl_highlighted := dl_highlighted l; dl_dimmed := dl_dimmed l |}.

Definition addLink (m : link_map) (source target : FlowPathNode) (metrics : FlowMetrics) (metric : FlowMetric)
    (color colorKey : jstr) : link_map :=
  map_update (pathLinkKey source target) (new_link source target color colorKey) (link_add metrics metric) m.

Definition linkStableKey (l : DashboardFlowLink) : jstr := link_key (dl_source l) (dl_target l).

(** *** Comparators *)

Definition byValueThenLabel (a b : DashboardFlowNode) : comparison :=
  cmp_or (n_cmp (dn_value b) (dn_value a)) (localeCompare (dn_label a) (dn_label b)).

Definition byValueThenKey (a b : DashboardFlowLink) : comparison :=
  cmp_or (n_cmp (dl_value b) (dl_value a)) (localeCompare (linkStableKey a) (linkStableKey b)).

(** The sign of [Number(a) - Number(b)] on flags: [NaN] when one is missing. *)
Definition flag_cmp (a b : option bool) : comparison :=
  match a, b with
  | Some true, Some false => Gt
  | Some false, Some true => Lt
  | _, _ => Eq
  end.

Definition byLinkDrawPriority (a b : DashboardFlowLink) : comparison :=
  cmp_or (flag_cmp (dl_dimmed a) (dl_dimmed b))
    (cmp_or (flag_cmp (dl_highlighted b) (dl_highlighted a)) (byValueThenKey a b)).

(** *** Link colours *)

Definition set_link_colors (linkColor : jstr) (linkAlpha : num) (l : DashboardFlowLink) : DashboardFlowLink :=
  {| dl_source := dl_source l; dl_target := dl_target l;
     dl_value := dl_value l; dl_requests := dl_requests l; dl_quota := dl_quota l; dl_tokens := dl_tokens l;
     dl_sourceLabel := dl_sourceLabel l; dl_targetLabel := dl_targetLabel l;
     dl_color := dl_color l; dl_linkColor := linkColor; dl_linkAlpha := linkAlpha;
     dl_hoverColor := dl_color l; dl_colorKey := dl_colorKey l; dl_share := dl_share l;
     dl_highlighted := dl_highlighted l; dl_dimmed := dl_dimmed l |}.

(** The links grouped by source: a link is referred to by its position in the
    array, since the groups and the array share the link objects. *)
Definition links_by_source (links : list DashboardFlowLink) : list (jstr * list nat) :=
  fold_left (fun m '(i, link) => map_update (dl_source link) [] (fun g => g ++ [i]) m)
    (combine (seq 0 (length links)) links) [].

Definition by_position (links : list DashboardFlowLink) (i j : nat) : comparison :=
  match links !! i, links !! j with
  | Some a, Some b => byValueThenKey a b
  | _, _ => Eq
  end.

(** [0.34] for the only link of a source, else [0.24 + (index / denominator) * 0.2]. *)
Definition link_alpha (count index : nat) : num :=
  if (count =? 1)%nat then num_of_string "0.34"
  else
    nadd (num_of_string "0.24")
      (nmul (ndiv (num_of_Z (Z.of_nat index)) (num_of_Z (Z.of_nat (Nat.max (count - 1) 1))))
         (num_of_string "0.2")).

Definition color_group (links : list DashboardFlowLink) (group : list nat) : list DashboardFlowLink :=
  let sortedLinks := js_sort (by_position links) group in
  fold_left
    (fun ls '(index, position) =>
       alter (fun l => let '(c, a) := alphaColor (dl_color l) (link_alpha (length sortedLinks) index) in
                       set_link_colors c a l) position ls)
    (combine (seq 0 (length sortedLinks)) sortedLinks) links.

Definition assignLinkDisplayColors (links : list DashboardFlowLink) : list DashboardFlowLink :=
  fold_left (fun ls '(_, group) => color_group ls group) (links_by_source links) links.

(** *** The top nodes of each stage *)

Record FlowNodeRank := { rk_node : FlowPathNode; rk_value : A }.

Definition rank_cmp (a b : FlowNodeRank) : comparison :=
  cmp_or (n_cmp (rk_value b) (rk_value a))
    (cmp_or (localeCompare (pn_label (rk_node a)) (pn_label (rk_node b)))
            (localeCompare (pn_id (rk_node a)) (pn_id (rk_node b)))).

Definition rank_add (value : A) (r : FlowNodeRank) : FlowNodeRank :=
  {| rk_node := rk_node r; rk_value := n_add (rk_value r) value |}.

Abbreviation stage_totals := (list (FlowNodeKind * list (jstr * FlowNodeRank))).

Definition count_node (value : A) (totals : stage_totals) (node : FlowPathNode) : stage_totals :=
  match map_get (pn_kind node) totals with
  | None => totals
  | Some st =>
      map_set (pn_kind node)
        (map_update (pn_id node) {| rk_node := node; rk_value := n_zero |} (rank_add value) st) totals
  end.

Definition buildTopNodeSets (rows : list FlowQuotaDataItem) (metric : FlowMetric) (stages : list FlowNodeKind)
    (limit : option nat) (ctx : FlowPathContext) : option top_sets :=
  match limit with
  | None | Some O => None
  | Some n =>
      let empty := fold_left (fun m stage => map_set stage [] m) stages [] in
      let totals :=
        fold_left
          (fun totals row =>
             fold_left (count_node (row_value metric row)) (flowPathForStages row stages ctx) totals)
          rows empty in
      Some
        (fold_left
           (fun sets '(kind, stageTotals) =>
              map_set kind (uniq (map (fun r => pn_id (rk_node r))
                                    (take n (js_sort rank_cmp (map_values stageTotals))))) sets)
           totals [])
  end.

(** *** Masking *)

Definition FLOW_MASK_TEXT : jstr := "••••".

Definition maskFlowLabel (label : jstr) : jstr :=
  match label with [] => label | _ => FLOW_MASK_TEXT end.

Definition set_node_label (label : jstr) (n : DashboardFlowNode) : DashboardFlowNode :=
  {| dn_id := dn_id n; dn_label := label; dn_kind := dn_kind n;
     dn_value := dn_value n; dn_requests := dn_requests n; dn_quota := dn_quota n; dn_tokens := dn_tokens n;
     dn_color := dn_color n; dn_colorKey := dn_colorKey n;
     dn_highlighted := dn_highlighted n; dn_dimmed := dn_dimmed n |}.

Definition set_link_labels (sourceLabel targetLabel : jstr) (l : DashboardFlowLink) : DashboardFlowLink :=
  {| dl_source := dl_source l; dl_target := dl_target l;
     dl_value := dl_value l; dl_requests := dl_requests l; dl_quota := dl_quota l; dl_tokens := dl_tokens l;
     dl_sourceLabel := sourceLabel; dl_targetLabel := targetLabel;
     dl_color := dl_color l; dl_linkColor := dl_linkColor l; dl_linkAlpha := dl_linkAlpha l;
     dl_hoverColor := dl_hoverColor l; dl_colorKey := dl_colorKey l; dl_share := dl_share l;
     dl_highlighted := dl_highlighted l; dl_dimmed := dl_dimmed l |}.

Definition must_mask (n : DashboardFlowNode) : bool :=
  bool_decide (dn_kind n ∈ SENSITIVE_FLOW_KINDS) && negb (bool_decide (dn_id n ∈ OTHER_FLOW_NODE_ID_SET)).

Definition maskFlowGraphLabels (nodes : node_map) (links : link_map) : node_map * link_map :=
  let mask n := if must_mask n then set_node_label (maskFlowLabel (dn_label n)) n else n in
  let maskedById :=
    fold_left (fun m '(_, n) => if must_mask n then map_set (dn_id n) (maskFlowLabel (dn_label n)) m else m)
      nodes [] in
  (map (fun '(k, n) => (k, mask n)) nodes,
   match maskedById with
   | [] => links
   | _ =>
       map (fun '(k, l) =>
              (k, set_link_labels (default (dl_sourceLabel l) (map_get (dl_source l) maskedById))
                    (default (dl_targetLabel l) (map_get (dl_target l) maskedById)) l)) links
   end).

(** *** Highlights *)

Definition set_node_flags (highlighted : bool) (n : DashboardFlowNode) : DashboardFlowNode :=
  {| dn_id := dn_id n; dn_label := dn_label n; dn_kind := dn_kind n;
     dn_value := dn_value n; dn_requests := dn_requests n; dn_quota := dn_quota n; dn_tokens := dn_tokens n;
     dn_color := dn_color n; dn_colorKey := dn_colorKey n;
     dn_highlighted := Some highlighted; dn_dimmed := Some (negb highlighted) |}.

Definition set_link_flags (highlighted : bool) (l : DashboardFlowLink) : DashboardFlowLink :=
  {| dl_source := dl_source l; dl_target := dl_target l;
     dl_value := dl_value l; dl_requests := dl_requests l; dl_quota := dl_quota l; dl_tokens := dl_tokens l;
     dl_sourceLabel := dl_sourceLabel l; dl_targetLabel := dl_targetLabel l;
     dl_color := dl_color l; dl_linkColor := dl_linkColor l; dl_linkAlpha := dl_linkAlpha l;
     dl_hoverColor := dl_hoverColor l; dl_colorKey := dl_colorKey l; dl_share := dl_share l;
     dl_highlighted := Some highlighted; dl_dimmed := Some (negb highlighted) |}.

Definition applyFlowHighlights (nodes : node_map) (links : link_map) (sets : option FlowHighlightSets)
    : node_map * link_map :=
  match sets with
  | None => (nodes, links)
  | Some hs =>
      (map (fun '(k, n) => (k, set_node_flags (bool_decide (dn_id n ∈ hs_nodes hs)) n)) nodes,
       map (fun '(k, l) => (k, set_link_flags (bool_decide (linkStableKey l ∈ hs_links hs)) l)) links)
  end.

(** *** The graph *)

Record FlowGraphOptions := {
  go_topNodeLimit : option num;
  go_overflowMode : option FlowOverflowMode;
  go_otherNodeLabel : option (FlowNodeKind -> jstr);
  go_activeNode : option FlowNodeFilter;
  go_activeLink : option FlowLinkSelection;
  go_maskSensitive : bool
}.

Record PreparedFlowPath := { pp_path : list FlowPathNode; pp_metrics : FlowMetrics }.

Definition prepare_paths (rows : list FlowQuotaDataItem) (stages : list FlowNodeKind) (sets : option top_sets)
    (mode : FlowOverflowMode) (labeler : option (FlowNodeKind -> jstr)) (ctx : FlowPathContext)
    : list PreparedFlowPath :=
  omap
    (fun row =>
       match applyTopNodeLimit (flowPathForStages row stages ctx) sets mode labeler with
       | Some path => Some {| pp_path := path; pp_metrics := rowMetrics row |}
       | None => None
       end) rows.

(** [preparedPaths.map(p => p.path[0]?.id).filter(Boolean)] *)
Definition root_ids (paths : list PreparedFlowPath) : list jstr :=
  flat_map
    (fun p => match pp_path p with
              | root :: _ => if non_empty (pn_id root) then [pn_id root] else []
              | [] => []
              end) paths.

Definition add_path_nodes (metric : FlowMetric) (colors : list (jstr * jstr)) (palette : option (list jstr))
    (m : node_map) (p : PreparedFlowPath) : node_map :=
  match pp_path p with
  | [] => m
  | root :: _ =>
      let color := default (colorAt 0 palette) (map_get (pn_id root) colors) in
      fold_left (fun m node => addNode m node (pp_metrics p) metric color (pn_id root)) (pp_path p) m
  end.

Definition add_path_links (metric : FlowMetric) (colors : list (jstr * jstr)) (palette : option (list jstr))
    (m : link_map) (p : PreparedFlowPath) : link_map :=
  match pp_path p with
  | [] => m
  | root :: _ =>
      let color := default (colorAt 0 palette) (map_get (pn_id root) colors) in
      fold_left (fun m '(s, t) => addLink m s t (pp_metrics p) metric color (pn_id root))
        (path_links (pp_path p)) m
  end.

Definition set_share (share : A) (l : DashboardFlowLink) : DashboardFlowLink :=
  {| dl_source := dl_source l; dl_target := dl_target l;
     dl_value := dl_value l; dl_requests := dl_requests l; dl_quota := dl_quota l; dl_tokens := dl_tokens l;
     dl_sourceLabel := dl_sourceLabel l; dl_targetLabel := dl_targetLabel l;
     dl_color := dl_color l; dl_linkColor := dl_linkColor l; dl_linkAlpha := dl_linkAlpha l;
     dl_hoverColor := dl_hoverColor l; dl_colorKey := dl_colorKey l; dl_share := share;
     dl_highlighted := dl_highlighted l; dl_dimmed := dl_dimmed l |}.

Definition by_source_then_target (a b : DashboardFlowLink) : comparison :=
  cmp_or (localeCompare (dl_source a) (dl_source b)) (localeCompare (dl_target a) (dl_target b)).

Record DashboardFlowGraph := { dg_nodes : list DashboardFlowNode; dg_links : list DashboardFlowLink }.

Definition first_step_total (links : list DashboardFlowLink) (firstStepSources : list jstr) : A :=
  fold_left n_add
    (map dl_value (List.filter (fun l => bool_decide (dl_source l ∈ firstStepSources)) links)) n_zero.

Definition buildFlowGraph (rows : list FlowQuotaDataItem) (metric : FlowMetric) (role : jstr)
    (palette : option (list jstr)) (visibleStages : option (list FlowNodeKind)) (ctx : FlowPathContext)
    (options : FlowGraphOptions) : DashboardFlowGraph :=
  let stages := resolveVisibleStages role visibleStages in
  let topNodeSets := buildTopNodeSets rows metric stages (normalizeTopNodeLimit (go_topNodeLimit options)) ctx in
  let overflowMode := default DEFAULT_FLOW_OVERFLOW_MODE (go_overflowMode options) in
  let preparedPaths := prepare_paths rows stages topNodeSets overflowMode (go_otherNodeLabel options) ctx in
  let colors := stableColorMap (js_sort localeCompare (root_ids preparedPaths)) palette in
  let nodes := fold_left (add_path_nodes metric colors palette) preparedPaths [] in
  let links := fold_left (add_path_links metric colors palette) preparedPaths [] in
  let '(nodes, links) := if go_maskSensitive options then maskFlowGraphLabels nodes links else (nodes, links) in
  let '(nodes, links) :=
    applyFlowHighlights nodes links
      (buildFlowHighlightSets (map pp_path preparedPaths) (go_activeNode options) (go_activeLink options) stages) in
  let flowLinks := js_sort by_source_then_target (map_values links) in
  let total := first_step_total flowLinks (root_ids preparedPaths) in
  let shared :=
    map (fun l => set_share (if n_lt n_zero total then n_div (dl_value l) total else n_zero) l) flowLinks in
  {| dg_nodes := js_sort byValueThenLabel (map_values nodes); dg_links := assignLinkDisplayColors shared |}.

(** *** Filter options *)

Record FlowUserFilterOption := {
  fu_value : jstr; fu_label : jstr; fu_valueLabel : jstr; fu_valueRaw : A; fu_color : jstr
}.

Record FlowNodeFilterOption := {
  fnf_kind : FlowNodeKind; fnf_value : jstr; fnf_label : jstr; fnf_valueLabel : jstr;
  fnf_valueRaw : A; fnf_color : jstr
}.

(** One entry of the [users] map. *)
Record UserTotal := { ut_label : jstr; ut_value : A; ut_color : jstr }.

Definition user_add (value : A) (u : UserTotal) : UserTotal :=
  {| ut_label := ut_label u; ut_value := n_add (ut_value u) value; ut_color := ut_color u |}.

Definition by_user_option (a b : FlowUserFilterOption) : comparison :=
  cmp_or (n_cmp (fu_valueRaw b) (fu_valueRaw a)) (localeCompare (fu_label a) (fu_label b)).

Definition buildUserFilterOptions (rows : list FlowQuotaDataItem) (metric : FlowMetric)
    (palette : option (list jstr)) : list FlowUserFilterOption :=
  let colors := stableColorMap (js_sort localeCompare (map (fun row => pn_id (userNode row)) rows)) palette in
  let users :=
    fold_left
      (fun m row =>
         if negb (truthy (fr_user_id row)) && negb (non_empty (fr_username row)) then m
         else
           let user := userNode row in
           map_update (pn_id user)
             {| ut_label := pn_label user; ut_value := n_zero;
                ut_color := default (colorAt 0 palette) (map_get (pn_id user) colors) |}
             (user_add (row_value metric row)) m)
      rows [] in
  js_sort by_user_option
    (map (fun '(value, u) =>
            {| fu_value := value; fu_label := ut_label u; fu_valueLabel := formatNumber (ut_value u);
               fu_valueRaw := ut_value u; fu_color := ut_color u |}) users).

(** [stageOrder.get(kind) ?? 0] *)
Fixpoint index_of (kind : FlowNodeKind) (stages : list FlowNodeKind) : option nat :=
  match stages with
  | [] => None
  | k :: t => if k ==? kind then Some 0%nat else option_map S (index_of kind t)
  end.

Definition by_node_option (stages : list FlowNodeKind) (a b : FlowNodeFilterOption) : comparison :=
  cmp_or (Nat.compare (default 0%nat (index_of (fnf_kind a) stages)) (default 0%nat (index_of (fnf_kind b) stages)))
    (cmp_or (n_cmp (fnf_valueRaw b) (fnf_valueRaw a))
       (cmp_or (localeCompare (fnf_label a) (fnf_label b)) (localeCompare (fnf_value a) (fnf_value b)))).

(** The totals of one stage over the rows that pass the other stages' filters. *)
Definition stage_ranks (rows : list FlowQuotaDataItem) (metric : FlowMetric) (stages : list FlowNodeKind)
    (ctx : FlowPathContext) (selectedNodes : option (list FlowNodeFilter)) (stage : FlowNodeKind)
    : list FlowNodeRank :=
  let candidateRows := filterRowsByNodes rows (selectedNodeFiltersExceptKind selectedNodes stage) stages ctx in
  map_values
    (fold_left
       (fun totals row =>
          let node := NODE_BUILDERS stage row ctx in
          map_update (nodeFilterKey {| ff_kind := pn_kind node; ff_id := pn_id node |})
            {| rk_node := node; rk_value := n_zero |} (rank_add (row_value metric row)) totals)
       candidateRows []).

Definition buildNodeFilterOptions (rows : list FlowQuotaDataItem) (metric : FlowMetric) (role : jstr)
    (visibleStages : option (list FlowNodeKind)) (palette : option (list jstr)) (ctx : FlowPathContext)
    (selectedNodes : option (list FlowNodeFilter)) : list FlowNodeFilterOption :=
  let stages := resolveVisibleStages role visibleStages in
  let colorIds :=
    set_add_all (flat_map (fun row => map pn_id (flowPathForStages row stages ctx)) rows) [] in
  let colors := stableColorMap (js_sort localeCompare colorIds) palette in
  let option_of r :=
    {| fnf_kind := pn_kind (rk_node r); fnf_value := pn_id (rk_node r); fnf_label := pn_label (rk_node r);
       fnf_valueLabel := formatNumber (rk_value r); fnf_valueRaw := rk_value r;
       fnf_color := default (colorAt 0 palette) (map_get (pn_id (rk_node r)) colors) |} in
  js_sort (by_node_option stages)
    (flat_map (fun stage => map option_of (stage_ranks rows metric stages ctx selectedNodes stage)) stages).

Record FlowFilterOptions := {
  fopt_users : list FlowUserFilterOption;
  fopt_nodes : list FlowNodeFilterOption
}.

(** The default arguments are the caller's: [metric] and [role] are given. *)
Definition buildFlowFilterOptions (rows : list FlowQuotaDataItem) (metric : FlowMetric)
    (palette : option (list jstr)) (role : option jstr) (visibleStages : option (list FlowNodeKind))
    (selectedNodes : option (list FlowNodeFilter)) : FlowFilterOptions :=
  {| fopt_users := buildUserFilterOptions rows metric palette;
     fopt_nodes :=
       buildNodeFilterOptions rows metric (default DEFAULT_FLOW_ROLE role) visibleStages palette
         EMPTY_FLOW_PATH_CONTEXT selectedNodes |}.

(** *** The whole page *)

Record FlowBuildOptions := {
  fo_role : option jstr;
  fo_selectedUsers : option (list jstr);
  fo_selectedNodes : option (list FlowNodeFilter);
  fo_activeNode : option FlowNodeFilter;
  fo_activeLink : option FlowLinkSelection;
  fo_colorPalette : option (list jstr);
  fo_visibleStages : option (list FlowNodeKind);
  fo_topNodeLimit : option num;
  fo_overflowMode : option FlowOverflowMode;
  fo_maskSensitive : bool;
  fo_deletedTokenLabel : option (num -> jstr);
  fo_otherNodeLabel : option (FlowNodeKind -> jstr)
}.

Record ProcessedFlowData := {
  pf_summary : FlowSummary;
  pf_flow : DashboardFlowGraph;
  pf_filterOptions : FlowFilterOptions
}.

Definition flow_ctx (options : FlowBuildOptions) : FlowPathContext :=
  {| ctx_deletedTokenLabel := fo_deletedTokenLabel options |}.

(** The rows the graph and the summary are built from. *)
Definition selected_rows (rows : list FlowQuotaDataItem) (options : FlowBuildOptions) : list FlowQuotaDataItem :=
  filterRowsByNodes (filterRows rows (fo_selectedUsers options)) (fo_selectedNodes options)
    (resolveVisibleStages (default DEFAULT_FLOW_ROLE (fo_role options)) (fo_visibleStages options))
    (flow_ctx options).

Definition buildDashboardFlowData (rows : list FlowQuotaDataItem) (metric : FlowMetric)
    (options : FlowBuildOptions) : ProcessedFlowData :=
  let role := default DEFAULT_FLOW_ROLE (fo_role options) in
  let palette := fo_colorPalette options in
  let ctx := flow_ctx options in
  let userFilteredRows := filterRows rows (fo_selectedUsers options) in
  let filteredRows := selected_rows rows options in
  {| pf_summary := buildSummary filteredRows;
     pf_flow :=
       buildFlowGraph filteredRows metric role palette (fo_visibleStages options) ctx
         {| go_topNodeLimit := fo_topNodeLimit options; go_overflowMode := fo_overflowMode options;
            go_otherNodeLabel := fo_otherNodeLabel options; go_activeNode := fo_activeNode options;
            go_activeLink := fo_activeLink options; go_maskSensitive := fo_maskSensitive options |};
     pf_filterOptions :=
       {| fopt_users := buildUserFilterOptions rows metric palette;
          fopt_nodes :=
            buildNodeFilterOptions userFilteredRows metric role (fo_visibleStages options) palette ctx
              (fo_selectedNodes options) |} |}.
End Graph.
