(* ===== verification/FlowProofs.v ===== *)
(** * Quota flow graph: properties

    Companion of [Flow]: stages and filters, conservation of the metrics through
    the graph in the arithmetic of binary64, and shares. *)
From S2P Require Import Prelude JsString Regex JsNumber JsValue Json Numeric OrderedMap Aggregate Flow ModelMapping.

(** ** Kinds and identifiers *)

(** The kind an identifier names by its prefix. *)
Definition id_kind (id : jstr) : option FlowNodeKind :=
  List.find (fun k => startsWith id (kind_name k ++ ":")) FLOW_NODE_KINDS.

Definition well_kinded (n : FlowPathNode) : Prop := id_kind (pn_id n) = Some (pn_kind n).

Lemma id_kind_prefix k x : id_kind (kind_name k ++ ":" ++ x) = Some k.
Proof. by destruct k. Qed.

Lemma builder_kind k row ctx : pn_kind (NODE_BUILDERS k row ctx) = k.
Proof. by destruct k. Qed.

Lemma builder_well_kinded k row ctx : well_kinded (NODE_BUILDERS k row ctx).
Proof.
  unfold well_kinded. destruct k; cbn [NODE_BUILDERS userNode nodeNameNode tokenNode groupNode modelNode channelNode pn_id pn_kind].
  - destruct (positive_num _); apply (id_kind_prefix KUser).
  - apply (id_kind_prefix KNode).
  - destruct (positive_num _); apply (id_kind_prefix KToken).
  - apply (id_kind_prefix KGroup).
  - apply (id_kind_prefix KModel).
  - destruct (positive_num _); apply (id_kind_prefix KChannel).
Qed.

Lemma other_well_kinded k labeler : well_kinded (otherFlowNode k labeler) /\ pn_kind (otherFlowNode k labeler) = k.
Proof. by destruct k. Qed.

(** ** Stages *)

Lemma stages_cases (P : list FlowNodeKind -> Prop) role :
  P [KUser; KNode; KToken; KGroup; KModel; KChannel] -> P [KUser; KGroup; KModel; KChannel] ->
  P [KToken; KGroup; KModel] -> P (getFlowStages role).
Proof.
  intros. unfold getFlowStages, ROLE_FLOW_STAGES. cbn [obj_get].
  destruct (bool_decide (role = "root")); [done|]. destruct (bool_decide (role = "admin")); [done|].
  by destruct (bool_decide (role = "user")).
Qed.

Lemma visible_stages_sublist role visible :
  resolveVisibleStages role visible `sublist_of` getFlowStages role.
Proof.
  unfold resolveVisibleStages. destruct visible as [v|]; [|done].
  destruct (_ <=? _)%nat; [apply filter_sublist|done].
Qed.

Lemma stages_NoDup role visible : NoDup (resolveVisibleStages role visible).
Proof.
  eapply sublist_NoDup; [|apply visible_stages_sublist].
  apply stages_cases; repeat (constructor; [set_solver|]); constructor.
Qed.

(** Whatever stages the user hides, the diagram keeps at least two distinct
    columns, in the order of the role's stages; a choice that leaves two or more is
    respected exactly. *)
Theorem visible_stages_spec role visible :
  let stages := resolveVisibleStages role visible in
  NoDup stages /\ MIN_FLOW_STAGES <= length stages
  /\ stages `sublist_of` getFlowStages role
  /\ match visible with
     | Some v =>
         MIN_FLOW_STAGES <= length (List.filter (fun k => bool_decide (k ∈ v)) (getFlowStages role)) ->
         forall k, k ∈ stages <-> k ∈ getFlowStages role /\ k ∈ v
     | None => stages = getFlowStages role
     end.
Proof.
  cbn zeta. assert (MIN_FLOW_STAGES <= length (getFlowStages role)) as Hlen
    by (apply stages_cases; cbn; unfold MIN_FLOW_STAGES; lia).
  split_and!; [apply stages_NoDup| |apply visible_stages_sublist|].
  - unfold resolveVisibleStages. destruct visible as [v|]; [|done].
    destruct (Nat.leb_spec MIN_FLOW_STAGES
      (length (List.filter (fun stage => bool_decide (stage ∈ v)) (getFlowStages role)))); done.
  - destruct visible as [v|]; [|done]. intros Hv k. unfold resolveVisibleStages.
    rewrite (proj2 (Nat.leb_le _ _)) by done.
    rewrite elem_of_filter_bool, bool_decide_eq_true. tauto.
Qed.

(** ** Paths *)

Definition path_ok (stages : list FlowNodeKind) (path : list FlowPathNode) : Prop :=
  map pn_kind path = stages /\ Forall well_kinded path.

Lemma built_path_ok row stages ctx : path_ok stages (flowPathForStages row stages ctx).
Proof.
  unfold path_ok, flowPathForStages. split.
  - rewrite map_map. rewrite <- (map_id stages) at 2. apply map_ext. intros k. apply builder_kind.
  - apply Forall_map, Forall_forall. intros k _. apply builder_well_kinded.
Qed.

Lemma limited_path_ok row stages ctx sets mode labeler path :
  applyTopNodeLimit (flowPathForStages row stages ctx) sets mode labeler = Some path ->
  path_ok stages path.
Proof.
  pose proof (built_path_ok row stages ctx) as [Hk Hw]. unfold applyTopNodeLimit.
  destruct sets as [s|]; [|by intros [= <-]].
  destruct (negb _); [by intros [= <-]|]. destruct mode; [|done]. intros [= <-]. split.
  - rewrite map_map. etransitivity; [|exact Hk]. apply map_ext. intros n. cbv beta.
    match goal with |- context [if ?b then n else _] => destruct b end; [done|]. apply other_well_kinded.
  - apply Forall_map. eapply Forall_impl; [exact Hw|]. intros n Hn. cbn.
    match goal with |- context [if ?b then n else _] => destruct b end; [done|]. apply other_well_kinded.
Qed.

(** In aggregate mode no path is dropped. *)
Lemma aggregate_keeps_path path sets labeler :
  is_Some (applyTopNodeLimit path sets OverflowAggregate labeler).
Proof. unfold applyTopNodeLimit. destruct sets; [|done]. by destruct (negb _). Qed.

(** ** Row filters *)

Lemma fold_left_if {X Z : Type} (p : X -> bool) (f : Z -> X -> Z) l : forall z,
  fold_left (fun z x => if p x then f z x else z) l z = fold_left f (List.filter p l) z.
Proof. induction l as [|x l IH]; intros z; cbn; [done|]. rewrite IH. by destruct (p x). Qed.

Definition visible_filters (selected : list FlowNodeFilter) (stages : list FlowNodeKind) : list FlowNodeFilter :=
  List.filter (fun f => bool_decide (ff_kind f ∈ stages)) selected.

Lemma node_filters_multimap selected stages :
  normalizeSelectedNodeFilters selected stages
  = multimap ff_kind ff_id (visible_filters (default [] selected) stages) [].
Proof. apply fold_left_if. Qed.

Lemma path_matches_iff path filters :
  pathMatchesNodeFilters path filters = true
  <-> Forall (fun '(kind, ids) => exists n, n ∈ path /\ pn_kind n = kind /\ pn_id n ∈ ids) filters.
Proof.
  unfold pathMatchesNodeFilters. destruct filters as [|f fs]; [split; [constructor|done]|].
  set (filters := f :: fs). fold (multimap pn_kind pn_id path []).
  rewrite forallb_Forall. apply Forall_proper; [|done]. intros [kind ids].
  pose proof (elem_of_multimap pn_kind pn_id path kind) as He.
  destruct (map_get kind (multimap pn_kind pn_id path [])) as [pathIds|] eqn:E.
  - rewrite existsb_exists. split.
    + intros (id & Hid & Hp). bools. apply list_elem_of_In in Hid.
      specialize (He id []). rewrite E in He. cbn in He.
      apply He in Hp as [Hp|(n & Hn & Hk & Hi)]; [by apply elem_of_nil in Hp|]. subst. eauto.
    + intros (n & Hn & Hk & Hi). exists (pn_id n). split; [by apply list_elem_of_In|].
      apply bool_decide_eq_true. specialize (He (pn_id n) []). rewrite E in He. cbn in He.
      apply He. right. eauto.
  - split; [done|]. intros (n & Hn & Hk & Hi). exfalso.
    specialize (He (pn_id n) []). rewrite E in He. cbn in He.
    assert (pn_id n ∈ @nil jstr) as Hx by (apply He; eauto). by apply elem_of_nil in Hx.
Qed.

Lemma built_path_node row stages ctx n :
  n ∈ flowPathForStages row stages ctx <-> pn_kind n ∈ stages /\ n = NODE_BUILDERS (pn_kind n) row ctx.
Proof.
  unfold flowPathForStages. rewrite elem_of_map. split.
  - intros (k & Hk & ->). cbv beta. by rewrite builder_kind.
  - intros (Hk & Hn). by exists (pn_kind n).
Qed.

Lemma filter_rows_by_nodes rows selected stages ctx row :
  row ∈ filterRowsByNodes rows selected stages ctx
  <-> row ∈ rows
      /\ forall f, f ∈ default [] selected -> ff_kind f ∈ stages ->
           exists g, g ∈ default [] selected /\ ff_kind g = ff_kind f
             /\ ff_id g = pn_id (NODE_BUILDERS (ff_kind f) row ctx).
Proof.
  unfold filterRowsByNodes. rewrite node_filters_multimap.
  set (vis := visible_filters (default [] selected) stages).
  assert (forall f, f ∈ vis <-> ff_kind f ∈ stages /\ f ∈ default [] selected) as Hvis.
  { intros f. unfold vis, visible_filters. by rewrite elem_of_filter_bool, bool_decide_eq_true. }
  pose proof (elem_of_multimap ff_kind ff_id vis) as Hel.
  pose proof (multimap_keys ff_kind ff_id vis) as Hkeys.
  pose proof (multimap_NoDup ff_kind ff_id vis [] ltac:(constructor)) as Hnd.
  set (filters := multimap ff_kind ff_id vis []) in *.
  assert (row ∈ match filters with [] => rows | _ => List.filter (fun row =>
      pathMatchesNodeFilters (flowPathForStages row stages ctx) filters) rows end
    <-> row ∈ rows /\ pathMatchesNodeFilters (flowPathForStages row stages ctx) filters = true) as ->.
  { destruct filters; [split; [done|by intros [? _]]|]. rewrite elem_of_filter_bool. tauto. }
  rewrite path_matches_iff, Forall_forall. apply and_iff_compat_l. split.
  - intros Hf f Hsel Hst. assert (ff_kind f ∈ map_keys filters) as Hk.
    { apply Hkeys. right. exists f. split; [by apply Hvis|done]. }
    apply map_get_is_Some in Hk as [ids Hids].
    destruct (Hf (ff_kind f, ids)) as (n & Hn & Hnk & Hni); [by apply map_get_elem|].
    apply built_path_node in Hn as (_ & Hn).
    assert (pn_id n ∈ default [] (map_get (ff_kind f) filters)) as Hi by (by rewrite Hids).
    apply Hel in Hi as [Hi|(g & Hg & Hgk & Hgi)]; [by apply elem_of_nil in Hi|].
    exists g. rewrite <- Hnk, <- Hn. split_and!; [by apply Hvis|congruence|done].
  - intros Hf [kind ids] Hin. apply map_get_elem in Hin; [|done].
    assert (kind ∈ map_keys filters) as Hk by (apply map_get_is_Some; eauto).
    apply Hkeys in Hk as [Hk|(f & Hfv & Hfk)]; [by apply elem_of_nil in Hk|].
    apply Hvis in Hfv as [Hst Hsel]. destruct (Hf f Hsel Hst) as (g & Hg & Hgk & Hgi).
    exists (NODE_BUILDERS kind row ctx). rewrite builder_kind. split_and!; [|done|].
    + apply built_path_node. rewrite builder_kind. split; [by subst|done].
    + specialize (Hel kind (pn_id (NODE_BUILDERS kind row ctx)) []). fold filters in Hel.
      rewrite Hin in Hel. cbn in Hel. apply Hel. right. exists g.
      split_and!; [apply Hvis; split; [by rewrite Hgk|done]|congruence|by rewrite Hgi, Hfk].
Qed.

(** The rows behind the graph are exactly the rows of a selected user (when
    users are selected) that, for every visible kind with a selected node, pass
    through one of the selected nodes of that kind. *)
Theorem selected_rows_spec rows options row :
  let stages := resolveVisibleStages (default DEFAULT_FLOW_ROLE (fo_role options)) (fo_visibleStages options) in
  let selected := default [] (fo_selectedNodes options) in
  row ∈ selected_rows rows options
  <-> row ∈ rows
      /\ (default [] (fo_selectedUsers options) = []
          \/ pn_id (userNode row) ∈ default [] (fo_selectedUsers options))
      /\ forall f, f ∈ selected -> ff_kind f ∈ stages ->
           exists g, g ∈ selected /\ ff_kind g = ff_kind f
             /\ ff_id g = pn_id (NODE_BUILDERS (ff_kind f) row (flow_ctx options)).
Proof.
  cbn zeta. unfold selected_rows. rewrite filter_rows_by_nodes.
  assert (row ∈ filterRows rows (fo_selectedUsers options)
    <-> row ∈ rows /\ (default [] (fo_selectedUsers options) = []
         \/ pn_id (userNode row) ∈ default [] (fo_selectedUsers options))) as ->; [|tauto].
  unfold filterRows. destruct (default [] (fo_selectedUsers options)) as [|u us]; [tauto|].
  rewrite elem_of_filter_bool, bool_decide_eq_true. naive_solver.
Qed.

(** ** Conservation *)

Section Conservation.
Context {A : Type} `{Numeric A} `{!FlowEnv A}.

Lemma filter_perm {X} (p : X -> bool) (l k : list X) : l ≡ₚ k -> List.filter p l ≡ₚ List.filter p k.
Proof.
  induction 1 as [|x l k _ IH|x y l|l k m _ IH1 _ IH2]; cbn; [done| | |by etransitivity].
  - destruct (p x); [by constructor|done].
  - destruct (p x), (p y); try done. constructor.
Qed.

(** What is kept of some elements only depends on a projection. *)
Lemma view_filter {X Y Z} (view : X -> Y) (p : Y -> bool) (val : Y -> Z) (l : list X) :
  map (fun x => val (view x)) (List.filter (fun x => p (view x)) l) = map val (List.filter p (map view l)).
Proof.
  induction l as [|x l IH]; cbn; [done|]. destruct (p (view x)); cbn; by rewrite IH.
Qed.

Lemma view_filter_perm {X Y Z} (view : X -> Y) (p : Y -> bool) (val : Y -> Z) (l k : list X) :
  map view l ≡ₚ map view k ->
  map (fun x => val (view x)) (List.filter (fun x => p (view x)) l)
  ≡ₚ map (fun x => val (view x)) (List.filter (fun x => p (view x)) k).
Proof. intros Hp. rewrite (view_filter view p val l), (view_filter view p val k). by apply Permutation_map, filter_perm. Qed.

(** *** The paths and the two maps of a graph *)

Definition graph_paths (rows : list FlowQuotaDataItem) (metric : FlowMetric) (stages : list FlowNodeKind)
    (ctx : FlowPathContext) (options : FlowGraphOptions) : list (@PreparedFlowPath A) :=
  prepare_paths rows stages
    (buildTopNodeSets rows metric stages (normalizeTopNodeLimit (go_topNodeLimit options)) ctx)
    (default DEFAULT_FLOW_OVERFLOW_MODE (go_overflowMode options)) (go_otherNodeLabel options) ctx.

Lemma prepared_path_ok rows stages sets mode labeler ctx :
  Forall (fun p => path_ok stages (pp_path p))
    (prepare_paths rows stages sets mode labeler ctx : list (@PreparedFlowPath A)).
Proof.
  unfold prepare_paths. apply Forall_forall. intros p Hp.
  apply list_elem_of_omap in Hp as (row & _ & Hr).
  destruct (applyTopNodeLimit _ _ _ _) as [path|] eqn:E; [|done]. injection Hr as <-.
  by apply limited_path_ok in E.
Qed.

(** The count of a path, once for each selected item. *)
Definition spread (v : N) {I} (q : I -> bool) (items : list I) : list N :=
  map (fun _ => v) (List.filter q items).

Lemma spread_map {I J} v (q : J -> bool) (f : I -> J) l : spread v q (map f l) = spread v (fun i => q (f i)) l.
Proof.
  unfold spread. induction l as [|x l IH]; cbn; [done|]. destruct (q (f x)); cbn; by rewrite IH.
Qed.

Lemma spread_ext {I} v (q q' : I -> bool) l :
  (forall i, i ∈ l -> q i = q' i) -> spread v q l = spread v q' l.
Proof.
  unfold spread. induction l as [|x l IH]; intros Hq; cbn; [done|]. rewrite (Hq x) by left.
  destruct (q' x); cbn; rewrite IH; try done; intros i Hi; apply Hq; by right.
Qed.

Section Maps.
Context (metric : FlowMetric) (colors : list (jstr * jstr)) (palette : option (list jstr)).
Notation path_value p := (metricValue (pp_metrics p) metric).

Definition path_color (p : @PreparedFlowPath A) : jstr :=
  match pp_path p with
  | root :: _ => default (colorAt 0 palette) (map_get (pn_id root) colors)
  | [] => []
  end.

Definition path_root (p : @PreparedFlowPath A) : jstr :=
  match pp_path p with root :: _ => pn_id root | [] => [] end.

Definition node_entries (p : @PreparedFlowPath A) : list (FlowPathNode * @PreparedFlowPath A) :=
  map (fun n => (n, p)) (pp_path p).

Definition link_entries (p : @PreparedFlowPath A)
    : list (FlowPathNode * FlowPathNode * @PreparedFlowPath A) :=
  map (fun st => (st, p)) (path_links (pp_path p)).

Definition nodes_of (paths : list (@PreparedFlowPath A)) : list (jstr * @DashboardFlowNode A) :=
  aggregate (fun e => pn_id e.1) (fun e => new_node e.1 (path_color e.2) (path_root e.2))
    (fun e => node_add (pp_metrics e.2) metric) (flat_map node_entries paths) [].

Definition links_of (paths : list (@PreparedFlowPath A)) : list (jstr * @DashboardFlowLink A) :=
  aggregate (fun e => pathLinkKey e.1.1 e.1.2)
    (fun e => new_link e.1.1 e.1.2 (path_color e.2) (path_root e.2))
    (fun e => link_add (pp_metrics e.2) metric) (flat_map link_entries paths) [].

Lemma nodes_of_fold paths : fold_left (add_path_nodes metric colors palette) paths [] = nodes_of paths.
Proof.
  unfold nodes_of, aggregate. rewrite <- fold_left_flat_map. apply fold_left_ext_in.
  intros m p _. unfold add_path_nodes, node_entries, path_color, path_root.
  destruct (pp_path p) as [|r t] eqn:E; [done|]. rewrite fold_left_map. apply fold_left_ext_in.
  intros z x _. cbn [fst snd]. by rewrite E.
Qed.

Lemma links_of_fold paths : fold_left (add_path_links metric colors palette) paths [] = links_of paths.
Proof.
  unfold links_of, aggregate. rewrite <- fold_left_flat_map. apply fold_left_ext_in.
  intros m p _. unfold add_path_links, link_entries, path_color, path_root.
  destruct (pp_path p) as [|r t] eqn:E; [done|]. rewrite fold_left_map. apply fold_left_ext_in.
  intros z [s x] _. cbn [fst snd]. by rewrite E.
Qed.

Lemma nodes_count (count : @PreparedFlowPath A -> N) q paths :
  total (map (fun e => count e.2) (List.filter (fun e => q (pn_id e.1)) (flat_map node_entries paths)))
  = total (flat_map (fun p => spread (count p) q (map pn_id (pp_path p))) paths).
Proof.
  f_equal. induction paths as [|p paths IH]; cbn; [done|].
  rewrite List.filter_app, map_app, IH. f_equal. unfold node_entries, spread.
  generalize (pp_path p) as path. induction path as [|n path IHp]; cbn; [done|].
  destruct (q (pn_id n)); cbn; by rewrite IHp.
Qed.

Lemma links_count (count : @PreparedFlowPath A -> N) q paths :
  total (map (fun e => count e.2) (List.filter (fun e => q (pathLinkKey e.1.1 e.1.2)) (flat_map link_entries paths)))
  = total (flat_map (fun p => spread (count p) (fun st => q (pathLinkKey st.1 st.2)) (path_links (pp_path p))) paths).
Proof.
  f_equal. induction paths as [|p paths IH]; cbn; [done|].
  rewrite List.filter_app, map_app, IH. f_equal. unfold link_entries, spread.
  generalize (path_links (pp_path p)) as l. induction l as [|st l IHp]; cbn; [done|].
  destruct (q (pathLinkKey st.1 st.2)); cbn; by rewrite IHp.
Qed.

Lemma node_entry_path e paths : e ∈ flat_map node_entries paths -> e.2 ∈ paths /\ e.1 ∈ pp_path e.2.
Proof.
  rewrite !list_elem_of_In, in_flat_map. intros (p & Hp & He). unfold node_entries in He.
  by apply in_map_iff in He as (n & <- & Hn).
Qed.

Lemma link_entry_path e paths : e ∈ flat_map link_entries paths -> e.2 ∈ paths /\ e.1 ∈ path_links (pp_path e.2).
Proof.
  rewrite !list_elem_of_In, in_flat_map. intros (p & Hp & He). unfold link_entries in He.
  by apply in_map_iff in He as (st & <- & Hst).
Qed.

(** What each entry of the maps records of its key. *)
Lemma nodes_of_Forall stages paths :
  Forall (fun p => path_ok stages (pp_path p)) paths ->
  Forall (fun kn => dn_id kn.2 = kn.1 /\ id_kind kn.1 = Some (dn_kind kn.2)
                    /\ dn_kind kn.2 ∈ stages) (nodes_of paths).
Proof.
  intros Hp. unfold nodes_of. apply aggregate_Forall; [constructor| |].
  - intros [n p] He. apply list_elem_of_In, in_flat_map in He as (p' & Hp' & Hn).
    unfold node_entries in Hn. apply in_map_iff in Hn as (n' & [= -> ->] & Hn).
    rewrite Forall_forall in Hp. apply list_elem_of_In in Hp'. destruct (Hp p Hp') as [Hk Hw].
    rewrite Forall_forall in Hw. apply list_elem_of_In in Hn. cbn. split_and!; [done|by apply Hw|].
    rewrite <- Hk. apply elem_of_map. eauto.
  - intros e v _ Hv. exact Hv.
Qed.

Lemma links_of_Forall paths :
  Forall (fun kl => exists p st, p ∈ paths /\ st ∈ path_links (pp_path p)
    /\ kl.1 = pathLinkKey st.1 st.2
    /\ dl_source kl.2 = pn_id st.1 /\ dl_target kl.2 = pn_id st.2) (links_of paths).
Proof.
  unfold links_of. apply aggregate_Forall; [constructor| |].
  - intros [[s t] p] He. apply list_elem_of_In, in_flat_map in He as (p' & Hp' & Hn).
    unfold link_entries in Hn. apply in_map_iff in Hn as ([s' t'] & [= -> -> ->] & Hn).
    exists p, (s, t). split_and!; [by apply list_elem_of_In|by apply list_elem_of_In|done..].
  - intros e v _ Hv. exact Hv.
Qed.
End Maps.

(** *** What the later passes keep *)

Definition node_view (n : @DashboardFlowNode A) : jstr * FlowNodeKind * A := (dn_id n, dn_kind n, dn_value n).
Definition link_view (l : @DashboardFlowLink A) : jstr * jstr * A := (dl_source l, dl_target l, dl_value l).

Lemma map_alter {X Y} (view : X -> Y) f i (l : list X) :
  (forall x, view (f x) = view x) -> map view (alter f i l) = map view l.
Proof.
  intros Hf. revert i. induction l as [|x l IH]; intros [|i]; cbn; [done..| |].
  - by rewrite Hf.
  - f_equal. apply IH.
Qed.

Lemma fold_keeps {X Y Z} (view : Z -> Y) (f : Z -> X -> Z) l : forall z,
  (forall z x, view (f z x) = view z) -> view (fold_left f l z) = view z.
Proof. induction l as [|x l IH]; intros z Hf; cbn; [done|]. by rewrite IH, Hf. Qed.

Definition share_view (l : @DashboardFlowLink A) : jstr * jstr * A * A := (link_view l, dl_share l).

Lemma colors_keep {X} (view : @DashboardFlowLink A -> X) links :
  (forall c a l, view (set_link_colors c a l) = view l) ->
  map view (assignLinkDisplayColors links) = map view links.
Proof.
  intros Hv. unfold assignLinkDisplayColors. apply (fold_keeps (map view)). intros ls [src group].
  unfold color_group. apply (fold_keeps (map view)). intros ls' [index position].
  apply map_alter. intros l. by destruct (alphaColor _ _).
Qed.

Lemma mask_keeps nodes links :
  map node_view (map_values (maskFlowGraphLabels nodes links).1) = map node_view (map_values nodes)
  /\ map link_view (map_values (maskFlowGraphLabels nodes links).2) = map link_view (map_values links).
Proof.
  unfold maskFlowGraphLabels, map_values. cbn [fst snd]. split.
  - rewrite !map_map. apply map_ext. intros [k n]. cbn. by destruct (must_mask n).
  - destruct (fold_left _ _ _); [done|]. rewrite !map_map. apply map_ext. by intros [k l].
Qed.

Lemma highlights_keep nodes links sets :
  map node_view (map_values (applyFlowHighlights nodes links sets).1) = map node_view (map_values nodes)
  /\ map link_view (map_values (applyFlowHighlights nodes links sets).2) = map link_view (map_values links).
Proof.
  unfold applyFlowHighlights, map_values. destruct sets as [hs|]; [|done]. cbn [fst snd].
  rewrite !map_map. split; apply map_ext; by intros [k x].
Qed.

(** The finished graph has the nodes and the links of the two maps. *)
Lemma graph_views rows metric role palette visible ctx options :
  let stages := resolveVisibleStages role visible in
  let paths := graph_paths rows metric stages ctx options in
  let g := buildFlowGraph rows metric role palette visible ctx options in
  exists colors,
    map node_view (dg_nodes g) ≡ₚ map node_view (map_values (nodes_of metric colors palette paths))
    /\ map link_view (dg_links g) ≡ₚ map link_view (map_values (links_of metric colors palette paths)).
Proof.
  cbn zeta. unfold buildFlowGraph. fold (graph_paths rows metric (resolveVisibleStages role visible) ctx options).
  set (paths := graph_paths _ _ _ _ _). set (colors := stableColorMap _ _). exists colors.
  rewrite nodes_of_fold, links_of_fold.
  destruct (mask_keeps (nodes_of metric colors palette paths) (links_of metric colors palette paths)) as [Hmn Hml].
  set (masked := if go_maskSensitive options then _ else _).
  assert (map node_view (map_values masked.1) = map node_view (map_values (nodes_of metric colors palette paths))
    /\ map link_view (map_values masked.2) = map link_view (map_values (links_of metric colors palette paths)))
    as [Hn1 Hl1] by (unfold masked; by destruct (go_maskSensitive options)).
  destruct masked as [nodes1 links1]. cbn [fst snd] in Hn1, Hl1.
  set (sets := buildFlowHighlightSets _ _ _ _).
  destruct (highlights_keep nodes1 links1 sets) as [Hn2 Hl2].
  destruct (applyFlowHighlights nodes1 links1 sets) as [nodes2 links2]. cbn [fst snd] in Hn2, Hl2.
  cbn [dg_nodes dg_links]. rewrite <- Hn1, <- Hn2, <- Hl1, <- Hl2. split.
  - apply Permutation_map, js_sort_perm.
  - match goal with |- context [assignLinkDisplayColors ?s] => set (shared := s) end.
    rewrite (colors_keep link_view shared) by done. unfold shared. rewrite map_map. apply Permutation_map, js_sort_perm.
Qed.

(** *** Links seen by source and by target *)

Definition no_nul (s : jstr) : bool := forallb (fun c => negb (c =? 0)%N) s.

Definition key_source (k : jstr) : jstr := (span (fun c => negb (c =? 0)%N) k).1.
Definition key_target (k : jstr) : jstr := tl (span (fun c => negb (c =? 0)%N) k).2.

Lemma key_parts s t : no_nul s = true ->
  key_source (link_key s t) = s /\ key_target (link_key s t) = t.
Proof.
  intros Hs. unfold key_source, key_target, link_key. by rewrite Json.span_app.
Qed.

Lemma map_fst_links path : map fst (path_links path) = removelast path.
Proof.
  unfold path_links. induction path as [|a [|b path] IH]; [done..|]. cbn in *. by rewrite IH.
Qed.

Lemma map_snd_links path : map snd (path_links path) = tl path.
Proof.
  unfold path_links. destruct path as [|a path]; [done|]. cbn [tl].
  revert a. induction path as [|b path IH]; intros a; [done|].
  change (b :: map snd (combine (b :: path) path) = b :: path). by rewrite IH.
Qed.

Lemma filter_removelast {I} (q : I -> bool) l :
  match last l with Some x => q x = false | None => True end ->
  List.filter q (removelast l) = List.filter q l.
Proof.
  induction l as [|x [|y l] IH]; [done| |].
  - cbn. by intros ->.
  - intros Hl. change (removelast (x :: y :: l)) with (x :: removelast (y :: l)).
    cbn [List.filter]. by rewrite IH.
Qed.

Lemma filter_tl {I} (q : I -> bool) l :
  match head l with Some x => q x = false | None => True end -> List.filter q (tl l) = List.filter q l.
Proof. destruct l as [|x l]; [done|]. cbn. by intros ->. Qed.

(** The rows name nothing with a NUL, the separator of link keys. *)
Definition rows_ok (rows : list FlowQuotaDataItem) (ctx : FlowPathContext) : Prop :=
  forall row k, row ∈ rows -> no_nul (pn_id (NODE_BUILDERS k row ctx)) = true.

Lemma prepared_ids rows stages sets mode labeler ctx : rows_ok rows ctx ->
  Forall (fun p => Forall (fun n => no_nul (pn_id n) = true) (pp_path p))
    (prepare_paths rows stages sets mode labeler ctx : list (@PreparedFlowPath A)).
Proof.
  intros Hr. unfold prepare_paths. apply Forall_forall. intros p Hp.
  apply list_elem_of_omap in Hp as (row & Hrow & E).
  destruct (applyTopNodeLimit _ _ _ _) as [path|] eqn:Ep; [|done]. injection E as <-. cbn.
  assert (Forall (fun n => no_nul (pn_id n) = true) (flowPathForStages row stages ctx)) as Hf.
  { apply Forall_map, Forall_forall. intros k _. by apply Hr. }
  unfold applyTopNodeLimit in Ep. destruct sets as [s|]; [|by injection Ep as <-].
  destruct (negb _); [by injection Ep as <-|]. destruct mode; [|done]. injection Ep as <-.
  apply Forall_map. eapply Forall_impl; [exact Hf|]. intros n Hn. cbn.
  match goal with |- context [if ?b then n else _] => destruct b end; [done|].
  by destruct (pn_kind n).
Qed.

Lemma total_flat_map {X} (f : X -> list N) l : total (flat_map f l) = total (map (fun x => total (f x)) l).
Proof. induction l as [|x l IH]; cbn; [done|]. by rewrite total_app, IH. Qed.

Lemma spread_once v (id : jstr) l : NoDup l -> (total (spread v (fun i => i ==? id) l) <= v)%N.
Proof.
  unfold spread. induction 1 as [|x l Hx _ IH]; cbn; [lia|]. bd; [|done]. subst. cbn.
  assert (List.filter (fun i => i ==? id) l = []) as ->; [|cbn; lia].
  clear IH. induction l as [|y l IHl]; [done|]. cbn. apply not_elem_of_cons in Hx as [Hy Hl].
  rewrite bool_decide_false by congruence. by apply IHl.
Qed.

(** The identifiers of a path are distinct: each names the kind of its stage. *)
Lemma path_ids_NoDup stages path : NoDup stages -> path_ok stages path -> NoDup (map pn_id path).
Proof.
  intros Hnd [Hk Hw]. apply (NoDup_fmap_1 id_kind).
  assert (id_kind <$> map pn_id path = Some <$> stages) as ->; [|by apply NoDup_fmap_2; [apply _|]].
  rewrite <- Hk. clear Hk Hnd. induction Hw as [|n path Hn _ IH]; [done|].
  change (id_kind (pn_id n) :: (id_kind <$> map pn_id path) = Some (pn_kind n) :: (Some <$> map pn_kind path)).
  unfold well_kinded in Hn. by rewrite Hn, IH.
Qed.

Section Balance.
Context `{!ExactSums A}.
Context (metric : FlowMetric) (colors : list (jstr * jstr)) (palette : option (list jstr)).
Context (paths : list (@PreparedFlowPath A)) (stages : list FlowNodeKind).
Context (Hok : Forall (fun p => path_ok stages (pp_path p)) paths).
Context (Hnd : NoDup stages).
Context (Hnul : Forall (fun p => Forall (fun n => no_nul (pn_id n) = true) (pp_path p)) paths).
Notation path_value p := (metricValue (pp_metrics p) metric).
Notation path_count p := (count_of (metricValue (pp_metrics p) metric)).
Context (Hwhole : forall p, p ∈ paths -> path_value p = whole (path_count p)).
Context (Hmax : (total (map (fun p => path_count p) paths) <= exact_max)%N).
Notation nodes := (nodes_of metric colors palette paths).
Notation links := (links_of metric colors palette paths).

(** What the paths through a node carry together. *)
Definition crossings (id : jstr) : N :=
  total (flat_map (fun p => spread (path_count p) (fun i => i ==? id) (map pn_id (pp_path p))) paths).

Lemma crossings_max id : (crossings id <= exact_max)%N.
Proof.
  etransitivity; [|exact Hmax]. unfold crossings. rewrite total_flat_map. apply total_le. intros p Hp.
  apply spread_once, (path_ids_NoDup stages); [done|]. rewrite Forall_forall in Hok. by apply Hok.
Qed.

Lemma node_value_of id n : (id, n) ∈ nodes -> dn_value n = whole (crossings id).
Proof.
  intros Hn. assert (crossings id = total (map (fun e => path_count e.2)
    (of_key (fun e => pn_id e.1) id (flat_map node_entries paths)))) as E
    by (symmetry; exact (nodes_count (fun p => path_count p) (fun i => i ==? id) paths)).
  pose proof (crossings_max id) as Hc. rewrite E in Hc |- *.
  transitivity (n_sum (map (fun e => path_value e.2) (of_key (fun e => pn_id e.1) id (flat_map node_entries paths)))).
  { by eapply (aggregate_value _ _ _ dn_value (fun e => path_value e.2)); [| |exact Hn]. }
  apply n_sum_whole; [|exact Hc]. intros e He. apply elem_of_filter_bool in He as [_ He].
  by apply Hwhole, node_entry_path.
Qed.

Lemma path_link_ends (path : list FlowPathNode) st :
  st ∈ path_links path -> st.1 ∈ path /\ st.2 ∈ path.
Proof.
  destruct st as [s t]. unfold path_links. rewrite list_elem_of_In. intros Hst. cbn. split.
  - apply list_elem_of_In. by apply in_combine_l in Hst.
  - apply in_combine_r in Hst. apply list_elem_of_In. destruct path; [done|by right].
Qed.

Lemma path_id_nul p n : p ∈ paths -> n ∈ pp_path p -> no_nul (pn_id n) = true.
Proof.
  rewrite Forall_forall in Hnul. intros Hp Hn. specialize (Hnul p Hp).
  rewrite Forall_forall in Hnul. by apply Hnul.
Qed.

Lemma link_key_parts :
  Forall (fun kl => key_source kl.1 = dl_source kl.2 /\ key_target kl.1 = dl_target kl.2) links.
Proof.
  eapply Forall_impl; [apply links_of_Forall|].
  intros [k l] (p & st & Hp & Hst & Hk & Hs & Ht). cbn [fst snd] in *.
  apply path_link_ends in Hst as [Hst _].
  destruct (key_parts (pn_id st.1) (pn_id st.2)) as [E1 E2]; [by apply (path_id_nul p)|].
  unfold pathLinkKey in Hk. by rewrite Hk, E1, E2, Hs, Ht.
Qed.

(** The values of the links by an end, as the entries of some keys. *)
Lemma values_by_key (f : @DashboardFlowLink A -> jstr) (g : jstr -> jstr) id m :
  Forall (fun kl => g kl.1 = f kl.2) m ->
  map dl_value (List.filter (fun l => f l ==? id) (map_values m))
  = map (fun kl => dl_value kl.2) (List.filter (fun kl => g kl.1 ==? id) m).
Proof.
  unfold map_values. induction 1 as [|[k l] m Hkl _ IH]; cbn; [done|].
  cbn in Hkl. rewrite Hkl. destruct (f l ==? id); cbn; by rewrite IH.
Qed.

(** Links, in any order, whose keys are those of the paths through [id]. *)
Lemma links_sum (f : @DashboardFlowLink A -> jstr) (g : jstr -> jstr) id L :
  Forall (fun kl => g kl.1 = f kl.2) links ->
  total (flat_map (fun p => spread (path_count p) (fun st => g (pathLinkKey st.1 st.2) ==? id)
                              (path_links (pp_path p))) paths) = crossings id ->
  L ≡ₚ map dl_value (List.filter (fun l => f l ==? id) (map_values links)) ->
  n_sum L = whole (crossings id).
Proof.
  intros Hg E HL. rewrite (values_by_key f g) in HL by done.
  pose proof (links_count (fun p => path_count p) (fun k => g k ==? id) paths) as Ec. cbv beta in Ec.
  rewrite E in Ec. rewrite <- Ec.
  pose (q := fun k : jstr => g k ==? id).
  apply (aggregate_group (fun e => pathLinkKey e.1.1 e.1.2)
           (fun e => new_link e.1.1 e.1.2 (path_color colors palette e.2) (path_root e.2))
           (fun e => link_add (pp_metrics e.2) metric) dl_value (fun e => path_value e.2) (fun e => path_count e.2)
           q (flat_map link_entries paths)); [done|done| |unfold q; rewrite Ec; apply crossings_max|exact HL].
  intros e He. by apply Hwhole, link_entry_path.
Qed.

Lemma out_crossings id :
  (forall p, p ∈ paths -> match last (map pn_id (pp_path p)) with Some x => (x ==? id) = false | None => True end) ->
  total (flat_map (fun p => spread (path_count p) (fun st => key_source (pathLinkKey st.1 st.2) ==? id)
                              (path_links (pp_path p))) paths) = crossings id.
Proof.
  intros Hlast. unfold crossings. f_equal. apply flat_map_ext_in. intros p Hp. apply list_elem_of_In in Hp.
  transitivity (spread (path_count p) (fun i => i ==? id) (removelast (map pn_id (pp_path p))));
    [|unfold spread; rewrite filter_removelast; [done|by apply Hlast]].
  assert (removelast (map pn_id (pp_path p)) = map (fun st => pn_id st.1) (path_links (pp_path p))) as ->.
  { rewrite <- (map_map fst pn_id), map_fst_links.
    generalize (pp_path p) as l. induction l as [|x [|y l] IH]; [done..|].
    change (pn_id x :: removelast (map pn_id (y :: l)) = pn_id x :: map pn_id (removelast (y :: l))).
    by rewrite IH. }
  rewrite spread_map. apply spread_ext. intros st Hst. apply path_link_ends in Hst as [Hst _].
  unfold pathLinkKey. by rewrite (proj1 (key_parts _ _ (path_id_nul p _ Hp Hst))).
Qed.

Lemma in_crossings id :
  (forall p, p ∈ paths -> match head (map pn_id (pp_path p)) with Some x => (x ==? id) = false | None => True end) ->
  total (flat_map (fun p => spread (path_count p) (fun st => key_target (pathLinkKey st.1 st.2) ==? id)
                              (path_links (pp_path p))) paths) = crossings id.
Proof.
  intros Hhead. unfold crossings. f_equal. apply flat_map_ext_in. intros p Hp. apply list_elem_of_In in Hp.
  transitivity (spread (path_count p) (fun i => i ==? id) (tl (map pn_id (pp_path p))));
    [|unfold spread; rewrite filter_tl; [done|by apply Hhead]].
  assert (tl (map pn_id (pp_path p)) = map (fun st => pn_id st.2) (path_links (pp_path p))) as ->.
  { rewrite <- (map_map snd pn_id), map_snd_links. by destruct (pp_path p). }
  rewrite spread_map. apply spread_ext. intros st Hst. apply path_link_ends in Hst as [Hst _].
  unfold pathLinkKey. by rewrite (proj2 (key_parts _ _ (path_id_nul p _ Hp Hst))).
Qed.

(** An identifier of another kind than a path's end is not at that end. *)
Lemma not_at_last id k p : p ∈ paths -> id_kind id = Some k -> last stages <> Some k ->
  match last (map pn_id (pp_path p)) with Some x => (x ==? id) = false | None => True end.
Proof.
  intros Hp Hid Hl. rewrite Forall_forall in Hok. destruct (Hok p Hp) as [Hk Hw].
  rewrite <- Hk in Hl. change (map pn_id (pp_path p)) with (pn_id <$> pp_path p).
  change (map pn_kind (pp_path p)) with (pn_kind <$> pp_path p) in Hl.
  rewrite fmap_last in Hl. rewrite fmap_last.
  destruct (last (pp_path p)) as [n|] eqn:E; [|done]. cbn in Hl |- *.
  apply bool_decide_eq_false. intros <-. apply Hl. f_equal.
  apply last_Some_elem_of in E. rewrite Forall_forall in Hw. specialize (Hw n E).
  unfold well_kinded in Hw. congruence.
Qed.

Lemma not_at_head id k p : p ∈ paths -> id_kind id = Some k -> head stages <> Some k ->
  match head (map pn_id (pp_path p)) with Some x => (x ==? id) = false | None => True end.
Proof.
  intros Hp Hid Hl. rewrite Forall_forall in Hok. destruct (Hok p Hp) as [Hk Hw].
  rewrite <- Hk in Hl. destruct (pp_path p) as [|n t]; [done|]. cbn [map head] in *.
  apply bool_decide_eq_false. intros <-. apply Hl. f_equal.
  inversion Hw as [|? ? Hn _]; subst. unfold well_kinded in Hn. congruence.
Qed.

Lemma balance_out id n k L :
  (id, n) ∈ nodes -> id_kind id = Some k -> last stages <> Some k ->
  L ≡ₚ map dl_value (List.filter (fun l => dl_source l ==? id) (map_values links)) -> n_sum L = dn_value n.
Proof.
  intros Hn Hid Hl HL. rewrite (node_value_of id n) by done. apply (links_sum dl_source key_source id L); [| |done].
  - eapply Forall_impl; [apply link_key_parts|]. by intros kl [? _].
  - apply out_crossings. intros p Hp. by apply (not_at_last id k).
Qed.

Lemma balance_in id n k L :
  (id, n) ∈ nodes -> id_kind id = Some k -> head stages <> Some k ->
  L ≡ₚ map dl_value (List.filter (fun l => dl_target l ==? id) (map_values links)) -> n_sum L = dn_value n.
Proof.
  intros Hn Hid Hl HL. rewrite (node_value_of id n) by done. apply (links_sum dl_target key_target id L); [| |done].
  - eapply Forall_impl; [apply link_key_parts|]. by intros kl [_ ?].
  - apply in_crossings. intros p Hp. by apply (not_at_head id k).
Qed.
End Balance.

(** *** The graph *)

Lemma graph_paths_ok rows metric stages ctx options :
  Forall (fun p => path_ok stages (pp_path p)) (graph_paths rows metric stages ctx options).
Proof. apply prepared_path_ok. Qed.

(** A node of the finished graph is a node of the map, up to its label and flags. *)
Lemma graph_node rows metric role palette visible ctx options n :
  let stages := resolveVisibleStages role visible in
  n ∈ dg_nodes (buildFlowGraph rows metric role palette visible ctx options) ->
  exists colors n0,
    (dn_id n, n0) ∈ nodes_of metric colors palette (graph_paths rows metric stages ctx options)
    /\ node_view n = node_view n0 /\ id_kind (dn_id n) = Some (dn_kind n) /\ dn_kind n ∈ stages
    /\ map link_view (dg_links (buildFlowGraph rows metric role palette visible ctx options))
       ≡ₚ map link_view (map_values (links_of metric colors palette (graph_paths rows metric stages ctx options))).
Proof.
  cbn zeta. intros Hn.
  destruct (graph_views rows metric role palette visible ctx options) as (colors & Hv & Hl).
  assert (node_view n ∈ map node_view (dg_nodes (buildFlowGraph rows metric role palette visible ctx options)))
    as Hin by (apply elem_of_map; eauto).
  rewrite Hv in Hin. apply elem_of_map in Hin as (n0 & Hn0 & E).
  unfold map_values in Hn0. apply elem_of_map in Hn0 as ([k n0'] & Hkn & Hs). cbn in Hs. subst n0'.
  pose proof (nodes_of_Forall metric colors palette _ _
    (graph_paths_ok rows metric (resolveVisibleStages role visible) ctx options)) as Hf.
  rewrite Forall_forall in Hf. destruct (Hf _ Hkn) as (Hid & Hk & Hst). cbn in Hid, Hk, Hst.
  injection E as E1 E2 E3. exists colors, n0. rewrite E1, E2, Hid. unfold node_view.
  rewrite E1, E2, E3. done.
Qed.

(** *** Whole amounts *)

(** The rows carry whole amounts of the metric, which together stay exact. *)
Definition whole_rows `{!ExactSums A} (rows : list FlowQuotaDataItem) (metric : FlowMetric) : Prop :=
  (forall row, row ∈ rows -> row_value metric row = whole (count_of (row_value metric row)))
  /\ (total (map (fun row => count_of (row_value metric row)) rows) <= exact_max)%N.

Lemma prepared_rows rows stages sets mode labeler ctx :
  exists kept, kept `sublist_of` rows
    /\ map pp_metrics (prepare_paths rows stages sets mode labeler ctx) = map rowMetrics kept.
Proof.
  unfold prepare_paths. induction rows as [|row rows (kept & Hk & E)]; [by exists []|]. cbn.
  destruct (applyTopNodeLimit _ _ _ _) as [path|]; cbn.
  - exists (row :: kept). split; [by constructor|]. by rewrite E.
  - exists kept. split; [by constructor|done].
Qed.

Lemma total_sublist {X} (f : X -> N) l k : l `sublist_of` k -> (total (map f l) <= total (map f k))%N.
Proof. induction 1; cbn; lia. Qed.

Lemma graph_paths_whole `{!ExactSums A} rows metric stages ctx options : whole_rows rows metric ->
  let paths := graph_paths rows metric stages ctx options in
  let value p := metricValue (pp_metrics p) metric in
  (forall p, p ∈ paths -> value p = whole (count_of (value p)))
  /\ (total (map (fun p => count_of (value p)) paths) <= exact_max)%N.
Proof.
  intros [Hw Hm]. cbv zeta. unfold graph_paths.
  match goal with |- context [prepare_paths rows stages ?a ?b ?c ctx] =>
    destruct (prepared_rows rows stages a b c ctx) as (kept & Hk & E); set (paths := prepare_paths rows stages a b c ctx) in * end.
  split.
  - intros p Hp. assert (pp_metrics p ∈ map rowMetrics kept) as Hin by (rewrite <- E; apply elem_of_map; eauto).
    apply elem_of_map in Hin as (row & Hrow & ->). apply Hw. eapply elem_of_submseteq; [exact Hrow|by apply sublist_submseteq].
  - rewrite <- (map_map pp_metrics (fun m => count_of (metricValue m metric)) paths), E, map_map.
    etransitivity; [by apply (total_sublist (fun row => count_of (row_value metric row)))|exact Hm].
Qed.

(** The metric is conserved at every node of the map and so of the graph. *)
Lemma conservation `{!ExactSums A} rows metric role palette visible ctx options :
  rows_ok rows ctx -> whole_rows rows metric ->
  let stages := resolveVisibleStages role visible in
  let g := buildFlowGraph rows metric role palette visible ctx options in
  forall n, n ∈ dg_nodes g ->
    (last stages <> Some (dn_kind n) ->
     n_sum (map dl_value (List.filter (fun l => dl_source l ==? dn_id n) (dg_links g))) = dn_value n)
    /\ (head stages <> Some (dn_kind n) ->
        n_sum (map dl_value (List.filter (fun l => dl_target l ==? dn_id n) (dg_links g))) = dn_value n).
Proof.
  intros Hr Hw stages g n Hn.
  destruct (graph_node rows metric role palette visible ctx options n Hn)
    as (colors & n0 & Hn0 & Hv & Hk & _ & Hl).
  pose proof (graph_paths_ok rows metric stages ctx options) as Hok.
  assert (Forall (fun p => Forall (fun n => no_nul (pn_id n) = true) (pp_path p))
            (graph_paths rows metric stages ctx options)) as Hnul by (by apply prepared_ids).
  destruct (graph_paths_whole rows metric stages ctx options Hw) as [Hwhole Hmax].
  injection Hv as _ _ Hval. split; intros Hend; rewrite Hval.
  - eapply (balance_out metric colors palette _ stages Hok (stages_NoDup _ _) Hnul Hwhole Hmax _ n0 _ _ Hn0 Hk Hend).
    pose (q := fun v : jstr * jstr * A => v.1.1 ==? dn_id n).
    exact (view_filter_perm link_view q (fun v => v.2) _ _ Hl).
  - eapply (balance_in metric colors palette _ stages Hok (stages_NoDup _ _) Hnul Hwhole Hmax _ n0 _ _ Hn0 Hk Hend).
    pose (q := fun v : jstr * jstr * A => v.1.2 ==? dn_id n).
    exact (view_filter_perm link_view q (fun v => v.2) _ _ Hl).
Qed.

Lemma filter_kind_once (stages : list FlowNodeKind) k : NoDup stages -> k ∈ stages ->
  List.filter (fun x => x ==? k) stages = [k].
Proof.
  induction stages as [|x stages IH]; intros Hnd Hk; [by apply elem_of_nil in Hk|].
  inversion Hnd as [|? ? Hni Hnd']; subst. cbn. destruct (decide (x = k)) as [->|Hne].
  - rewrite bool_decide_true by done. f_equal. clear IH Hnd Hnd' Hk.
    induction stages as [|y stages IH]; cbn; [done|]. rewrite bool_decide_false by set_solver.
    apply IH. set_solver.
  - rewrite bool_decide_false by done. apply IH; [done|]. set_solver.
Qed.

(** A path crosses each stage once. *)
Lemma stage_once stages path k v : path_ok stages path -> NoDup stages -> k ∈ stages ->
  spread v (fun id => id_kind id ==? Some k) (map pn_id path) = [v].
Proof.
  intros [Hk Hw] Hnd Hin. pose (q := fun x : FlowNodeKind => x ==? k).
  transitivity (spread v q (map pn_kind path)).
  - rewrite !spread_map. apply spread_ext. intros n Hn. rewrite Forall_forall in Hw.
    rewrite (Hw n Hn). apply bool_decide_ext. naive_solver.
  - rewrite Hk. unfold spread, q. by rewrite filter_kind_once.
Qed.

(** What a column carries: every kept path once. *)
Lemma column_total `{!ExactSums A} rows metric role palette visible ctx options k :
  whole_rows rows metric ->
  let stages := resolveVisibleStages role visible in
  k ∈ stages ->
  n_sum (map dn_value (List.filter (fun n => dn_kind n ==? k)
           (dg_nodes (buildFlowGraph rows metric role palette visible ctx options))))
  = whole (total (map (fun p => count_of (metricValue (pp_metrics p) metric))
                    (graph_paths rows metric stages ctx options))).
Proof.
  intros Hw. cbn zeta. intros Hk.
  destruct (graph_views rows metric role palette visible ctx options) as (colors & Hv & _).
  pose proof (graph_paths_ok rows metric (resolveVisibleStages role visible) ctx options) as Hok.
  destruct (graph_paths_whole rows metric (resolveVisibleStages role visible) ctx options Hw) as [Hwhole Hmax].
  set (paths := graph_paths _ _ _ _ _) in *. pose (q := fun id : jstr => id_kind id ==? Some k).
  pose proof (nodes_count (fun p => count_of (metricValue (pp_metrics p) metric)) q paths) as Ec.
  assert (total (flat_map (fun p => spread (count_of (metricValue (pp_metrics p) metric)) q (map pn_id (pp_path p))) paths)
    = total (map (fun p => count_of (metricValue (pp_metrics p) metric)) paths)) as Et.
  { clear -Hok Hk. induction Hok as [|p ps Hp _ IH]; [done|]. cbn [flat_map map total].
    unfold q in *. rewrite (stage_once (resolveVisibleStages role visible) (pp_path p) k) by (done || apply stages_NoDup).
    cbn [app total]. by rewrite IH. }
  cbv beta in Ec. rewrite Et in Ec. rewrite <- Ec in Hmax |- *.
  apply (aggregate_group (fun e => pn_id e.1) (fun e => new_node e.1 (path_color colors palette e.2) (path_root e.2))
           (fun e => node_add (pp_metrics e.2) metric) dn_value (fun e => metricValue (pp_metrics e.2) metric)
           (fun e => count_of (metricValue (pp_metrics e.2) metric)) q (flat_map node_entries paths)); [done|done| |exact Hmax|].
  { intros e He. by apply Hwhole, node_entry_path. }
  pose (r := fun v : jstr * FlowNodeKind * A => v.1.2 ==? k).
  etransitivity; [exact (view_filter_perm node_view r (fun v => v.2) _ _ Hv)|].
  apply reflexive_eq. unfold r, q, map_values. cbn [node_view fst snd].
  fold (nodes_of metric colors palette paths).
  clear -Hok. induction (nodes_of_Forall metric colors palette _ _ Hok) as [|[id n] m (_ & Hid & _) _ IH]; [done|].
  cbn [map List.filter fst snd] in Hid |- *. rewrite Hid.
  replace (dn_kind n ==? k) with (Some (dn_kind n) ==? Some k) by (apply bool_decide_ext; naive_solver).
  destruct (Some (dn_kind n) ==? Some k); cbn [map snd]; [f_equal|]; exact IH.
Qed.

Definition summary_value (s : @FlowSummary A) (metric : FlowMetric) : A :=
  match metric with
  | MetricRequests => fs_requests s
  | MetricTokens => fs_tokens s
  | MetricQuota => fs_quota s
  end.

Lemma summary_sum rows metric :
  summary_value (buildSummary rows) metric = n_sum (map (row_value metric) rows).
Proof.
  unfold buildSummary, n_sum.
  match goal with |- summary_value (fold_left ?f rows ?z) _ = _ =>
    enough (forall s, summary_value (fold_left f rows s) metric
                      = fold_left n_add (map (row_value metric) rows) (summary_value s metric)) as Hg
      by (rewrite Hg; by destruct metric) end.
  induction rows as [|row rows IH]; intros s; [done|]. cbn [fold_left map]. rewrite IH. f_equal. by destruct metric.
Qed.

Lemma aggregate_paths {X} rows stages sets labeler ctx (val : @FlowMetrics A -> X) :
  map (fun p => val (pp_metrics p)) (prepare_paths rows stages sets OverflowAggregate labeler ctx)
  = map (fun row => val (rowMetrics row)) rows.
Proof.
  unfold prepare_paths. induction rows as [|row rows IH]; [done|]. cbn.
  destruct (aggregate_keeps_path (flowPathForStages row stages ctx) sets labeler) as [path ->].
  cbn. by rewrite IH.
Qed.

Lemma columns_total `{!ExactSums A} rows metric role palette visible ctx options :
  whole_rows rows metric ->
  let stages := resolveVisibleStages role visible in
  let g := buildFlowGraph rows metric role palette visible ctx options in
  let column k := n_sum (map dn_value (List.filter (fun n => dn_kind n ==? k) (dg_nodes g))) in
  (forall k k', k ∈ stages -> k' ∈ stages -> column k = column k')
  /\ (go_overflowMode options <> Some OverflowHide ->
      forall k, k ∈ stages -> column k = summary_value (buildSummary rows) metric).
Proof.
  intros Hw. cbn zeta. split.
  - intros k k' Hk Hk'. by rewrite !column_total.
  - intros Hm k Hk. rewrite column_total, summary_sum by done. destruct Hw as [Hrows Hmax].
    rewrite (n_sum_whole (row_value metric) (fun row => count_of (row_value metric row))) by done. do 2 f_equal.
    unfold graph_paths.
    assert (default DEFAULT_FLOW_OVERFLOW_MODE (go_overflowMode options) = OverflowAggregate) as ->.
    { destruct (go_overflowMode options) as [[]|]; done. }
    apply (aggregate_paths _ _ _ _ _ (fun m => count_of (metricValue m metric))).
Qed.

(** *** Shares *)

(** What the links that leave the first column carry together, in their order. *)
Definition first_column_total rows metric role palette visible ctx options : A :=
  let roots := root_ids (graph_paths rows metric (resolveVisibleStages role visible) ctx options) in
  n_sum (map dl_value (List.filter (fun l => bool_decide (dl_source l ∈ roots))
    (dg_links (buildFlowGraph rows metric role palette visible ctx options)))).

(** Every share is the link's value over the total of the first column, zero when that
    total is not positive. *)
Theorem shares_spec rows metric role palette visible ctx options l :
  l ∈ dg_links (buildFlowGraph rows metric role palette visible ctx options) ->
  let total := first_column_total rows metric role palette visible ctx options in
  dl_share l = if n_lt n_zero total then n_div (dl_value l) total else n_zero.
Proof.
  unfold first_column_total. set (g := buildFlowGraph _ _ _ _ _ _ _). set (roots := root_ids _).
  intros Hl. cbv zeta.
  assert (exists flow, map share_view (dg_links g)
    = map share_view (map (fun l => set_share
        (if n_lt n_zero (first_step_total flow roots) then n_div (dl_value l) (first_step_total flow roots)
         else n_zero) l) flow)) as [flow Hg].
  { unfold g, buildFlowGraph.
    fold (graph_paths rows metric (resolveVisibleStages role visible) ctx options). fold roots.
    destruct (if go_maskSensitive options then _ else _) as [n1 l1].
    destruct (applyFlowHighlights n1 l1 _) as [n2 l2]. cbn [dg_links]. eexists. by apply colors_keep. }
  assert (map link_view (dg_links g) = map link_view flow) as Hlv.
  { rewrite <- (map_id (map link_view flow)). change link_view with (fun l => (share_view l).1).
    rewrite <- (map_map share_view fst (dg_links g)), Hg, !map_map. by apply map_ext. }
  assert (map dl_value (List.filter (fun l => bool_decide (dl_source l ∈ roots)) (dg_links g))
    = map dl_value (List.filter (fun l => bool_decide (dl_source l ∈ roots)) flow)) as ->.
  { pose (q := fun v : jstr * jstr * A => bool_decide (v.1.1 ∈ roots)).
    etransitivity; [exact (view_filter link_view q (fun v => v.2) (dg_links g))|].
    rewrite Hlv. symmetry. exact (view_filter link_view q (fun v => v.2) flow). }
  change (n_sum (map dl_value (List.filter (fun l => bool_decide (dl_source l ∈ roots)) flow)))
    with (first_step_total flow roots).
  set (t := first_step_total flow roots) in *. clearbody t g. clear Hlv. rewrite map_map in Hg.
  revert flow Hg Hl. induction (dg_links g) as [|l' ls IH]; intros [|f flow] Hg Hl; try done;
    [by apply elem_of_nil in Hl|]. cbn in Hg. injection Hg as H1 H2 H3 H4 Hg.
  apply elem_of_cons in Hl as [->|Hl]; [by rewrite H4, H3|by apply (IH flow)].
Qed.
End Conservation.

(** ** In the program's arithmetic *)

Section Binary64.
Context `{!FlowEnv num}.

(** C4: the metric is conserved at every node: the links that leave a node carry
    together the node's value, unless it is in the last column, and so do the links
    that enter it, unless it is in the first one, whatever the filters, the node
    limit, the overflow mode, the masking and the selection. The sums are the rounded
    ones of binary64; the amounts of the rows are whole numbers, as the server stores
    them, that together stay below 2^53. *)
Theorem flow_conservation rows metric role palette visible ctx options :
  rows_ok rows ctx -> whole_rows rows metric ->
  let stages := resolveVisibleStages role visible in
  let g := buildFlowGraph rows metric role palette visible ctx options in
  forall n, n ∈ dg_nodes g ->
    (last stages <> Some (dn_kind n) ->
     fold_left nadd (map dl_value (List.filter (fun l => dl_source l ==? dn_id n) (dg_links g))) nzero = dn_value n)
    /\ (head stages <> Some (dn_kind n) ->
        fold_left nadd (map dl_value (List.filter (fun l => dl_target l ==? dn_id n) (dg_links g))) nzero = dn_value n).
Proof. intros Hr Hw. exact (conservation rows metric role palette visible ctx options Hr Hw). Qed.

(** Every visible column carries the same total, and unless overflow nodes are
    hidden that total is the summary's: no row is lost or counted twice. The amounts are
    whole numbers that together stay below 2^53. *)
Theorem columns_carry_the_summary rows metric role palette visible ctx options :
  whole_rows rows metric ->
  let stages := resolveVisibleStages role visible in
  let g := buildFlowGraph rows metric role palette visible ctx options in
  let column k := fold_left nadd (map dn_value (List.filter (fun n => dn_kind n ==? k) (dg_nodes g))) nzero in
  (forall k k', k ∈ stages -> k' ∈ stages -> column k = column k')
  /\ (go_overflowMode options <> Some OverflowHide ->
      forall k, k ∈ stages -> column k = summary_value (buildSummary rows) metric).
Proof. intros Hw. exact (columns_total rows metric role palette visible ctx options Hw). Qed.
End Binary64.

(** ** A concrete environment *)

Fixpoint code_unit_compare (a b : jstr) : comparison :=
  match a, b with
  | [], [] => Eq
  | [], _ => Lt
  | _, [] => Gt
  | x :: a, y :: b => match (x ?= y)%N with Eq => code_unit_compare a b | c => c end
  end.

#[export] Instance demo_env : FlowEnv num := {
  localeCompare := code_unit_compare;
  vchartDefaultDataScheme :=
    [{| cs_maxDomainLength := 10; cs_scheme := [Some "#1664FF"; Some "#1AC6FF"; None] |}];
  formatNumber _ := []
}.

Definition demo_row (user token model : jstr) (quota : Z) : FlowQuotaDataItem :=
  {| fr_user_id := JUndef; fr_username := user; fr_node_name := []; fr_use_group := "vip";
     fr_token_id := JNum nzero; fr_token_name := token; fr_channel_id := JNum (num_of_Z 3);
     fr_channel_name := "main"; fr_model_name := model; fr_token_used := JNum (num_of_Z 10);
     fr_count := JNum (num_of_Z 1); fr_quota := JNum (num_of_Z quota) |}.

Definition demo_rows : list FlowQuotaDataItem :=
  [demo_row "ann" "k1" "gpt" 5; demo_row "bob" "k2" "claude" 7; demo_row "ann" "k1" "claude" 1].

Definition demo_options : FlowGraphOptions :=
  {| go_topNodeLimit := Some (num_of_Z 1); go_overflowMode := None; go_otherNodeLabel := None;
     go_activeNode := Some {| ff_kind := KModel; ff_id := "model:claude" |}; go_activeLink := None;
     go_maskSensitive := true |}.

Lemma demo_rows_ok : rows_ok demo_rows EMPTY_FLOW_PATH_CONTEXT.
Proof.
  intros row k Hr. unfold demo_rows in Hr.
  repeat (apply elem_of_cons in Hr as [->|Hr]; [destruct k; vm_compute; reflexivity|]).
  by apply elem_of_nil in Hr.
Qed.

Lemma demo_rows_whole metric : whole_rows demo_rows metric.
Proof.
  split; [|by destruct metric; vm_compute].
  intros row Hr. unfold demo_rows in Hr.
  repeat (apply elem_of_cons in Hr as [->|Hr]; [destruct metric; vm_compute; reflexivity|]).
  by apply elem_of_nil in Hr.
Qed.

Lemma flow_conservation_witness :
  rows_ok demo_rows EMPTY_FLOW_PATH_CONTEXT
  /\ let g := buildFlowGraph demo_rows MetricQuota "root" None None EMPTY_FLOW_PATH_CONTEXT demo_options in
     forall n, n ∈ dg_nodes g -> dn_kind n = KModel ->
       fold_left nadd (map dl_value (List.filter (fun l => dl_source l ==? dn_id n) (dg_links g))) nzero = dn_value n.
Proof.
  split; [exact demo_rows_ok|]. cbv zeta. intros n Hn Hk.
  refine (proj1 (flow_conservation demo_rows MetricQuota "root" None None EMPTY_FLOW_PATH_CONTEXT demo_options
           demo_rows_ok (demo_rows_whole _) n Hn) _).
  rewrite Hk. vm_compute. discriminate.
Defined.

Lemma shares_spec_witness :
  Forall (fun l => dl_share l = n_div (dl_value l) (num_of_Z 13))
    (dg_links (buildFlowGraph demo_rows MetricQuota "user" None None EMPTY_FLOW_PATH_CONTEXT demo_options)).
Proof.
  apply Forall_forall. intros l Hl.
  pose proof (shares_spec demo_rows MetricQuota "user" None None EMPTY_FLOW_PATH_CONTEXT demo_options l Hl) as E.
  cbv zeta in E. rewrite E. clear E Hl.
  match goal with |- context [first_column_total ?a ?b ?c ?d ?e ?f ?g] =>
    assert (first_column_total a b c d e f g = num_of_Z 13) as -> by (vm_compute; reflexivity) end.
  reflexivity.
Defined.

Lemma columns_carry_the_summary_witness :
  go_overflowMode demo_options <> Some OverflowHide
  /\ fold_left nadd (map dn_value (List.filter (fun n => dn_kind n ==? KModel)
       (dg_nodes (buildFlowGraph demo_rows MetricQuota "user" None None EMPTY_FLOW_PATH_CONTEXT demo_options)))) nzero
     = summary_value (buildSummary demo_rows) MetricQuota.
Proof.
  assert (go_overflowMode demo_options <> Some OverflowHide) as Hm by (cbn; discriminate).
  assert (KModel ∈ resolveVisibleStages "user" None) as Hk by (apply (bool_decide_eq_true_1 _); vm_compute; reflexivity).
  split; [exact Hm|].
  pose proof (columns_carry_the_summary demo_rows MetricQuota "user" None None EMPTY_FLOW_PATH_CONTEXT demo_options
    (demo_rows_whole _)) as [_ H].
  cbv beta in H. specialize (H Hm KModel Hk). exact H.
Defined.
