(* ===== verification/FlowMarks.v ===== *)
(** * Quota flow graph: masking and highlighting

    Companion of [Flow] and [FlowProofs]: which labels a masked graph shows and
    which nodes and links a selection highlights or dims. *)
From S2P Require Import Prelude JsString JsNumber JsValue Numeric OrderedMap Aggregate ModelMapping Flow FlowProofs.

(** A label that discloses nothing. *)
Definition hidden (label : jstr) : Prop := label = [] \/ label = FLOW_MASK_TEXT.

Lemma mask_hidden label : hidden (maskFlowLabel label).
Proof. destruct label; [by left|by right]. Qed.

(** ** The buckets of overflow nodes *)

Definition bucket_id (k : FlowNodeKind) : jstr := kind_name k ++ ":__other__".

(** The texts of numbers have no underscore. *)
Definition plain (s : jstr) : Prop := Forall (fun c => c <> 95%N) s.

Lemma pos_digits_plain fuel : forall z acc, plain acc -> plain (pos_digits fuel z acc).
Proof.
  induction fuel as [|f IH]; intros z acc Ha; [done|]. cbn [pos_digits].
  pose proof (Z.mod_pos_bound z 10 ltac:(lia)) as Hz.
  assert (plain (Z.to_N (48 + z mod 10) :: acc)) as Hc by (constructor; [lia|done]).
  destruct (z <? 10)%Z; [done|by apply IH].
Qed.

Lemma Z_digits_plain z : plain (Z_digits z).
Proof. apply pos_digits_plain. constructor. Qed.

Lemma zeros_plain n : plain (zeros n).
Proof. unfold plain, zeros. induction (Z.to_nat n); cbn; by constructor. Qed.

Lemma strip_zeros_plain l : plain l -> plain (strip_zeros l).
Proof. unfold plain. induction 1 as [|c l Hc Hl IH]; cbn; [done|]. destruct (c =? 48)%N; [done|by constructor]. Qed.

Lemma rev_plain l : plain l -> plain (rev l).
Proof. unfold plain. rewrite !Forall_forall. intros Hl c Hc. apply Hl. by apply list_elem_of_In, in_rev, list_elem_of_In. Qed.

Lemma layout_plain ds n : plain ds -> plain (layout ds n).
Proof.
  intros Hd. pose proof (Z_digits_plain (Z.abs (n - 1))) as He.
  assert (plain ((if (n - 1 <? 0)%Z then "-" else "+") ++ Z_digits (Z.abs (n - 1)))) as Hes
    by (apply Forall_app; split; [destruct (n - 1 <? 0)%Z; by repeat constructor|done]).
  unfold layout, plain in *. cbv zeta.
  destruct ((_ <=? n) && _)%Z; [apply Forall_app; split; [done|apply zeros_plain]|].
  destruct ((0 <? n) && _)%Z.
  { rewrite !Forall_app. split_and!; [by apply Forall_take|by repeat constructor|by apply Forall_drop]. }
  destruct ((-6 <? n) && _)%Z.
  { rewrite !Forall_app. split_and!; [by repeat constructor|apply zeros_plain|done]. }
  destruct Hd as [|d t Hd1 Hd2]; [constructor|]. destruct Hd2 as [|d' t Hd2 Hd3].
  - constructor; [done|]. apply Forall_app. split; [by repeat constructor|done].
  - by repeat first [done | apply Forall_cons; split | apply Forall_app; split | apply Forall_nil].
Qed.

Lemma pos_to_string_plain m e : plain (pos_to_string m e).
Proof.
  unfold pos_to_string. destruct (frac_of m e) as [a b]. destruct (shortest _ _ _ _ _ _) as [k z].
  apply layout_plain, rev_plain, strip_zeros_plain, rev_plain, Z_digits_plain.
Qed.

Lemma num_to_string_plain x : plain (num_to_string x).
Proof.
  unfold plain. destruct x as [s|[]| |[] m e]; cbn [num_to_string]; try (by repeat constructor).
  - apply Forall_app. split; [by repeat constructor|apply pos_to_string_plain].
  - apply pos_to_string_plain.
Qed.

Lemma number_is_no_bucket x : num_to_string x <> "__other__".
Proof. intros E. pose proof (num_to_string_plain x) as Hp. rewrite E in Hp. by inversion Hp. Qed.

Lemma name_is_bucket (name d : jstr) : str_or name d = "__other__" -> d <> "__other__" ->
  forall d', str_or name d' = "__other__".
Proof. destruct name; [by intros E Hd; destruct Hd|by intros E _ d']. Qed.

(** The only name that makes a node of a row an overflow bucket. *)
Lemma builder_bucket k row ctx :
  k <> KModel -> pn_id (NODE_BUILDERS k row ctx) = bucket_id k -> pn_label (NODE_BUILDERS k row ctx) = "__other__".
Proof.
  intros Hk. destruct k; [| | | |done|]; cbn [NODE_BUILDERS userNode nodeNameNode tokenNode groupNode channelNode pn_id pn_label];
    try destruct (positive_num _); intros E; unfold bucket_id in E; cbn in E; simplify_eq;
    try (by exfalso; eapply number_is_no_bucket); try done; by eapply name_is_bucket.
Qed.

Section Marks.
Context {A : Type} `{Numeric A} `{!FlowEnv A}.
Implicit Types (n : @DashboardFlowNode A) (l : @DashboardFlowLink A).
Implicit Types (nodes : list (jstr * @DashboardFlowNode A)) (links : list (jstr * @DashboardFlowLink A)).

(** ** The last passes, node by node and link by link *)

Definition flag_node (sets : option FlowHighlightSets) n : DashboardFlowNode :=
  match sets with
  | Some hs => set_node_flags (bool_decide (dn_id n ∈ hs_nodes hs)) n
  | None => n
  end.

Definition flag_link (sets : option FlowHighlightSets) l : DashboardFlowLink :=
  match sets with
  | Some hs => set_link_flags (bool_decide (linkStableKey l ∈ hs_links hs)) l
  | None => l
  end.

Definition mask_node (mask : bool) n : DashboardFlowNode :=
  if mask && must_mask n then set_node_label (maskFlowLabel (dn_label n)) n else n.

(** The masked label of the node an identifier names. *)
Definition masked_label (nodes : list (jstr * @DashboardFlowNode A)) (id : jstr) : option jstr :=
  match map_get id nodes with
  | Some n => if must_mask n then Some (maskFlowLabel (dn_label n)) else None
  | None => None
  end.

Definition mask_link (mask : bool) (nodes : list (jstr * @DashboardFlowNode A)) l : DashboardFlowLink :=
  let shown id label := if mask then default label (masked_label nodes id) else label in
  set_link_labels (shown (dl_source l) (dl_sourceLabel l)) (shown (dl_target l) (dl_targetLabel l)) l.

(** What of a link the shares and the colours do not change. *)
Definition link_marks l : jstr * jstr * jstr * jstr * option bool * option bool :=
  (dl_source l, dl_target l, dl_sourceLabel l, dl_targetLabel l, dl_highlighted l, dl_dimmed l).

Lemma own_labels l : set_link_labels (dl_sourceLabel l) (dl_targetLabel l) l = l.
Proof. by destruct l. Qed.

Lemma masked_by_id nodes :
  NoDup (map_keys nodes) -> Forall (fun kn => dn_id kn.2 = kn.1) nodes ->
  forall id,
  map_get id (fold_left (fun m '(_, n) => if must_mask n then map_set (dn_id n) (maskFlowLabel (dn_label n)) m else m)
                nodes []) = masked_label nodes id.
Proof.
  intros Hnd Hid id. unfold masked_label.
  rewrite <- (map_get_copy must_mask (fun n => maskFlowLabel (dn_label n)) id nodes []) by done.
  f_equal. apply fold_left_ext_in. intros m [k n] Hin. apply list_elem_of_In in Hin.
  rewrite Forall_forall in Hid. specialize (Hid _ Hin). cbn in Hid. by rewrite Hid.
Qed.

Lemma mask_spec nodes links :
  NoDup (map_keys nodes) -> Forall (fun kn => dn_id kn.2 = kn.1) nodes ->
  map_values (maskFlowGraphLabels nodes links).1 = map (mask_node true) (map_values nodes)
  /\ map_values (maskFlowGraphLabels nodes links).2 = map (mask_link true nodes) (map_values links).
Proof.
  intros Hnd Hid. pose proof (masked_by_id nodes Hnd Hid) as Hm. unfold maskFlowGraphLabels, map_values.
  cbn [fst snd]. set (masked := fold_left _ _ _) in *. split.
  - rewrite !map_map. apply map_ext. by intros [k n].
  - destruct masked as [|e others].
    + rewrite <- (map_id (map snd links)) at 1. apply map_ext. intros l. unfold mask_link.
      rewrite <- !Hm. cbn [map_get default]. by rewrite own_labels.
    + rewrite !map_map. apply map_ext. intros [k l]. unfold mask_link. cbn [snd]. by rewrite !Hm.
Qed.

Lemma masked_graph (mask : bool) nodes links :
  NoDup (map_keys nodes) -> Forall (fun kn => dn_id kn.2 = kn.1) nodes ->
  let masked := if mask then maskFlowGraphLabels nodes links else (nodes, links) in
  map_values masked.1 = map (mask_node mask) (map_values nodes)
  /\ map_values masked.2 = map (mask_link mask nodes) (map_values links).
Proof.
  intros Hnd Hid. destruct mask; [by apply mask_spec|]. cbn [fst snd]. split.
  - by rewrite <- (map_id (map_values nodes)) at 1.
  - rewrite <- (map_id (map_values links)) at 1. apply map_ext. intros l. unfold mask_link.
    by rewrite own_labels.
Qed.

Lemma flagged_graph nodes links sets :
  map_values (applyFlowHighlights nodes links sets).1 = map (flag_node sets) (map_values nodes)
  /\ map_values (applyFlowHighlights nodes links sets).2 = map (flag_link sets) (map_values links).
Proof.
  unfold applyFlowHighlights, map_values. destruct sets as [hs|]; cbn [fst snd]; [|by rewrite !map_id].
  rewrite !map_map. split; apply map_ext; by intros [k x].
Qed.

(** The finished graph, pass by pass. *)
Lemma graph_finish rows metric role palette visible ctx options :
  let stages := resolveVisibleStages role visible in
  let paths := graph_paths rows metric stages ctx options in
  let g := buildFlowGraph rows metric role palette visible ctx options in
  let sets := buildFlowHighlightSets (map pp_path paths) (go_activeNode options) (go_activeLink options) stages in
  exists colors,
    let nodes := nodes_of metric colors palette paths in
    dg_nodes g ≡ₚ map (fun n => flag_node sets (mask_node (go_maskSensitive options) n)) (map_values nodes)
    /\ map link_marks (dg_links g)
       ≡ₚ map (fun l => link_marks (flag_link sets (mask_link (go_maskSensitive options) nodes l)))
            (map_values (links_of metric colors palette paths)).
Proof.
  cbn zeta. unfold buildFlowGraph. fold (graph_paths rows metric (resolveVisibleStages role visible) ctx options).
  pose proof (graph_paths_ok rows metric (resolveVisibleStages role visible) ctx options) as Hok.
  set (paths := graph_paths _ _ _ _ _) in *. set (colors := stableColorMap _ _). exists colors.
  rewrite nodes_of_fold, links_of_fold.
  destruct (masked_graph (go_maskSensitive options) (nodes_of metric colors palette paths)
              (links_of metric colors palette paths)) as [Hmn Hml].
  { apply aggregate_NoDup. constructor. }
  { eapply Forall_impl; [by apply (nodes_of_Forall metric colors palette)|]. by intros kn [? _]. }
  destruct (if go_maskSensitive options then _ else _) as [ns ls]. cbn [fst snd] in Hmn, Hml.
  set (sets := buildFlowHighlightSets _ _ _ _).
  destruct (flagged_graph ns ls sets) as [Hfn Hfl]. destruct (applyFlowHighlights ns ls sets) as [ns' ls'].
  cbn [fst snd dg_nodes dg_links] in *. split.
  - by rewrite js_sort_perm, Hfn, Hmn, map_map.
  - rewrite (colors_keep link_marks) by done. rewrite map_map.
    etransitivity; [apply Permutation_map, js_sort_perm|]. rewrite Hfl, Hml, !map_map.
    match goal with |- ?a ≡ₚ ?b => enough (a = b) as -> by done end. by apply map_ext.
Qed.

(** A link of the finished graph, with the map entry it shows. *)
Lemma graph_link rows metric role palette visible ctx options :
  let stages := resolveVisibleStages role visible in
  let paths := graph_paths rows metric stages ctx options in
  let g := buildFlowGraph rows metric role palette visible ctx options in
  let sets := buildFlowHighlightSets (map pp_path paths) (go_activeNode options) (go_activeLink options) stages in
  exists colors,
    let nodes := nodes_of metric colors palette paths in
    (forall n, n ∈ dg_nodes g <->
       exists k n0, (k, n0) ∈ nodes /\ n = flag_node sets (mask_node (go_maskSensitive options) n0))
    /\ (forall l, l ∈ dg_links g -> exists k l0, (k, l0) ∈ links_of metric colors palette paths
          /\ link_marks l = link_marks (flag_link sets (mask_link (go_maskSensitive options) nodes l0))).
Proof.
  cbn zeta. destruct (graph_finish rows metric role palette visible ctx options) as (colors & Hn & Hl).
  exists colors. split.
  - intros n. rewrite Hn, elem_of_map. unfold map_values. setoid_rewrite elem_of_map.
    split; [intros (n0 & ([k n1] & Hk & ->) & ->); eauto|].
    intros (k & n0 & Hk & ->). exists n0. split; [|done]. by exists (k, n0).
  - intros l Hin. assert (link_marks l ∈ map link_marks (dg_links
      (buildFlowGraph rows metric role palette visible ctx options))) as Hm by (apply elem_of_map; eauto).
    rewrite Hl in Hm. apply elem_of_map in Hm as (l0 & Hl0 & E). unfold map_values in Hl0.
    apply elem_of_map in Hl0 as ([k l1] & Hk & ->). eauto.
Qed.

(** The nodes a link joins are nodes of the map. *)
Lemma link_ends metric colors palette (paths : list (@PreparedFlowPath A)) k l :
  (k, l) ∈ links_of metric colors palette paths ->
  (exists s, (dl_source l, s) ∈ nodes_of metric colors palette paths)
  /\ (exists t, (dl_target l, t) ∈ nodes_of metric colors palette paths).
Proof.
  intros Hk. pose proof (links_of_Forall metric colors palette paths) as Hf.
  rewrite Forall_forall in Hf. destruct (Hf _ Hk) as (p & st & Hp & Hst & _ & Hs & Ht).
  cbn [snd] in Hs, Ht. apply path_link_ends in Hst.
  assert (forall x, x ∈ pp_path p -> exists n, (pn_id x, n) ∈ nodes_of metric colors palette paths) as Hx.
  { intros x Hx. assert (pn_id x ∈ map_keys (nodes_of metric colors palette paths)) as Hkey.
    { unfold nodes_of. rewrite aggregate_keys. right. exists (x, p). split; [|done].
      apply list_elem_of_In, in_flat_map. exists p. split; [by apply list_elem_of_In|].
      apply in_map_iff. exists x. split; [done|by apply list_elem_of_In]. }
    unfold map_keys in Hkey. apply elem_of_map in Hkey as ([i n] & Hn & ->). eauto. }
  rewrite Hs, Ht. split; apply Hx, Hst.
Qed.

(** ** Masking *)

Lemma flag_node_id sets n :
  dn_id (flag_node sets n) = dn_id n /\ dn_label (flag_node sets n) = dn_label n
  /\ dn_kind (flag_node sets n) = dn_kind n.
Proof. by destruct sets. Qed.

Lemma mask_node_id mask n : dn_id (mask_node mask n) = dn_id n /\ dn_kind (mask_node mask n) = dn_kind n.
Proof. unfold mask_node. by destruct (mask && must_mask n). Qed.

Lemma flag_link_labels sets l :
  dl_source (flag_link sets l) = dl_source l /\ dl_target (flag_link sets l) = dl_target l
  /\ dl_sourceLabel (flag_link sets l) = dl_sourceLabel l
  /\ dl_targetLabel (flag_link sets l) = dl_targetLabel l.
Proof. by destruct sets. Qed.

Lemma must_mask_ext n n' : dn_id n = dn_id n' -> dn_kind n = dn_kind n' -> must_mask n = must_mask n'.
Proof. unfold must_mask. by intros -> ->. Qed.

Lemma mask_label_hidden nodes id n label :
  NoDup (map_keys nodes) -> (id, n) ∈ nodes -> must_mask n = true -> hidden (default label (masked_label nodes id)).
Proof.
  intros Hnd Hn Hm. apply map_get_elem in Hn; [|done]. unfold masked_label. rewrite Hn, Hm.
  apply mask_hidden.
Qed.

(** What a masked label may show of a node of kind [k] that is not a model: nothing; of an
    overflow bucket its own name, or the name [__other__] that turned a row into one. *)
Definition masked_text (labeler : option (FlowNodeKind -> jstr)) (k : FlowNodeKind) (id label : jstr) : Prop :=
  if id ==? bucket_id k
  then label = match labeler with Some f => f k | None => DEFAULT_OTHER_FLOW_NODE_LABELS k end \/ label = "__other__"
  else hidden label.

Lemma must_mask_iff n : id_kind (dn_id n) = Some (dn_kind n) ->
  must_mask n = true <-> dn_kind n <> KModel /\ dn_id n <> bucket_id (dn_kind n).
Proof.
  intros Hk. unfold must_mask, SENSITIVE_FLOW_KINDS, OTHER_FLOW_NODE_ID_SET, FLOW_NODE_KINDS, bucket_id.
  rewrite andb_true_iff, negb_true_iff, bool_decide_eq_true, bool_decide_eq_false.
  rewrite !elem_of_cons, elem_of_nil. cbn [map]. rewrite !elem_of_cons, elem_of_nil. split.
  - intros [H1 H2]. split; [intros E; rewrite E in H1; naive_solver|].
    intros E. apply H2. rewrite E. destruct (dn_kind n); cbn; tauto.
  - intros [H1 H2]. split; [destruct (dn_kind n); tauto|]. intros Hin. apply H2.
    assert (id_kind (dn_id n) = Some (dn_kind n)) as Hk' by exact Hk. revert Hk' Hin. clear.
    generalize (dn_id n), (dn_kind n). intros id k Hk Hin.
    destruct Hin as [->|[->|[->|[->|[->|[->|[]]]]]]]; cbn in Hk; injection Hk as <-; done.
Qed.

(** Where the nodes of a path come from. *)
Lemma path_node_origin rows metric stages ctx options p x :
  p ∈ graph_paths rows metric stages ctx options -> x ∈ pp_path p ->
  (exists row, x = NODE_BUILDERS (pn_kind x) row ctx) \/ x = otherFlowNode (pn_kind x) (go_otherNodeLabel options).
Proof.
  unfold graph_paths, prepare_paths. intros Hp Hx. apply list_elem_of_omap in Hp as (row & _ & E).
  destruct (applyTopNodeLimit _ _ _ _) as [path|] eqn:Ep; [|done]. injection E as <-. cbn in Hx.
  assert (forall y, y ∈ flowPathForStages row stages ctx -> y = NODE_BUILDERS (pn_kind y) row ctx) as Hb
    by (intros y Hy; by apply built_path_node in Hy as [_ Hy]).
  unfold applyTopNodeLimit in Ep. destruct (buildTopNodeSets _ _ _ _ _) as [sets|]; [|simplify_eq; eauto].
  destruct (negb _); [simplify_eq; eauto|]. destruct (default _ _); [|done]. simplify_eq.
  apply elem_of_map in Hx as (y & Hy & ->). cbv beta.
  match goal with |- context [if ?b then _ else _] => destruct b end; [eauto|].
  right. by destruct (pn_kind y).
Qed.

(** The label a path node gives to an entry of the maps. *)
Lemma bucket_text rows metric stages ctx options p x :
  p ∈ graph_paths rows metric stages ctx options -> x ∈ pp_path p -> pn_kind x <> KModel ->
  pn_id x = bucket_id (pn_kind x) ->
  masked_text (go_otherNodeLabel options) (pn_kind x) (pn_id x) (pn_label x).
Proof.
  intros Hp Hx Hk Hb. unfold masked_text. rewrite bool_decide_true by done.
  destruct (path_node_origin _ _ _ _ _ p x Hp Hx) as [(row & E)|E].
  - right. rewrite E. apply builder_bucket; [done|]. by rewrite <- E.
  - left. by rewrite E.
Qed.

Lemma node_origin metric colors palette (paths : list (@PreparedFlowPath A)) k n :
  (k, n) ∈ nodes_of metric colors palette paths ->
  exists p x, p ∈ paths /\ x ∈ pp_path p /\ pn_id x = k /\ pn_kind x = dn_kind n /\ pn_label x = dn_label n.
Proof.
  intros Hk. pose (P (kn : jstr * @DashboardFlowNode A) := exists p x, p ∈ paths /\ x ∈ pp_path p /\ pn_id x = kn.1
    /\ pn_kind x = dn_kind kn.2 /\ pn_label x = dn_label kn.2).
  assert (Forall P (nodes_of metric colors palette paths)) as Hf.
  { apply aggregate_Forall; [constructor| |].
    - intros [x p] He. apply node_entry_path in He as [Hp Hx]. by exists p, x.
    - intros e v _ Hv. exact Hv. }
  rewrite Forall_forall in Hf. exact (Hf _ Hk).
Qed.

Lemma link_origin metric colors palette (paths : list (@PreparedFlowPath A)) k l :
  (k, l) ∈ links_of metric colors palette paths ->
  exists p s t, p ∈ paths /\ s ∈ pp_path p /\ t ∈ pp_path p
    /\ pn_id s = dl_source l /\ pn_label s = dl_sourceLabel l
    /\ pn_id t = dl_target l /\ pn_label t = dl_targetLabel l.
Proof.
  intros Hk. pose (P (kl : jstr * @DashboardFlowLink A) := exists p s t, p ∈ paths /\ s ∈ pp_path p /\ t ∈ pp_path p
    /\ pn_id s = dl_source kl.2 /\ pn_label s = dl_sourceLabel kl.2
    /\ pn_id t = dl_target kl.2 /\ pn_label t = dl_targetLabel kl.2).
  assert (Forall P (links_of metric colors palette paths)) as Hf.
  { apply aggregate_Forall; [constructor| |].
    - intros [[s t] p] He. apply link_entry_path in He as [Hp Hst]. apply path_link_ends in Hst as [Hs Ht].
      by exists p, s, t.
    - intros e v _ Hv. exact Hv. }
  rewrite Forall_forall in Hf. exact (Hf _ Hk).
Qed.

Section Masked.
Context (rows : list FlowQuotaDataItem) (metric : FlowMetric) (stages : list FlowNodeKind) (ctx : FlowPathContext).
Context (options : FlowGraphOptions) (colors : list (jstr * jstr)) (palette : option (list jstr)).
Notation paths := (graph_paths rows metric stages ctx options).
Notation nodes := (nodes_of metric colors palette paths).

Lemma entry_kind k n : (k, n) ∈ nodes -> dn_id n = k /\ id_kind k = Some (dn_kind n).
Proof.
  intros Hk. pose proof (nodes_of_Forall metric colors palette stages paths (graph_paths_ok _ _ _ _ _)) as Hf.
  rewrite Forall_forall in Hf. by destruct (Hf _ Hk) as (H1 & H2 & _).
Qed.

(** The label shown for a node, here or at the end of a link. *)
Lemma shown_label k n label p x :
  (k, n) ∈ nodes -> dn_kind n <> KModel ->
  p ∈ paths -> x ∈ pp_path p -> pn_id x = k -> pn_label x = label ->
  masked_text (go_otherNodeLabel options) (dn_kind n) k (if must_mask n then maskFlowLabel (dn_label n) else label).
Proof.
  intros Hk Hm Hp Hx <- <-. destruct (entry_kind _ _ Hk) as [Hid Hkind].
  pose proof (graph_paths_ok rows metric stages ctx options) as Hok. rewrite Forall_forall in Hok.
  destruct (Hok p Hp) as [_ Hw]. rewrite Forall_forall in Hw. specialize (Hw x Hx). unfold well_kinded in Hw.
  assert (dn_kind n = pn_kind x) as Ek by congruence.
  assert (must_mask n = true <-> dn_kind n <> KModel /\ dn_id n <> bucket_id (dn_kind n)) as Hmm
    by (apply must_mask_iff; congruence).
  destruct (must_mask n).
  - unfold masked_text. rewrite bool_decide_false; [apply mask_hidden|]. rewrite <- Hid. by apply Hmm.
  - rewrite Ek in *. apply (bucket_text rows metric stages ctx options p); [done..|].
    destruct (decide (pn_id x = bucket_id (pn_kind x))) as [|Hne]; [done|].
    exfalso. assert (false = true); [|done]. apply Hmm. by rewrite Hid.
Qed.
End Masked.

(** C34: with masking on, every user, node, token, group or channel is shown without its
    name, in the column and at both ends of the links: its label is the mask, an overflow
    bucket keeps the bucket's own label, and the one name of a row that can be read is
    [__other__], which makes the row part of the bucket. *)
Theorem masking_hides_names rows metric role palette visible ctx options :
  go_maskSensitive options = true ->
  let g := buildFlowGraph rows metric role palette visible ctx options in
  let shows := masked_text (go_otherNodeLabel options) in
  (forall n, n ∈ dg_nodes g -> dn_kind n <> KModel -> shows (dn_kind n) (dn_id n) (dn_label n))
  /\ forall l, l ∈ dg_links g ->
     exists s t, s ∈ dg_nodes g /\ t ∈ dg_nodes g /\ dn_id s = dl_source l /\ dn_id t = dl_target l
       /\ (dn_kind s <> KModel -> shows (dn_kind s) (dl_source l) (dl_sourceLabel l))
       /\ (dn_kind t <> KModel -> shows (dn_kind t) (dl_target l) (dl_targetLabel l)).
Proof.
  intros Hmask g shows. destruct (graph_link rows metric role palette visible ctx options) as (colors & Hn & Hl).
  set (sets := buildFlowHighlightSets _ _ _ _) in *. set (stages := resolveVisibleStages role visible) in *.
  set (paths := graph_paths _ _ _ _ _) in *. rewrite Hmask in Hn, Hl.
  assert (forall n, dn_id (flag_node sets (mask_node true n)) = dn_id n
    /\ dn_kind (flag_node sets (mask_node true n)) = dn_kind n) as Hsame.
  { intros n. destruct (flag_node_id sets (mask_node true n)) as (-> & _ & ->). apply mask_node_id. }
  split.
  - intros n Hin Hk. apply Hn in Hin as (k & n0 & Hn0 & ->). destruct (Hsame n0) as [Eid Ekind]. rewrite Eid, Ekind in *.
    destruct (flag_node_id sets (mask_node true n0)) as (_ & -> & _).
    destruct (node_origin metric colors palette paths k n0 Hn0) as (p & x & Hp & Hx & Ex & _ & Elabel).
    pose proof (shown_label rows metric stages ctx options colors palette k n0 _ p x Hn0 Hk Hp Hx Ex Elabel) as Hs.
    destruct (entry_kind rows metric stages ctx options colors palette k n0 Hn0) as [-> _].
    unfold mask_node. cbn [andb]. by destruct (must_mask n0).
  - intros l Hin. destruct (Hl l Hin) as (k & l0 & Hk & E). unfold link_marks in E.
    destruct (flag_link_labels sets (mask_link true (nodes_of metric colors palette paths) l0)) as (E1 & E2 & E3 & E4).
    rewrite E1, E2, E3, E4 in E. injection E as -> -> -> -> _ _. cbn [mask_link dl_source dl_target set_link_labels
      dl_sourceLabel dl_targetLabel].
    destruct (link_ends metric colors palette paths k l0 Hk) as [[s Hs] [t Ht]].
    destruct (link_origin metric colors palette paths k l0 Hk) as (p & x & y & Hp & Hx & Hy & Ex & Elx & Ey & Ely).
    assert (NoDup (map_keys (nodes_of metric colors palette paths))) as Hnd by (apply aggregate_NoDup; constructor).
    assert (forall i n label z, (i, n) ∈ nodes_of metric colors palette paths -> z ∈ pp_path p -> pn_id z = i ->
      pn_label z = label -> dn_kind n <> KModel ->
      shows (dn_kind n) i (default label (masked_label (nodes_of metric colors palette paths) i))) as Hend.
    { intros i n label z Hi Hz Ez Elz Hkn.
      pose proof (shown_label rows metric stages ctx options colors palette i n label p z Hi Hkn Hp Hz Ez Elz) as Hs'.
      unfold masked_label. apply map_get_elem in Hi; [|done]. rewrite Hi. by destruct (must_mask n). }
    exists (flag_node sets (mask_node true s)), (flag_node sets (mask_node true t)).
    destruct (Hsame s) as [-> ->], (Hsame t) as [-> ->].
    destruct (entry_kind rows metric stages ctx options colors palette _ s Hs) as [-> _].
    destruct (entry_kind rows metric stages ctx options colors palette _ t Ht) as [-> _].
    split_and!; [apply Hn; eauto..|done|done| |]; intros Hkn; [by apply (Hend _ _ _ x)|by apply (Hend _ _ _ y)].
Qed.

(** ** Highlighting *)

(** [b] follows [a] on the path. *)
Definition follows (path : list FlowPathNode) (a b : FlowPathNode) : Prop :=
  exists i, path !! i = Some a /\ path !! S i = Some b.

(** The path goes through the node of the kind and the identifier. *)
Definition crosses (path : list FlowPathNode) (f : FlowNodeFilter) : Prop :=
  exists x, x ∈ path /\ pn_kind x = ff_kind f /\ pn_id x = ff_id f.

(** The path goes from the one node straight to the other. *)
Definition takes (path : list FlowPathNode) (source target : jstr) : Prop :=
  exists a b, follows path a b /\ pn_id a = source /\ pn_id b = target.

(** The paths the selection lights: those that take the selected link or, when none is
    selected, those that cross the selected node of a visible column. *)
Definition lit (options : FlowGraphOptions) (stages : list FlowNodeKind)
    (paths : list (@PreparedFlowPath A)) (path : list FlowPathNode) : Prop :=
  path ∈ map pp_path paths
  /\ match go_activeLink options, go_activeNode options with
     | Some link, _ => takes path (fl_source link) (fl_target link)
     | None, Some node => ff_kind node ∈ stages /\ crosses path node
     | None, None => False
     end.

Lemma path_links_follow path a b : (a, b) ∈ path_links path <-> follows path a b.
Proof.
  unfold path_links, follows. induction path as [|x [|y path] IH].
  - split; [by intros E%elem_of_nil|]. by intros ([|i] & E & _).
  - split; [by intros E%elem_of_nil|]. by intros ([|i] & _ & E).
  - change (combine (x :: y :: path) (tl (x :: y :: path))) with ((x, y) :: combine (y :: path) (tl (y :: path))).
    rewrite elem_of_cons, IH. split.
    + intros [[= -> ->]|(i & H1 & H2)]; [by exists 0%nat|by exists (S i)].
    + intros ([|i] & H1 & H2); [left; cbn in H1, H2; congruence|right; by exists i].
Qed.

Lemma contains_node_iff path f : pathContainsFlowNode path f = true <-> crosses path f.
Proof.
  unfold pathContainsFlowNode, crosses. rewrite existsb_exists. setoid_rewrite andb_true_iff.
  setoid_rewrite bool_decide_eq_true. setoid_rewrite list_elem_of_In. done.
Qed.

Lemma contains_link_iff path link :
  pathContainsFlowLink path link = true <-> takes path (fl_source link) (fl_target link).
Proof.
  unfold pathContainsFlowLink, takes. rewrite existsb_exists. split.
  - intros ([a b] & Hab & [H1%bool_decide_eq_true H2%bool_decide_eq_true]%andb_true_iff). exists a, b.
    split; [by apply path_links_follow, list_elem_of_In|done].
  - intros (a & b & Hab & H1 & H2). exists (a, b). split; [by apply list_elem_of_In, path_links_follow|].
    by rewrite !bool_decide_true.
Qed.

(** The selection can light something: a link, or a node of a visible kind. *)
Definition selection_active (options : FlowGraphOptions) (stages : list FlowNodeKind) : Prop :=
  go_activeLink options <> None \/ exists f, go_activeNode options = Some f /\ ff_kind f ∈ stages.

Lemma lit_iff options stages (paths : list (@PreparedFlowPath A)) path :
  lit options stages paths path
  <-> selection_active options stages /\ path ∈ map pp_path paths
      /\ path_matches (go_activeNode options) (go_activeLink options) path = true.
Proof.
  unfold lit, selection_active, path_matches. destruct (go_activeLink options) as [l|].
  - rewrite contains_link_iff. naive_solver.
  - destruct (go_activeNode options) as [f|]; [rewrite contains_node_iff|]; naive_solver.
Qed.

Lemma selection_active_iff options stages :
  (negb (match go_activeNode options with Some f => bool_decide (ff_kind f ∈ stages) | None => false end)
     && negb (match go_activeLink options with Some _ => true | None => false end)) = false
  <-> selection_active options stages.
Proof.
  unfold selection_active. destruct (go_activeLink options) as [l|]; cbn.
  - rewrite andb_false_r. split; [intros _; by left|done].
  - rewrite andb_true_r. destruct (go_activeNode options) as [f|]; cbn.
    + rewrite negb_false_iff, bool_decide_eq_true. naive_solver.
    + naive_solver.
Qed.

Lemma elem_of_lit_flat_map {X} options stages (paths : list (@PreparedFlowPath A)) (f : list FlowPathNode -> list X) x :
  selection_active options stages ->
  x ∈ flat_map f (List.filter (path_matches (go_activeNode options) (go_activeLink options)) (map pp_path paths))
  <-> exists path, lit options stages paths path /\ x ∈ f path.
Proof.
  intros Ha. rewrite list_elem_of_In, in_flat_map. setoid_rewrite lit_iff. split.
  - intros (path & Hp & Hx). apply filter_In in Hp as [Hp Hm]. exists path. by rewrite !list_elem_of_In.
  - intros (path & (_ & Hp & Hm) & Hx). exists path. rewrite filter_In, <- !list_elem_of_In. done.
Qed.

(** What the highlight sets hold when [lit] are the paths to light. *)
Definition sets_spec (sets : option FlowHighlightSets) (lit : list FlowPathNode -> Prop) : Prop :=
  match sets with
  | None => forall path, ~ lit path
  | Some hs =>
      (exists path, lit path)
      /\ (forall id, id ∈ hs_nodes hs <-> exists path, lit path /\ id ∈ map pn_id path)
      /\ (forall key, key ∈ hs_links hs <->
            exists path, lit path /\ key ∈ map (fun '(s, t) => pathLinkKey s t) (path_links path))
  end.

Lemma highlight_sets_spec options stages (paths : list (@PreparedFlowPath A)) :
  Forall (fun p => pp_path p <> []) paths ->
  sets_spec (buildFlowHighlightSets (map pp_path paths) (go_activeNode options) (go_activeLink options) stages)
    (lit options stages paths).
Proof.
  intros Hne. unfold buildFlowHighlightSets. cbv zeta.
  match goal with |- sets_spec (if ?b then _ else _) _ => destruct b eqn:Hb end.
  { intros path (Ha & _)%lit_iff. apply selection_active_iff in Ha. congruence. }
  apply selection_active_iff in Hb.
  pose proof (@elem_of_lit_flat_map jstr options stages paths) as Hlit.
  assert (forall id, id ∈ set_add_all (flat_map (map pn_id) (List.filter
      (path_matches (go_activeNode options) (go_activeLink options)) (map pp_path paths))) []
    <-> exists path, lit options stages paths path /\ id ∈ map pn_id path) as Hn.
  { intros id. rewrite elem_of_set_add_all, (Hlit (map pn_id)) by done. set_solver. }
  set (ids := set_add_all _ _) in Hn |- *. destruct ids as [|i ids].
  - intros path Hp. destruct path as [|x path].
    + destruct Hp as (Hp & _). apply elem_of_map in Hp as (p & Hp & E).
      rewrite Forall_forall in Hne. by apply (Hne p Hp).
    + assert (pn_id x ∈ @nil jstr) as Hx; [|by apply elem_of_nil in Hx].
      apply Hn. exists (x :: path). split; [done|left].
  - split_and!; [|exact Hn|].
    + destruct (proj1 (Hn i)) as (path & Hp & _); [left|eauto].
    + intros key. cbn [hs_links]. rewrite elem_of_set_add_all, Hlit by done. set_solver.
Qed.

(** A link key names its ends. *)
Lemma link_key_on_path path s t :
  no_nul s = true -> Forall (fun x => no_nul (pn_id x) = true) path ->
  link_key s t ∈ map (fun '(s, t) => pathLinkKey s t) (path_links path)
  <-> takes path s t.
Proof.
  intros Hs Hp. unfold takes. setoid_rewrite <- path_links_follow. rewrite elem_of_map. split.
  - intros ([a b] & Hab & E). exists a, b. split; [done|].
    pose proof (path_link_ends _ _ Hab) as [Ha _]. rewrite Forall_forall in Hp. specialize (Hp _ Ha).
    destruct (key_parts s t Hs) as [K1 K2]. destruct (key_parts (pn_id a) (pn_id b) Hp) as [K3 K4].
    unfold pathLinkKey in E. rewrite E in K1, K2. split; congruence.
  - intros (a & b & Hab & <- & <-). by exists (a, b).
Qed.

Lemma flag_iff (P ex : Prop) (b : bool) : ex -> (b = true <-> P) ->
  (Some b = Some true <-> P) /\ (Some (negb b) = Some true <-> ex /\ ~ P).
Proof. intros Hex Hb. destruct b; naive_solver. Qed.

Lemma no_flag_iff (P ex : Prop) : ~ ex -> (P -> ex) ->
  (@None bool = Some true <-> P) /\ (@None bool = Some true <-> ex /\ ~ P).
Proof. naive_solver. Qed.

Lemma node_marks sets lit n :
  sets_spec sets lit -> dn_highlighted n = None -> dn_dimmed n = None ->
  let on_lit := exists path, lit path /\ dn_id n ∈ map pn_id path in
  (dn_highlighted (flag_node sets n) = Some true <-> on_lit)
  /\ (dn_dimmed (flag_node sets n) = Some true <-> (exists path, lit path) /\ ~ on_lit).
Proof.
  intros Hs Hh Hd. cbv zeta. destruct sets as [hs|]; cbn in Hs |- *.
  - destruct Hs as (Hex & Hn & _). apply flag_iff; [exact Hex|]. by rewrite bool_decide_eq_true.
  - rewrite Hh, Hd. apply no_flag_iff; [|naive_solver]. intros [p Hp]. by apply (Hs p).
Qed.

Lemma link_marks_lit sets (lit : list FlowPathNode -> Prop) l :
  sets_spec sets lit -> dl_highlighted l = None -> dl_dimmed l = None ->
  no_nul (dl_source l) = true ->
  (forall path, lit path -> Forall (fun x => no_nul (pn_id x) = true) path) ->
  let on_lit := exists path, lit path /\ takes path (dl_source l) (dl_target l) in
  (dl_highlighted (flag_link sets l) = Some true <-> on_lit)
  /\ (dl_dimmed (flag_link sets l) = Some true <-> (exists path, lit path) /\ ~ on_lit).
Proof.
  intros Hs Hh Hd Hnul Hpn. cbv zeta. destruct sets as [hs|]; cbn in Hs |- *.
  - destruct Hs as (Hex & _ & Hk). apply flag_iff; [exact Hex|].
    rewrite bool_decide_eq_true. unfold linkStableKey. rewrite Hk. split.
    + intros (path & Hp & Hin). apply link_key_on_path in Hin; [|done|by apply Hpn]. by exists path.
    + intros (path & Hp & Ht). exists path. split; [done|]. apply link_key_on_path; [done|by apply Hpn|done].
  - rewrite Hh, Hd. apply no_flag_iff; [|naive_solver]. intros [p Hp]. by apply (Hs p).
Qed.

(** The entries of the maps carry no mark. *)
Lemma unmarked metric colors palette (paths : list (@PreparedFlowPath A)) :
  Forall (fun kn => dn_highlighted kn.2 = None /\ dn_dimmed kn.2 = None) (nodes_of metric colors palette paths)
  /\ Forall (fun kl => dl_highlighted kl.2 = None /\ dl_dimmed kl.2 = None) (links_of metric colors palette paths).
Proof.
  split; (apply aggregate_Forall; [constructor|by intros e _|by intros e v _ Hv]).
Qed.

Lemma stages_not_nil role visible : resolveVisibleStages role visible <> [].
Proof.
  unfold resolveVisibleStages. assert (getFlowStages role <> []) as Hn by (by apply stages_cases).
  destruct visible as [v|]; [|done].
  destruct (MIN_FLOW_STAGES <=? _)%nat eqn:E; [|done]. intros E'. by rewrite E' in E.
Qed.

(** C35: a selection highlights exactly the nodes and the links on the paths that take the
    selected link or, without one, cross the selected node, and dims exactly the others;
    when no path does, or the selected node's column is hidden, nothing is marked. *)
Theorem highlights_mark_lit_paths rows metric role palette visible ctx options :
  rows_ok rows ctx ->
  let stages := resolveVisibleStages role visible in
  let g := buildFlowGraph rows metric role palette visible ctx options in
  let lit := lit options stages (graph_paths rows metric stages ctx options) in
  let lit_node id := exists path, lit path /\ id ∈ map pn_id path in
  let lit_link s t := exists path, lit path /\ takes path s t in
  (forall n, n ∈ dg_nodes g ->
     (dn_highlighted n = Some true <-> lit_node (dn_id n))
     /\ (dn_dimmed n = Some true <-> (exists path, lit path) /\ ~ lit_node (dn_id n)))
  /\ (forall l, l ∈ dg_links g ->
     (dl_highlighted l = Some true <-> lit_link (dl_source l) (dl_target l))
     /\ (dl_dimmed l = Some true <-> (exists path, lit path) /\ ~ lit_link (dl_source l) (dl_target l))).
Proof.
  intros Hr. cbv zeta. set (stages := resolveVisibleStages role visible).
  destruct (graph_link rows metric role palette visible ctx options) as (colors & Hn & Hl).
  fold stages in Hn, Hl. pose proof (graph_paths_ok rows metric stages ctx options) as Hok.
  pose proof (prepared_ids rows stages _ _ _ ctx Hr : Forall _ (graph_paths rows metric stages ctx options)) as Hnul.
  set (paths := graph_paths _ _ _ _ _) in *. rewrite Forall_forall in Hnul.
  assert (sets_spec (buildFlowHighlightSets (map pp_path paths) (go_activeNode options) (go_activeLink options) stages)
            (lit options stages paths)) as Hs.
  { apply highlight_sets_spec. eapply Forall_impl; [exact Hok|]. intros p [Hk _] E. rewrite E in Hk.
    by apply (stages_not_nil role visible). }
  set (sets := buildFlowHighlightSets _ _ _ _) in *.
  destruct (unmarked metric colors palette paths) as [Hun Hul].
  rewrite Forall_forall in Hun. rewrite Forall_forall in Hul. split.
  - intros n Hin. apply Hn in Hin as (k & n0 & Hk & ->). destruct (Hun _ Hk) as [U1 U2]. cbn in U1, U2.
    destruct (flag_node_id sets (mask_node (go_maskSensitive options) n0)) as (-> & _).
    apply node_marks; [exact Hs|..]; unfold mask_node; by destruct (_ && _).
  - intros l Hin. destruct (Hl l Hin) as (k & l0 & Hk & E). destruct (Hul _ Hk) as [U1 U2]. cbn in U1, U2.
    destruct (flag_link_labels sets (mask_link (go_maskSensitive options) (nodes_of metric colors palette paths) l0))
      as (E1 & E2 & _).
    unfold link_marks in E. rewrite E1, E2 in E. injection E as -> -> _ _ -> ->.
    apply (link_marks_lit sets _ (mask_link (go_maskSensitive options) (nodes_of metric colors palette paths) l0));
      [exact Hs|exact U1|exact U2|..].
    + destruct (link_ends metric colors palette paths k l0 Hk) as [[s Hsn] _].
      pose proof (links_of_Forall metric colors palette paths) as Hf. rewrite Forall_forall in Hf.
      destruct (Hf _ Hk) as (p & st & Hp & Hst & _ & Es & _). cbn in Es |- *. rewrite Es.
      specialize (Hnul p Hp). rewrite Forall_forall in Hnul. by apply Hnul, path_link_ends.
    + intros path (Hp & _). apply elem_of_map in Hp as (p & Hp & ->). by apply Hnul.
Qed.
End Marks.

(** ** Witnesses *)

Lemma masking_hides_names_witness :
  go_maskSensitive demo_options = true
  /\ forall n, n ∈ dg_nodes (buildFlowGraph demo_rows MetricQuota "root" None None EMPTY_FLOW_PATH_CONTEXT demo_options) ->
       dn_kind n <> KModel -> masked_text None (dn_kind n) (dn_id n) (dn_label n).
Proof.
  split; [reflexivity|].
  exact (proj1 (masking_hides_names demo_rows MetricQuota "root" None None EMPTY_FLOW_PATH_CONTEXT demo_options eq_refl)).
Defined.

Lemma highlights_mark_lit_paths_witness :
  rows_ok demo_rows EMPTY_FLOW_PATH_CONTEXT
  /\ forall n, n ∈ dg_nodes (buildFlowGraph demo_rows MetricQuota "user" None None EMPTY_FLOW_PATH_CONTEXT demo_options) ->
       dn_highlighted n = Some true <->
       exists path, lit demo_options (resolveVisibleStages "user" None)
           (graph_paths demo_rows MetricQuota (resolveVisibleStages "user" None) EMPTY_FLOW_PATH_CONTEXT demo_options) path
         /\ dn_id n ∈ map pn_id path.
Proof.
  split; [exact demo_rows_ok|]. intros n Hn.
  exact (proj1 (proj1 (highlights_mark_lit_paths demo_rows MetricQuota "user" None None EMPTY_FLOW_PATH_CONTEXT
    demo_options demo_rows_ok) n Hn)).
Defined.
