(* ===== verification/FlowLimit.v ===== *)
(** * Quota flow graph: the top-node limit

    Companion of [Flow] and [FlowProofs]: which nodes of a column are kept, and how
    many a finished column has. *)
From Stdlib Require Import Sorted.
From stdpp Require Import sorting.
From S2P Require Import Prelude JsString JsNumber NumberOrder JsValue Numeric OrderedMap Aggregate ModelMapping Flow FlowProofs.

Section Limit.
Context {A : Type} `{Numeric A} `{!FlowEnv A}.

Notation stage_totals := (list (FlowNodeKind * list (jstr * @FlowNodeRank A))).

(** ** The totals of a stage *)

(** The entry a row adds to in the totals of stage [k]. *)
Definition stage_aggregate (rows : list FlowQuotaDataItem) (metric : FlowMetric) (ctx : FlowPathContext)
    (k : FlowNodeKind) : list (jstr * @FlowNodeRank A) :=
  aggregate (fun row => pn_id (NODE_BUILDERS k row ctx))
    (fun row => {| rk_node := NODE_BUILDERS k row ctx; rk_value := n_zero |})
    (fun row => rank_add (row_value metric row)) rows [].

Lemma count_path (v : A) (nodes : list FlowPathNode) k : forall totals : stage_totals,
  NoDup (map pn_kind nodes) ->
  map_get k (fold_left (count_node v) nodes totals)
  = match map_get k totals, List.find (fun n => pn_kind n ==? k) nodes with
    | Some st, Some n => Some (map_update (pn_id n) {| rk_node := n; rk_value := n_zero |} (rank_add v) st)
    | r, _ => r
    end.
Proof.
  induction nodes as [|n nodes IH]; intros totals Hnd; cbn [fold_left List.find].
  { by destruct (map_get k totals). }
  inversion Hnd as [|? ? Hni Hnd']; subst. rewrite IH by done. clear IH.
  assert (pn_kind n = k -> List.find (fun n => pn_kind n ==? k) nodes = None) as Hnone.
  { intros <-. destruct (List.find _ nodes) as [m|] eqn:E; [|done]. exfalso. apply Hni.
    apply List.find_some in E as [Hm E]. apply bool_decide_eq_true in E. rewrite <- E.
    apply elem_of_map. exists m. split; [by apply list_elem_of_In|done]. }
  unfold count_node. destruct (decide (pn_kind n = k)) as [E|Hne].
  - rewrite (bool_decide_true (pn_kind n = k)), Hnone by done. rewrite E.
    destruct (map_get k totals) as [st|] eqn:Est; [|by rewrite Est].
    by rewrite map_get_set, bool_decide_true.
  - rewrite (bool_decide_false (pn_kind n = k)) by done.
    destruct (map_get (pn_kind n) totals) as [st|]; [|done].
    rewrite map_get_set, bool_decide_false by congruence. done.
Qed.

Lemma find_stage row ctx k stages : k ∈ stages -> NoDup stages ->
  List.find (fun n => pn_kind n ==? k) (flowPathForStages row stages ctx) = Some (NODE_BUILDERS k row ctx).
Proof.
  unfold flowPathForStages. intros Hk _. induction stages as [|x stages IH]; [by apply elem_of_nil in Hk|].
  cbn [map List.find]. rewrite builder_kind. destruct (decide (x = k)) as [->|Hne].
  - by rewrite bool_decide_true.
  - rewrite bool_decide_false by done. apply IH. apply elem_of_cons in Hk as [?|?]; congruence.
Qed.

Lemma stage_kinds row stages ctx : map pn_kind (flowPathForStages row stages ctx) = stages.
Proof. apply built_path_ok. Qed.

Lemma count_rows rows metric stages ctx k : NoDup stages -> k ∈ stages -> forall totals : stage_totals,
  map_get k (fold_left (fun totals row =>
    fold_left (count_node (row_value metric row)) (flowPathForStages row stages ctx) totals) rows totals)
  = option_map (fun st => aggregate (fun row => pn_id (NODE_BUILDERS k row ctx))
      (fun row => {| rk_node := NODE_BUILDERS k row ctx; rk_value := n_zero |})
      (fun row => rank_add (row_value metric row)) rows st) (map_get k totals).
Proof.
  intros Hnd Hk. induction rows as [|row rows IH]; intros totals; cbn [fold_left].
  { by destruct (map_get k totals). }
  rewrite IH, count_path, find_stage by (done || by rewrite stage_kinds).
  by destruct (map_get k totals).
Qed.

Lemma empty_totals stages k : k ∈ stages ->
  map_get k (fold_left (fun m stage => map_set stage [] m) stages [] : stage_totals) = Some [].
Proof.
  assert (forall m : stage_totals, (map_get k m = Some [] \/ k ∈ stages) ->
    map_get k (fold_left (fun m stage => map_set stage [] m) stages m) = Some []) as Hg; [|auto].
  induction stages as [|x stages IH]; intros m Hm; cbn [fold_left].
  { destruct Hm as [?|Hm]; [done|]. by apply elem_of_nil in Hm. }
  apply IH. rewrite map_get_set. destruct (decide (k = x)) as [->|Hne].
  - left. by rewrite bool_decide_true.
  - rewrite bool_decide_false by done. destruct Hm as [?|Hm]; [by left|].
    apply elem_of_cons in Hm as [?|?]; [done|by right].
Qed.

Lemma totals_NoDup (rows : list FlowQuotaDataItem) metric stages ctx : forall totals : stage_totals,
  NoDup (map_keys totals) ->
  NoDup (map_keys (fold_left (fun totals row =>
    fold_left (count_node (row_value metric row)) (flowPathForStages row stages ctx) totals) rows totals)).
Proof.
  assert (forall v nodes (totals : stage_totals), NoDup (map_keys totals) ->
    NoDup (map_keys (fold_left (count_node v) nodes totals))) as Hone.
  { intros v nodes. induction nodes as [|n nodes IH]; intros totals Ht; [done|]. cbn. apply IH.
    unfold count_node. destruct (map_get _ _); [by apply NoDup_map_set|done]. }
  induction rows as [|row rows IH]; intros totals Ht; [done|]. cbn. by apply IH, Hone.
Qed.

(** ** The kept identifiers *)

Definition ranked_ids (n : nat) (st : list (jstr * @FlowNodeRank A)) : list jstr :=
  uniq (map (fun r => pn_id (rk_node r)) (take n (js_sort rank_cmp (map_values st)))).

Lemma top_sets_get rows metric stages ctx n k : NoDup stages -> k ∈ stages -> (0 < n)%nat ->
  exists sets, buildTopNodeSets rows metric stages (Some n) ctx = Some sets
    /\ map_get k sets = Some (ranked_ids n (stage_aggregate rows metric ctx k)).
Proof.
  intros Hnd Hk Hn. destruct n as [|n]; [lia|]. unfold buildTopNodeSets. eexists. split; [done|].
  match goal with |- map_get k (fold_left _ ?totals []) = _ => set (t := totals) end.
  etransitivity; [apply (map_get_copy (fun _ => true) (ranked_ids (S n)) k t [])|].
  - apply totals_NoDup. assert (forall l (m : stage_totals), NoDup (map_keys m) ->
      NoDup (map_keys (fold_left (fun m stage => map_set stage [] m) l m))) as Hg.
    { intros l. induction l as [|x l IH]; intros m Hm; [done|]. cbn. by apply IH, NoDup_map_set. }
    apply Hg. constructor.
  - unfold t. rewrite count_rows by done. rewrite empty_totals by done. done.
Qed.

Section Stage.
Context (rows : list FlowQuotaDataItem) (metric : FlowMetric) (ctx : FlowPathContext) (k : FlowNodeKind).
Notation entries := (stage_aggregate rows metric ctx k).

Definition stage_id (row : FlowQuotaDataItem) : jstr := pn_id (NODE_BUILDERS k row ctx).

(** What all the rows of a node carry, added up in their order. *)
Definition stage_total (id : jstr) : A :=
  n_sum (map (row_value metric) (List.filter (fun row => stage_id row ==? id) rows)).

Lemma entry_ids : Forall (fun kr => pn_id (rk_node kr.2) = kr.1) entries.
Proof. unfold stage_aggregate. apply aggregate_Forall; [constructor|done|]. intros e v _ Hv. exact Hv. Qed.

Lemma entries_NoDup : NoDup (map_keys entries).
Proof. apply aggregate_NoDup. constructor. Qed.

Lemma map_entry_ids : map (fun r => pn_id (rk_node r)) (map_values entries) = map_keys entries.
Proof.
  unfold map_values, map_keys. rewrite map_map.
  induction entry_ids as [|kr l Hkr _ IH]; cbn; [done|]. by rewrite Hkr, IH.
Qed.

Lemma entry_value r : r ∈ map_values entries -> rk_value r = stage_total (pn_id (rk_node r)).
Proof.
  unfold map_values. intros Hr. apply elem_of_map in Hr as ([id r'] & Hin & ->). cbn [snd].
  pose proof entry_ids as Hids. rewrite Forall_forall in Hids. specialize (Hids _ Hin). cbn in Hids. rewrite Hids.
  by eapply (aggregate_value _ _ _ rk_value (row_value metric)); [| |exact Hin].
Qed.

Lemma entry_occurs id : id ∈ map_keys entries <-> exists row, row ∈ rows /\ id = stage_id row.
Proof.
  unfold stage_aggregate. rewrite aggregate_keys. split; [|by right].
  intros [Hn|?]; [by apply elem_of_nil in Hn|done].
Qed.

Notation ranking := (js_sort rank_cmp (map_values entries)).

Lemma ranking_NoDup : NoDup (map (fun r => pn_id (rk_node r)) ranking).
Proof.
  assert (map (fun r => pn_id (rk_node r)) ranking ≡ₚ map_keys entries) as ->.
  { rewrite <- map_entry_ids. apply Permutation_map, js_sort_perm. }
  apply entries_NoDup.
Qed.

Lemma ranked_ids_eq n : ranked_ids n entries = take n (map (fun r => pn_id (rk_node r)) ranking).
Proof.
  unfold ranked_ids. rewrite <- firstn_map. apply uniq_id.
  eapply sublist_NoDup; [apply ranking_NoDup|apply sublist_take].
Qed.
End Stage.

(** What the sort by rank and the cut keep, for totals that are ordered by [R]. *)
Lemma kept_ids rows metric role visible ctx n k (R : A -> A -> Prop) :
  let stages := resolveVisibleStages role visible in
  (forall l, Forall (fun r : @FlowNodeRank A => exists id, rk_value r = stage_total rows metric ctx k id) l ->
     StronglySorted (fun x y => R (rk_value y) (rk_value x)) (js_sort rank_cmp l)) ->
  k ∈ stages -> (0 < n)%nat ->
  exists sets ids,
    buildTopNodeSets rows metric stages (Some n) ctx = Some sets /\ map_get k sets = Some ids
    /\ NoDup ids /\ (length ids <= n)%nat
    /\ (forall id, id ∈ ids -> exists row, row ∈ rows /\ id = stage_id ctx k row)
    /\ forall row, row ∈ rows -> stage_id ctx k row ∉ ids ->
         length ids = n
         /\ forall top, top ∈ ids ->
              R (stage_total rows metric ctx k (stage_id ctx k row)) (stage_total rows metric ctx k top).
Proof.
  cbv zeta. intros Hrank Hk Hn.
  destruct (top_sets_get rows metric (resolveVisibleStages role visible) ctx n k) as (sets & Hs & Hg);
    [apply stages_NoDup|done..|].
  set (entries := stage_aggregate rows metric ctx k) in *.
  set (ranking := js_sort rank_cmp (map_values entries)).
  pose proof (ranked_ids_eq rows metric ctx k n) as He. fold entries ranking in He.
  assert (ranking ≡ₚ map_values entries) as Hp by apply js_sort_perm.
  assert (forall id, id ∈ map (fun r => pn_id (rk_node r)) ranking
    <-> exists row, row ∈ rows /\ id = stage_id ctx k row) as Hocc.
  { intros id. rewrite Hp. unfold entries. rewrite map_entry_ids. apply entry_occurs. }
  exists sets, (ranked_ids n entries). split_and!; [done|done| | | |].
  - apply NoDup_uniq.
  - rewrite He, length_take. lia.
  - intros id Hid. apply Hocc. rewrite He in Hid. by apply elem_of_take in Hid as (i & Hi & _);
      apply list_elem_of_lookup_2 in Hi.
  - intros row Hrow Hout. assert (stage_id ctx k row ∈ map (fun r => pn_id (rk_node r)) ranking) as Hin
      by (apply Hocc; eauto).
    rewrite He in Hout |- *. rewrite <- (take_drop n ranking), map_app in Hin.
    rewrite firstn_map in Hout |- *. apply elem_of_app in Hin as [Hin|Hin]; [done|].
    apply elem_of_map in Hin as (r & Hr & ->). split.
    + rewrite length_map, length_take. assert (length (drop n ranking) <> 0%nat) as Hd.
      { intros E. apply nil_length_inv in E. rewrite E in Hr. by apply elem_of_nil in Hr. }
      rewrite length_drop in Hd. lia.
    + intros top Ht. apply elem_of_map in Ht as (r' & Hr' & ->).
      assert (StronglySorted (fun x y => R (rk_value y) (rk_value x)) ranking) as Hsort.
      { apply Hrank, Forall_forall. intros x Hx. eexists. by apply entry_value. }
      rewrite <- (take_drop n ranking) in Hsort.
      apply (StronglySorted_app_1_elem_of _ _ _ r' r) in Hsort; [|done..].
      rewrite <- !(entry_value rows metric ctx k); [exact Hsort|..]; fold entries; rewrite <- Hp;
        rewrite <- (take_drop n ranking); apply elem_of_app; auto.
Qed.

(** ** Columns of the finished graph *)

Lemma limited_node path sets mode labeler path' x ids :
  applyTopNodeLimit path (Some sets) mode labeler = Some path' -> x ∈ path' ->
  map_get (pn_kind x) sets = Some ids ->
  pn_id x ∈ ids \/ mode = OverflowAggregate /\ pn_id x = OTHER_FLOW_NODE_IDS (pn_kind x).
Proof.
  assert (forall y ids, map_get (pn_kind y) sets = Some ids -> isTopFlowNode y (Some sets) = true ->
    pn_id y ∈ ids) as Htop.
  { intros y ids' Hg. unfold isTopFlowNode. rewrite Hg. apply bool_decide_eq_true. }
  intros Hp Hx Hg. unfold applyTopNodeLimit in Hp. destruct (negb (existsb _ path)) eqn:E.
  - injection Hp as <-. left. apply (Htop x); [done|]. apply negb_true_iff in E.
    destruct (isTopFlowNode x (Some sets)) eqn:Ex; [done|].
    rewrite <- E. apply existsb_exists. exists x. by rewrite <- list_elem_of_In, Ex.
  - destruct mode; [|done]. apply Some_inj in Hp. subst path'. apply elem_of_map in Hx as (y & Hy & ->).
    cbv beta in Hg |- *.
    revert Hg. destruct (isTopFlowNode y (Some sets)) eqn:Et; intros Hg; [left; by apply Htop|by right].
Qed.

Lemma graph_ids_NoDup rows metric role palette visible ctx options :
  NoDup (map dn_id (dg_nodes (buildFlowGraph rows metric role palette visible ctx options))).
Proof.
  destruct (graph_views rows metric role palette visible ctx options) as (colors & Hv & _).
  pose proof (graph_paths_ok rows metric (resolveVisibleStages role visible) ctx options) as Hok.
  apply (Permutation_map (fun v => v.1.1)) in Hv. rewrite !map_map in Hv.
  set (nodes := nodes_of _ _ _ _) in Hv.
  change (map dn_id (dg_nodes (buildFlowGraph rows metric role palette visible ctx options))
          ≡ₚ map dn_id (map_values nodes)) in Hv. rewrite Hv.
  assert (map dn_id (map_values nodes) = map_keys nodes) as ->.
  { unfold map_values, map_keys. rewrite map_map. apply map_ext_in. intros kn Hkn.
    pose proof (nodes_of_Forall metric colors palette _ _ Hok) as Hf. rewrite Forall_forall in Hf.
    by apply (Hf kn), list_elem_of_In. }
  apply aggregate_NoDup. constructor.
Qed.

Lemma normalized_limit_pos limit n : normalizeTopNodeLimit limit = Some n -> (0 < n)%nat.
Proof.
  unfold normalizeTopNodeLimit. destruct limit as [l|]; [|done]. destruct (num_floor l) as [z|]; [|done].
  destruct (Z.ltb_spec 0 z); [|done]. intros [= <-]. lia.
Qed.

(** A node of a column is a node of a path. *)
Lemma graph_node_path rows metric role palette visible ctx options x :
  let stages := resolveVisibleStages role visible in
  x ∈ dg_nodes (buildFlowGraph rows metric role palette visible ctx options) ->
  exists p y, p ∈ graph_paths rows metric stages ctx options /\ y ∈ pp_path p
    /\ pn_id y = dn_id x /\ pn_kind y = dn_kind x /\ dn_kind x ∈ stages.
Proof.
  cbv zeta. intros Hx. set (stages := resolveVisibleStages role visible).
  destruct (graph_node rows metric role palette visible ctx options x Hx) as (colors & n0 & Hn0 & _ & Hid & Hst & _).
  fold stages in Hn0, Hst.
  assert (dn_id x ∈ map_keys (nodes_of metric colors palette (graph_paths rows metric stages ctx options))) as Hkey
    by (apply map_get_is_Some; exists n0; apply map_get_elem; [apply aggregate_NoDup; constructor|exact Hn0]).
  unfold nodes_of in Hkey. rewrite aggregate_keys in Hkey.
  destruct Hkey as [Hnil|((y & p) & He & Hy)]; [by apply elem_of_nil in Hnil|].
  apply list_elem_of_In, in_flat_map in He as (p' & Hp & He). apply in_map_iff in He as (y' & [= -> ->] & Hyp).
  apply list_elem_of_In in Hp, Hyp. exists p, y. cbn in Hy. split_and!; [done|done|done| |done].
  pose proof (graph_paths_ok rows metric stages ctx options) as Hok. rewrite Forall_forall in Hok.
  destruct (Hok p Hp) as [_ Hw]. rewrite Forall_forall in Hw. specialize (Hw y Hyp). unfold well_kinded in Hw.
  rewrite <- Hy in Hw. congruence.
Qed.

(** A limit of [n] leaves at most [n] nodes in every column, and one more, the
    overflow bucket, when overflow nodes are aggregated; node identifiers are
    distinct. *)
Theorem columns_bounded rows metric role palette visible ctx options n k :
  normalizeTopNodeLimit (go_topNodeLimit options) = Some n ->
  let g := buildFlowGraph rows metric role palette visible ctx options in
  let column := List.filter (fun x => dn_kind x ==? k) (dg_nodes g) in
  NoDup (map dn_id column)
  /\ (length column <= n + match go_overflowMode options with Some OverflowHide => 0 | _ => 1 end)%nat.
Proof.
  intros Hlim g column.
  assert (NoDup (map dn_id column)) as Hnd.
  { eapply sublist_NoDup; [apply (graph_ids_NoDup rows metric role palette visible ctx options)|].
    fold g. unfold column. apply (fmap_sublist dn_id), filter_sublist. }
  split; [exact Hnd|]. set (stages := resolveVisibleStages role visible).
  assert (forall x, x ∈ column -> x ∈ dg_nodes g /\ dn_kind x = k) as Hcol.
  { intros x Hx. apply elem_of_filter_bool in Hx as [Hkx Hx]. by apply bool_decide_eq_true in Hkx. }
  destruct (decide (k ∈ stages)) as [Hk|Hk].
  2: { destruct column as [|x column']; [cbn; lia|]. exfalso. destruct (Hcol x) as [Hx Hkx]; [left|].
       destruct (graph_node_path rows metric role palette visible ctx options x Hx) as (_ & _ & _ & _ & _ & _ & Hst).
       apply Hk. by rewrite <- Hkx. }
  destruct (top_sets_get rows metric stages ctx n k) as (sets & Hs & Hg);
    [apply stages_NoDup|done|by eapply normalized_limit_pos|].
  set (ids := ranked_ids n _) in Hg.
  assert (length ids <= n)%nat as Hlen.
  { unfold ids. rewrite ranked_ids_eq, length_take. lia. }
  set (mode := default DEFAULT_FLOW_OVERFLOW_MODE (go_overflowMode options)).
  set (others := match mode with OverflowHide => [] | OverflowAggregate => [OTHER_FLOW_NODE_IDS k] end).
  assert (forall id, id ∈ map dn_id column -> id ∈ ids ++ others) as Hincl.
  { intros id Hid. apply elem_of_map in Hid as (x & Hx & ->). destruct (Hcol x Hx) as [Hxg Hkx].
    destruct (graph_node_path rows metric role palette visible ctx options x Hxg) as (p & y & Hp & Hy & <- & Hky & _).
    unfold graph_paths in Hp. rewrite Hlim in Hp. fold stages in Hp. rewrite Hs in Hp. fold mode in Hp.
    unfold prepare_paths in Hp. apply list_elem_of_omap in Hp as (row & _ & E).
    destruct (applyTopNodeLimit _ _ _ _) as [path|] eqn:Ep; [|done]. injection E as <-. cbn in Hy.
    destruct (limited_node _ _ _ _ _ y ids Ep Hy) as [Hin|[-> ->]]; [by rewrite Hky, Hkx|..].
    - apply elem_of_app. by left.
    - apply elem_of_app. right. rewrite Hky, Hkx. unfold others. left. }
  pose proof (NoDup_submseteq _ _ Hnd Hincl) as Hsub. apply submseteq_length in Hsub.
  rewrite length_app, length_map in Hsub.
  unfold others, mode in Hsub. destruct (go_overflowMode options) as [[]|]; cbn in Hsub; lia.
Qed.
End Limit.

(** ** In the program's arithmetic *)

Section Ranked.
Context `{!FlowEnv num}.

Lemma key_trichotomy ka kb : key_lt ka kb \/ ka = kb \/ key_lt kb ka.
Proof.
  destruct ka as [[a1 a2] a3], kb as [[b1 b2] b3]. unfold key_lt. cbn.
  destruct (Z.lt_trichotomy a1 b1) as [?|[->|?]]; [by left; left| |by right; right; left].
  destruct (Z.lt_trichotomy a2 b2) as [?|[->|?]]; [by left; right; split; [|left]| |by right; right; right; split; [|left]].
  destruct (Z.lt_trichotomy a3 b3) as [?|[->|?]]; [by left; right; split; [|right]|by right; left|].
  by right; right; right; split; [|right].
Qed.

Lemma order_num a b : nle nzero a = true -> nle nzero b = true ->
  (n_cmp a b <> Gt -> nle a b = true) /\ (n_cmp a b <> Lt -> nle b a = true).
Proof.
  intros (k0 & ka & _ & Ha & _)%nle_key (k0' & kb & _ & Hb & _)%nle_key.
  pose proof (SFcompare_key a b) as H1. pose proof (SFcompare_key b a) as H2. rewrite Ha, Hb in H1, H2.
  cbn. rewrite !nle_cases. destruct H1 as [L1 E1], H2 as [L2 E2].
  destruct (key_trichotomy ka kb) as [Ht|[Ht|Ht]].
  - apply L1 in Ht. rewrite Ht. split; [by left|done].
  - apply E1 in Ht as Hab. symmetry in Ht. apply E2 in Ht as Hba. split; by right.
  - apply L2 in Ht. split; [|by left]. destruct (SFcompare a b) as [[]|] eqn:Ec; intros Hc; [by right|by left|done|].
    exfalso. revert Ec Ht. clear. destruct a as [sa|[]| |[] ma ea], b as [sb|[]| |[] mb eb]; try done.
Qed.

Lemma stage_total_nonneg rows metric ctx k id :
  (forall row, row ∈ rows -> nle nzero (row_value metric row) = true) ->
  nle nzero (stage_total rows metric ctx k id) = true.
Proof.
  intros Hr. apply n_sum_nonneg, Forall_forall. intros x Hx. apply elem_of_map in Hx as (row & Hrow & ->).
  apply elem_of_filter_bool in Hrow as [_ Hrow]. by apply Hr.
Qed.

(** C36: with a limit of [n], every visible column keeps at most [n] identifiers, all
    of them of rows, and leaves one out only when it keeps [n] others whose totals
    are not smaller. The totals are the rounded sums of binary64; the amounts of the rows
    are not negative. *)
Theorem top_nodes_ranked rows metric role visible ctx n k :
  (forall row, row ∈ rows -> nle nzero (row_value metric row) = true) ->
  let stages := resolveVisibleStages role visible in
  k ∈ stages -> (0 < n)%nat ->
  exists sets ids,
    buildTopNodeSets rows metric stages (Some n) ctx = Some sets /\ map_get k sets = Some ids
    /\ NoDup ids /\ (length ids <= n)%nat
    /\ (forall id, id ∈ ids -> exists row, row ∈ rows /\ id = stage_id ctx k row)
    /\ forall row, row ∈ rows -> stage_id ctx k row ∉ ids ->
         length ids = n
         /\ forall top, top ∈ ids ->
              nle (stage_total rows metric ctx k (stage_id ctx k row)) (stage_total rows metric ctx k top) = true.
Proof.
  intros Hr stages Hk Hn. apply (kept_ids rows metric role visible ctx n k (fun a b => nle a b = true)); [|done..].
  intros l Hl. apply (js_sort_strongly rank_cmp (fun r => nle nzero (rk_value r) = true)).
  - eapply Forall_impl; [exact Hl|]. intros r [id ->]. by apply stage_total_nonneg.
  - intros x y Hx Hy Hc. apply (order_num (rk_value y) (rk_value x)); [done..|]. unfold rank_cmp in Hc.
    by destruct (n_cmp (rk_value y) (rk_value x)).
  - intros x y Hx Hy Hc. destruct (order_num (rk_value y) (rk_value x)) as [H1 H2]; [done..|].
    apply H2. unfold rank_cmp in Hc. by destruct (n_cmp (rk_value y) (rk_value x)).
  - intros x y z _ _ _ H1 H2. by eapply nle_trans.
Qed.
End Ranked.

(** ** Witnesses *)

Lemma top_nodes_ranked_witness :
  ((forall row, row ∈ demo_rows -> nle nzero (row_value MetricQuota row) = true)
   /\ KModel ∈ resolveVisibleStages "user" None /\ (0 < 1)%nat)
  /\ exists sets ids,
       buildTopNodeSets demo_rows MetricQuota (resolveVisibleStages "user" None) (Some 1%nat) EMPTY_FLOW_PATH_CONTEXT
         = Some sets /\ map_get KModel sets = Some ids /\ (length ids <= 1)%nat.
Proof.
  assert (KModel ∈ resolveVisibleStages "user" None) as Hk by (by apply (bool_decide_unpack _)).
  assert (forall row, row ∈ demo_rows -> nle nzero (row_value MetricQuota row) = true) as Hr.
  { intros row Hr. unfold demo_rows in Hr.
    repeat (apply elem_of_cons in Hr as [->|Hr]; [vm_compute; reflexivity|]). by apply elem_of_nil in Hr. }
  split; [split_and!; [exact Hr|exact Hk|lia]|].
  destruct (top_nodes_ranked demo_rows MetricQuota "user" None EMPTY_FLOW_PATH_CONTEXT 1 KModel Hr Hk ltac:(lia))
    as (sets & ids & Hs & Hg & _ & Hl & _). eauto.
Defined.

Lemma columns_bounded_witness :
  normalizeTopNodeLimit (go_topNodeLimit demo_options) = Some 1%nat
  /\ (length (List.filter (fun x => dn_kind x ==? KModel)
        (dg_nodes (buildFlowGraph demo_rows MetricQuota "root" None None EMPTY_FLOW_PATH_CONTEXT demo_options)))
      <= 2)%nat.
Proof.
  assert (normalizeTopNodeLimit (go_topNodeLimit demo_options) = Some 1%nat) as Hn by (vm_compute; reflexivity).
  split; [exact Hn|].
  exact (proj2 (columns_bounded demo_rows MetricQuota "root" None None EMPTY_FLOW_PATH_CONTEXT demo_options 1 KModel Hn)).
Defined.
