(* ===== verification/FlowSankey.v ===== *)
(** * Quota flow chart (features/dashboard/lib/flow.ts, from recordValue on)

    The chart specification built from a flow graph: its data, the callbacks the
    chart library calls with a datum, and the reading of a clicked datum. A datum is
    any JavaScript value: the library hands out the data of the specification bare,
    or wrapped in its own objects. *)
From S2P Require Import Prelude JsString JsNumber JsValue Numeric OrderedMap Flow.

(** ** Data *)

(** [recordValue]: objects and arrays. *)
Definition recordValue (value : jsval) : option jsval :=
  match value with JObj _ | JArr _ => Some value | _ => None end.

(** [datum[key]] for the keys the code reads, which arrays do not have. *)
Definition field (datum : jsval) (key : jstr) : jsval :=
  match datum with JObj o => prop o key | _ => JUndef end.

(** [nested[n]] *)
Definition element_at (nested : list jsval) (n : num) : option jsval :=
  match num_floor n with
  | Some z => if (0 <=? z)%Z && neq n (num_of_Z z) then nested !! Z.to_nat z else None
  | None => None
  end.

Definition sankeyDatumSource (datum : jsval) : jsval :=
  match field datum "datum" with
  | JArr nested =>
      let depth := numberValue (field datum "depth") in
      let record i := match element_at nested i with Some v => recordValue v | None => None end in
      default (default datum (record nzero)) (record depth)
  | nested => default datum (recordValue nested)
  end.

Definition defined (v : jsval) : bool := match v with JUndef => false | _ => true end.

Definition sankeyDatumValue (datum : jsval) (key : jstr) : jsval :=
  if defined (field datum key) then field datum key else field (sankeyDatumSource datum) key.

Definition sankeyDatumFlag (datum : jsval) (key : jstr) : bool :=
  match sankeyDatumValue datum key with JBool true => true | _ => false end.

Definition flowSankeyDatumValue (datum : jsval) (key : jstr) : jsval :=
  match recordValue datum with Some record => sankeyDatumValue record key | None => JUndef end.

Definition isSankeyLinkDatum (datum : jsval) : bool :=
  defined (sankeyDatumValue datum "source") && defined (sankeyDatumValue datum "target").

Definition flowNodeFilterFromSankeyDatum (datum : jsval) : option FlowNodeFilter :=
  match recordValue datum with
  | None => None
  | Some record =>
      if isSankeyLinkDatum record then None
      else
        match flowSankeyDatumValue record "key", isFlowNodeKind (flowSankeyDatumValue record "kind") with
        | (JStr _ | JNum _) as id, Some kind => Some {| ff_kind := kind; ff_id := js_to_string id |}
        | _, _ => None
        end
  end.

(** ** The specification *)

Record FlowSankeyLabels := { sl_quota : jstr; sl_tokens : jstr; sl_requests : jstr; sl_share : jstr }.

Definition DEFAULT_FLOW_SANKEY_LABELS : FlowSankeyLabels :=
  {| sl_quota := "Quota"; sl_tokens := "Tokens"; sl_requests := "Requests"; sl_share := "Share" |}.

(** A tooltip line; a line without [visible] is always shown. *)
Record TooltipLine := { tl_key : jstr; tl_value : jsval -> jstr; tl_visible : option (jsval -> bool) }.

(** The parts of the specification that depend on the graph, with the callbacks. *)
Record FlowSankeySpec := {
  sk_title : jstr;
  sk_nodes : list jsobj;
  sk_links : list jsobj;
  sk_linkSortBy : jsval -> jsval -> comparison;
  sk_node_fill : jsval -> jstr;
  sk_node_fillOpacity : jsval -> num;
  sk_node_stroke : jsval -> jstr;
  sk_node_lineWidth : jsval -> num;
  sk_link_fill : jsval -> jstr;
  sk_link_fillOpacity : jsval -> num;
  sk_link_zIndex : jsval -> num;
  sk_link_hover_fill : jsval -> jstr;
  sk_link_selected_fill : jsval -> jstr;
  sk_tooltip_visible : jsval -> bool;
  sk_tooltip_title : jsval -> jstr;
  sk_tooltip_content : list TooltipLine
}.

Definition flag_value (flag : option bool) : jsval :=
  match flag with Some b => JBool b | None => JUndef end.

Definition flag_set (flag : option bool) : bool := default false flag.

Section Sankey.
Context `{FlowEnv num}.

Definition tooltipMetricLines (valueFormatter : num -> jstr) (labels : FlowSankeyLabels) : list TooltipLine :=
  let metricValue datum key := numberValue (sankeyDatumValue datum key) in
  let formattedNumber datum key := formatNumber (metricValue datum key) in
  let hasMetric datum key := nlt nzero (metricValue datum key) in
  [ {| tl_key := sl_quota labels; tl_value datum := valueFormatter (metricValue datum "quota"); tl_visible := None |};
    {| tl_key := sl_tokens labels; tl_value datum := formattedNumber datum "tokens"; tl_visible := None |};
    {| tl_key := sl_requests labels; tl_value datum := formattedNumber datum "requests"; tl_visible := None |};
    {| tl_key := sl_share labels;
       tl_value datum := to_fixed 1 (nmul (metricValue datum "share") (num_of_Z 100)) ++ "%";
       tl_visible := Some (fun datum => hasMetric datum "share") |} ].

Definition node_datum (node : @DashboardFlowNode num) : jsobj :=
  [ ("key", JStr (dn_id node)); ("name", JStr (dn_label node)); ("rawLabel", JStr (dn_label node));
    ("kind", JStr (kind_name (dn_kind node))); ("value", JNum (dn_value node));
    ("requests", JNum (dn_requests node)); ("quota", JNum (dn_quota node)); ("tokens", JNum (dn_tokens node));
    ("color", JStr (dn_color node)); ("colorKey", JStr (dn_colorKey node));
    ("highlighted", flag_value (dn_highlighted node)); ("dimmed", flag_value (dn_dimmed node)) ].

(** The [zIndex] of the link drawn at a position: small integers, whose sum is exact. *)
Definition link_zIndex (index : nat) (link : @DashboardFlowLink num) : Z :=
  if flag_set (dl_highlighted link) then 1000000 + Z.of_nat index
  else if flag_set (dl_dimmed link) then Z.of_nat index
  else 100000 + Z.of_nat index.

Definition link_datum (index : nat) (link : @DashboardFlowLink num) : jsobj :=
  [ ("source", JStr (dl_source link)); ("target", JStr (dl_target link)); ("linkKey", JStr (linkStableKey link));
    ("sourceLabel", JStr (dl_sourceLabel link)); ("targetLabel", JStr (dl_targetLabel link));
    ("value", JNum (dl_value link)); ("requests", JNum (dl_requests link)); ("quota", JNum (dl_quota link));
    ("tokens", JNum (dl_tokens link)); ("color", JStr (dl_color link)); ("linkColor", JStr (dl_linkColor link));
    ("linkAlpha", JNum (dl_linkAlpha link)); ("hoverColor", JStr (dl_hoverColor link));
    ("colorKey", JStr (dl_colorKey link)); ("share", JNum (dl_share link));
    ("highlighted", flag_value (dl_highlighted link)); ("dimmed", flag_value (dl_dimmed link));
    ("zIndex", JNum (num_of_Z (link_zIndex index link))) ].

(** The links the chart draws, in drawing order. *)
Definition drawn_links (links : list (@DashboardFlowLink num)) : list (@DashboardFlowLink num) :=
  js_sort byLinkDrawPriority (List.filter (fun link => nlt nzero (dl_value link)) links).

(** The sign of the number [linkSortBy] returns. *)
Definition linkSortBy (a b : jsval) : comparison :=
  let text v := js_to_string (js_nullish v (JStr [])) in
  let key v := text (field v "source") ++ [0%N] ++ text (field v "target") in
  let number v k := numberValue (field v k) in
  cmp_or (n_cmp (number b "value") (number a "value"))
    (cmp_or (localeCompare (key a) (key b)) (n_cmp (number a "index") (number b "index"))).

Definition buildFlowSankeySpec (flow : @DashboardFlowGraph num) (title : jstr)
    (valueFormatter : option (num -> jstr)) (labels : option FlowSankeyLabels) : FlowSankeySpec :=
  let color_of first datum :=
    js_to_string
      (js_nullish (sankeyDatumValue datum first)
         (js_nullish (sankeyDatumValue datum "color") (JStr (colorAt 0 None)))) in
  {| sk_title := title;
     sk_nodes := map node_datum (dg_nodes flow);
     sk_links := imap link_datum (drawn_links (dg_links flow));
     sk_linkSortBy := linkSortBy;
     sk_node_fill datum :=
       js_to_string (js_nullish (sankeyDatumValue datum "color") (JStr (colorAt 0 None)));
     sk_node_fillOpacity datum :=
       if sankeyDatumFlag datum "dimmed" then num_of_string "0.18"
       else if sankeyDatumFlag datum "highlighted" then num_of_Z 1 else num_of_string "0.92";
     sk_node_stroke datum :=
       if sankeyDatumFlag datum "highlighted" then "rgba(15, 23, 42, 0.74)" else "rgba(148, 163, 184, 0.45)";
     sk_node_lineWidth datum :=
       if sankeyDatumFlag datum "highlighted" then num_of_string "1.5" else num_of_Z 1;
     sk_link_fill := color_of "linkColor";
     sk_link_fillOpacity datum :=
       if sankeyDatumFlag datum "dimmed" then num_of_string "0.08"
       else if sankeyDatumFlag datum "highlighted" then num_of_string "0.86"
       else
         let alpha := numberValue (sankeyDatumValue datum "linkAlpha") in
         if num_truthy alpha then alpha else num_of_Z 1;
     sk_link_zIndex datum :=
       let zIndex := sankeyDatumValue datum "zIndex" in
       if defined zIndex then numberValue zIndex
       else nsub (num_of_Z 1000000000) (numberValue (sankeyDatumValue datum "value"));
     sk_link_hover_fill := color_of "hoverColor";
     sk_link_selected_fill := color_of "hoverColor";
     sk_tooltip_visible datum := isSankeyLinkDatum datum || defined (sankeyDatumValue datum "key");
     sk_tooltip_title datum :=
       let source := sankeyDatumValue datum "source" in
       let target := sankeyDatumValue datum "target" in
       if truthy source && truthy target then
         js_to_string (js_nullish (sankeyDatumValue datum "sourceLabel") source) ++ " -> "
           ++ js_to_string (js_nullish (sankeyDatumValue datum "targetLabel") target)
       else
         js_to_string
           (js_nullish (sankeyDatumValue datum "name")
              (js_nullish (sankeyDatumValue datum "rawLabel") (JStr [])));
     sk_tooltip_content :=
       tooltipMetricLines (default formatNumber valueFormatter) (default DEFAULT_FLOW_SANKEY_LABELS labels) |}.
End Sankey.

(** ** What the chart library hands to the callbacks *)

(** The keys the callbacks read, apart from the wrapper's own. *)
Definition READ_KEYS : list jstr :=
  ["source"; "target"; "key"; "kind"; "name"; "rawLabel"; "sourceLabel"; "targetLabel"; "quota"; "tokens";
   "requests"; "share"; "color"; "linkColor"; "linkAlpha"; "hoverColor"; "highlighted"; "dimmed"; "zIndex"; "value"].

(** [w] is the datum [d] itself, or an object around it that has none of its keys:
    the datum under "datum", or at the position "depth" of an array there. *)
Inductive wraps (d : jsobj) : jsval -> Prop :=
| wraps_bare : prop d "datum" = JUndef -> wraps d (JObj d)
| wraps_nested o :
    Forall (fun k => prop o k = JUndef) READ_KEYS -> prop o "datum" = JObj d -> wraps d (JObj o)
| wraps_at_depth o l :
    Forall (fun k => prop o k = JUndef) READ_KEYS -> prop o "datum" = JArr l ->
    element_at l (numberValue (prop o "depth")) = Some (JObj d) -> wraps d (JObj o).

Lemma wraps_value d w k : wraps d w -> k ∈ READ_KEYS -> sankeyDatumValue w k = prop d k.
Proof.
  intros Hw Hk. destruct Hw as [Hd|o Ho Hd|o l Ho Hd He]; unfold sankeyDatumValue, sankeyDatumSource; cbn [field].
  - rewrite Hd. cbn [recordValue default field]. by destruct (defined (prop d k)).
  - rewrite Forall_forall in Ho. rewrite (Ho k Hk), Hd. done.
  - rewrite Forall_forall in Ho. rewrite (Ho k Hk), Hd. cbn [defined]. by rewrite He.
Qed.

Lemma wraps_record d w : wraps d w -> recordValue w = Some w.
Proof. by intros []. Qed.

(** Membership in [READ_KEYS], by evaluation. *)
Ltac read_key := apply (bool_decide_eq_true_1 _); vm_compute; reflexivity.

Lemma wraps_flag d w k b : wraps d w -> k ∈ READ_KEYS -> prop d k = flag_value b ->
  sankeyDatumFlag w k = flag_set b.
Proof.
  intros Hw Hk Hp. unfold sankeyDatumFlag. rewrite (wraps_value d) by done. rewrite Hp.
  by destruct b as [[]|].
Qed.

Lemma kind_of_name k : isFlowNodeKind (JStr (kind_name k)) = Some k.
Proof. by destruct k. Qed.

(** Clicking a node of the chart selects exactly that node, however the chart
    library wraps its datum, and clicking a link selects no node. *)
Theorem click_reads_back d w :
  wraps d w ->
  (forall n, d = node_datum n -> flowNodeFilterFromSankeyDatum w = Some {| ff_kind := dn_kind n; ff_id := dn_id n |})
  /\ (forall i l, d = link_datum i l -> flowNodeFilterFromSankeyDatum w = None).
Proof.
  intros Hw. unfold flowNodeFilterFromSankeyDatum, flowSankeyDatumValue, isSankeyLinkDatum.
  rewrite (wraps_record d), (wraps_record d) by done.
  rewrite !(wraps_value d w) by (done || read_key). split.
  - intros n ->. change (prop (node_datum n) "source") with JUndef.
    change (prop (node_datum n) "key") with (JStr (dn_id n)).
    change (prop (node_datum n) "kind") with (JStr (kind_name (dn_kind n))).
    by rewrite kind_of_name.
  - by intros i l ->.
Qed.

(** ** What the chart shows *)

Section Shown.
Context `{FlowEnv num} (flow : @DashboardFlowGraph num) (title : jstr).
Context (valueFormatter : option (num -> jstr)) (labels : option FlowSankeyLabels).
Notation spec := (buildFlowSankeySpec flow title valueFormatter labels).

(** A graph's numbers are finite: [numberValue] keeps them. *)
Lemma number_value_finite x : is_finite x = true -> numberValue (JNum x) = x.
Proof. unfold numberValue. cbn. by intros ->. Qed.

(** Every callback shows a node as the graph has it: its colour and label, the
    highlight's stroke and opacity, the dimmed opacity, and its quota in the
    tooltip. *)
Theorem node_shown_as_is w n :
  wraps (node_datum n) w -> is_finite (dn_quota n) = true ->
  sk_node_fill spec w = dn_color n
  /\ sk_tooltip_visible spec w = true
  /\ sk_tooltip_title spec w = dn_label n
  /\ sk_node_fillOpacity spec w
     = (if flag_set (dn_dimmed n) then num_of_string "0.18"
        else if flag_set (dn_highlighted n) then num_of_Z 1 else num_of_string "0.92")
  /\ sk_node_lineWidth spec w = (if flag_set (dn_highlighted n) then num_of_string "1.5" else num_of_Z 1)
  /\ head (map (fun line => tl_value line w) (sk_tooltip_content spec))
     = Some (default formatNumber valueFormatter (dn_quota n)).
Proof.
  intros Hw Hq. unfold buildFlowSankeySpec, tooltipMetricLines, isSankeyLinkDatum.
  cbn [sk_node_fill sk_tooltip_visible sk_tooltip_title sk_node_fillOpacity sk_node_lineWidth sk_tooltip_content
       map head tl_value].
  rewrite (wraps_flag _ w "dimmed" (dn_dimmed n)), (wraps_flag _ w "highlighted" (dn_highlighted n))
    by (done || read_key).
  rewrite !(wraps_value _ w) by (done || read_key).
  change (prop (node_datum n) "quota") with (JNum (dn_quota n)). rewrite number_value_finite by done.
  by split_and!.
Qed.

(** Every callback shows a link as the graph has it: its colours, its ends'
    labels, the highlight's and the dimmed opacity, and its drawing position. *)
Theorem link_shown_as_is w i l :
  wraps (link_datum i l) w -> dl_source l <> [] -> dl_target l <> [] ->
  sk_link_fill spec w = dl_linkColor l
  /\ sk_link_hover_fill spec w = dl_hoverColor l
  /\ sk_tooltip_visible spec w = true
  /\ sk_tooltip_title spec w = dl_sourceLabel l ++ " -> " ++ dl_targetLabel l
  /\ sk_link_zIndex spec w = numberValue (JNum (num_of_Z (link_zIndex i l)))
  /\ (flag_set (dl_dimmed l) = true -> sk_link_fillOpacity spec w = num_of_string "0.08")
  /\ (flag_set (dl_dimmed l) = false -> flag_set (dl_highlighted l) = true ->
      sk_link_fillOpacity spec w = num_of_string "0.86").
Proof.
  intros Hw Hs Ht. unfold buildFlowSankeySpec, isSankeyLinkDatum.
  cbn [sk_link_fill sk_link_hover_fill sk_tooltip_visible sk_tooltip_title sk_link_zIndex sk_link_fillOpacity].
  rewrite (wraps_flag _ w "dimmed" (dl_dimmed l)), (wraps_flag _ w "highlighted" (dl_highlighted l))
    by (done || read_key).
  rewrite !(wraps_value _ w) by (done || read_key).
  change (prop (link_datum i l) "source") with (JStr (dl_source l)).
  change (prop (link_datum i l) "target") with (JStr (dl_target l)).
  split_and!; [done|done|done| |done|by intros ->|by intros -> ->].
  destruct (dl_source l), (dl_target l); done.
Qed.

(** The chart draws exactly the links of positive value, each once, and up to a
    hundred thousand of them a highlighted link is above every unmarked one and an
    unmarked one above every dimmed one; equal marks keep the drawing order. *)
Theorem draw_order :
  drawn_links (dg_links flow) ≡ₚ List.filter (fun l => nlt nzero (dl_value l)) (dg_links flow)
  /\ sk_links spec = imap link_datum (drawn_links (dg_links flow))
  /\ forall i j a b,
      (Z.of_nat (length (dg_links flow)) <= 100000)%Z ->
      drawn_links (dg_links flow) !! i = Some a -> drawn_links (dg_links flow) !! j = Some b ->
      let rank l := if flag_set (dl_highlighted l) then 2 else if flag_set (dl_dimmed l) then 0 else 1 in
      (link_zIndex i a < link_zIndex j b)%Z <-> rank a < rank b \/ rank a = rank b /\ i < j.
Proof.
  split_and!; [apply js_sort_perm|done|]. intros i j a b Hlen Ha Hb rank.
  assert (Z.of_nat (length (drawn_links (dg_links flow))) <= 100000)%Z as Hd.
  { unfold drawn_links. rewrite js_sort_perm. pose proof (filter_length_le (fun l => nlt nzero (dl_value l)) (dg_links flow)). lia. }
  apply lookup_lt_Some in Ha, Hb. unfold link_zIndex, rank.
  destruct (flag_set (dl_highlighted a)), (flag_set (dl_highlighted b)), (flag_set (dl_dimmed a)),
    (flag_set (dl_dimmed b)); lia.
Qed.
End Shown.

(** ** Witnesses *)

#[export] Instance demo_chart_env : FlowEnv num := {
  localeCompare a b := if a ==? b then Eq else Lt;
  vchartDefaultDataScheme := [{| cs_maxDomainLength := 10; cs_scheme := [Some "#1664FF"] |}];
  formatNumber := num_to_string
}.

Definition demo_node : @DashboardFlowNode num :=
  {| dn_id := "model:gpt"; dn_label := "gpt"; dn_kind := KModel; dn_value := num_of_Z 5;
     dn_requests := num_of_Z 1; dn_quota := num_of_Z 5; dn_tokens := num_of_Z 9; dn_color := "#1664FF";
     dn_colorKey := "model:gpt"; dn_highlighted := Some true; dn_dimmed := Some false |}.

Definition demo_link (target : jstr) (lit : bool) : @DashboardFlowLink num :=
  {| dl_source := "group:vip"; dl_target := target; dl_value := num_of_Z 5; dl_requests := num_of_Z 1;
     dl_quota := num_of_Z 5; dl_tokens := num_of_Z 9; dl_sourceLabel := "vip"; dl_targetLabel := target;
     dl_color := "#1664FF"; dl_linkColor := "#1664FF"; dl_linkAlpha := num_of_Z 1; dl_hoverColor := "#1664FF";
     dl_colorKey := "group:vip"; dl_share := num_of_Z 1; dl_highlighted := Some lit; dl_dimmed := Some (negb lit) |}.

Definition demo_flow : @DashboardFlowGraph num :=
  {| dg_nodes := [demo_node]; dg_links := [demo_link "model:gpt" true; demo_link "model:claude" false] |}.

Definition demo_wrapper (d : jsobj) : jsval :=
  JObj [("depth", JNum (num_of_Z 1)); ("datum", JArr [JNull; JObj d])].

Lemma demo_wraps d : wraps d (demo_wrapper d).
Proof.
  apply wraps_at_depth with [JNull; JObj d]; [|reflexivity|reflexivity].
  repeat (constructor; [reflexivity|]). constructor.
Defined.

Lemma click_reads_back_witness :
  wraps (node_datum demo_node) (demo_wrapper (node_datum demo_node))
  /\ flowNodeFilterFromSankeyDatum (demo_wrapper (node_datum demo_node))
     = Some {| ff_kind := KModel; ff_id := "model:gpt" |}.
Proof.
  split; [apply demo_wraps|]. exact (proj1 (click_reads_back _ _ (demo_wraps (node_datum demo_node))) demo_node eq_refl).
Defined.

Lemma node_shown_as_is_witness :
  wraps (node_datum demo_node) (demo_wrapper (node_datum demo_node)) /\ is_finite (dn_quota demo_node) = true
  /\ sk_tooltip_title (buildFlowSankeySpec demo_flow "Flow" None None) (demo_wrapper (node_datum demo_node)) = "gpt".
Proof.
  split; [apply demo_wraps|]. split; [reflexivity|].
  pose proof (node_shown_as_is demo_flow "Flow" None None _ demo_node (demo_wraps (node_datum demo_node)) eq_refl) as T.
  exact (proj1 (proj2 (proj2 T))).
Defined.

Lemma link_shown_as_is_witness :
  let l := demo_link "model:gpt" true in
  wraps (link_datum 0 l) (demo_wrapper (link_datum 0 l)) /\ dl_source l <> [] /\ dl_target l <> []
  /\ sk_tooltip_title (buildFlowSankeySpec demo_flow "Flow" None None) (demo_wrapper (link_datum 0 l))
     = "vip -> model:gpt".
Proof.
  cbv zeta. split; [apply demo_wraps|]. split; [discriminate|]. split; [discriminate|].
  assert (dl_source (demo_link "model:gpt" true) <> []) as Hs by discriminate.
  assert (dl_target (demo_link "model:gpt" true) <> []) as Ht by discriminate.
  pose proof (link_shown_as_is demo_flow "Flow" None None _ 0 _ (demo_wraps (link_datum 0 (demo_link "model:gpt" true))) Hs Ht) as T.
  exact (proj1 (proj2 (proj2 (proj2 T)))).
Defined.

Lemma draw_order_witness :
  (drawn_links (dg_links demo_flow) !! 1 = Some (demo_link "model:claude" false)
   /\ drawn_links (dg_links demo_flow) !! 0 = Some (demo_link "model:gpt" true))
  /\ (link_zIndex 1 (demo_link "model:claude" false) < link_zIndex 0 (demo_link "model:gpt" true))%Z.
Proof.
  assert (drawn_links (dg_links demo_flow) !! 1 = Some (demo_link "model:claude" false)) as H0
    by (vm_compute; reflexivity).
  assert (drawn_links (dg_links demo_flow) !! 0 = Some (demo_link "model:gpt" true)) as H1
    by (vm_compute; reflexivity).
  split; [split; [exact H0|exact H1]|].
  pose proof (draw_order demo_flow "Flow" None None) as (_ & _ & T).
  apply (T 1%nat 0%nat _ _ ltac:(cbn; lia) H0 H1). left. cbn. lia.
Defined.
