(* ===== verification/RegexHits.v ===== *)
(** * Regular expressions: the first match

    The answer of a backtracking engine is its first way to match. These lemmas
    follow a pattern along a text on which the greedy choice is always the right
    one, and discard alternatives that cannot match. *)
From S2P Require Import Prelude JsString Regex.

(** From [suf], [r] first stops before [rest], with captures [caps']. *)
Definition hit (r : rx) (suf : jstr) (caps : list (nat * jstr)) (rest : jstr) (caps' : list (nat * jstr)) : Prop :=
  forall pre, exists pre', head (rx_run r (MSt pre suf caps)) = Some (MSt pre' rest caps').

(** [r] does not match at the start of [suf]. *)
Definition miss (r : rx) (suf : jstr) : Prop := forall pre caps, rx_run r (MSt pre suf caps) = [].

Lemma head_flat_map {X Y} (f : X -> list Y) l x y :
  head l = Some x -> head (f x) = Some y -> head (flat_map f l) = Some y.
Proof. destruct l as [|z l]; [done|]. intros [= ->]. cbn. by destruct (f x). Qed.

Lemma hit_lit s rest caps : hit (RLit s) (s ++ rest) caps rest caps.
Proof. intros pre. rewrite run_lit. by eexists. Qed.

Lemma hit_seq a b suf caps mid caps1 rest caps2 :
  hit a suf caps mid caps1 -> hit b mid caps1 rest caps2 -> hit (RSeq a b) suf caps rest caps2.
Proof.
  intros Ha Hb pre. destruct (Ha pre) as [pre1 H1]. destruct (Hb pre1) as [pre2 H2].
  exists pre2. rewrite run_seq. by eapply head_flat_map.
Qed.

Lemma hit_opt_yes a suf caps rest caps' : hit a suf caps rest caps' -> hit (ropt a) suf caps rest caps'.
Proof.
  intros Ha pre. destruct (Ha pre) as [pre' H]. exists pre'. cbn [ropt rx_run].
  by destruct (rx_run a _).
Qed.

Lemma hit_opt_no a suf caps : miss a suf -> hit (ropt a) suf caps suf caps.
Proof. intros Ha pre. exists pre. cbn [ropt rx_run]. by rewrite Ha. Qed.

Lemma hit_cap n a l rest caps caps' :
  hit a (l ++ rest) caps rest caps' -> hit (RCap n a) (l ++ rest) caps rest ((n, l) :: caps').
Proof.
  intros Ha pre. destruct (Ha pre) as [pre' H]. exists pre'. cbn [rx_run].
  destruct (rx_run a _) as [|s ss]; [done|]. injection H as ->. cbn [map head]. f_equal.
  unfold cap_set. cbn [ms_pre ms_suf ms_caps]. do 3 f_equal.
  rewrite length_app. replace (length l + length rest - length rest) with (length l) by lia.
  apply take_app_length.
Qed.

Lemma head_splits l : exists t, splits_desc l = (l, []) :: t.
Proof.
  induction l as [|c l [t IH]]; cbn; [by eexists|]. rewrite IH. cbn. by eexists.
Qed.

Lemma hit_star_set p l rest caps :
  forallb p l = true -> head_not p rest -> hit (RStar (RSet p)) (l ++ rest) caps rest caps.
Proof.
  intros Hl Hr pre. cbn [rx_run ms_suf]. change (rx_run (RSet p)) with (set_run p).
  rewrite star_set_run by done. destruct (head_splits l) as [t ->]. cbn. by eexists.
Qed.

Lemma hit_plus_set p l rest caps :
  l <> [] -> forallb p l = true -> head_not p rest -> hit (rplus (RSet p)) (l ++ rest) caps rest caps.
Proof.
  destruct l as [|c l]; [done|]. intros _ Hl Hr pre. cbn in Hl. apply andb_true_iff in Hl as [Hc Hl].
  cbn [app]. rewrite run_plus_set by done. destruct (head_splits l) as [t ->]. cbn. by eexists.
Qed.

Lemma hit_cap_plus n p l rest caps :
  l <> [] -> forallb p l = true -> head_not p rest ->
  hit (RCap n (rplus (RSet p))) (l ++ rest) caps rest ((n, l) :: caps).
Proof. intros. by apply hit_cap, hit_plus_set. Qed.

(** One space, then something else. *)
Lemma hit_space rest caps : head_not is_space rest -> hit rspaces (" " ++ rest) caps rest caps.
Proof. intros Hr. by apply (hit_star_set is_space " "). Qed.

Lemma hit_no_space rest caps : head_not is_space rest -> hit rspaces rest caps rest caps.
Proof. intros Hr. by apply (hit_star_set is_space []). Qed.

(** ** Sequences *)

Lemma run_rseq_cons a l st : rx_run (rseq (a :: l)) st = flat_map (rx_run (rseq l)) (rx_run a st).
Proof.
  destruct l as [|b l]; [|done]. cbn [rseq]. induction (rx_run a st) as [|s ss IH]; [done|].
  cbn [flat_map]. rewrite <- IH. destruct s. cbn. unfold lit_run. done.
Qed.

Lemma hit_nil suf caps : hit (rseq []) suf caps suf caps.
Proof. intros pre. exists pre. done. Qed.

Lemma hit_cons a l suf caps mid caps1 rest caps2 :
  hit a suf caps mid caps1 -> hit (rseq l) mid caps1 rest caps2 -> hit (rseq (a :: l)) suf caps rest caps2.
Proof.
  intros Ha Hl pre. destruct (Ha pre) as [pre1 H1]. destruct (Hl pre1) as [pre2 H2].
  exists pre2. rewrite run_rseq_cons. by eapply head_flat_map.
Qed.

Lemma hit_app l1 l2 suf caps mid caps1 rest caps2 :
  hit (rseq l1) suf caps mid caps1 -> hit (rseq l2) mid caps1 rest caps2 ->
  hit (rseq (l1 ++ l2)) suf caps rest caps2.
Proof.
  intros H1 H2 pre. destruct (H1 pre) as [pre1 E1]. destruct (H2 pre1) as [pre2 E2]. exists pre2.
  assert (forall st, rx_run (rseq (l1 ++ l2)) st = flat_map (rx_run (rseq l2)) (rx_run (rseq l1) st)) as ->.
  { clear. induction l1 as [|a l1 IH]; intros st.
    - cbn [app rseq rx_run]. unfold lit_run. cbn. rewrite app_nil_r. by destruct st.
    - cbn [app]. rewrite !run_rseq_cons. induction (rx_run a st) as [|s ss IHs]; [done|].
      cbn [flat_map]. rewrite IH, IHs, flat_map_app. done. }
  by eapply head_flat_map.
Qed.

Lemma miss_cons a l suf : miss a suf -> miss (rseq (a :: l)) suf.
Proof. intros Ha pre caps. by rewrite run_rseq_cons, Ha. Qed.

Lemma miss_lit s suf : startsWith suf s = false -> miss (RLit s) suf.
Proof. intros Hs pre caps. by apply run_lit_fail. Qed.

Lemma miss_after_lit s l rest : miss (rseq l) rest -> miss (rseq (RLit s :: l)) (s ++ rest).
Proof. intros Hl pre caps. by rewrite run_rseq_cons, run_lit, flat_map_singleton. Qed.

Lemma miss_space l x : head_not is_space x ->
  miss (rseq l) x -> miss (rseq l) (" " ++ x) -> miss (rseq (rspaces :: l)) (" " ++ x).
Proof.
  intros Hx H1 H2 pre caps. rewrite run_rseq_cons. cbn [rx_run rspaces ms_suf].
  change (rx_run (RSet is_space)) with (set_run is_space).
  rewrite (star_set_run is_space " ") by done.
  transitivity (rx_run (rseq l) (MSt (32%N :: pre) x caps) ++ rx_run (rseq l) (MSt pre (" " ++ x) caps) ++ []);
    [done|]. by rewrite H1, H2.
Qed.

Lemma miss_no_space l x : head_not is_space x -> miss (rseq l) x -> miss (rseq (rspaces :: l)) x.
Proof.
  intros Hx H1 pre caps. rewrite run_rseq_cons.
  change (rx_run rspaces (MSt pre x caps)) with (star_run (set_run is_space) (length x) (MSt pre x caps)).
  pose proof (star_set_run is_space [] (length x) pre x caps eq_refl Hx ltac:(done)) as E. cbn [app] in E.
  rewrite E. cbn [splits_desc map flat_map rev app fst snd]. by rewrite H1.
Qed.

(** Refutes a match of a sequence of literals and spaces against a text whose
    start is known. *)
Ltac miss_text :=
  repeat first
    [ apply miss_cons, miss_lit; reflexivity
    | apply miss_space; [reflexivity| |]
    | apply miss_no_space; [reflexivity|]
    | match goal with
      | |- miss (rseq (RLit ?s :: _)) ?t =>
          let rest := eval cbv in (drop (length s) t) in change t with (s ++ rest); apply miss_after_lit
      end ].

(** ** Iteration *)

(** The texts [xs], each one iteration, then a text where no iteration matches;
    [E] holds of what follows an iteration. *)
Lemma hit_star (E : jstr -> Prop) a xs rest caps :
  (forall x more, x ∈ xs -> E more -> hit a (x ++ more) caps more caps) ->
  (forall x more, x ∈ xs -> x <> [] /\ E (x ++ more)) ->
  E rest -> miss a rest ->
  hit (RStar a) (concat xs ++ rest) caps rest caps.
Proof.
  intros Ha Hx HE Hm pre. cbn [rx_run ms_suf].
  enough (forall fuel pre, length (concat xs ++ rest) <= fuel ->
    exists pre', head (star_run (rx_run a) fuel (MSt pre (concat xs ++ rest) caps)) = Some (MSt pre' rest caps))
    as Hg by (by apply Hg).
  clear pre. induction xs as [|x xs IH]; intros fuel pre Hf; cbn [concat app] in *.
  - exists pre. destruct fuel; cbn [star_run]; [done|]. by rewrite Hm.
  - destruct (Hx x []) as [Hne _]; [left|]. rewrite <- app_assoc in *.
    assert (E (concat xs ++ rest)) as HE'.
    { destruct xs as [|y ys]; [done|]. cbn [concat]. rewrite <- app_assoc.
      apply (Hx y (concat ys ++ rest)). right. left. }
    destruct (Ha x (concat xs ++ rest) ltac:(left) HE' pre) as [pre1 H1].
    rewrite length_app in Hf. destruct x as [|c x]; [done|]. cbn [length] in Hf.
    destruct fuel as [|fuel]; [lia|].
    destruct (IH ltac:(intros; apply Ha; [by right|done]) ltac:(intros; apply Hx; by right) fuel pre1 ltac:(lia))
      as [pre2 H2]. exists pre2. cbn [star_run].
    destruct (rx_run a _) as [|s ss]; [done|]. injection H1 as ->. cbn [flat_map ms_suf].
    replace (length (concat xs ++ rest) <? length ((c :: x) ++ concat xs ++ rest))%nat with true
      by (symmetry; apply Nat.ltb_lt; rewrite !length_app; cbn; lia).
    by destruct (star_run (rx_run a) fuel _).
Qed.

(** ** Searching *)

Lemma search_hit r suf rest caps : hit r suf [] rest caps ->
  forall pre, exists pre', rx_search r pre suf = Some (MSt pre' rest caps).
Proof.
  intros Hr pre. destruct (Hr pre) as [pre' H]. exists pre'.
  destruct suf as [|c t]; cbn [rx_search]; destruct (rx_run r _); by inversion H.
Qed.

Lemma search_skip r c t pre : miss r (c :: t) -> rx_search r pre (c :: t) = rx_search r (c :: pre) t.
Proof. intros Hm. cbn [rx_search]. by rewrite Hm. Qed.

Lemma split_at_hit r fuel cur pre pre' suf rest :
  head (rx_run r (MSt pre suf [])) = Some (MSt pre' rest []) -> length rest < length suf ->
  rx_split_go r (S fuel) cur pre suf = rev cur :: rx_split_go r fuel [] pre' rest.
Proof.
  intros Hh Hl. destruct suf as [|c t]; [cbn in Hl; lia|]. cbn [rx_split_go].
  destruct (rx_run r _) as [|m ms]; [done|]. injection Hh as ->. cbn [ms_suf ms_pre].
  by rewrite (proj2 (Nat.ltb_lt _ _) Hl).
Qed.
