(* ===== verification/TierExpr.v ===== *)
(** * Visual tier editor (features/pricing/lib/tier-expr.ts)

    The tiers of the visual editor, their billing expression and the parser that
    reads one back. A configuration and its tiers are JavaScript objects: the editor
    keeps fields of its own in them. *)
From S2P Require Import Prelude JsString JsNumber JsValue Regex Json BillingExpr.

Definition CACHE_MODE_TIMED : jstr := "timed".
Definition CACHE_MODE_GENERIC : jstr := "generic".

(** An array, as its elements; [None] for anything else. *)
Definition array_of (v : jsval) : option (list jsval) := match v with JArr l => Some l | _ => None end.

(** A tier, as its fields; [undefined] gives the default [{}]. A tier is never [null] by its
    type; a [null], on which the source would throw, is read as [{}] too. *)
Definition as_tier (v : jsval) : jsobj := match v with JObj o => o | _ => [] end.

(** [Number(v) || 0] *)
Definition number_or_zero (v : jsval) : num := num_or (js_to_number v) nzero.

Definition getTierCacheMode (tier : jsobj) : jstr :=
  if prop tier "cache_mode" ==? JStr CACHE_MODE_TIMED then CACHE_MODE_TIMED
  else if prop tier "cache_mode" ==? JStr CACHE_MODE_GENERIC then CACHE_MODE_GENERIC
  else if nlt nzero (js_to_number (prop tier "cache_create_1h_unit_cost")) then CACHE_MODE_TIMED
  else CACHE_MODE_GENERIC.

Definition tier_cost_fields : list jstr :=
  ["cache_read_unit_cost"; "cache_create_unit_cost"; "cache_create_1h_unit_cost"; "image_unit_cost";
   "image_output_unit_cost"; "audio_input_unit_cost"; "audio_output_unit_cost"].

Definition tier_defaults (tier : jsobj) : jsobj :=
  [ ("label", js_nullish (prop tier "label") (JStr []));
    ("input_unit_cost", JNum (number_or_zero (prop tier "input_unit_cost")));
    ("output_unit_cost", JNum (number_or_zero (prop tier "output_unit_cost")));
    ("cache_mode", JStr (getTierCacheMode tier));
    ("conditions", match array_of (prop tier "conditions") with
                   | Some l => JArr l
                   | None => JArr []
                   end) ].

Definition normalizeVisualTier (tier : jsobj) : jsobj :=
  obj_spread (obj_spread (tier_defaults tier) tier)
    (map (fun f => (f, JNum (number_or_zero (prop tier f)))) tier_cost_fields).

Definition createDefaultVisualConfig : jsobj :=
  [("tiers", JArr [JObj (normalizeVisualTier
      [("conditions", JArr []); ("input_unit_cost", JNum nzero); ("output_unit_cost", JNum nzero);
       ("label", JStr "base"); ("cache_mode", JStr CACHE_MODE_GENERIC)])])].

(** [None] is [null] or [undefined]. *)
Definition normalizeVisualConfig (config : option jsobj) : jsobj :=
  match config with
  | None => createDefaultVisualConfig
  | Some c =>
      match array_of (prop c "tiers") with
      | None | Some [] => createDefaultVisualConfig
      | Some tiers =>
          obj_set "tiers" (JArr (map (fun tier => JObj (normalizeVisualTier (as_tier tier))) tiers)) c
      end
  end.

(** ** The expression of a configuration *)

(** [c.var && c.op && c.value != null && c.value !== ''] *)
Definition condition_complete (c : jsobj) : bool :=
  truthy (prop c "var") && truthy (prop c "op")
  && match prop c "value" with JUndef | JNull | JStr [] => false | _ => true end.

Definition condition_text (c : jsobj) : jstr :=
  js_to_string (prop c "var") ++ " " ++ js_to_string (prop c "op") ++ " " ++ js_to_string (prop c "value").

(** Conditions are an array of objects, or falsy. *)
Definition buildConditionStr (conditions : jsval) : jstr :=
  match array_of conditions with
  | None | Some [] => []
  | Some l => join " && " (map condition_text (List.filter condition_complete (map as_tier l)))
  end.

Definition buildTierBodyExpr (tier : jsobj) : jstr :=
  let ic := number_or_zero (prop tier "input_unit_cost") in
  let oc := number_or_zero (prop tier "output_unit_cost") in
  let extra cv :=
    let v := number_or_zero (prop tier (cv_field cv)) in
    if num_truthy v then [cv_exprVar cv ++ " * " ++ num_to_string v] else [] in
  join " + " (["p * " ++ num_to_string ic; "c * " ++ num_to_string oc]
                ++ flat_map extra BILLING_CACHE_VAR_MAP).

(** [tier.label || fallback] in a template. *)
Definition tier_text (tier : jsobj) (fallback : jstr) : jstr :=
  sq "tier('" ++ js_to_string (js_or (prop tier "label") (JStr fallback)) ++ sq "', "
    ++ buildTierBodyExpr tier ++ ")".

(** The part of tier [i] of [count]. *)
Definition tier_part (count i : nat) (tier : jsobj) : jstr :=
  let body := tier_text tier ("tier_" ++ Z_to_jstr (Z.of_nat (i + 1))) in
  let cond := buildConditionStr (prop tier "conditions") in
  if (i <? count - 1)%nat && non_empty cond then cond ++ " ? " ++ body else body.

Definition generateExprFromVisualConfig (config : option jsobj) : jstr :=
  match config with
  | None => "p * 0 + c * 0"
  | Some c =>
      match array_of (prop c "tiers") with
      | None | Some [] => "p * 0 + c * 0"
      | Some [tier] =>
          let tier := as_tier tier in
          let body := tier_text tier "default" in
          let cond := buildConditionStr (prop tier "conditions") in
          if non_empty cond then cond ++ " ? " ++ body ++ " : p * 0 + c * 0" else body
      | Some tiers => join " : " (imap (tier_part (length tiers)) (map as_tier tiers))
      end
  end.

(** ** Reading an expression back *)

(** The version prefix: a [v], digits, a colon, and the rest captured. *)
Definition visual_version_re : rx :=
  rseq [RBol; RLit "v"; rplus (RSet is_digit); RLit ":"; RCap 1 (RStar (RSet any_unit)); REol].

(** [\s*\*\s*([\d.eE+-]+)] *)
Definition cost_re (n : nat) : list rx := [rspaces; RLit "*"; rspaces; RCap n (rplus (RSet num_unit))].

(** [(?:\s*\+\s*v\s*\*\s*([\d.eE+-]+))?] for each cache variable. *)
Definition optCache (n : nat) (v : jstr) : rx :=
  ropt (rseq ([rspaces; RLit "+"; rspaces; RLit v] ++ cost_re n)).

(** The body of a tier, its captures numbered from [n]. *)
Definition bodyPat (n : nat) : list rx :=
  RLit "p" :: cost_re n ++ [rspaces; RLit "+"; rspaces; RLit "c"] ++ cost_re (n + 1)
    ++ imap (fun i cv => optCache (n + 2 + i) (cv_exprVar cv)) BILLING_CACHE_VAR_MAP.

(** A whole tier, its label captured as [n]. *)
Definition tierPat (n : nat) : list rx :=
  [RLit (sq "tier('"); RCap n (RStar (RSet (not_unit 34))); RLit (sq "',"); rspaces]
    ++ bodyPat (n + 1) ++ [RLit ")"].

Definition singleRe : rx := rseq (RBol :: tierPat 1 ++ [REol]).
Definition tierRe : rx := rseq (ropt (rseq [condGroup; rspaces; RLit "?"; rspaces]) :: tierPat 2).

Definition condition_object (cm : mst) : jsval :=
  JObj [("var", JStr (group_or cm 1)); ("op", JStr (group_or cm 2));
        ("value", JNum (num_of_string (group_or cm 3)))].

Definition visual_conditions (condStr : jstr) : list jsval :=
  match condStr with
  | [] => []
  | _ =>
      flat_map
        (fun cp => match rx_exec cond_re (trim cp) with Some cm => [condition_object cm] | None => [] end)
        (rx_split and_re condStr)
  end.

(** The tier of a match whose label is capture [n]. *)
Definition matched_tier (m : mst) (n : nat) (conditions : list jsval) : jsobj :=
  fold_left
    (fun tier '(i, cv) =>
       match group m (n + 3 + i) with
       | Some val => obj_set (cv_field cv) (JNum (num_of_string val)) tier
       | None => tier
       end)
    (combine (seq 0 (length BILLING_CACHE_VAR_MAP)) BILLING_CACHE_VAR_MAP)
    [("conditions", JArr conditions);
     ("input_unit_cost", JNum (num_of_string (group_or m (n + 1))));
     ("output_unit_cost", JNum (num_of_string (group_or m (n + 2))));
     ("label", JStr (group_or m n))].

Definition no_spaces (s : jstr) : jstr := List.filter (fun c => negb (is_space c)) s.

Definition visual_body (exprStr : jstr) : jstr :=
  match rx_exec visual_version_re exprStr with Some m => group_or m 1 | None => exprStr end.

(** [None] is [null]. Nothing throws: the values are those the parser builds. *)
Definition tryParseVisualConfig (exprStr : jstr) : option jsobj :=
  match exprStr with
  | [] => None
  | _ =>
      let body := visual_body exprStr in
      match rx_exec singleRe body with
      | Some m =>
          Some (normalizeVisualConfig (Some [("tiers", JArr [JObj (normalizeVisualTier (matched_tier m 1 []))])]))
      | None =>
          let tiers :=
            map (fun m => JObj (normalizeVisualTier (matched_tier m 2 (visual_conditions (group_or m 1)))))
              (rx_exec_all tierRe body) in
          match tiers with
          | [] => None
          | _ =>
              let cfg := normalizeVisualConfig (Some [("tiers", JArr tiers)]) in
              if no_spaces (generateExprFromVisualConfig (Some cfg)) ==? no_spaces body then Some cfg else None
          end
      end
  end.

(** ** Estimator variables *)

Definition ESTIMATOR_VARS : list (jstr * jstr) :=
  [ ("cr", "cacheReadTokens"); ("cc", "cacheCreateTokens"); ("cc1h", "cacheCreate1hTokens");
    ("img", "imageTokens"); ("img_o", "imageOutputTokens"); ("ai", "audioInputTokens");
    ("ao", "audioOutputTokens") ].

Definition exprUsesExtraVars (exprStr : jstr) : bool :=
  match exprStr with
  | [] => false
  | _ => rx_test (rseq [RWordB; RCap 1 (rlits (map fst ESTIMATOR_VARS)); RWordB]) exprStr
  end.

(** ** The local estimate *)

Record ExtraTokenValues := {
  ev_cacheReadTokens : num;
  ev_cacheCreateTokens : num;
  ev_cacheCreate1hTokens : num;
  ev_imageTokens : num;
  ev_imageOutputTokens : num;
  ev_audioInputTokens : num;
  ev_audioOutputTokens : num
}.

(** [extraTokenValues[stateKey]] *)
Definition extra_tokens (e : ExtraTokenValues) (stateKey : jstr) : num :=
  default nzero (obj_get stateKey
    [ ("cacheReadTokens", ev_cacheReadTokens e); ("cacheCreateTokens", ev_cacheCreateTokens e);
      ("cacheCreate1hTokens", ev_cacheCreate1hTokens e); ("imageTokens", ev_imageTokens e);
      ("imageOutputTokens", ev_imageOutputTokens e); ("audioInputTokens", ev_audioInputTokens e);
      ("audioOutputTokens", ev_audioOutputTokens e) ]).

(** A binding of the generated function: a number, the recorder of tiers, or a function of
    [Math]. *)
Inductive EnvValue :=
| EnvNum (n : num)
| EnvTier
| EnvMath (name : jstr).

(** What running the generated function does: the names it gives to [tier], in order,
    then its value or the message it throws. *)
Record RunResult := { run_tiers : list jstr; run_value : jsval + jstr }.

Record EvalResult := { er_cost : num; er_matchedTier : jstr; er_error : option jstr }.

Definition eval_env (promptTokens completionTokens : num) (e : ExtraTokenValues) : list (jstr * EnvValue) :=
  let tokens k := num_or (extra_tokens e k) nzero in
  let len := nadd (nadd (nadd promptTokens (tokens "cacheReadTokens")) (tokens "cacheCreateTokens"))
               (tokens "cacheCreate1hTokens") in
  [ ("p", EnvNum promptTokens); ("c", EnvNum completionTokens); ("len", EnvNum len); ("tier", EnvTier);
    ("max", EnvMath "max"); ("min", EnvMath "min"); ("abs", EnvMath "abs"); ("ceil", EnvMath "ceil");
    ("floor", EnvMath "floor") ]
    ++ map (fun '(var, stateKey) => (var, EnvNum (tokens stateKey))) ESTIMATOR_VARS.

(** [run] compiles and runs the expression ([new Function]) under its bindings. *)
Definition evalExprLocally (run : list (jstr * EnvValue) -> jstr -> RunResult) (exprStr : jstr)
    (promptTokens completionTokens : num) (extraTokenValues : ExtraTokenValues) : EvalResult :=
  if negb (non_empty exprStr) || negb (non_empty (trim exprStr))
  then {| er_cost := nzero; er_matchedTier := []; er_error := None |}
  else
    let r := run (eval_env promptTokens completionTokens extraTokenValues) exprStr in
    match run_value r with
    | inl v => {| er_cost := num_or (js_to_number v) nzero;
                  er_matchedTier := default [] (last (run_tiers r)); er_error := None |}
    | inr message => {| er_cost := nzero; er_matchedTier := []; er_error := Some message |}
    end.

(** ** Checks *)

Definition demo_expr : jstr :=
  sq "p <= 1000 && len < 5 ? tier('a', p * 1.5 + c * 2 + cc1h * 3) : tier('b', p * 2 + c * 0.25 + cr * 0.1 + img_o * 7)".

Example demo_regenerates :
  option_map (fun c => generateExprFromVisualConfig (Some c)) (tryParseVisualConfig demo_expr) = Some demo_expr.
Proof. vm_compute. reflexivity. Qed.
