(* ===== verification/TierRoundtrip.v ===== *)
(** * Visual tier editor: properties

    Companion of [TierExpr]: the expression of a configuration reads back, and what
    the parser accepts that it should not. *)
From S2P Require Import Prelude JsString JsNumber JsValue Regex RegexHits Json BillingExpr BillingRoundtrip Numeric OrderedMap Aggregate ModelMapping TierExpr.

(** ** Costs *)

(** The text of a cost: what [[\d.eE+-]+] takes. *)
Definition cost_text (t : jstr) : bool := non_empty t && forallb num_unit t.

(** What may follow a cost. *)
Definition after_cost (s : jstr) : Prop := head_not num_unit s.

Lemma hit_cost n t rest caps : cost_text t = true -> after_cost rest ->
  hit (rseq (cost_re n)) (" * " ++ t ++ rest) caps rest ((n, t) :: caps).
Proof.
  intros Ht Hr. unfold cost_text in Ht. bools. assert (t <> []) as Hne by (by intros ->).
  eapply hit_cons; [apply (hit_space ("* " ++ t ++ rest)); done|].
  eapply hit_cons; [apply (hit_lit "*")|].
  eapply hit_cons; [apply (hit_space (t ++ rest))|].
  { destruct t as [|c t]; [done|]. cbn in H0. bools. apply num_unit_not_space. done. }
  eapply hit_cons; [by apply hit_cap_plus|apply hit_nil].
Qed.

(** ** The optional variables *)

Fixpoint opt_list (n : nat) (vs : list jstr) : list rx :=
  match vs with
  | [] => []
  | v :: vs => optCache n v :: opt_list (S n) vs
  end.

(** The variables with their costs, absent ones left out. *)
Fixpoint opt_text (vs : list jstr) (ts : list (option jstr)) : jstr :=
  match vs, ts with
  | v :: vs, Some t :: ts => " + " ++ v ++ " * " ++ t ++ opt_text vs ts
  | _ :: vs, None :: ts => opt_text vs ts
  | _, _ => []
  end.

Fixpoint opt_caps (n : nat) (ts : list (option jstr)) (caps : list (nat * jstr)) : list (nat * jstr) :=
  match ts with
  | Some t :: ts => opt_caps (S n) ts ((n, t) :: caps)
  | None :: ts => opt_caps (S n) ts caps
  | [] => caps
  end.

(** [v] is not read where [w] is written. *)
Definition apart (v w : jstr) : Prop := forall n rest, miss (rseq ([rspaces; RLit "+"; rspaces; RLit v] ++ cost_re n)) (" + " ++ w ++ " * " ++ rest).

Fixpoint all_apart (vs : list jstr) : Prop :=
  match vs with
  | [] => True
  | v :: vs => (forall rest, head_not is_space (v ++ rest)) /\ Forall (apart v) vs /\ all_apart vs
  end.

Lemma miss_at_end n v rest : miss (rseq ([rspaces; RLit "+"; rspaces; RLit v] ++ cost_re n)) (")" ++ rest).
Proof. intros pre caps. reflexivity. Qed.

Ltac miss_apart := unfold apart, cost_re; cbn [app]; miss_text.

Lemma miss_opt n v vs : Forall (apart v) vs -> forall ts rest,
  miss (rseq ([rspaces; RLit "+"; rspaces; RLit v] ++ cost_re n)) (opt_text vs ts ++ ")" ++ rest).
Proof.
  induction 1 as [|w vs Hw _ IH]; intros ts rest; cbn [opt_text].
  { apply miss_at_end. }
  destruct ts as [|[t|] ts]; [apply miss_at_end| |apply IH].
  rewrite <- !app_assoc. apply Hw.
Qed.

Lemma after_cost_opt vs ts rest : after_cost (opt_text vs ts ++ ")" ++ rest).
Proof.
  revert ts. induction vs as [|v vs IH]; intros ts; cbn [opt_text]; [done|].
  destruct ts as [|[t|] ts]; [done|done|apply IH].
Qed.

Lemma hit_opts vs : all_apart vs -> forall n ts caps rest,
  length ts = length vs -> Forall (fun t => match t with Some t => cost_text t = true | None => True end) ts ->
  hit (rseq (opt_list n vs)) (opt_text vs ts ++ ")" ++ rest) caps (")" ++ rest) (opt_caps n ts caps).
Proof.
  induction vs as [|v vs IH]; intros Hap n ts caps rest Hlen Hts.
  { destruct ts; [apply hit_nil|done]. }
  destruct Hap as (Hsp & Hv & Hap). destruct ts as [|t ts]; [done|]. injection Hlen as Hlen.
  inversion Hts as [|? ? Ht Hts']; subst. cbn [opt_list opt_text opt_caps].
  destruct t as [t|].
  - eapply hit_cons; [|by apply IH]. apply hit_opt_yes. rewrite <- !app_assoc.
    eapply (hit_app [rspaces; RLit "+"; rspaces; RLit v]); [|apply hit_cost; [done|apply after_cost_opt]].
    eapply hit_cons; [by apply (hit_space ("+ " ++ v ++ " * " ++ t ++ opt_text vs ts ++ ")" ++ rest))|].
    eapply hit_cons; [apply (hit_lit "+")|].
    eapply hit_cons; [by apply (hit_space (v ++ " * " ++ t ++ opt_text vs ts ++ ")" ++ rest))|].
    eapply hit_cons; [apply (hit_lit v)|apply hit_nil].
  - eapply hit_cons; [|by apply IH]. apply hit_opt_no. by apply miss_opt.
Qed.

Definition cache_vars : list jstr := map cv_exprVar BILLING_CACHE_VAR_MAP.

Lemma cache_vars_apart : all_apart cache_vars.
Proof.
  assert (cache_vars = ["cr"; "cc"; "cc1h"; "img"; "img_o"; "ai"; "ao"]) as -> by reflexivity.
  cbn [all_apart].
  repeat first [exact I | split; [intros rest; reflexivity|] | split
               | apply List.Forall_cons; [intros n rest; miss_apart|] | apply List.Forall_nil].
Qed.

(** ** A whole tier *)

(** The texts of a tier's parts. *)
Record TierText := { tt_label : jstr; tt_input : jstr; tt_output : jstr; tt_extras : list (option jstr) }.

Definition tier_text_ok (t : TierText) : Prop :=
  no_unit 34 (tt_label t) = true /\ cost_text (tt_input t) = true /\ cost_text (tt_output t) = true
  /\ length (tt_extras t) = length cache_vars
  /\ Forall (fun t => match t with Some t => cost_text t = true | None => True end) (tt_extras t).

Definition written_tier (t : TierText) : jstr :=
  sq "tier('" ++ tt_label t ++ sq "', p * " ++ tt_input t ++ " + c * " ++ tt_output t
    ++ opt_text cache_vars (tt_extras t) ++ ")".

Definition written_caps (n : nat) (t : TierText) (caps : list (nat * jstr)) : list (nat * jstr) :=
  opt_caps (n + 3) (tt_extras t) ((n + 2, tt_output t) :: (n + 1, tt_input t) :: (n, tt_label t) :: caps).

Lemma tierPat_eq n : tierPat n =
  [RLit (sq "tier('"); RCap n (RStar (RSet (not_unit 34))); RLit (sq "',"); rspaces; RLit "p"] ++ cost_re (n + 1)
    ++ [rspaces; RLit "+"; rspaces; RLit "c"] ++ cost_re (n + 2) ++ opt_list (n + 3) cache_vars ++ [RLit ")"].
Proof.
  unfold tierPat, bodyPat. replace (n + 1 + 1) with (n + 2) by lia.
  assert (imap (fun i cv => optCache (n + 1 + 2 + i) (cv_exprVar cv)) BILLING_CACHE_VAR_MAP = opt_list (n + 3) cache_vars)
    as -> by (cbn -[optCache Nat.add]; rewrite ?Nat.add_succ_r, ?Nat.add_0_r; reflexivity).
  cbn [app]. rewrite <- !app_assoc. done.
Qed.

Lemma hit_tier n t rest caps : tier_text_ok t ->
  hit (rseq (tierPat n)) (written_tier t ++ rest) caps rest (written_caps n t caps).
Proof.
  intros (Hl & Hi & Ho & Hlen & Hts). rewrite tierPat_eq. unfold written_tier, written_caps.
  rewrite <- !app_assoc.
  eapply hit_app.
  { eapply hit_cons; [apply hit_lit|].
    eapply hit_cons; [by apply hit_cap, hit_star_set|].
    eapply hit_cons; [apply (hit_lit (sq "',"))|].
    eapply hit_cons; [by apply (hit_space ("p * " ++ tt_input t ++ _))|].
    eapply hit_cons; [apply (hit_lit "p")|apply hit_nil]. }
  eapply hit_app; [by apply (hit_cost (n + 1) (tt_input t))|].
  eapply hit_app.
  { eapply hit_cons; [by apply (hit_space ("+ c * " ++ tt_output t ++ _))|].
    eapply hit_cons; [apply (hit_lit "+")|].
    eapply hit_cons; [by apply (hit_space ("c * " ++ tt_output t ++ _))|].
    eapply hit_cons; [apply (hit_lit "c")|apply hit_nil]. }
  eapply hit_app; [apply (hit_cost (n + 2) (tt_output t)); [done|apply after_cost_opt]|].
  eapply hit_app; [by apply hit_opts; [apply cache_vars_apart|..]|].
  eapply hit_cons; [apply (hit_lit ")")|apply hit_nil].
Qed.

(** ** Conditions *)

Record CondText := { ct_var : jstr; ct_op : jstr; ct_value : jstr }.

Definition cond_text_ok (c : CondText) : Prop :=
  ct_var c ∈ ["p"; "c"; "len"] /\ ct_op c ∈ ["<"; "<="; ">"; ">="]
  /\ ct_value c <> [] /\ forallb cond_unit (ct_value c) = true.

Definition written_cond (c : CondText) : jstr := ct_var c ++ " " ++ ct_op c ++ " " ++ ct_value c.

Definition after_cond (s : jstr) : Prop := head_not cond_unit s.

Lemma cond_unit_num c : cond_unit c = true -> num_unit c = true.
Proof.
  unfold cond_unit, num_unit, one_of. rewrite !orb_true_iff. cbn [existsb].
  rewrite !orb_true_iff. tauto.
Qed.

Lemma cond_unit_not_space c : cond_unit c = true -> is_space c = false.
Proof. intros H. by apply num_unit_not_space, cond_unit_num. Qed.

Lemma head_value v rest : v <> [] -> forallb cond_unit v = true -> head_not is_space (v ++ rest).
Proof. destruct v as [|x v]; [done|]. cbn. intros _ H. bools. by apply cond_unit_not_space. Qed.

(** The ways to read an operator: [<] is tried before [<=]. *)
Lemma ops_run op rest : op ∈ ["<"; "<="; ">"; ">="] ->
  (forall pre caps, rx_run cond_ops (MSt pre (op ++ " " ++ rest) caps) = [MSt (rev op ++ pre) (" " ++ rest) caps])
  \/ exists o, op = o ++ "=" /\ forall pre caps,
       rx_run cond_ops (MSt pre (op ++ " " ++ rest) caps)
       = [MSt (rev o ++ pre) ("=" ++ " " ++ rest) caps; MSt (rev op ++ pre) (" " ++ rest) caps].
Proof.
  intros Hop. repeat (apply elem_of_cons in Hop as [->|Hop];
    [first [left; reflexivity | right; eexists [_]; split; reflexivity]|]).
  by apply elem_of_nil in Hop.
Qed.

Lemma hit_ops l op rest caps more caps' :
  op ∈ ["<"; "<="; ">"; ">="] -> (forall x, miss (rseq l) ("=" ++ x)) ->
  hit (rseq l) (" " ++ rest) caps more caps' -> hit (rseq (cond_ops :: l)) (op ++ " " ++ rest) caps more caps'.
Proof.
  intros Hop Hb Hit pre. destruct (ops_run op rest Hop) as [E|(o & -> & E)].
  - destruct (Hit (rev op ++ pre)) as [pre' H]. exists pre'. rewrite run_rseq_cons, E.
    by eapply head_flat_map.
  - destruct (Hit (rev (o ++ "=") ++ pre)) as [pre' H]. exists pre'. rewrite run_rseq_cons, E.
    cbn [flat_map]. rewrite Hb. by eapply (head_flat_map _ [_]).
Qed.

Lemma hit_cap_ops n l op rest caps more caps' :
  op ∈ ["<"; "<="; ">"; ">="] -> (forall x, miss (rseq l) ("=" ++ x)) ->
  hit (rseq l) (" " ++ rest) ((n, op) :: caps) more caps' ->
  hit (rseq (RCap n cond_ops :: l)) (op ++ " " ++ rest) caps more caps'.
Proof.
  intros Hop Hb Hit pre. rewrite run_rseq_cons. cbn [rx_run]. fold cond_ops.
  destruct (ops_run op rest Hop) as [E|(o & -> & E)].
  - destruct (Hit (rev op ++ pre)) as [pre' H]. exists pre'. rewrite E. cbn [map]. rewrite cap_set_lit.
    by eapply (head_flat_map _ [_]).
  - destruct (Hit (rev (o ++ "=") ++ pre)) as [pre' H]. exists pre'. rewrite E. cbn [map flat_map].
    rewrite cap_set_lit. unfold cap_set at 1. cbn [ms_pre ms_suf]. rewrite Hb.
    by eapply (head_flat_map _ [_]).
Qed.

Lemma var_run v rest : v ∈ ["p"; "c"; "len"] -> forall pre caps,
  rx_run cond_vars (MSt pre (v ++ " " ++ rest) caps) = [MSt (rev v ++ pre) (" " ++ rest) caps].
Proof.
  intros Hv pre caps. repeat (apply elem_of_cons in Hv as [->|Hv]; [reflexivity|]). by apply elem_of_nil in Hv.
Qed.

Lemma op_not_space op rest : op ∈ ["<"; "<="; ">"; ">="] -> head_not is_space (op ++ rest).
Proof. intros Ho. repeat (apply elem_of_cons in Ho as [->|Ho]; [done|]). by apply elem_of_nil in Ho. Qed.

Lemma hit_atom c more caps : cond_text_ok c -> after_cond more ->
  hit cond_atom (written_cond c ++ more) caps more caps.
Proof.
  intros (Hv & Ho & Hne & Hd) Hm. unfold written_cond. rewrite <- !app_assoc.
  change cond_atom with (rseq [cond_vars; rspaces; cond_ops; rspaces; rplus (RSet cond_unit)]).
  eapply hit_cons; [intros pre; rewrite var_run by done; by eexists|].
  eapply hit_cons; [apply hit_space; by apply op_not_space|].
  apply hit_ops; [done| |].
  - intros x. apply miss_no_space; [done|]. intros pre caps'. by apply run_plus_set_fail.
  - eapply hit_cons; [apply hit_space; by apply head_value|].
    eapply hit_cons; [by apply hit_plus_set|apply hit_nil].
Qed.

(** Conditions joined by [&&]. *)
Definition written_more (cs : list CondText) : list jstr := map (fun c => " && " ++ written_cond c) cs.

Definition written_conds (cs : list CondText) : jstr := join " && " (map written_cond cs).

Lemma written_conds_cons c cs : written_conds (c :: cs) = written_cond c ++ concat (written_more cs).
Proof.
  unfold written_conds, written_more. revert c. induction cs as [|d cs IH]; intros c; [by rewrite app_nil_r|].
  cbn [map]. rewrite join_cons. cbn [concat map]. rewrite <- app_assoc. do 2 f_equal. apply IH.
Qed.

Lemma cond_not_space c rest : cond_text_ok c -> head_not is_space (written_cond c ++ rest).
Proof.
  intros (Hv & _). unfold written_cond. rewrite <- app_assoc.
  repeat (apply elem_of_cons in Hv as [->|Hv]; [done|]). by apply elem_of_nil in Hv.
Qed.

Lemma hit_condGroup c cs more caps : Forall cond_text_ok (c :: cs) ->
  hit condGroup (written_conds (c :: cs) ++ " ? " ++ more) caps (" ? " ++ more) ((1, written_conds (c :: cs)) :: caps).
Proof.
  intros Hok. unfold condGroup. apply hit_cap. rewrite written_conds_cons, <- app_assoc.
  inversion Hok as [|? ? Hc Hcs]; subst. rewrite Forall_forall in Hcs.
  assert (forall x y, x ∈ written_more cs -> x <> [] /\ after_cond (x ++ y)) as Hx.
  { intros x y Hx. unfold written_more in Hx. apply elem_of_map in Hx as (d & _ & ->). done. }
  eapply hit_seq; [apply hit_atom; [done|]|].
  - destruct (written_more cs) as [|x xs] eqn:E; [done|]. cbn [concat]. rewrite <- app_assoc.
    apply Hx. left.
  - apply (hit_star after_cond); [|exact Hx|done|].
    + intros x y Hin Hy. unfold written_more in Hin. apply elem_of_map in Hin as (d & Hd & ->).
      rewrite <- app_assoc.
      eapply hit_cons; [by apply (hit_space ("&& " ++ written_cond d ++ y))|].
      eapply hit_cons; [apply (hit_lit "&&")|].
      eapply hit_cons; [apply hit_space; apply cond_not_space; by apply Hcs|].
      eapply hit_cons; [apply hit_atom; [by apply Hcs|done]|apply hit_nil].
    + miss_text.
Qed.

(** ** Parts and their search *)

Record PartText := { pa_conds : list CondText; pa_tier : TierText }.

Definition part_ok (p : PartText) : Prop := Forall cond_text_ok (pa_conds p) /\ tier_text_ok (pa_tier p).

Definition written_part (p : PartText) : jstr :=
  match pa_conds p with
  | [] => written_tier (pa_tier p)
  | cs => written_conds cs ++ " ? " ++ written_tier (pa_tier p)
  end.

Definition part_caps (p : PartText) : list (nat * jstr) :=
  written_caps 2 (pa_tier p) (match pa_conds p with [] => [] | cs => [(1, written_conds cs)] end).

Lemma hit_part p rest : part_ok p -> hit tierRe (written_part p ++ rest) [] rest (part_caps p).
Proof.
  intros [Hc Ht]. unfold tierRe, written_part, part_caps.
  destruct (pa_conds p) as [|c cs].
  - eapply hit_cons; [|by apply hit_tier]. apply hit_opt_no.
    unfold written_tier. rewrite <- !app_assoc. intros pre caps. reflexivity.
  - rewrite <- !app_assoc. eapply hit_cons; [|by apply hit_tier]. apply hit_opt_yes.
    eapply hit_cons; [by apply (hit_condGroup c cs (written_tier (pa_tier p) ++ rest))|].
    eapply hit_cons; [by apply (hit_space ("? " ++ written_tier (pa_tier p) ++ rest))|].
    eapply hit_cons; [apply (hit_lit "?")|].
    eapply hit_cons; [|apply hit_nil]. by apply hit_space.
Qed.

(** What stands before and after the parts. *)
Definition separator (s : jstr) : Prop := s = [] \/ s = " : ".
Definition fallback (s : jstr) : Prop := s = [] \/ s = " : p * 0 + c * 0".

Fixpoint written_parts (ps : list PartText) (tail : jstr) : jstr :=
  match ps with
  | [] => tail
  | [p] => written_part p ++ tail
  | p :: ps => written_part p ++ " : " ++ written_parts ps tail
  end.

(** A pattern that finds the parts and passes what stands between them. *)
Section Search.
Context (re : rx) (caps_of : PartText -> list (nat * jstr)).
Hypothesis re_hit : forall p rest, part_ok p -> hit re (written_part p ++ rest) [] rest (caps_of p).
Hypothesis re_separator : forall s x pre, separator s -> exists pre', rx_search re pre (s ++ x) = rx_search re pre' x.
Hypothesis re_fallback : forall s pre, fallback s -> rx_search re pre s = None.

Lemma exec_parts tail : fallback tail -> forall ps sep fuel pre,
  Forall part_ok ps -> ps <> [] -> separator sep -> length (sep ++ written_parts ps tail) < fuel ->
  map ms_caps (rx_exec_from re fuel pre (sep ++ written_parts ps tail)) = map caps_of ps.
Proof.
  intros Htail. induction ps as [|p ps IH]; intros sep fuel pre Hok Hne Hsep Hf; [done|].
  inversion Hok as [|? ? Hp Hps]; subst. destruct fuel as [|fuel]; [lia|]. cbn [rx_exec_from].
  assert (exists rest, written_parts (p :: ps) tail = written_part p ++ rest
    /\ forall pre, map ms_caps (rx_exec_from re fuel pre rest) = map caps_of ps) as (rest & Ew & Hrest).
  { destruct ps as [|q ps].
    - exists tail. split; [done|]. intros pre'. destruct fuel; [done|]. cbn [rx_exec_from].
      by rewrite re_fallback.
    - exists (" : " ++ written_parts (q :: ps) tail). split; [done|]. intros pre'.
      apply IH; [done|done|by right|]. revert Hf. cbn [written_parts]. rewrite !length_app.
      unfold written_part. destruct (pa_conds p); unfold written_tier; rewrite !length_app; cbn; lia. }
  destruct (re_separator sep (written_parts (p :: ps) tail) pre Hsep) as [pre1 ->]. rewrite Ew.
  destruct (search_hit re (written_part p ++ rest) rest (caps_of p) (re_hit p rest Hp) pre1) as [pre2 ->].
  cbn [map ms_pre ms_suf ms_caps]. by rewrite Hrest.
Qed.

Lemma search_all_parts tail ps : fallback tail -> Forall part_ok ps -> ps <> [] ->
  map ms_caps (rx_exec_all re (written_parts ps tail)) = map caps_of ps.
Proof. intros Ht Hok Hne. apply (exec_parts tail Ht ps []); [done|done|by left|cbn; lia]. Qed.
End Search.

Lemma search_separator s x pre : separator s ->
  exists pre', rx_search tierRe pre (s ++ x) = rx_search tierRe pre' x.
Proof.
  intros [->| ->]; [by exists pre|]. eexists.
  change (" : " ++ x) with (32%N :: 58%N :: 32%N :: x).
  rewrite !search_skip by (intros pre' caps; reflexivity). reflexivity.
Qed.

Lemma search_fallback s pre : fallback s -> rx_search tierRe pre s = None.
Proof. intros [->| ->]; reflexivity. Qed.

Lemma exec_all_parts tail ps : fallback tail -> Forall part_ok ps -> ps <> [] ->
  map ms_caps (rx_exec_all tierRe (written_parts ps tail)) = map part_caps ps.
Proof. apply search_all_parts; [exact hit_part|exact search_separator|exact search_fallback]. Qed.

(** ** The pattern of a lone tier *)

Lemma singleRe_eq : singleRe = RSeq RBol (rseq (tierPat 1 ++ [REol])).
Proof. reflexivity. Qed.

Lemma single_hit t : tier_text_ok t ->
  exists m, rx_exec singleRe (written_tier t) = Some m /\ ms_caps m = written_caps 1 t [].
Proof.
  intros Ht. rewrite singleRe_eq, rx_exec_bol.
  destruct (hit_app (tierPat 1) [REol] (written_tier t) [] [] (written_caps 1 t []) [] (written_caps 1 t []))
    with (pre := @nil N) as [pre E].
  - rewrite <- (app_nil_r (written_tier t)). by apply hit_tier.
  - intros pre. by exists pre.
  - eexists. split; [exact E|done].
Qed.

Definition quotes (s : jstr) : nat := length (List.filter (fun c => (c =? 34)%N) s).

Lemma quotes_app a b : quotes (a ++ b) = quotes a + quotes b.
Proof. unfold quotes. by rewrite List.filter_app, length_app. Qed.

Lemma quotes_none s : forallb (not_unit 34) s = true -> quotes s = 0.
Proof.
  unfold quotes, not_unit. induction s as [|c s IH]; cbn; [done|]. intros [H0 H]%andb_true_iff.
  apply negb_true_iff in H0. rewrite H0. by apply IH.
Qed.

Lemma lit_run_In s st st' : In st' (rx_run (RLit s) st) -> ms_suf st = s ++ ms_suf st'.
Proof.
  cbn. unfold lit_run. destruct (strip_prefix s (ms_suf st)) as [r|] eqn:E; [|done].
  intros [<-|[]]. by apply strip_prefix_Some in E.
Qed.

(** A text the pattern accepts has two quotes. *)
Lemma single_quotes s m : rx_exec singleRe s = Some m -> quotes s = 2.
Proof.
  rewrite singleRe_eq, rx_exec_bol. unfold tierPat. rewrite <- app_assoc.
  set (body := (bodyPat (1 + 1) ++ [RLit ")"]) ++ [REol]). cbn [app].
  destruct (rx_run _ _) as [|st l] eqn:E; [done|]. intros _.
  assert (In st (st :: l)) as Hin by (by left). rewrite <- E in Hin. clear E.
  rewrite run_rseq_cons in Hin. apply in_flat_map in Hin as (s1 & H1 & Hin).
  rewrite run_rseq_cons in Hin. apply in_flat_map in Hin as (s2 & H2 & Hin).
  rewrite run_rseq_cons in Hin. apply in_flat_map in Hin as (s3 & H3 & Hin).
  apply lit_run_In in H1, H3. cbn [ms_suf] in H1.
  apply (rx_run_only (not_unit 34)) in H2 as (lab & E2 & Hlab); [|by intros c].
  pose proof (ends_eol_suf (rseq (rspaces :: body)) s3 st I Hin) as Hend.
  apply (rx_run_only (not_unit 34)) in Hin as (k & Ek & Hk).
  - rewrite Hend, app_nil_r in Ek. rewrite H1, E2, H3, Ek, !quotes_app.
    rewrite (quotes_none lab), (quotes_none k) by done. reflexivity.
  - assert (forall c, is_space c = true -> not_unit 34 c = true) as Hs.
    { intros c Hc. unfold not_unit. destruct (N.eqb_spec c 34) as [->|]; [done|done]. }
    assert (forall c, num_unit c = true -> not_unit 34 c = true) as Hn.
    { intros c Hc%num_unit_range. unfold not_unit. destruct (N.eqb_spec c 34) as [->|]; [|done].
      destruct Hc as [?|[?|[?|[?|[?|?]]]]]; lia. }
    cbn. repeat split; try exact Hs; try exact Hn; try done.
Qed.

Lemma part_quotes p rest : 2 <= quotes (written_part p ++ rest).
Proof.
  rewrite quotes_app. assert (2 <= quotes (written_tier (pa_tier p))) as Ht.
  { unfold written_tier. rewrite !quotes_app. cbn. lia. }
  unfold written_part. destruct (pa_conds p); [lia|]. rewrite !quotes_app. lia.
Qed.

Lemma single_miss_many p q ps tail : rx_exec singleRe (written_parts (p :: q :: ps) tail) = None.
Proof.
  destruct (rx_exec _ _) as [m|] eqn:E; [|done]. apply single_quotes in E.
  change (written_parts (p :: q :: ps) tail) with (written_part p ++ " : " ++ written_parts (q :: ps) tail) in E.
  rewrite quotes_app in E. assert (2 <= quotes (" : " ++ written_parts (q :: ps) tail)) as H2.
  { rewrite quotes_app. destruct ps as [|r ps]; cbn [written_parts]; pose proof (part_quotes q); [|];
      match goal with |- _ <= _ + quotes (_ ++ ?x) => specialize (H x) end; lia. }
  pose proof (part_quotes p []) as H1. rewrite app_nil_r in H1. lia.
Qed.

Lemma single_miss_cond p tail : part_ok p -> pa_conds p <> [] -> rx_exec singleRe (written_part p ++ tail) = None.
Proof.
  intros [Hc _] Hne. rewrite singleRe_eq, rx_exec_bol.
  unfold written_part. destruct (pa_conds p) as [|c cs]; [done|].
  inversion Hc as [|? ? (Hv & _) _]; subst. rewrite written_conds_cons. unfold written_cond.
  rewrite <- !app_assoc.
  repeat (apply elem_of_cons in Hv as [->|Hv]; [reflexivity|]). by apply elem_of_nil in Hv.
Qed.

(** No version prefix. *)
Lemma no_version s : match s with c :: _ => (c =? 118)%N = false | [] => True end -> visual_body s = s.
Proof.
  intros Hs. unfold visual_body.
  assert (rx_exec visual_version_re s = None) as ->; [|done].
  change visual_version_re with (RSeq RBol (rseq [RLit "v"; rplus (RSet is_digit); RLit ":"; RCap 1 (RStar (RSet any_unit)); REol])).
  rewrite rx_exec_bol, run_rseq_cons, run_lit_fail; [done|].
  destruct s as [|c s]; [done|]. unfold startsWith. cbn -[N.eqb]. rewrite N.eqb_sym in Hs. by rewrite Hs.
Qed.

(** ** The text of a configuration *)

Definition cost (t : jsobj) (field : jstr) : num := number_or_zero (prop t field).

(** What is shown of a number: its text, unless it is zero. *)
Definition shown (v : num) : option jstr := if num_truthy v then Some (num_to_string v) else None.

Definition label_of (t : jsobj) : jstr := match prop t "label" with JStr l => l | _ => [] end.

Definition extra_costs (t : jsobj) : list num := map (fun cv => cost t (cv_field cv)) BILLING_CACHE_VAR_MAP.

Definition text_of (t : jsobj) : TierText :=
  {| tt_label := label_of t; tt_input := num_to_string (cost t "input_unit_cost");
     tt_output := num_to_string (cost t "output_unit_cost"); tt_extras := map shown (extra_costs t) |}.

Definition cond_of (c : jsobj) : CondText :=
  {| ct_var := js_to_string (prop c "var"); ct_op := js_to_string (prop c "op");
     ct_value := js_to_string (prop c "value") |}.

(** The complete conditions of a tier. *)
Definition conds_of (t : jsobj) : list CondText :=
  map cond_of (List.filter condition_complete (map as_tier (default [] (array_of (prop t "conditions"))))).

Lemma condition_str_text t : buildConditionStr (prop t "conditions") = written_conds (conds_of t).
Proof.
  unfold buildConditionStr, conds_of, written_conds. destruct (array_of _) as [[|c l]|]; [done| |done].
  by rewrite map_map.
Qed.

Lemma join_flat sep (l : list jstr) x : join sep (x :: l) = x ++ flat_map (fun y => sep ++ y) l.
Proof.
  revert x. induction l as [|y l IH]; intros x; [by cbn; rewrite app_nil_r|].
  rewrite join_cons, IH. cbn [flat_map]. by rewrite <- app_assoc.
Qed.

Lemma extras_text vs (vals : CacheVar -> num) :
  flat_map (fun y => " + " ++ y)
    (flat_map (fun cv => if num_truthy (vals cv) then [cv_exprVar cv ++ " * " ++ num_to_string (vals cv)] else []) vs)
  = opt_text (map cv_exprVar vs) (map (fun cv => shown (vals cv)) vs).
Proof.
  induction vs as [|v vs IH]; [done|]. cbn [flat_map map opt_text]. unfold shown at 1.
  rewrite flat_map_app, IH. destruct (num_truthy (vals v)); cbn [flat_map]; [|done].
  by rewrite app_nil_r, <- !app_assoc.
Qed.

Lemma tier_text_written t fb : label_of t <> [] -> prop t "label" = JStr (label_of t) ->
  tier_text t fb = written_tier (text_of t).
Proof.
  intros Hne Hl. unfold tier_text, written_tier, buildTierBodyExpr. rewrite Hl. unfold js_or. cbn [truthy].
  assert (non_empty (label_of t) = true) as -> by (by destruct (label_of t)).
  cbn [js_to_string app]. rewrite join_flat. cbn [flat_map]. unfold text_of.
  cbn [tt_label tt_input tt_output tt_extras]. unfold extra_costs. rewrite map_map.
  unfold cache_vars. rewrite <- (extras_text BILLING_CACHE_VAR_MAP (fun cv => cost t (cv_field cv))).
  unfold cost. rewrite <- !app_assoc. done.
Qed.

(** ** Canonical configurations *)

(** A number whose text the pattern takes and which its text gives back. *)
Definition cost_ok (v : num) : bool := cost_text (num_to_string v) && num_roundtrips v.

Definition cond_ok (c : CondText) : bool :=
  bool_decide (ct_var c ∈ (["p"; "c"; "len"] : list jstr)) && bool_decide (ct_op c ∈ (["<"; "<="; ">"; ">="] : list jstr))
  && non_empty (ct_value c) && forallb cond_unit (ct_value c)
  && (num_to_string (num_of_string (ct_value c)) ==? ct_value c).

(** A tier with a label without quotes, costs that read back, and complete
    conditions on [p], [c] and [len]. *)
Definition canonical_tier (t : jsobj) : bool :=
  (prop t "label" ==? JStr (label_of t)) && non_empty (label_of t) && no_unit 34 (label_of t)
  && cost_ok (cost t "input_unit_cost") && cost_ok (cost t "output_unit_cost")
  && forallb (fun v => negb (num_truthy v) || cost_ok v) (extra_costs t)
  && forallb cond_ok (conds_of t).

Lemma cond_ok_text c : cond_ok c = true -> cond_text_ok c.
Proof.
  unfold cond_ok, cond_text_ok. intros H. bools. split_and!; [done|done| |done].
  intros E. rewrite E in *. done.
Qed.

Lemma canonical_text t : canonical_tier t = true -> tier_text_ok (text_of t).
Proof.
  unfold canonical_tier, cost_ok, tier_text_ok. intros H. bools. split_and!; try done.
  apply Forall_map, Forall_forall. intros v Hv. unfold shown. destruct (num_truthy v) eqn:E; [|done].
  match goal with H : forallb _ (extra_costs t) = true |- _ => rewrite forallb_forall in H;
    specialize (H v (proj1 (list_elem_of_In _ _) Hv)); cbv beta in H; rewrite E in H; cbn in H end.
  by bools.
Qed.

(** The parts of a configuration's tiers, the last one without conditions. *)
Definition part_of (t : jsobj) : PartText := {| pa_conds := conds_of t; pa_tier := text_of t |}.
Definition last_part (t : jsobj) : PartText := {| pa_conds := []; pa_tier := text_of t |}.

Fixpoint parts_of (ts : list jsobj) : list PartText :=
  match ts with
  | [] => []
  | [t] => [last_part t]
  | t :: ts => part_of t :: parts_of ts
  end.

Lemma written_part_cond t : written_part (part_of t) =
  if non_empty (written_conds (conds_of t)) then written_conds (conds_of t) ++ " ? " ++ written_tier (text_of t)
  else written_tier (text_of t).
Proof.
  unfold written_part, part_of. cbn [pa_conds pa_tier]. destruct (conds_of t) as [|c cs]; [done|].
  rewrite written_conds_cons. unfold written_cond.
  assert (forall a b : jstr, non_empty (a ++ " " ++ b) = true) as Hn by (by intros [|??]).
  rewrite <- !app_assoc. by rewrite Hn.
Qed.

Lemma canonical_label t : canonical_tier t = true -> label_of t <> [] /\ prop t "label" = JStr (label_of t).
Proof. unfold canonical_tier. intros H. bools. split; [|done]. intros E. rewrite E in *. done. Qed.

Lemma imap_shift {X Y} (f : nat -> X -> Y) k x l :
  imap (fun i x => f (k + i) x) (x :: l) = f k x :: imap (fun i x => f (S k + i) x) l.
Proof.
  rewrite imap_cons. f_equal; [by rewrite Nat.add_0_r|]. apply imap_ext. intros i y _. cbn. f_equal. lia.
Qed.

Lemma tier_part_last n k t : canonical_tier t = true -> n = k + 1 ->
  tier_part n k t = written_part (last_part t).
Proof.
  intros Ht ->. destruct (canonical_label t Ht) as [Hl1 Hl2]. unfold tier_part.
  replace (k <? k + 1 - 1)%nat with false by (symmetry; apply Nat.ltb_ge; lia).
  cbn [andb]. by apply tier_text_written.
Qed.

Lemma tier_part_inner n k t : canonical_tier t = true -> k + 1 < n ->
  tier_part n k t = written_part (part_of t).
Proof.
  intros Ht Hn. destruct (canonical_label t Ht) as [Hl1 Hl2]. unfold tier_part.
  replace (k <? n - 1)%nat with true by (symmetry; apply Nat.ltb_lt; lia).
  rewrite condition_str_text, written_part_cond, tier_text_written by done.
  destruct (written_conds (conds_of t)); done.
Qed.

Lemma imap_parts n (ts : list jsobj) : forall k, Forall (fun t => canonical_tier t = true) ts ->
  n = k + length ts ->
  join " : " (imap (fun i t => tier_part n (k + i) t) ts) = written_parts (parts_of ts) [].
Proof.
  induction ts as [|t ts IH]; intros k Hc Hn; [done|].
  inversion Hc as [|? ? Ht Hts]; subst. rewrite (imap_shift (tier_part _) k).
  destruct ts as [|u ts].
  - cbn [imap join parts_of written_parts]. by rewrite tier_part_last, app_nil_r.
  - specialize (IH (S k) Hts). cbn [length] in IH |- *.
    rewrite tier_part_inner by (done || lia).
    change (parts_of (t :: u :: ts)) with (part_of t :: parts_of (u :: ts)).
    destruct (parts_of (u :: ts)) as [|q qs] eqn:Eq; [by destruct ts|].
    change (written_parts (part_of t :: q :: qs) [])
      with (written_part (part_of t) ++ " : " ++ written_parts (q :: qs) []).
    rewrite <- IH by lia. rewrite (imap_shift (tier_part _) (S k)), join_cons. done.
Qed.

(** The tiers of a configuration. *)
Definition tiers_of (c : jsobj) : list jsobj := map as_tier (default [] (array_of (prop c "tiers"))).

(** The parts and the fallback a configuration writes: a lone tier keeps its
    conditions, and falls back to a zero price. *)
Definition config_parts (c : jsobj) : list PartText :=
  match tiers_of c with [t] => [part_of t] | ts => parts_of ts end.

Definition config_tail (c : jsobj) : jstr :=
  match tiers_of c with
  | [t] => match conds_of t with [] => [] | _ => " : p * 0 + c * 0" end
  | _ => []
  end.

Definition canonical_config (c : jsobj) : bool :=
  negb (tiers_of c ==? []) && forallb canonical_tier (tiers_of c).

Lemma canonical_tiers c : canonical_config c = true ->
  tiers_of c <> [] /\ Forall (fun t => canonical_tier t = true) (tiers_of c).
Proof.
  unfold canonical_config. rewrite andb_true_iff, negb_true_iff, bool_decide_eq_false.
  intros [H1 H2]. split; [done|]. by apply forallb_Forall in H2.
Qed.

Lemma generate_written c : canonical_config c = true ->
  generateExprFromVisualConfig (Some c) = written_parts (config_parts c) (config_tail c).
Proof.
  intros [Hne Hc]%canonical_tiers. unfold generateExprFromVisualConfig, config_parts, config_tail, tiers_of in *.
  destruct (array_of (prop c "tiers")) as [[|t [|u l]]|]; [done| | |done].
  - cbn [default from_option id map] in *. inversion Hc as [|? ? Ht _]; subst. destruct (canonical_label _ Ht) as [Hl1 Hl2].
    rewrite condition_str_text, tier_text_written by done. cbn [written_parts].
    rewrite written_part_cond. destruct (conds_of (as_tier t)) as [|d ds]; [by rewrite app_nil_r|].
    destruct (non_empty _) eqn:E; [by rewrite <- !app_assoc|].
    rewrite written_conds_cons in E. unfold written_cond in E. by destruct (ct_var d).
  - transitivity (written_parts (parts_of (map as_tier (t :: u :: l))) []); [|done].
    apply (imap_parts (length (t :: u :: l)) (map as_tier (t :: u :: l)) 0); [done|by rewrite length_map].
Qed.

Lemma parts_ok c : canonical_config c = true ->
  Forall part_ok (config_parts c) /\ config_parts c <> [] /\ fallback (config_tail c).
Proof.
  intros [Hne Hc]%canonical_tiers. unfold config_parts, config_tail.
  assert (forall t, canonical_tier t = true -> part_ok (part_of t) /\ part_ok (last_part t)) as Hp.
  { intros t Ht. pose proof (canonical_text t Ht) as Htt. unfold canonical_tier in Ht.
    apply andb_true_iff in Ht as [_ Hcs]. unfold part_ok. cbn. split_and!; [|done|constructor|done].
    apply forallb_Forall in Hcs. eapply Forall_impl; [exact Hcs|]. intros d. apply cond_ok_text. }
  assert (forall ts, Forall (fun t => canonical_tier t = true) ts -> Forall part_ok (parts_of ts)) as Hps.
  { induction 1 as [|t ts Ht Hts IH]; [constructor|]. destruct (Hp t Ht).
    destruct ts; repeat (constructor; [done|]); [constructor|exact IH]. }
  destruct (tiers_of c) as [|t [|u ts]]; [done| |].
  - inversion Hc as [|? ? Ht _]; subst. split_and!; [constructor; [by apply Hp|constructor]|done|].
    destruct (conds_of t); [by left|by right].
  - split_and!; [by apply Hps|done|by left].
Qed.

(** ** What a match is read as *)

Lemma cap_opt_low ts : forall n caps k, (k < n)%nat -> cap_get k (opt_caps n ts caps) = cap_get k caps.
Proof.
  induction ts as [|[t|] ts IH]; intros n caps k Hk; cbn [opt_caps]; [done| |]; rewrite IH by lia; [|done].
  cbn [cap_get]. destruct (Nat.eqb_spec n k); [lia|done].
Qed.

Lemma cap_opt ts : forall n caps i, (forall j, (n <= j)%nat -> cap_get j caps = None) ->
  cap_get (n + i) (opt_caps n ts caps) = default None (ts !! i).
Proof.
  induction ts as [|t ts IH]; intros n caps i Hc; cbn [opt_caps].
  { rewrite Hc by lia. by destruct i. }
  assert (forall caps', (forall j, (S n <= j)%nat -> cap_get j caps' = None) -> cap_get n caps' = t ->
    cap_get (n + i) (opt_caps (S n) ts caps') = default None ((t :: ts) !! i)) as Hg.
  { intros caps' Hc' Hn. destruct i as [|i].
    - rewrite Nat.add_0_r, cap_opt_low by lia. exact Hn.
    - replace (n + S i) with (S n + i) by lia. by rewrite IH. }
  destruct t as [t|]; apply Hg.
  - intros j Hj. cbn [cap_get]. destruct (Nat.eqb_spec n j); [lia|]. apply Hc. lia.
  - cbn [cap_get]. by rewrite Nat.eqb_refl.
  - intros j Hj. apply Hc. lia.
  - apply Hc. lia.
Qed.

(** The groups of a match with the captures of a tier. *)
Lemma written_groups m n t caps :
  ms_caps m = written_caps n t caps -> (forall j, (n <= j)%nat -> cap_get j caps = None) ->
  group m n = Some (tt_label t) /\ group m (n + 1) = Some (tt_input t) /\ group m (n + 2) = Some (tt_output t)
  /\ (forall i, group m (n + 3 + i) = default None (tt_extras t !! i))
  /\ (forall k, (k < n)%nat -> group m k = cap_get k caps).
Proof.
  intros Em Hc. unfold group. rewrite Em. unfold written_caps.
  assert (forall a b, Nat.eqb (n + a) (n + b) = Nat.eqb a b) as Heq.
  { intros a b. destruct (Nat.eqb_spec (n + a) (n + b)), (Nat.eqb_spec a b); lia. }
  assert (forall b, Nat.eqb n (n + b) = Nat.eqb 0 b) as Heq0.
  { intros b. destruct (Nat.eqb_spec n (n + b)), (Nat.eqb_spec 0 b); lia. }
  split_and!.
  - rewrite cap_opt_low by lia. cbn [cap_get]. rewrite Nat.eqb_refl.
    destruct (Nat.eqb_spec (n + 2) n); [lia|]. destruct (Nat.eqb_spec (n + 1) n); [lia|done].
  - rewrite cap_opt_low by lia. cbn [cap_get]. by rewrite !Heq.
  - rewrite cap_opt_low by lia. cbn [cap_get]. by rewrite !Heq.
  - intros i. apply cap_opt. intros j Hj. cbn [cap_get].
    repeat match goal with |- context [Nat.eqb ?a ?b] => destruct (Nat.eqb_spec a b); [lia|] end.
    apply Hc. lia.
  - intros k Hk. rewrite cap_opt_low by lia. cbn [cap_get].
    repeat match goal with |- context [Nat.eqb ?a ?b] => destruct (Nat.eqb_spec a b); [lia|] end. done.
Qed.

(** *** The object built from a match *)

Section Fields.
Context (g : nat -> option jsval).

Definition set_field (t : jsobj) (e : nat * CacheVar) : jsobj :=
  match g e.1 with Some v => obj_set (cv_field e.2) v t | None => t end.

Lemma fields_keep k cvs : k ∉ map cv_field cvs -> forall s o,
  obj_get k (fold_left set_field (combine (seq s (length cvs)) cvs) o) = obj_get k o.
Proof.
  induction cvs as [|cv cvs IH]; intros Hk s o; [done|]. cbn [length seq combine fold_left].
  apply not_elem_of_cons in Hk as [Hne Hk]. rewrite IH by done.
  unfold set_field. cbn [fst snd]. destruct (g s); [by rewrite obj_get_set_ne|done].
Qed.

Lemma fields_set cvs : NoDup (map cv_field cvs) -> forall s o,
  Forall (fun cv => obj_get (cv_field cv) o = None) cvs ->
  map (fun cv => obj_get (cv_field cv) (fold_left set_field (combine (seq s (length cvs)) cvs) o)) cvs
  = map g (seq s (length cvs)).
Proof.
  induction cvs as [|cv cvs IH]; intros Hnd s o Ho; [done|]. cbn [length seq combine fold_left map] in *.
  inversion Hnd as [|? ? Hni Hnd']; inversion Ho as [|? ? Ho1 Ho2]; subst. f_equal.
  - rewrite fields_keep by done. unfold set_field. cbn [fst snd].
    destruct (g s); [by rewrite obj_get_set_eq|done].
  - apply IH; [done|]. apply Forall_forall. intros c Hc. rewrite Forall_forall in Ho2.
    unfold set_field. cbn [fst snd]. destruct (g s); [|by apply Ho2].
    rewrite obj_get_set_ne; [by apply Ho2|]. intros E. apply Hni. rewrite <- E. by apply (list_elem_of_fmap_2 cv_field).
Qed.

Lemma fields_keys cvs : forall s o,
  NoDup (obj_keys o) -> NoDup (obj_keys (fold_left set_field (combine (seq s (length cvs)) cvs) o)).
Proof.
  induction cvs as [|cv cvs IH]; intros s o Ho; [done|]. cbn [length seq combine fold_left].
  apply IH. unfold set_field. cbn [fst snd]. destruct (g s); [by apply NoDup_obj_set|done].
Qed.
End Fields.

Definition base_tier (conditions : list jsval) (input output label : jstr) : jsobj :=
  [("conditions", JArr conditions); ("input_unit_cost", JNum (num_of_string input));
   ("output_unit_cost", JNum (num_of_string output)); ("label", JStr label)].

Definition extra_fields : list jstr := map cv_field BILLING_CACHE_VAR_MAP.

Lemma extra_fields_eq : extra_fields = tier_cost_fields.
Proof. reflexivity. Qed.

Lemma matched_fold m n conds :
  matched_tier m n conds
  = fold_left (set_field (fun i => option_map (fun v => JNum (num_of_string v)) (group m (n + 3 + i))))
      (combine (seq 0 (length BILLING_CACHE_VAR_MAP)) BILLING_CACHE_VAR_MAP)
      (base_tier conds (group_or m (n + 1)) (group_or m (n + 2)) (group_or m n)).
Proof.
  unfold matched_tier. apply fold_left_ext_in. intros t [i cv] _. unfold set_field. cbn [fst snd].
  by destruct (group m (n + 3 + i)).
Qed.

Lemma matched_tier_spec m n t conds : length (tt_extras t) = length cache_vars ->
  group m n = Some (tt_label t) -> group m (n + 1) = Some (tt_input t) -> group m (n + 2) = Some (tt_output t) ->
  (forall i, group m (n + 3 + i) = default None (tt_extras t !! i)) ->
  let o := matched_tier m n conds in
  NoDup (obj_keys o)
  /\ obj_get "label" o = Some (JStr (tt_label t)) /\ obj_get "conditions" o = Some (JArr conds)
  /\ obj_get "input_unit_cost" o = Some (JNum (num_of_string (tt_input t)))
  /\ obj_get "output_unit_cost" o = Some (JNum (num_of_string (tt_output t)))
  /\ map (fun f => number_or_zero (prop o f)) extra_fields
     = map (fun v => match v with Some v => num_or (num_of_string v) nzero | None => nzero end) (tt_extras t).
Proof.
  intros Hlen H0 H1 H2 Hi. cbv zeta. rewrite matched_fold. unfold group_or. rewrite H0, H1, H2. cbn [default from_option id].
  set (g := fun i => _).
  assert (forall k, k ∉ extra_fields -> obj_get k (fold_left (set_field g)
    (combine (seq 0 (length BILLING_CACHE_VAR_MAP)) BILLING_CACHE_VAR_MAP)
    (base_tier conds (tt_input t) (tt_output t) (tt_label t)))
    = obj_get k (base_tier conds (tt_input t) (tt_output t) (tt_label t))) as Hk
    by (intros k Hk; by apply fields_keep).
  split_and!.
  - apply fields_keys. by apply (bool_decide_unpack _).
  - rewrite Hk; [done|]. by apply (bool_decide_unpack _).
  - rewrite Hk; [done|]. by apply (bool_decide_unpack _).
  - rewrite Hk; [done|]. by apply (bool_decide_unpack _).
  - rewrite Hk; [done|]. by apply (bool_decide_unpack _).
  - unfold extra_fields. rewrite map_map.
    pose proof (fields_set g BILLING_CACHE_VAR_MAP ltac:(by apply (bool_decide_unpack _)) 0
      (base_tier conds (tt_input t) (tt_output t) (tt_label t))
      ltac:(repeat (constructor; [reflexivity|]); constructor)) as Hf.
    apply (f_equal (map (fun v => number_or_zero (default JUndef v)))) in Hf. rewrite !map_map in Hf.
    etransitivity; [exact Hf|]. change (length cache_vars) with 7 in Hlen.
    change (length BILLING_CACHE_VAR_MAP) with 7. rewrite <- Hlen.
    apply list_eq. intros i. rewrite !list_lookup_fmap. 
    destruct (tt_extras t !! i) as [v|] eqn:E.
    + rewrite lookup_seq_lt by (by eapply lookup_lt_Some). cbn. unfold g. rewrite Hi, E. by destruct v.
    + rewrite lookup_seq_ge by (by apply lookup_ge_None). done.
Qed.

(** *** Normalisation *)

Lemma normalize_NoDup o : NoDup (obj_keys (normalizeVisualTier o)).
Proof. unfold normalizeVisualTier. do 2 apply NoDup_obj_spread. by apply (bool_decide_unpack _). Qed.

Lemma normalize_cost o f : f ∈ tier_cost_fields ->
  obj_get f (normalizeVisualTier o) = Some (JNum (number_or_zero (prop o f))).
Proof.
  intros Hf. unfold normalizeVisualTier. rewrite obj_get_spread by (by apply (bool_decide_unpack _)).
  assert (obj_get f (map (fun f => (f, JNum (number_or_zero (prop o f)))) tier_cost_fields)
    = Some (JNum (number_or_zero (prop o f)))) as ->; [|done].
  apply obj_get_elem; [by apply (bool_decide_unpack _)|]. apply elem_of_map. eauto.
Qed.

Lemma normalize_keeps o k v : NoDup (obj_keys o) -> k ∉ tier_cost_fields -> obj_get k o = Some v ->
  obj_get k (normalizeVisualTier o) = Some v.
Proof.
  intros Hnd Hk Hv. unfold normalizeVisualTier. rewrite obj_get_spread by (by apply (bool_decide_unpack _)).
  assert (obj_get k (map (fun f => (f, JNum (number_or_zero (prop o f)))) tier_cost_fields) = None) as ->
    by (by apply obj_get_None).
  by rewrite obj_get_spread, Hv.
Qed.

Lemma number_or_zero_idem v : number_or_zero (JNum (number_or_zero v)) = number_or_zero v.
Proof.
  unfold number_or_zero, num_or. cbn [js_to_number]. destruct (num_truthy (js_to_number v)) eqn:E; [by rewrite E|done].
Qed.

(** *** The conditions of a match *)

(** Text in which no [&&] starts and that does not end in a space. *)
Fixpoint solid (s : jstr) : bool :=
  match s with
  | [] => true
  | [c] => negb (is_space c) && not_unit 38 c
  | c :: t => not_unit 38 c && solid t
  end.

Lemma solid_miss y rest : y <> [] -> solid y = true -> miss and_re (y ++ rest).
Proof.
  intros Hne Hs.
  assert (exists sp c z, y = sp ++ c :: z /\ forallb is_space sp = true /\ is_space c = false
    /\ forallb (not_unit 38) (sp ++ [c]) = true) as (sp & c & z & -> & Hsp & Hc & Hn).
  { clear rest. induction y as [|c y IH]; [done|]. destruct y as [|d y].
    - cbn in Hs. apply andb_true_iff in Hs as [Ha Hb]. exists [], c, []. cbn. rewrite Hb.
      by destruct (is_space c).
    - cbn [solid] in Hs. apply andb_true_iff in Hs as [Ha Hb]. destruct (is_space c) eqn:Ec.
      + destruct IH as (sp & e & z & E & H1 & H2 & H3); [done|exact Hb|].
        exists (c :: sp), e, z. rewrite E. cbn. by rewrite Ec, Ha.
      + exists [], c, (d :: y). cbn. by rewrite Ha. }
  rewrite <- app_assoc. intros pre caps. unfold and_re. rewrite run_rseq_cons.
  change (rx_run rspaces (MSt pre (sp ++ (c :: z) ++ rest) caps))
    with (star_run (set_run is_space) (length (sp ++ (c :: z) ++ rest)) (MSt pre (sp ++ (c :: z) ++ rest) caps)).
  rewrite star_set_run by (done || by cbn). apply flat_map_nil. intros st [[a b] [<- Hin]]%in_map_iff.
  apply splits_desc_app in Hin as ->. cbn [fst snd].
  rewrite run_rseq_cons, run_lit_fail; [done|]. rewrite <- app_assoc in Hn.
  rewrite forallb_app in Hn. apply andb_true_iff in Hn as [_ Hn].
  destruct b as [|d b]; cbn in Hn |- *; apply andb_true_iff in Hn as [Hd _]; unfold not_unit in Hd;
    unfold startsWith; cbn -[N.eqb]; rewrite N.eqb_sym; by destruct (_ =? 38)%N.
Qed.

Lemma solid_tail c y : solid (c :: y) = true -> solid y = true.
Proof. destruct y as [|d y]; [done|]. cbn [solid]. intros H. by apply andb_true_iff in H as [_ H]. Qed.

(** The scan passes a solid text whole. *)
Lemma split_solid x rest : forall fuel cur pre, solid x = true -> length (x ++ rest) < fuel ->
  exists fuel' pre', rx_split_go and_re fuel cur pre (x ++ rest) = rx_split_go and_re fuel' (rev x ++ cur) pre' rest
    /\ length rest < fuel'.
Proof.
  induction x as [|c x IH]; intros fuel cur pre Hs Hf; [by exists fuel, pre|].
  destruct fuel as [|fuel]; [cbn in Hf; lia|]. cbn [app length] in Hf.
  destruct (IH fuel (c :: cur) (c :: pre) (solid_tail c x Hs) ltac:(lia)) as (f' & p' & E & Hl).
  exists f', p'. split; [|done]. cbn [rev]. rewrite <- app_assoc. cbn [app]. rewrite <- E.
  cbn [rx_split_go app]. pose proof (solid_miss (c :: x) rest ltac:(done) Hs pre []) as Hm. cbn [app] in Hm.
  by rewrite Hm.
Qed.

Lemma hit_and more : head_not is_space more -> hit and_re (" && " ++ more) [] more [].
Proof.
  intros Hm. eapply hit_cons; [by apply (hit_space ("&& " ++ more))|].
  eapply hit_cons; [apply (hit_lit "&&")|].
  eapply hit_cons; [by apply hit_space|apply hit_nil].
Qed.

Lemma solid_units v : forallb (fun c => negb (is_space c) && not_unit 38 c) v = true -> solid v = true.
Proof.
  induction v as [|x [|y v] IH]; [done| |]; intros Hv.
  - cbn in Hv |- *. by rewrite andb_true_r in Hv.
  - change (not_unit 38 x && solid (y :: v) = true). apply andb_true_iff in Hv as [Hx Hv].
    apply andb_true_iff in Hx as [_ ->]. by apply IH.
Qed.

Lemma cond_solid c : cond_text_ok c -> solid (written_cond c) = true.
Proof.
  intros (Hv & Ho & Hne & Hd). unfold written_cond.
  assert (solid (ct_value c) = true) as Hs.
  { apply solid_units. rewrite forallb_forall in Hd |- *. intros x Hx%Hd. rewrite (cond_unit_not_space _ Hx).
    unfold not_unit. by destruct (N.eqb_spec x 38) as [->|]. }
  assert (ct_value c <> []) as Hne' by done. destruct (ct_value c) as [|x v]; [done|].
  repeat (apply elem_of_cons in Hv as [->|Hv];
    [repeat (apply elem_of_cons in Ho as [->|Ho]; [exact Hs|]); by apply elem_of_nil in Ho|]).
  by apply elem_of_nil in Hv.
Qed.

Lemma split_conds cs : forall c fuel pre, Forall cond_text_ok (c :: cs) ->
  length (written_conds (c :: cs)) < fuel ->
  rx_split_go and_re fuel [] pre (written_conds (c :: cs)) = map written_cond (c :: cs).
Proof.
  induction cs as [|d cs IH]; intros c fuel pre Hok Hf; inversion Hok as [|? ? Hc Hcs]; subst.
  - rewrite <- (app_nil_r (written_conds [c])). change (written_conds [c]) with (written_cond c) in *.
    destruct (split_solid (written_cond c) [] fuel [] pre (cond_solid c Hc) ltac:(by rewrite app_nil_r))
      as (f' & p' & -> & Hl). rewrite app_nil_r. destruct f'; [cbn in Hl; lia|]. cbn. by rewrite rev_involutive.
  - assert (written_conds (c :: d :: cs) = written_cond c ++ " && " ++ written_conds (d :: cs)) as E.
    { unfold written_conds. cbn [map]. by rewrite join_cons. }
    rewrite E in Hf |- *.
    destruct (split_solid (written_cond c) (" && " ++ written_conds (d :: cs)) fuel [] pre (cond_solid c Hc) Hf)
      as (f' & p' & -> & Hl). rewrite app_nil_r. destruct f' as [|f']; [lia|].
    assert (head_not is_space (written_conds (d :: cs))) as Hsp.
    { rewrite written_conds_cons. apply cond_not_space. by inversion Hcs. }
    destruct (hit_and (written_conds (d :: cs)) Hsp p') as [p'' Hh].
    rewrite (split_at_hit and_re f' (rev (written_cond c)) p' p'' _ _ Hh) by (rewrite (length_app " && "); change (length (" && " : jstr)) with 4%nat; lia).
    rewrite rev_involutive. cbn [map]. f_equal. apply IH; [done|]. rewrite (length_app " && ") in Hl. change (length (" && " : jstr)) with 4%nat in Hl. lia.
Qed.

Definition condition_obj (c : CondText) : jsobj :=
  [("var", JStr (ct_var c)); ("op", JStr (ct_op c)); ("value", JNum (num_of_string (ct_value c)))].

Lemma cond_trimmed c : cond_text_ok c -> trimmed (written_cond c) = true.
Proof.
  intros Hok. pose proof (cond_not_space c [] Hok) as Hh. rewrite app_nil_r in Hh.
  destruct Hok as (_ & _ & Hne & Hd).
  assert (exists d t, rev (written_cond c) = d :: t /\ is_space d = false) as (d & t & Er & Hs).
  { unfold written_cond. rewrite !rev_app_distr, <- !app_assoc.
    destruct (rev (ct_value c)) as [|d t] eqn:E.
    - apply (f_equal (@rev N)) in E. by rewrite rev_involutive in E.
    - eexists d, _. split; [done|]. apply cond_unit_not_space. rewrite forallb_forall in Hd. apply Hd.
      apply in_rev. rewrite E. by left. }
  unfold trimmed. destruct (written_cond c) as [|x s]; [done|]. cbn in Hh. by rewrite Er, Hh, Hs.
Qed.

Lemma exec_cond c : cond_text_ok c ->
  exists m, rx_exec cond_re (trim (written_cond c)) = Some m /\ condition_object m = JObj (condition_obj c).
Proof.
  intros Hok. pose proof Hok as (Hv & Ho & Hne & Hd).
  assert (trim (written_cond c) = written_cond c) as ->.
  { apply trim_id. by apply cond_trimmed. }
  change cond_re with (RSeq RBol (rseq [RCap 1 cond_vars; rspaces; RCap 2 cond_ops; rspaces; RCap 3 (rplus (RSet cond_unit)); REol])).
  rewrite rx_exec_bol.
  assert (hit (rseq [RCap 1 cond_vars; rspaces; RCap 2 cond_ops; rspaces; RCap 3 (rplus (RSet cond_unit)); REol])
    (written_cond c) [] [] [(3, ct_value c); (2, ct_op c); (1, ct_var c)]) as Hh.
  { unfold written_cond.
    eapply hit_cons.
    { apply hit_cap. intros pre. rewrite var_run by done. by eexists. }
    eapply hit_cons; [apply hit_space; by apply op_not_space|].
    apply hit_cap_ops; [done| |].
    - intros x. apply miss_no_space; [done|]. intros pre caps'. by apply run_cap_plus_fail.
    - eapply hit_cons; [apply hit_space; rewrite <- (app_nil_r (ct_value c)); by apply head_value|].
      rewrite <- (app_nil_r (ct_value c)) at 1.
      eapply hit_cons; [by apply hit_cap_plus|]. intros pre. by exists pre. }
  destruct (Hh []) as [pre E]. eexists. split; [exact E|]. reflexivity.
Qed.

Lemma visual_conditions_written cs : Forall cond_text_ok cs ->
  visual_conditions (written_conds cs) = map (fun c => JObj (condition_obj c)) cs.
Proof.
  intros Hok. destruct cs as [|c cs]; [done|]. unfold visual_conditions.
  destruct (written_conds (c :: cs)) as [|x s] eqn:E.
  { rewrite written_conds_cons in E. unfold written_cond in E. by destruct (ct_var c). }
  rewrite <- E. unfold rx_split. rewrite split_conds by (done || lia). clear E.
  induction Hok as [|d ds Hd _ IH]; [done|]. cbn [map flat_map].
  destruct (exec_cond d Hd) as (m & -> & ->). cbn [app]. by rewrite IH.
Qed.

(** ** The tiers read back *)

(** What the editor shows of a tier. *)
Definition tier_view (t : jsobj) : jstr * list CondText * num * num * list num :=
  (label_of t, conds_of t, cost t "input_unit_cost", cost t "output_unit_cost", extra_costs t).

Definition part_view (p : PartText) : jstr * list CondText * num * num * list num :=
  (tt_label (pa_tier p), pa_conds p, number_or_zero (JNum (num_of_string (tt_input (pa_tier p)))),
   number_or_zero (JNum (num_of_string (tt_output (pa_tier p)))),
   map (fun v => match v with Some v => num_or (num_of_string v) nzero | None => nzero end) (tt_extras (pa_tier p))).

(** A tier that shows a part. *)
Definition shows (t : jsobj) (p : PartText) : Prop :=
  tier_view t = part_view p /\ prop t "label" = JStr (tt_label (pa_tier p)).

Lemma conds_read cs : Forall (fun c => cond_ok c = true) cs ->
  map cond_of (List.filter condition_complete (map as_tier (map (fun c => JObj (condition_obj c)) cs))) = cs.
Proof.
  induction 1 as [|c cs Hc _ IH]; [done|]. cbn [map as_tier List.filter].
  assert (condition_complete (condition_obj c) = true) as ->.
  { unfold cond_ok in Hc. bools. unfold condition_complete.
    change (prop (condition_obj c) "var") with (JStr (ct_var c)).
    change (prop (condition_obj c) "op") with (JStr (ct_op c)).
    change (prop (condition_obj c) "value") with (JNum (num_of_string (ct_value c))). cbn [truthy].
    assert (non_empty (ct_var c) = true) as ->.
    { destruct (ct_var c); [|done]. exfalso. set_solver. }
    assert (non_empty (ct_op c) = true) as ->; [|done].
    destruct (ct_op c); [|done]. exfalso. set_solver. }
  cbn [map]. f_equal; [|exact IH]. unfold cond_of.
  change (prop (condition_obj c) "var") with (JStr (ct_var c)).
  change (prop (condition_obj c) "op") with (JStr (ct_op c)).
  change (prop (condition_obj c) "value") with (JNum (num_of_string (ct_value c))). cbn [js_to_string].
  unfold cond_ok in Hc. bools. destruct c as [v o x]. cbn in *. by f_equal.
Qed.

(** A notation: the kernel then compares the tiers as they are written. *)
Notation read_tier m n conds := (normalizeVisualTier (normalizeVisualTier (matched_tier m n conds))).

Lemma read_tier_view m n p conds : part_ok p -> Forall (fun c => cond_ok c = true) (pa_conds p) ->
  conds = map (fun c => JObj (condition_obj c)) (pa_conds p) ->
  group m n = Some (tt_label (pa_tier p)) -> group m (n + 1) = Some (tt_input (pa_tier p)) ->
  group m (n + 2) = Some (tt_output (pa_tier p)) ->
  (forall i, group m (n + 3 + i) = default None (tt_extras (pa_tier p) !! i)) ->
  shows (read_tier m n conds) p.
Proof.
  intros Hok Hcs Ecs G0 G1 G2 G3.
  destruct (matched_tier_spec m n (pa_tier p) conds)
    as (Hnd & Hl & Hc & Hi & Ho & Hx); [apply Hok|done..|].
  set (o := matched_tier _ _ _) in *.
  assert (forall k v, k ∉ tier_cost_fields -> obj_get k o = Some v ->
    obj_get k (normalizeVisualTier (normalizeVisualTier o)) = Some v) as Hkeep.
  { intros k v Hk Hv. apply normalize_keeps; [apply normalize_NoDup|done|]. by apply normalize_keeps. }
  apply Hkeep in Hl, Hc, Hi, Ho; try by apply (bool_decide_unpack _).
  set (t := normalizeVisualTier (normalizeVisualTier o)) in *.
  assert (prop t "label" = JStr (tt_label (pa_tier p))) as El by (unfold prop; by rewrite Hl).
  split; [|exact El]. unfold tier_view, part_view. f_equal; [f_equal; [f_equal; [f_equal|]|]|].
  - unfold label_of. by rewrite El.
  - unfold conds_of, prop. rewrite Hc, Ecs. by apply conds_read.
  - unfold cost, prop. by rewrite Hi.
  - unfold cost, prop. by rewrite Ho.
  - rewrite <- Hx. unfold extra_costs, extra_fields. rewrite map_map. apply map_ext_in.
    intros cv Hcv. unfold cost, prop. assert (cv_field cv ∈ tier_cost_fields) as Hf.
    { rewrite <- extra_fields_eq. unfold extra_fields. apply elem_of_map. exists cv. by rewrite list_elem_of_In. }
    unfold t. rewrite normalize_cost by done. cbn [default from_option id]. rewrite number_or_zero_idem.
    unfold prop. rewrite normalize_cost by done. cbn [default from_option id]. by rewrite number_or_zero_idem.
Qed.

(** Canonical costs are their own reading. *)
Lemma canonical_view t cs : canonical_tier t = true ->
  part_view {| pa_conds := cs; pa_tier := text_of t |}
  = (label_of t, cs, cost t "input_unit_cost", cost t "output_unit_cost", extra_costs t).
Proof.
  intros Ht. unfold canonical_tier, cost_ok, num_roundtrips in Ht. bools.
  unfold part_view, text_of. cbn [pa_conds pa_tier tt_label tt_input tt_output tt_extras].
  repeat match goal with H : num_of_string _ = _ |- _ => rewrite H end.
  f_equal; [f_equal; [f_equal|]; apply number_or_zero_idem|].
  rewrite map_map. rewrite <- (map_id (extra_costs t)) at 2. apply map_ext_in. intros v Hv.
  match goal with H : forallb _ (extra_costs t) = true |- _ =>
    rewrite forallb_forall in H; pose proof (H v Hv) as Hv1; clear H end.
  unfold shown. assert (num_or v nzero = v) as Hv0.
  { unfold extra_costs in Hv. apply in_map_iff in Hv as (cv & <- & _). unfold cost.
    apply (number_or_zero_idem (prop t (cv_field cv))). }
  destruct (num_truthy v) eqn:Ev.
  - cbn [negb orb] in Hv1. apply andb_true_iff in Hv1 as [_ Hv1]. apply bool_decide_eq_true in Hv1. by rewrite Hv1.
  - unfold num_or in Hv0. by rewrite Ev in Hv0.
Qed.

Notation view := (jstr * list CondText * num * num * list num)%type.

(** The last tier is the fallback: it is written without its conditions. *)
Fixpoint last_unconditional (vs : list view) : list view :=
  match vs with
  | [] => []
  | [(l, _, ic, oc, ex)] => [(l, [], ic, oc, ex)]
  | v :: vs => v :: last_unconditional vs
  end.

(** What an expression keeps of the tiers: a lone tier keeps its conditions. *)
Definition written_views (vs : list view) : list view :=
  match vs with [v] => [v] | vs => last_unconditional vs end.

Lemma parts_of_views ts : Forall (fun t => canonical_tier t = true) ts ->
  map part_view (parts_of ts) = last_unconditional (map tier_view ts).
Proof.
  induction 1 as [|t ts Ht Hts IH]; [done|]. destruct ts as [|u ts].
  - cbn [parts_of map last_unconditional]. unfold last_part. by rewrite (canonical_view t []).
  - change (parts_of (t :: u :: ts)) with (part_of t :: parts_of (u :: ts)).
    change (last_unconditional (map tier_view (t :: u :: ts)))
      with (tier_view t :: last_unconditional (map tier_view (u :: ts))).
    cbn [map]. f_equal; [|exact IH]. unfold part_of. by rewrite canonical_view.
Qed.

Lemma parts_views c : canonical_config c = true ->
  map part_view (config_parts c) = written_views (map tier_view (tiers_of c)).
Proof.
  intros [_ Hc]%canonical_tiers. unfold config_parts.
  pose proof (parts_of_views _ Hc) as Hp.
  destruct (tiers_of c) as [|t [|u ts]]; [done| |exact Hp].
  inversion Hc as [|? ? Ht _]; subst. cbn [map written_views]. unfold part_of. by rewrite canonical_view.
Qed.

(** The conditions of a canonical configuration's parts. *)
Lemma parts_conds c : canonical_config c = true ->
  Forall (fun p => Forall (fun d => cond_ok d = true) (pa_conds p)) (config_parts c).
Proof.
  intros [_ Hc]%canonical_tiers. unfold config_parts.
  assert (forall t, canonical_tier t = true -> Forall (fun d => cond_ok d = true) (conds_of t)) as Ht.
  { intros t Ht. unfold canonical_tier in Ht. apply andb_true_iff in Ht as [_ Ht]. by apply forallb_Forall in Ht. }
  assert (Forall (fun p => Forall (fun d => cond_ok d = true) (pa_conds p)) (parts_of (tiers_of c))) as Hp.
  { induction Hc as [|t ts H1 Hts IH]; [constructor|]. destruct ts as [|u ts].
    - constructor; [constructor|constructor].
    - change (parts_of (t :: u :: ts)) with (part_of t :: parts_of (u :: ts)). constructor; [by apply Ht|exact IH]. }
  destruct (tiers_of c) as [|t [|u ts]]; [done| |exact Hp].
  inversion Hc as [|? ? H1 _]; subst. constructor; [by apply Ht|constructor].
Qed.

(** The read configuration, in either way of reading. *)
Lemma read_config (ts : list jsobj) : ts <> [] ->
  tiers_of (normalizeVisualConfig (Some [("tiers", JArr (map JObj ts))])) = map normalizeVisualTier ts.
Proof.
  destruct ts as [|t ts]; [done|]. intros _. unfold tiers_of. cbn [map].
  change (map as_tier (JObj (normalizeVisualTier t)
    :: map (fun tier => JObj (normalizeVisualTier (as_tier tier))) (map JObj ts))
    = normalizeVisualTier t :: map normalizeVisualTier ts).
  cbn [map as_tier]. f_equal. rewrite !map_map. apply map_ext. done.
Qed.

(** A match that carries a part's captures reads as that part. *)
Lemma read_part m p : part_ok p -> Forall (fun c => cond_ok c = true) (pa_conds p) -> ms_caps m = part_caps p ->
  shows (read_tier m 2 (visual_conditions (group_or m 1))) p.
Proof.
  intros Hok Hcs Em. unfold part_caps in Em.
  destruct (written_groups m 2 (pa_tier p) _ Em) as (G0 & G1 & G2 & G3 & Glow).
  { intros j Hj. destruct (pa_conds p); [done|]. cbn. destruct j as [|[|j]]; [lia|lia|done]. }
  assert (visual_conditions (group_or m 1) = map (fun c => JObj (condition_obj c)) (pa_conds p)) as ->.
  { unfold group_or. rewrite Glow by lia. rewrite <- visual_conditions_written by apply Hok.
    by destruct (pa_conds p). }
  by apply read_tier_view.
Qed.

(** ** A configuration with the views of another writes the same text *)

(** A part with the costs of a canonical tier and complete conditions. *)
Definition good_part (p : PartText) : Prop :=
  exists t, canonical_tier t = true /\ pa_tier p = text_of t /\ Forall (fun d => cond_ok d = true) (pa_conds p).

Lemma good_parts c : canonical_config c = true -> Forall good_part (config_parts c).
Proof.
  intros Hcan. pose proof (parts_conds c Hcan) as Hcs. pose proof (canonical_tiers c Hcan) as [_ Hc].
  assert (Forall (fun p => exists t, canonical_tier t = true /\ pa_tier p = text_of t) (config_parts c)) as Ht.
  { unfold config_parts.
    assert (Forall (fun p => exists t, canonical_tier t = true /\ pa_tier p = text_of t) (parts_of (tiers_of c))) as Hp.
    { clear Hcs. induction Hc as [|t ts H1 Hts IH]; [constructor|]. destruct ts as [|u ts].
      - constructor; [by exists t|constructor].
      - change (parts_of (t :: u :: ts)) with (part_of t :: parts_of (u :: ts)).
        constructor; [by exists t|exact IH]. }
    destruct (tiers_of c) as [|t [|u ts]]; [done| |exact Hp].
    inversion Hc as [|? ? H1 _]; subst. constructor; [by exists t|constructor]. }
  rewrite Forall_forall in Hcs. rewrite Forall_forall in Ht. apply Forall_forall. intros p Hp.
  destruct (Ht p Hp) as (t & H1 & H2). exists t. split_and!; [done|done|by apply Hcs].
Qed.

Lemma view_part t p : good_part p -> tier_view t = part_view p -> prop t "label" = JStr (tt_label (pa_tier p)) ->
  part_of t = p /\ canonical_tier t = true.
Proof.
  intros (t0 & H0 & Ht & Hcs) Hv Hl. destruct p as [cs tt]. cbn [pa_conds pa_tier] in *. subst tt.
  rewrite canonical_view in Hv by done.
  pose proof (f_equal (fun v : view => v.1.1.1.1) Hv) as E1. pose proof (f_equal (fun v : view => v.1.1.1.2) Hv) as E2.
  pose proof (f_equal (fun v : view => v.1.1.2) Hv) as E3. pose proof (f_equal (fun v : view => v.1.2) Hv) as E4.
  pose proof (f_equal (fun v : view => v.2) Hv) as E5. unfold tier_view in E1, E2, E3, E4, E5. cbn [fst snd] in *.
  split.
  - unfold part_of, text_of. by rewrite E1, E2, E3, E4, E5.
  - unfold canonical_tier in H0 |- *. rewrite E1, E2, E3, E4, E5.
    apply andb_true_iff in H0 as [H0 _]. repeat (apply andb_true_iff in H0 as [H0 ?]).
    apply forallb_Forall in Hcs. rewrite Hcs. cbn [tt_label text_of] in Hl. rewrite Hl.
    rewrite bool_decide_true by done.
    repeat match goal with H : _ = true |- _ => rewrite H end. done.
Qed.

Lemma parts_same ts ps : Forall2 (fun t p => part_of t = p) ts ps ->
  match last ps with Some p => pa_conds p = [] | None => True end -> parts_of ts = ps.
Proof.
  induction 1 as [|t p ts ps Htp Hts IH]; intros Hl; [done|]. destruct Hts as [|u q ts ps Huq Hts].
  - cbn in Hl |- *. unfold last_part. rewrite <- Htp in Hl |- *. unfold part_of in *. cbn in Hl. by rewrite Hl.
  - change (parts_of (t :: u :: ts)) with (part_of t :: parts_of (u :: ts)). by rewrite Htp, IH.
Qed.

Lemma parts_last ts : match last (parts_of ts) with Some p => pa_conds p = [] | None => True end.
Proof.
  induction ts as [|t [|u ts] IH]; [done|done|].
  change (parts_of (t :: u :: ts)) with (part_of t :: parts_of (u :: ts)).
  destruct (parts_of (u :: ts)) eqn:E; [by destruct ts|exact IH].
Qed.

Lemma regenerate c cfg : canonical_config c = true ->
  Forall2 shows
    (tiers_of cfg) (config_parts c) ->
  canonical_config cfg = true
  /\ generateExprFromVisualConfig (Some cfg) = written_parts (config_parts c) (config_tail c)
  /\ map tier_view (tiers_of cfg) = written_views (map tier_view (tiers_of c)).
Proof.
  intros Hc Hv. pose proof (good_parts c Hc) as Hg.
  assert (Forall2 (fun t p => part_of t = p) (tiers_of cfg) (config_parts c)
    /\ Forall (fun t => canonical_tier t = true) (tiers_of cfg)) as [Hp Hcan].
  { clear Hc. induction Hv as [|t p ts ps [H1 H2] _ IH]; [by split; constructor|].
    inversion Hg as [|? ? Hgp Hgs]; subst. destruct (view_part t p Hgp H1 H2). destruct (IH Hgs).
    split; by constructor. }
  pose proof (parts_ok c Hc) as (_ & Hne & _).
  assert (canonical_config cfg = true) as Hcfg.
  { unfold canonical_config. apply andb_true_iff. split; [|by apply forallb_Forall].
    apply negb_true_iff, bool_decide_eq_false. intros E. rewrite E in Hp. by inversion Hp as [H0|]. }
  split_and!; [done| |].
  - rewrite generate_written by done. unfold config_parts at 1, config_tail at 1.
    unfold config_parts, config_tail in *. pose proof (canonical_tiers c Hc) as [Hne' _].
    destruct (tiers_of c) as [|t0 [|u0 ts0]]; [done| |].
    + inversion Hp as [|t p ts ps Htp Hts E1 E2]; subst. inversion Hts; subst.
      assert (conds_of t = conds_of t0) as -> by (by injection Htp). by rewrite Htp.
    + pose proof (parts_same _ _ Hp (parts_last _)) as Hps.
      destruct (tiers_of cfg) as [|t [|u ts]]; [by inversion Hp| |].
      * exfalso. apply Forall2_length in Hp. cbn in Hp. by destruct ts0.
      * by rewrite Hps.
  - rewrite <- (parts_views c Hc). clear -Hv.
    induction Hv as [|t p ts ps [H1 _] _ IH]; cbn; [done|]. by rewrite H1, IH.
Qed.

Lemma generated_start c : canonical_config c = true ->
  match generateExprFromVisualConfig (Some c) with
  | x :: _ => (x =? 118)%N = false
  | [] => False
  end.
Proof.
  intros Hc. rewrite generate_written by done. destruct (parts_ok c Hc) as (Hok & Hne & _).
  destruct (config_parts c) as [|p ps]; [done|]. inversion Hok as [|? ? [Hcs _] _]; subst.
  assert (exists rest, written_parts (p :: ps) (config_tail c) = written_part p ++ rest) as [rest ->]
    by (destruct ps; eexists; done).
  unfold written_part. destruct (pa_conds p) as [|d ds]; [done|].
  inversion Hcs as [|? ? (Hv & _) _]; subst. rewrite written_conds_cons. unfold written_cond.
  repeat (apply elem_of_cons in Hv as [->|Hv]; [done|]). by apply elem_of_nil in Hv.
Qed.

Lemma parse_single s m : s <> [] -> visual_body s = s -> rx_exec singleRe s = Some m ->
  tryParseVisualConfig s
  = Some (normalizeVisualConfig (Some [("tiers", JArr (map JObj [normalizeVisualTier (matched_tier m 1 [])]))])).
Proof.
  intros Hne Hb Hm. destruct s as [|x s]; [congruence|]. unfold tryParseVisualConfig.
  cbv beta iota zeta. rewrite Hb, Hm. reflexivity.
Qed.

Definition found_tiers (s : jstr) : list jsobj :=
  map (fun m => normalizeVisualTier (matched_tier m 2 (visual_conditions (group_or m 1)))) (rx_exec_all tierRe s).

Lemma parse_many s : s <> [] -> visual_body s = s -> rx_exec singleRe s = None -> found_tiers s <> [] ->
  let cfg := normalizeVisualConfig (Some [("tiers", JArr (map JObj (found_tiers s)))]) in
  generateExprFromVisualConfig (Some cfg) = s -> tryParseVisualConfig s = Some cfg.
Proof.
  intros Hne Hb Hm Hf cfg Hg. unfold tryParseVisualConfig. rewrite Hb, Hm. destruct s as [|x s]; [congruence|].
  unfold cfg, found_tiers in *. rewrite map_map in *. cbv zeta.
  destruct (rx_exec_all tierRe (x :: s)) as [|m ms]; [by destruct Hf|]. cbn [map] in *. rewrite Hg.
  rewrite bool_decide_true by reflexivity. reflexivity.
Qed.

Lemma Forall2_map_l' {X Y Z} (P : Y -> Z -> Prop) (f : X -> Y) l k :
  Forall2 (fun x z => P (f x) z) l k -> Forall2 P (map f l) k.
Proof. induction 1; by constructor. Qed.

(** A match of the lone pattern reads as its tier. *)
Lemma read_lone m t : part_ok (last_part t) -> ms_caps m = written_caps 1 (text_of t) [] ->
  shows (read_tier m 1 []) (last_part t).
Proof.
  intros Hp Em. destruct (written_groups m 1 (text_of t) [] Em) as (G0 & G1 & G2 & G3 & _); [reflexivity|].
  apply (read_tier_view m 1 (last_part t) [] Hp (List.Forall_nil _) eq_refl G0 G1 G2 G3).
Qed.

Notation lone_config m :=
  (normalizeVisualConfig (Some [("tiers", JArr (map JObj [normalizeVisualTier (matched_tier m 1 [])]))])).

Lemma lone_shows m t : part_ok (last_part t) -> ms_caps m = written_caps 1 (text_of t) [] ->
  Forall2 shows (tiers_of (lone_config m)) [last_part t].
Proof.
  intros Hp Em. rewrite read_config by discriminate. rewrite map_cons.
  apply List.Forall2_cons; [exact (read_lone m t Hp Em)|apply List.Forall2_nil].
Qed.

Lemma lone_parts c t : tiers_of c = [t] -> conds_of t = [] ->
  config_parts c = [last_part t] /\ config_tail c = [].
Proof.
  intros Et Ec. unfold config_parts, config_tail. rewrite Et, Ec. unfold part_of, last_part. by rewrite Ec.
Qed.

(** The text of one tier without conditions. *)
Lemma read_single c t : canonical_config c = true -> tiers_of c = [t] -> conds_of t = [] ->
  exists cfg, tryParseVisualConfig (generateExprFromVisualConfig (Some c)) = Some cfg
    /\ Forall2 shows (tiers_of cfg) (config_parts c).
Proof.
  intros Hc Et Ec. pose proof (generated_start c Hc) as Hst. pose proof (parts_ok c Hc) as (Hok & _ & _).
  rewrite (generate_written c Hc) in Hst |- *. destruct (lone_parts c t Et Ec) as [Ep Etl].
  rewrite Ep, Etl in *. inversion Hok as [|? ? Hp _]; subst.
  assert (written_parts [last_part t] [] = written_tier (text_of t)) as Ew by apply app_nil_r.
  rewrite Ew in *.
  destruct (single_hit (text_of t)) as (m & Hm & Em); [apply Hp|].
  exists (lone_config m). split; [|by apply lone_shows].
  apply parse_single; [by destruct (written_tier _)| |exact Hm].
  apply no_version. by destruct (written_tier _).
Qed.

(** The text of several tiers, or of one with conditions. *)
Lemma read_many c : canonical_config c = true ->
  (forall t, tiers_of c = [t] -> conds_of t <> []) ->
  exists cfg, tryParseVisualConfig (generateExprFromVisualConfig (Some c)) = Some cfg
    /\ Forall2 shows
         (tiers_of cfg) (config_parts c).
Proof.
  intros Hc Hmany. pose proof (generated_start c Hc) as Hst. pose proof (parts_ok c Hc) as (Hok & Hne & Htail).
  pose proof (parts_conds c Hc) as Hcs.
  assert (rx_exec singleRe (written_parts (config_parts c) (config_tail c)) = None) as Hm.
  { unfold config_parts, config_tail in *. destruct (tiers_of c) as [|t [|u ts]] eqn:Et; [done| |].
    - inversion Hok as [|? ? Hp _]; subst. apply single_miss_cond; [done|]. by apply (Hmany t).
    - change (parts_of (t :: u :: ts)) with (part_of t :: parts_of (u :: ts)).
      destruct (parts_of (u :: ts)) as [|q qs] eqn:E; [by destruct ts|]. apply single_miss_many. }
  rewrite (generate_written c Hc) in Hst |- *.
  pose proof (exec_all_parts (config_tail c) (config_parts c) Htail Hok Hne) as Hall.
  set (s := written_parts (config_parts c) (config_tail c)) in *.
  assert (Forall2 shows
    (map normalizeVisualTier (found_tiers s)) (config_parts c)) as Hv.
  { unfold found_tiers. rewrite map_map. apply Forall2_map_l'. clear Hc Hne Hm Hst Hmany Htail.
    revert Hall. generalize (rx_exec_all tierRe s) as ms.
    induction Hok as [|p ps Hp _ IH]; intros [|m ms] Hall; try done. injection Hall as Hm Hall.
    inversion Hcs as [|? ? Hcp Hcs']; subst. constructor; [by apply read_part|by apply IH]. }
  assert (found_tiers s <> []) as Hf by (intros E; rewrite E in Hv; by inversion Hv; subst).
  exists (normalizeVisualConfig (Some [("tiers", JArr (map JObj (found_tiers s)))])).
  split; [|by rewrite read_config].
  apply parse_many; [by destruct s|apply no_version; by destruct s|done|done|].
  apply (regenerate c); [done|]. by rewrite read_config.
Qed.

(** What the theorem below states, for the proofs about the editor. *)
Lemma visual_config_read c :
  canonical_config c = true ->
  exists c', tryParseVisualConfig (generateExprFromVisualConfig (Some c)) = Some c'
    /\ generateExprFromVisualConfig (Some c') = generateExprFromVisualConfig (Some c)
    /\ map tier_view (tiers_of c') = written_views (map tier_view (tiers_of c)).
Proof.
  intros Hc.
  assert (exists cfg, tryParseVisualConfig (generateExprFromVisualConfig (Some c)) = Some cfg
    /\ Forall2 shows
         (tiers_of cfg) (config_parts c)) as (cfg & Hp & Hv).
  { destruct (tiers_of c) as [|t [|u ts]] eqn:Et; [by destruct (canonical_tiers c Hc) | |].
    - destruct (conds_of t) as [|d ds] eqn:Ec; [by apply (read_single c t)|].
      apply read_many; [done|]. intros t'. rewrite Et. intros [= <-]. by rewrite Ec.
    - apply read_many; [done|]. intros t'. by rewrite Et. }
  destruct (regenerate c cfg Hc Hv) as (_ & Hg & Hw). exists cfg.
  split_and!; [exact Hp| |exact Hw]. by rewrite Hg, generate_written.
Qed.

(** The last of several tiers has no conditions, as it is written without them. *)
Definition fallback_last (c : jsobj) : bool :=
  match tiers_of c with
  | [_] => true
  | ts => match last ts with Some t => match conds_of t with [] => true | _ => false end | None => true end
  end.

Lemma last_views ts : (match last ts with Some t => conds_of t = [] | None => True end) ->
  last_unconditional (map tier_view ts) = map tier_view ts.
Proof.
  induction ts as [|t ts IH]; [done|]. destruct ts as [|u ts].
  - cbn [last map]. intros H. unfold tier_view, last_unconditional. by rewrite H.
  - intros H. specialize (IH H). cbn [map] in *. change (last_unconditional (tier_view t :: ?l)) with (tier_view t :: last_unconditional l).
    by rewrite IH.
Qed.

Lemma fallback_views c : fallback_last c = true -> written_views (map tier_view (tiers_of c)) = map tier_view (tiers_of c).
Proof.
  unfold fallback_last. destruct (tiers_of c) as [|t [|u ts]] eqn:E; [done|done|]. intros H.
  change (last_unconditional (map tier_view (t :: u :: ts)) = map tier_view (t :: u :: ts)). apply last_views.
  destruct (last _) as [w|]; [|done]. by destruct (conds_of w).
Qed.

(** C8: a canonical configuration's expression reads back as a configuration that writes
    the same expression. It shows the same tiers when the last of several tiers has no
    conditions; in any case the last of several is the fallback of the expression and is
    shown without its conditions, and the other tiers are the same. *)
Theorem visual_config_roundtrip c :
  canonical_config c = true ->
  exists c', tryParseVisualConfig (generateExprFromVisualConfig (Some c)) = Some c'
    /\ generateExprFromVisualConfig (Some c') = generateExprFromVisualConfig (Some c)
    /\ map tier_view (tiers_of c') = written_views (map tier_view (tiers_of c))
    /\ (fallback_last c = true -> map tier_view (tiers_of c') = map tier_view (tiers_of c)).
Proof.
  intros Hc. destruct (visual_config_read c Hc) as (c' & H1 & H2 & H3). exists c'. split_and!; [done..|].
  intros Hf. rewrite H3. by apply fallback_views.
Qed.

Definition demo_condition : jsobj := [("var", JStr "len"); ("op", JStr "<="); ("value", JNum (num_of_Z 200000))].

Definition demo_tier (label : jstr) (conds : list jsval) (ic oc cr : Z) : jsval :=
  JObj [("label", JStr label); ("input_unit_cost", JNum (num_of_Z ic)); ("output_unit_cost", JNum (num_of_Z oc));
        ("cache_mode", JStr CACHE_MODE_GENERIC); ("conditions", JArr conds);
        ("cache_read_unit_cost", JNum (num_of_Z cr))].

Definition demo_config : jsobj :=
  [("tiers", JArr [demo_tier "standard" [JObj demo_condition] 3 15 1; demo_tier "long" [] 6 22 0])].

Lemma visual_config_roundtrip_witness :
  canonical_config demo_config = true
  /\ exists c', tryParseVisualConfig (generateExprFromVisualConfig (Some demo_config)) = Some c'
     /\ map tier_view (tiers_of c') = map tier_view (tiers_of demo_config).
Proof.
  assert (canonical_config demo_config = true) as H by (vm_compute; reflexivity).
  split; [exact H|]. destruct (visual_config_roundtrip demo_config H) as (c' & H1 & _ & _ & H4).
  exists c'. split; [exact H1|]. apply H4. vm_compute. reflexivity.
Defined.

(** A lone tier with a malformed price. *)
Definition malformed_lone : jstr := sq "tier('base', p * 2-1 + c * 3)".

(** The same tier as the fallback of two. *)
Definition malformed_second : jstr := sq "p < 5 ? tier('a', p * 1 + c * 1) : tier('base', p * 2-1 + c * 3)".

(** The editor accepts a lone tier whose price it cannot read (2-1 is not a
    number), and saving it again sets that price to 0; with two tiers the same price makes the
    editor refuse the expression. *)
Theorem lone_tier_loses_price :
  (exists c, tryParseVisualConfig malformed_lone = Some c
    /\ generateExprFromVisualConfig (Some c) = sq "tier('base', p * 0 + c * 3)")
  /\ tryParseVisualConfig malformed_second = None.
Proof.
  split; [|vm_compute; reflexivity].
  assert (option_map (fun c => generateExprFromVisualConfig (Some c)) (tryParseVisualConfig malformed_lone)
          = Some (sq "tier('base', p * 0 + c * 3)")) as H by (vm_compute; reflexivity).
  destruct (tryParseVisualConfig malformed_lone) as [c|]; [|discriminate H].
  exists c. split; [reflexivity|]. exact (Some_inj _ _ H).
Qed.
