(* ===== verification/RecordUpdate.v ===== *)
(** * Record updates

    [r{{ f := v }}] rebuilds [r] from its projections, so that the other fields of an
    update reduce to those of [r] without a case analysis. A record that is updated so
    has an [_eta] expansion and a [Setter] hint. *)
From coqutil Require Export Datatypes.RecordSetters.
Export DoubleBraceUpdate.

#[global] Arguments constant {E} newValue _ /.

Ltac projections_setter eta R E getter :=
  exact (fun (u : E -> E) (r : R) => ltac:(
    let b := eval cbv beta delta [eta] in (eta r) in
    match b with
    | context C [getter r] => let b' := context C [u (getter r)] in exact b'
    end)).
