(* ===== verification/Messages.v ===== *)
(** * Playground messages (features/playground/lib, types.ts, constants.ts)

    The chat messages of the playground: their versions, reasoning and timing, the
    text of a stream and its think tags, the conversation's edits, and the request
    built from them. Times are whole milliseconds: [now] is what [Date.now()] reads in a
    call, and the identifiers [nanoid()] draws are arguments. *)
From S2P Require Import RecordUpdate Prelude JsString JsNumber JsValue Json.

(** ** Data (types.ts) *)

Inductive MessageRole := USER | ASSISTANT | SYSTEM.
Inductive MessageStatus := LOADING | STREAMING | COMPLETE | ERROR.

#[export] Instance MessageRole_eq : EqDecision MessageRole.
Proof. solve_decision. Defined.
#[export] Instance MessageStatus_eq : EqDecision MessageStatus.
Proof. solve_decision. Defined.

Record MessageVersion := { mv_id : jstr; mv_content : jstr }.

Record Reasoning := {
  rs_content : jstr;
  rs_duration : Z;
  rs_startedAt : option Z;
  rs_completedAt : option Z;
  rs_durationMs : option Z
}.

(** An optional property is [None] when [undefined]; [m_errorCode] is [Some None] when
    [null]. *)
Record Message := {
  m_key : jstr;
  m_from : MessageRole;
  m_versions : list MessageVersion;
  m_createdAt : option Z;
  m_startedAt : option Z;
  m_completedAt : option Z;
  m_durationMs : option Z;
  m_sources : option (list (jstr * jstr));
  m_reasoning : option Reasoning;
  m_isReasoningStreaming : option bool;
  m_isReasoningComplete : option bool;
  m_isContentComplete : option bool;
  m_status : option MessageStatus;
  m_errorCode : option (option jstr);
  m_pendingAutoResend : option bool
}.

Definition MessageVersion_eta (v : MessageVersion) : MessageVersion :=
  {| mv_id := mv_id v; mv_content := mv_content v |}.
Definition Reasoning_eta (r : Reasoning) : Reasoning :=
  {| rs_content := rs_content r; rs_duration := rs_duration r; rs_startedAt := rs_startedAt r;
     rs_completedAt := rs_completedAt r; rs_durationMs := rs_durationMs r |}.
Definition Message_eta (m : Message) : Message :=
  {| m_key := m_key m; m_from := m_from m; m_versions := m_versions m; m_createdAt := m_createdAt m;
     m_startedAt := m_startedAt m; m_completedAt := m_completedAt m; m_durationMs := m_durationMs m;
     m_sources := m_sources m; m_reasoning := m_reasoning m; m_isReasoningStreaming := m_isReasoningStreaming m;
     m_isReasoningComplete := m_isReasoningComplete m; m_isContentComplete := m_isContentComplete m;
     m_status := m_status m; m_errorCode := m_errorCode m; m_pendingAutoResend := m_pendingAutoResend m |}.

#[export] Hint Extern 0 (@Setter MessageVersion ?E ?getter) =>
  projections_setter MessageVersion_eta MessageVersion E getter : typeclass_instances.
#[export] Hint Extern 0 (@Setter Reasoning ?E ?getter) =>
  projections_setter Reasoning_eta Reasoning E getter : typeclass_instances.
#[export] Hint Extern 0 (@Setter Message ?E ?getter) =>
  projections_setter Message_eta Message E getter : typeclass_instances.

#[export] Instance MessageVersion_eq : EqDecision MessageVersion.
Proof. solve_decision. Defined.
#[export] Instance Reasoning_eq : EqDecision Reasoning.
Proof. solve_decision. Defined.
#[export] Instance Message_eq : EqDecision Message.
Proof. solve_decision. Defined.

(** An optional flag, as a condition. *)
Definition flag (b : option bool) : bool := default false b.

(** ** constants.ts *)

Definition API_REQUEST_ERROR : jstr := "Request error occurred".
Definition NETWORK_ERROR : jstr := "Network connection failed or server not responding".
Definition PARSE_ERROR : jstr := "Error parsing response data".
Definition STREAM_START_ERROR : jstr := "Error establishing connection".
Definition CONNECTION_CLOSED : jstr := "Connection closed".
Definition INTERRUPTED : jstr := "Generation was interrupted".

Definition BASE_DELAY_MS : Z := 1000.

(** ** message-utils.ts *)

Definition getCurrentVersion (message : Message) : MessageVersion :=
  match m_versions message with v :: _ => v | [] => {| mv_id := "default"; mv_content := [] |} end.

Definition getMessageContent (message : Message) : jstr := mv_content (getCurrentVersion message).

Definition hasMessageContent (message : Message) : bool := non_empty (trim (getMessageContent message)).

Definition updateCurrentVersionContent (message : Message) (content : jstr) : Message :=
  message{{ m_versions := [ (getCurrentVersion message){{ mv_content := content }} ] }}.

Definition empty_message (key : jstr) (from : MessageRole) (versions : list MessageVersion) : Message :=
  {| m_key := key; m_from := from; m_versions := versions; m_createdAt := None; m_startedAt := None;
     m_completedAt := None; m_durationMs := None; m_sources := None; m_reasoning := None;
     m_isReasoningStreaming := None; m_isReasoningComplete := None; m_isContentComplete := None;
     m_status := None; m_errorCode := None; m_pendingAutoResend := None |}.

(** The identifiers of a new message: its key and its version's. *)
Record NewIds := { new_key : jstr; new_version : jstr }.

Definition createMessageVersion (id content : jstr) : MessageVersion := {| mv_id := id; mv_content := content |}.

Definition createUserMessage (ids : NewIds) (content : jstr) (createdAt : Z) : Message :=
  (empty_message (new_key ids) USER [createMessageVersion (new_version ids) content])
    {{ m_createdAt := Some createdAt }}.

Definition createLoadingAssistantMessage (ids : NewIds) (startedAt : Z) : Message :=
  (empty_message (new_key ids) ASSISTANT [createMessageVersion (new_version ids) []])
    {{ m_createdAt := Some startedAt; m_startedAt := Some startedAt; m_isReasoningComplete := Some false;
       m_isContentComplete := Some false; m_isReasoningStreaming := Some false; m_status := Some LOADING }}.

(** [ChatCompletionMessage], whose content is text here. *)
Record ChatCompletionMessage := { cm_role : MessageRole; cm_content : jstr }.

Definition formatMessageForAPI (message : Message) : ChatCompletionMessage :=
  {| cm_role := m_from message; cm_content := getMessageContent message |}.

(** A message object always has a role. *)
Definition isValidMessage (message : Message) : bool :=
  match m_versions message with
  | [] => false
  | _ => negb ((m_from message ==? ASSISTANT) && negb (hasMessageContent message))
  end.

Inductive ContentPart :=
| TextPart (text : option jstr)
| ImagePart (url : jstr).

(** [string | ContentPart[]] *)
Inductive MessageContent :=
| PlainContent (text : jstr)
| PartContent (parts : list ContentPart).

Definition buildMessageContent (text : jstr) (imageUrls : list jstr) : MessageContent :=
  match List.filter (fun url => non_empty (trim url)) imageUrls with
  | [] => PlainContent text
  | validImages => PartContent (TextPart (Some text) :: map (fun url => ImagePart (trim url)) validImages)
  end.

Definition getTextContent (content : MessageContent) : jstr :=
  match content with
  | PlainContent text => text
  | PartContent parts =>
      match List.find (fun part => match part with TextPart _ => true | _ => false end) parts with
      | Some (TextPart text) => default [] text
      | _ => []
      end
  end.

(** ** message-reasoning-utils.ts *)

Record ParsedThinkTags := { tt_visible : jstr; tt_reasoning : jstr; tt_unclosed : bool }.

Definition think_open : jstr := "<think>".
Definition think_close : jstr := "</think>".

(** The loop: [None] when the fuel runs out. The parts are accumulated in order. *)
Fixpoint think_loop (fuel : nat) (content : jstr) (currentPos : nat) (visibleParts reasoningParts : list jstr)
  : option (list jstr * list jstr * bool) :=
  match fuel with
  | O => None
  | S fuel =>
      match index_from content think_open currentPos with
      | None =>
          Some (if (currentPos <? length content)%nat then visibleParts ++ [drop currentPos content] else visibleParts,
                reasoningParts, false)
      | Some openPos =>
          let visibleParts :=
            if (currentPos <? openPos)%nat then visibleParts ++ [slice content currentPos openPos] else visibleParts in
          match index_from content think_close (openPos + 7) with
          | None => Some (visibleParts, reasoningParts ++ [drop (openPos + 7) content], true)
          | Some closePos =>
              think_loop fuel content (closePos + 8) visibleParts
                (reasoningParts ++ [slice content (openPos + 7) closePos])
          end
      end
  end.

Definition parseThinkTags (content : jstr) : ParsedThinkTags :=
  if negb (includes content think_open)
  then {| tt_visible := content; tt_reasoning := []; tt_unclosed := false |}
  else
    let '(visibleParts, reasoningParts, hasUnclosedTag) :=
      default ([], [], false) (think_loop (S (length content)) content 0 [] []) in
    {| tt_visible := trim (concat visibleParts);
       tt_reasoning := trim (join (newline ++ newline) reasoningParts);
       tt_unclosed := hasUnclosedTag |}.

(** ** message-timing-utils.ts *)

Definition or_else {A} (a b : option A) : option A := match a with Some _ => a | None => b end.

Definition completeAssistantTiming (message : Message) (completedAt : Z) : Message :=
  if m_from message !=? ASSISTANT then message
  else
    let startedAt := default completedAt (or_else (m_startedAt message) (m_createdAt message)) in
    message{{ m_startedAt := Some startedAt; m_completedAt := Some completedAt;
              m_durationMs := Some (Z.max 0 (completedAt - startedAt)) }}.

Definition startReasoningTiming (message : Message) (startedAt : Z) : Reasoning :=
  {| rs_content := default [] (option_map rs_content (m_reasoning message));
     rs_duration := default 0%Z (option_map rs_duration (m_reasoning message));
     rs_startedAt := Some (default startedAt (m_reasoning message ≫= rs_startedAt));
     rs_completedAt := m_reasoning message ≫= rs_completedAt;
     rs_durationMs := m_reasoning message ≫= rs_durationMs |}.

(** [Math.ceil(ms / 1000)] *)
Definition ceil_seconds (ms : Z) : Z := - (- ms / 1000).

Definition completeReasoningTiming (message : Message) (completedAt : Z) : Message :=
  match m_reasoning message with
  | Some r =>
      match rs_durationMs r with
      | Some _ => message
      | None =>
          let startedAt := default completedAt (or_else (rs_startedAt r) (m_startedAt message)) in
          let durationMs := Z.max 0 (completedAt - startedAt) in
          message{{ m_reasoning := Some (r{{ rs_startedAt := Some startedAt; rs_completedAt := Some completedAt;
                                             rs_durationMs := Some durationMs;
                                             rs_duration := ceil_seconds durationMs }}) }}
      end
  | None => message
  end.

(** ** message-streaming-utils.ts *)

(** [contentChunk] is [undefined] or empty when there is nothing to add. *)
Definition processStreamingContent (now : Z) (message : Message) (contentChunk : jstr) : Message :=
  let fullContent := getMessageContent message ++ contentChunk in
  match m_reasoning message, includes fullContent think_open with
  | None, false =>
      (updateCurrentVersionContent message fullContent){{ m_isReasoningStreaming := Some false }}
  | _, _ =>
      let parsed := parseThinkTags fullContent in
      let finalReasoning :=
        match tt_reasoning parsed with
        | [] => m_reasoning message
        | reasoning => Some ((startReasoningTiming message now){{ rs_content := reasoning }})
        end in
      (updateCurrentVersionContent message fullContent)
        {{ m_reasoning := finalReasoning; m_isReasoningStreaming := Some (tt_unclosed parsed) }}
  end.

Inductive StreamChunkType := ReasoningChunk | ContentChunk.

#[export] Instance StreamChunkType_eq : EqDecision StreamChunkType.
Proof. solve_decision. Defined.

Definition getAppendableChunk (currentContent chunk : jstr) : jstr :=
  match currentContent with
  | [] => chunk
  | _ => if startsWith chunk currentContent then drop (length currentContent) chunk else chunk
  end.

Definition applyStreamingChunk (now : Z) (message : Message) (type : StreamChunkType) (chunk : jstr) : Message :=
  if m_status message ==? Some ERROR then message
  else
    match type with
    | ReasoningChunk =>
        let reasoning := startReasoningTiming message now in
        let appendableChunk := getAppendableChunk (rs_content reasoning) chunk in
        message{{ m_reasoning := Some (reasoning{{ rs_content := rs_content reasoning ++ appendableChunk }});
                  m_isReasoningStreaming := Some true; m_status := Some STREAMING }}
    | ContentChunk =>
        let appendableChunk := getAppendableChunk (getMessageContent message) chunk in
        let contentMessage := processStreamingContent now message appendableChunk in
        (if flag (m_isReasoningStreaming contentMessage) then contentMessage
         else completeReasoningTiming contentMessage now){{ m_status := Some STREAMING }}
    end.

Definition finalizeMessage (now : Z) (message : Message) (apiReasoningContent : option jstr) : Message :=
  let content := getMessageContent message in
  let parsedThinkTags := if includes content think_open then Some (parseThinkTags content) else None in
  let visibleContent := default content (option_map tt_visible parsedThinkTags) in
  let finalReasoning :=
    str_or (default [] apiReasoningContent)
      (str_or (default [] (option_map rs_content (m_reasoning message)))
         (default [] (option_map tt_reasoning parsedThinkTags))) in
  completeReasoningTiming
    (updateCurrentVersionContent message visibleContent)
      {{ m_reasoning := match finalReasoning with
                        | [] => None
                        | _ => Some ((startReasoningTiming message now){{ rs_content := finalReasoning }})
                        end;
         m_isReasoningStreaming := Some false }}
    now.

Definition completeAssistantMessage (now : Z) (message : Message) : Message :=
  completeAssistantTiming ((finalizeMessage now message None){{ m_status := Some COMPLETE }}) now.

Definition isAssistantMessageFinal (message : Message) : bool :=
  (m_status message ==? Some COMPLETE) || (m_status message ==? Some ERROR).

(** [choice.message], as far as it is read. *)
Record ChoiceMessage := { ch_content : option jstr; ch_reasoning_content : option jstr }.

Definition ChatCompletionChoice : Type := option ChoiceMessage.

(** [response.choices?.[0]] *)
Definition first_choice (choices : option (list ChatCompletionChoice)) : option ChatCompletionChoice :=
  match choices with Some (choice :: _) => Some choice | _ => None end.

Definition hasChatCompletionChoice (choices : option (list ChatCompletionChoice)) : bool :=
  match first_choice choices with Some _ => true | None => false end.

Definition applyChatCompletionChoice (now : Z) (message : Message) (choice : ChatCompletionChoice) : Message :=
  completeAssistantTiming
    ((finalizeMessage now (updateCurrentVersionContent message (default [] (choice ≫= ch_content)))
        (choice ≫= ch_reasoning_content)){{ m_status := Some COMPLETE }}) now.

Definition applyChatCompletionResponse (now : Z) (message : Message) (choices : option (list ChatCompletionChoice))
  : option Message :=
  option_map (applyChatCompletionChoice now message) (first_choice choices).

(** ** message-update-utils.ts *)

(** [updated[updated.length - 1] = updater(last)] *)
Definition updateLastAssistantMessage (messages : list Message) (updater : Message -> Message) : list Message :=
  match last messages with
  | Some m => if m_from m ==? ASSISTANT then removelast messages ++ [updater m] else messages
  | None => messages
  end.

Definition error_message (now : Z) (errorMessage : jstr) (errorCode : option jstr) (title : jstr) (message : Message)
  : Message :=
  completeAssistantTiming
    ((updateCurrentVersionContent message (title ++ ": " ++ errorMessage))
       {{ m_status := Some ERROR; m_isReasoningStreaming := Some false;
          m_errorCode := Some (match errorCode with Some (_ :: _) => errorCode | _ => None end) }}) now.

Definition updateAssistantMessageWithError (now : Z) (messages : list Message) (errorMessage : jstr)
    (errorCode : option jstr) (title : jstr) : list Message :=
  updateLastAssistantMessage messages (error_message now errorMessage errorCode title).

(** ** sanitize-on-load.ts *)

Definition isAssistantMessagePending (message : Message) : bool :=
  (m_status message ==? Some LOADING) || (m_status message ==? Some STREAMING).

Definition isPendingAssistantMessage (message : Message) : bool :=
  (m_from message ==? ASSISTANT) && isAssistantMessagePending message.

Definition sanitized (message : Message) : Message :=
  message{{ m_status := Some LOADING; m_isReasoningStreaming := Some false; m_pendingAutoResend := Some true }}.

(** The loop looks for the last pending message: here on the reversed list. *)
Fixpoint sanitize_last (rev_messages : list Message) : list Message :=
  match rev_messages with
  | [] => []
  | m :: t => if isPendingAssistantMessage m then sanitized m :: t else m :: sanitize_last t
  end.

Definition sanitizeMessagesOnLoad (messages : list Message) : list Message := rev (sanitize_last (rev messages)).

(** ** auto-resend-utils.ts *)

Definition computeBackoffDelay (retryCount : Z) : Z := BASE_DELAY_MS * 2 ^ retryCount.

(** [None] when there is no retry, otherwise its delay. *)
Definition decideAutoResend (isAutoResendMode autoResendEnabled : bool) (retryCount maxRetries : Z) : option Z :=
  if negb isAutoResendMode || negb autoResendEnabled || (maxRetries <=? retryCount)%Z then None
  else Some (computeBackoffDelay retryCount).

Definition hasPendingAutoResend (messages : list Message) : bool :=
  match last messages with
  | Some m => (m_from m ==? ASSISTANT) && flag (m_pendingAutoResend m)
  | None => false
  end.

Definition resetPendingMessageForRetry (id : jstr) (message : Message) : Message :=
  if negb (flag (m_pendingAutoResend message)) then message
  else
    (empty_message (m_key message) (m_from message) [{| mv_id := id; mv_content := [] |}])
      {{ m_createdAt := m_createdAt message; m_isReasoningStreaming := Some false;
         m_isReasoningComplete := Some false; m_isContentComplete := Some false;
         m_status := Some LOADING; m_pendingAutoResend := Some true }}.

(** ** conversation-message-utils.ts *)

Definition appendUserMessagePair (ids_user ids_assistant : NewIds) (now : Z) (messages : list Message)
    (content : jstr) : list Message :=
  messages ++ [createUserMessage ids_user content now; createLoadingAssistantMessage ids_assistant now].

(** [messages.findIndex((message) => message.key === key)] *)
Definition find_key (messages : list Message) (key : jstr) : option (nat * Message) :=
  list_find (fun m => m_key m = key) messages.

Definition createRegeneratedMessages (ids : NewIds) (now : Z) (messages : list Message) (messageKey : jstr)
  : option (list Message) :=
  match find_key messages messageKey with
  | None => None
  | Some (i, m) =>
      if m_from m ==? USER then Some (take (i + 1) messages ++ [createLoadingAssistantMessage ids now])
      else Some (take i messages ++ [createLoadingAssistantMessage ids now])
  end.

Definition removeMessageByKey (messages : list Message) (messageKey : jstr) : list Message :=
  List.filter (fun m => m_key m !=? messageKey) messages.

Definition getPreviousUserMessage (messages : list Message) (beforeIndex : nat) : option Message :=
  last (List.filter (fun m => m_from m ==? USER) (take beforeIndex messages)).

Definition edited (content : jstr) (createdAt : option Z) (message : Message) : Message :=
  (updateCurrentVersionContent message content){{ m_createdAt := createdAt }}.

(** The messages and whether to send them. *)
Definition applyMessageEdit (ids : NewIds) (now : Z) (messages : list Message) (messageKey content : jstr)
    (shouldSubmit : bool) : option (list Message * bool) :=
  match find_key messages messageKey with
  | None => None
  | Some (i, m) =>
      let updatedMessages :=
        map (fun m => if m_key m ==? messageKey
                      then edited content (if shouldSubmit then Some now else m_createdAt m) m else m) messages in
      if negb shouldSubmit || (m_from m !=? USER) then Some (updatedMessages, false)
      else Some (take (i + 1) updatedMessages ++ [createLoadingAssistantMessage ids now], true)
  end.

Definition getEditingMessageContent (messages : list Message) (editingKey : option jstr) : jstr :=
  match editingKey with
  | None | Some [] => []
  | Some key => default [] (option_map (fun '(_, m) => getMessageContent m) (find_key messages key))
  end.

(** ** message-content-utils.ts, message-error-utils.ts, message-editor-utils.ts,
    message-action-utils.ts: what the view shows of a message *)

Record MessageContentState := {
  cs_displayContent : jstr;
  cs_hasSources : bool;
  cs_isAssistant : bool;
  cs_showLoader : bool;
  cs_showMessageContent : bool;
  cs_sources : list (jstr * jstr);
  cs_reasoningContent : option jstr  (* [hasReasoning] is that it is present *)
}.

Definition shouldShowMessageLoader (message : Message) (isAssistant : bool) (versionContent : jstr) : bool :=
  isAssistant && negb (flag (m_isReasoningStreaming message))
  && ((m_status message ==? Some LOADING)
      || (m_status message ==? Some STREAMING) && negb (non_empty versionContent)).

Definition shouldShowMessageContent (message : Message) (versionContent : jstr) : bool :=
  ((m_from message ==? USER) || negb (flag (m_isReasoningStreaming message))) && (0 <? length versionContent)%nat.

Definition getDisplayContent (message : Message) (versionContent : jstr) : jstr :=
  if m_from message !=? ASSISTANT then versionContent
  else if negb (includes versionContent think_open) then versionContent
  else tt_visible (parseThinkTags versionContent).

Definition getMessageContentState (message : Message) (versionContent : jstr) : MessageContentState :=
  let isAssistant := m_from message ==? ASSISTANT in
  let sources := default [] (m_sources message) in
  let reasoningContent := if isAssistant then option_map rs_content (m_reasoning message) else None in
  {| cs_displayContent := getDisplayContent message versionContent;
     cs_hasSources := (0 <? length sources)%nat;
     cs_isAssistant := isAssistant;
     cs_showLoader := shouldShowMessageLoader message isAssistant versionContent;
     cs_showMessageContent := shouldShowMessageContent message versionContent;
     cs_sources := sources;
     cs_reasoningContent := match reasoningContent with Some (_ :: _) => reasoningContent | _ => None end |}.

Definition MODEL_PRICE_ERROR_CODE : jstr := "model_price_error".
Definition FALLBACK_ERROR_CONTENT : jstr := "An unknown error occurred".

Inductive ErrorKind := GenericError | ModelPriceError.

Record MessageErrorState := { es_content : jstr; es_kind : ErrorKind; es_showSettingsLink : bool }.

Definition isErrorMessage (message : Message) : bool := m_status message ==? Some ERROR.

Definition getMessageErrorState (message : Message) (isAdmin : bool) : option MessageErrorState :=
  if negb (isErrorMessage message) then None
  else
    let isModelPriceError := m_errorCode message ==? Some (Some MODEL_PRICE_ERROR_CODE) in
    Some {| es_content := str_or (getMessageContent message) FALLBACK_ERROR_CONTENT;
            es_kind := if isModelPriceError then ModelPriceError else GenericError;
            es_showSettingsLink := isModelPriceError && isAdmin |}.

Record MessageEditorState := { ed_canSave : bool; ed_hasChanged : bool; ed_showSaveAndSubmit : bool }.

Definition getMessageEditorState (message : Message) (editText originalText : jstr) : MessageEditorState :=
  let hasText := (0 <? length (trim editText))%nat in
  let hasChanged := editText !=? originalText in
  {| ed_canSave := hasText && hasChanged; ed_hasChanged := hasChanged;
     ed_showSaveAndSubmit := m_from message ==? USER |}.

Record MessageActionState := {
  as_content : jstr; as_hasContent : bool; as_isAssistant : bool; as_isLoading : bool; as_isUser : bool
}.

Definition getMessageActionState (message : Message) : MessageActionState :=
  {| as_content := getMessageContent message; as_hasContent := hasMessageContent message;
     as_isAssistant := m_from message ==? ASSISTANT; as_isUser := m_from message ==? USER;
     as_isLoading := (m_status message ==? Some LOADING) || (m_status message ==? Some STREAMING) |}.

Record ChatMessageRenderState := { rd_alwaysShowActions : bool; rd_content : jstr; rd_isEditing : bool }.

Definition getChatMessageRenderState (messages : list Message) (message : Message) (messageIndex : nat)
    (editingKey : option jstr) : ChatMessageRenderState :=
  {| rd_alwaysShowActions := (messageIndex + 1 =? length messages)%nat && (m_from message ==? ASSISTANT);
     rd_content := getMessageContent message;
     rd_isEditing := editingKey ==? Some (m_key message) |}.

(** ** payload-builder.ts *)

(** [pc_seed] is [None] for [null]; the retry limit is a whole number. *)
Record PlaygroundConfig := {
  pc_model : jstr;
  pc_group : jstr;
  pc_temperature : num;
  pc_top_p : num;
  pc_max_tokens : num;
  pc_frequency_penalty : num;
  pc_presence_penalty : num;
  pc_seed : option num;
  pc_stream : bool;
  pc_autoResendEnabled : bool;
  pc_autoResendMaxRetries : Z
}.

Record ParameterEnabled := {
  pe_temperature : bool;
  pe_top_p : bool;
  pe_max_tokens : bool;
  pe_frequency_penalty : bool;
  pe_presence_penalty : bool;
  pe_seed : bool
}.

Record ChatCompletionRequest := {
  cr_model : jstr;
  cr_group : jstr;
  cr_messages : list ChatCompletionMessage;
  cr_stream : bool;
  cr_temperature : option num;
  cr_top_p : option num;
  cr_max_tokens : option num;
  cr_frequency_penalty : option num;
  cr_presence_penalty : option num;
  cr_seed : option num
}.

Definition buildChatCompletionPayload (messages : list Message) (config : PlaygroundConfig)
    (parameterEnabled : ParameterEnabled) : ChatCompletionRequest :=
  let when (b : bool) (v : num) := if b then Some v else None in
  {| cr_model := pc_model config;
     cr_group := pc_group config;
     cr_messages := map formatMessageForAPI (List.filter isValidMessage messages);
     cr_stream := pc_stream config;
     cr_temperature := when (pe_temperature parameterEnabled) (pc_temperature config);
     cr_top_p := when (pe_top_p parameterEnabled) (pc_top_p config);
     cr_max_tokens := when (pe_max_tokens parameterEnabled) (pc_max_tokens config);
     cr_frequency_penalty := when (pe_frequency_penalty parameterEnabled) (pc_frequency_penalty config);
     cr_presence_penalty := when (pe_presence_penalty parameterEnabled) (pc_presence_penalty config);
     cr_seed := if pe_seed parameterEnabled then pc_seed config else None |}.

(** ** stream-utils.ts and request-error-utils.ts *)

Record RequestErrorDetails := { er_code : option jstr; er_message : jstr }.

(** A property that is a non-empty string, or else. *)
Definition string_or (v : jsval) (d : jstr) : jstr := match v with JStr (c :: s) => c :: s | _ => d end.
Definition string_opt (v : jsval) : option jstr := match v with JStr (c :: s) => Some (c :: s) | _ => None end.

(** The code and message of an error payload are strings, or falsy. *)
Definition parseStreamErrorDetails (data : jstr) : RequestErrorDetails :=
  let fallbackMessage := str_or data API_REQUEST_ERROR in
  match data with
  | [] => {| er_code := None; er_message := fallbackMessage |}
  | _ =>
      match (let* parsed := json_parse data in
             let* error := js_get_opt parsed "error" in
             if negb (truthy error) then Ok {| er_code := None; er_message := fallbackMessage |}
             else
               let* code := js_get error "code" in
               let* message := js_get error "message" in
               Ok {| er_code := string_opt code; er_message := string_or message fallbackMessage |}) with
      | Ok details => details
      | Throw _ => {| er_code := None; er_message := fallbackMessage |}
      end
  end.

(** [v?.[0]] *)
Definition js_first (v : jsval) : jsval :=
  match v with
  | JArr (x :: _) => x
  | JStr (c :: _) => JStr [c]
  | JObj o => prop o "0"
  | _ => JUndef
  end.

Definition parseStreamMessageUpdates (data : jstr) : res (list (StreamChunkType * jsval)) :=
  let* chunk := json_parse data in
  let* choices := js_get chunk "choices" in
  let* delta := js_get_opt (js_first choices) "delta" in
  if negb (truthy delta) then Ok []
  else
    let* reasoning := js_get delta "reasoning_content" in
    let* content := js_get delta "content" in
    Ok ((if truthy reasoning then [(ReasoningChunk, reasoning)] else [])
          ++ (if truthy content then [(ContentChunk, content)] else [])).

Definition STREAM_DONE_MESSAGE : jstr := "[DONE]".
Definition STREAM_CLOSED_READY_STATE : Z := 2.

Definition isStreamDoneMessage (data : jstr) : bool := data ==? STREAM_DONE_MESSAGE.

Definition isStreamClosedReadyState (readyState : option Z) : bool := readyState ==? Some STREAM_CLOSED_READY_STATE.

Definition getStreamReadyStateError (eventReadyState status : option Z) : option jstr :=
  match eventReadyState, status with
  | Some readyState, Some status =>
      if (STREAM_CLOSED_READY_STATE <=? readyState)%Z && (status !=? 200%Z)
      then Some ("HTTP " ++ Z_to_jstr status ++ ": " ++ CONNECTION_CLOSED) else None
  | _, _ => None
  end.

(** What is read of a rejected request: [error?.response?.data?.error?.code],
    [error?.response?.data?.message] and [error?.message]. *)
Record RequestErrorLike := { re_code : option jstr; re_data_message : option jstr; re_message : option jstr }.

Definition parseRequestErrorDetails (error : RequestErrorLike) : RequestErrorDetails :=
  {| er_code := match re_code error with Some (_ :: _) => re_code error | _ => None end;
     er_message := str_or (default [] (re_data_message error))
                     (str_or (default [] (re_message error)) API_REQUEST_ERROR) |}.
