(* ===== verification/ThinkTags.v ===== *)
(** * What the parser of think tags reads (parseThinkTags of
    message-reasoning-utils.ts)

    Every text is written in exactly the way the parser takes it apart: closed segments
    of visible text and reasoning, then a tail whose last tag may be open. *)
From S2P Require Import Prelude JsString Messages.

(** The end of a text: visible text, possibly followed by an open tag and its
    reasoning. *)
Inductive Tail :=
| TailText (visible : jstr)
| TailOpen (visible reasoning : jstr).

(** Closed segments, each visible text and the reasoning that follows it. *)
Record Tagged := { tg_segments : list (jstr * jstr); tg_tail : Tail }.

Definition segment_text (s : jstr * jstr) : jstr := fst s ++ think_open ++ snd s ++ think_close.

Definition tail_text (t : Tail) : jstr :=
  match t with TailText v => v | TailOpen v r => v ++ think_open ++ r end.

Definition tagged_text (d : Tagged) : jstr := concat (map segment_text (tg_segments d)) ++ tail_text (tg_tail d).

(** Visible text has no opening tag, reasoning no closing tag. *)
Definition visible_ok (v : jstr) : bool := negb (includes v think_open).
Definition reasoning_ok (r : jstr) : bool := negb (includes r think_close).

Definition tagged_ok (d : Tagged) : bool :=
  forallb (fun s => visible_ok (fst s) && reasoning_ok (snd s)) (tg_segments d)
  && match tg_tail d with TailText v => visible_ok v | TailOpen v r => visible_ok v && reasoning_ok r end.

Definition tail_visible (t : Tail) : jstr := match t with TailText v | TailOpen v _ => v end.
Definition tail_reasoning (t : Tail) : list jstr := match t with TailText _ => [] | TailOpen _ r => [r] end.
Definition tail_open (t : Tail) : bool := match t with TailText _ => false | TailOpen _ _ => true end.

(** What is shown: a text without tags as it is; otherwise the visible texts in a row
    and the reasonings as paragraphs, both trimmed. *)
Definition tagged_view (d : Tagged) : ParsedThinkTags :=
  match tg_segments d, tg_tail d with
  | [], TailText v => {| tt_visible := v; tt_reasoning := []; tt_unclosed := false |}
  | ss, tail =>
      {| tt_visible := trim (concat (map fst ss) ++ tail_visible tail);
         tt_reasoning := trim (join (newline ++ newline) (map snd ss ++ tail_reasoning tail));
         tt_unclosed := tail_open tail |}
  end.

(** ** Lemmas *)

Lemma includes_None s p : negb (includes s p) = true <-> index_of p s = None.
Proof. rewrite includes_index. by destruct (index_of p s). Qed.

Lemma find_open v r : visible_ok v = true -> index_of think_open (v ++ think_open ++ r) = Some (length v).
Proof.
  intros H. apply (index_of_app 60 "think>"); [apply (bool_decide_eq_true_1 _); by vm_compute|]. by apply includes_None in H.
Qed.

Lemma find_close v r : reasoning_ok v = true -> index_of think_close (v ++ think_close ++ r) = Some (length v).
Proof.
  intros H. apply (index_of_app 60 "/think>"); [apply (bool_decide_eq_true_1 _); by vm_compute|]. by apply includes_None in H.
Qed.

Lemma index_from_app s pre p : index_from (pre ++ s) p (length pre) = option_map (Nat.add (length pre)) (index_of p s).
Proof. unfold index_from. by rewrite drop_app_length. Qed.

Lemma slice_app (a b c : jstr) n m : n = length a -> m = (length a + length b)%nat -> slice (a ++ b ++ c) n m = b.
Proof.
  intros -> ->. unfold slice. rewrite drop_app_length.
  replace (length a + length b - length a)%nat with (length b) by lia. by rewrite take_app_length.
Qed.

(** A part is pushed when it is not empty. *)
Lemma concat_push (vp : list jstr) (b : bool) v : (b = false -> v = []) ->
  concat (if b then vp ++ [v] else vp) = concat vp ++ v.
Proof.
  intros H. destruct b; [rewrite concat_app; cbn; by rewrite app_nil_r|]. by rewrite H, app_nil_r.
Qed.

Lemma think_loop_tail fuel pre tail vp rp :
  match tail with TailText v => visible_ok v | TailOpen v r => visible_ok v && reasoning_ok r end = true ->
  exists vp', think_loop (S fuel) (pre ++ tail_text tail) (length pre) vp rp
              = Some (vp', rp ++ tail_reasoning tail, tail_open tail)
    /\ concat vp' = concat vp ++ tail_visible tail.
Proof.
  destruct tail as [v|v r]; cbn [think_loop tail_text tail_reasoning tail_open tail_visible]; rewrite index_from_app.
  - intros H. apply includes_None in H. rewrite H. cbn [option_map]. rewrite app_nil_r. eexists. split; [done|].
    rewrite drop_app_length. apply concat_push. rewrite Nat.ltb_ge, length_app. destruct v; cbn; [done|lia].
  - rewrite andb_true_iff. intros [Hv Hr]. rewrite find_open by done. cbn [option_map].
    assert (pre ++ v ++ think_open ++ r = (pre ++ v ++ think_open) ++ r) as -> by (by rewrite <- !app_assoc).
    assert (length pre + length v + 7 = length (pre ++ v ++ think_open))%nat as -> by (rewrite !length_app; cbn; lia).
    rewrite index_from_app. apply includes_None in Hr. rewrite Hr. cbn [option_map]. eexists. split.
    + by rewrite drop_app_length.
    + rewrite <- !app_assoc. rewrite slice_app by lia. apply concat_push. rewrite Nat.ltb_ge. destruct v; cbn; [done|lia].
Qed.

Lemma segment_app v r rest : segment_text (v, r) ++ rest = v ++ think_open ++ r ++ think_close ++ rest.
Proof. unfold segment_text. cbn [fst snd]. by rewrite <- !app_assoc. Qed.

Lemma think_loop_spec ss tail : forall fuel pre vp rp, (length ss < fuel)%nat ->
  tagged_ok {| tg_segments := ss; tg_tail := tail |} = true ->
  exists vp', think_loop fuel (pre ++ concat (map segment_text ss) ++ tail_text tail) (length pre) vp rp
              = Some (vp', rp ++ map snd ss ++ tail_reasoning tail, tail_open tail)
    /\ concat vp' = concat vp ++ concat (map fst ss) ++ tail_visible tail.
Proof.
  unfold tagged_ok. cbn [tg_segments tg_tail].
  induction ss as [|[v r] ss IH]; intros [|fuel] pre vp rp Hf Hok; cbn [length] in Hf; try lia.
  - cbn [map concat app]. by apply think_loop_tail.
  - cbn [forallb map concat fst snd] in Hok |- *. rewrite !andb_true_iff in Hok. destruct Hok as [[[Hv Hr] Hss] Ht].
    cbn [think_loop]. rewrite <- !app_assoc. set (rest := concat (map segment_text ss) ++ tail_text tail).
    rewrite segment_app. rewrite index_from_app, find_open by done. cbn [option_map].
    assert (forall x, pre ++ v ++ think_open ++ x = (pre ++ v ++ think_open) ++ x) as E by (intros; by rewrite <- !app_assoc).
    assert (length pre + length v + 7 = length (pre ++ v ++ think_open))%nat as L by (rewrite !length_app; cbn; lia).
    rewrite L.
    assert (index_from (pre ++ v ++ think_open ++ r ++ think_close ++ rest) think_close (length (pre ++ v ++ think_open))
            = Some (length (pre ++ v ++ think_open) + length r)%nat) as ->.
    { rewrite E, index_from_app, find_close by done. done. }
    assert (pre ++ v ++ think_open ++ r ++ think_close ++ rest = (pre ++ v ++ think_open ++ r ++ think_close) ++ rest)
      as E2 by (by rewrite <- !app_assoc).
    assert (length (pre ++ v ++ think_open) + length r + 8 = length (pre ++ v ++ think_open ++ r ++ think_close))%nat
      as -> by (rewrite !length_app; cbn; lia).
    assert (slice (pre ++ v ++ think_open ++ r ++ think_close ++ rest) (length (pre ++ v ++ think_open))
              (length (pre ++ v ++ think_open) + length r) = r) as ->.
    { rewrite E. by apply slice_app. }
    rewrite slice_app by (rewrite ?length_app; cbn; lia).
    match goal with |- context [think_loop fuel _ _ ?vp ?rp] => set (vp1 := vp) end.
    destruct (IH fuel (pre ++ v ++ think_open ++ r ++ think_close) vp1 (rp ++ [r])) as (vp' & H & Hc);
      [lia|by rewrite andb_true_iff|].
    exists vp'. split; [rewrite E2; etransitivity; [exact H|by rewrite <- !app_assoc]|].
    rewrite Hc. unfold vp1. rewrite concat_push; [by rewrite <- !app_assoc|].
    rewrite Nat.ltb_ge. destruct v; cbn; [done|lia].
Qed.

(** The loop ends within the fuel it is given. *)
Lemma segments_bound (ss : list (jstr * jstr)) (x : jstr) : (length ss <= length (concat (map segment_text ss) ++ x))%nat.
Proof.
  induction ss as [|[v r] ss IH]; [cbn; lia|]. cbn [map concat length]. unfold segment_text at 1.
  rewrite !length_app in *. cbn. lia.
Qed.

Lemma tagged_includes d : tagged_ok d = true ->
  includes (tagged_text d) think_open
  = negb (match tg_segments d, tg_tail d with [], TailText _ => true | _, _ => false end).
Proof.
  destruct d as [ss tail]. unfold tagged_ok, tagged_text. cbn [tg_segments tg_tail]. intros H.
  rewrite andb_true_iff in H. destruct H as [Hs Ht]. rewrite includes_index.
  destruct ss as [|[v r] ss].
  - cbn [map concat app]. destruct tail as [v|v r]; cbn [tail_text].
    + apply includes_None in Ht. by rewrite Ht.
    + apply andb_true_iff in Ht as [Hv _]. by rewrite find_open.
  - cbn [map concat forallb fst snd] in *. rewrite !andb_true_iff in Hs. unfold segment_text at 1. cbn [fst snd].
    rewrite <- !app_assoc, find_open by apply Hs. done.
Qed.

Lemma parse_tagged d : tagged_ok d = true -> parseThinkTags (tagged_text d) = tagged_view d.
Proof.
  intros H. unfold parseThinkTags. rewrite tagged_includes, negb_involutive by done.
  destruct (think_loop_spec (tg_segments d) (tg_tail d) (S (length (tagged_text d))) [] [] []) as (vp & Hl & Hc);
    [unfold tagged_text; pose proof (segments_bound (tg_segments d) (tail_text (tg_tail d))); lia|by destruct d|].
  cbn [app length] in Hl. change (concat (map segment_text (tg_segments d)) ++ tail_text (tg_tail d)) with (tagged_text d) in Hl.
  rewrite Hl. cbn [default from_option id]. cbn [concat app] in Hc. rewrite Hc. unfold tagged_view.
  destruct d as [[|sg ss] [v|v r]]; done.
Qed.

(** Every text can be written so. *)
Lemma tagged_exists content : exists d, tagged_ok d = true /\ content = tagged_text d.
Proof.
  remember (length content) as n eqn:En. revert content En.
  induction (lt_wf n) as [n _ IH]. intros content ->.
  destruct (index_of think_open content) as [i|] eqn:Ei.
  2: { exists {| tg_segments := []; tg_tail := TailText content |}. split; [|done]. cbn. by apply includes_None. }
  pose proof (index_of_Some _ _ _ Ei) as Ec. set (v := take i content) in *. set (rest := drop _ content) in Ec.
  assert (visible_ok v = true) as Hv by (apply includes_None; by apply index_of_take).
  destruct (index_of think_close rest) as [j|] eqn:Ej.
  2: { exists {| tg_segments := []; tg_tail := TailOpen v rest |}. split; [|done]. cbn. rewrite Hv. by apply includes_None. }
  pose proof (index_of_Some _ _ _ Ej) as Er. set (r := take j rest) in *. set (rest2 := drop _ rest) in Er.
  destruct (IH (length rest2)) with (content := rest2) as ([ss tail] & Hok & E2); [|done|].
  { rewrite Ec, Er, !length_app. cbn. lia. }
  exists {| tg_segments := (v, r) :: ss; tg_tail := tail |}. split.
  - unfold tagged_ok in *. cbn [tg_segments tg_tail forallb fst snd] in *. rewrite Hv.
    assert (reasoning_ok r = true) as -> by (apply includes_None; by apply index_of_take). done.
  - unfold tagged_text in *. cbn [tg_segments tg_tail map concat] in *. rewrite <- app_assoc, segment_app. by rewrite <- E2, <- Er, <- Ec.
Qed.

(** C39: every text is closed segments and a tail, and the parser shows exactly
    that: the visible texts in a row, the reasonings as paragraphs, whether the last tag is
    open. Its loop ends on every text. *)
Theorem think_tags_spec content :
  (exists d, tagged_ok d = true /\ content = tagged_text d /\ parseThinkTags content = tagged_view d)
  /\ think_loop (S (length content)) content 0 [] [] <> None.
Proof.
  destruct (tagged_exists content) as (d & Hok & ->). split.
  - exists d. split_and!; [done|done|]. by apply parse_tagged.
  - destruct (think_loop_spec (tg_segments d) (tg_tail d) (S (length (tagged_text d))) [] [] []) as (vp & Hl & _);
      [unfold tagged_text; pose proof (segments_bound (tg_segments d) (tail_text (tg_tail d))); lia|by destruct d|].
    intros E. assert (Some (vp, [] ++ map snd (tg_segments d) ++ tail_reasoning (tg_tail d), tail_open (tg_tail d)) = None)
      as [=]. by rewrite <- Hl.
Qed.
