(* ===== verification/ChatHandler.v ===== *)
(** * The playground's chat (features/playground/hooks/use-chat-handler.ts,
    use-stream-request.ts, use-playground-conversation.ts and the effect of index.tsx)

    The hooks as one state machine. The state holds the refs, the timers that are
    running and the React state; an event is a callback of the page, of a timer, of an
    event source (the package sse.js) or of a request. Callbacks run to completion; the
    events an event source dispatches while it is being closed are taken to come right
    after the callback that closes it. *)
From S2P Require Import RecordUpdate Prelude JsString JsNumber JsValue Messages.

(** ** State *)

(** What leaves the hooks: requests and notifications. *)
Inductive Effect :=
| SseRequest (source : nat) (payload : ChatCompletionRequest)
| HttpRequest (request : nat) (payload : ChatCompletionRequest)
| ToastRetrying (n max : Z)
| ToastError (message : jstr)
| RetryTimer (timer : nat) (delayMs : Z).

Record ChatState := {
  st_messages : list Message;      (* the messages, with every queued update applied *)
  st_latest : list Message;        (* [latestMessagesRef], the messages of the last render *)
  st_isRequesting : bool;
  st_editing : option jstr;        (* [editingMessageKey] *)
  st_hasTriggered : bool;          (* [hasTriggeredAutoResendRef] *)
  st_sseSource : option nat;
  st_isStreamComplete : bool;
  st_isStreaming : bool;
  st_nextSource : nat;             (* event sources are numbered as they are created *)
  st_closed : list nat;            (* the sources on which [close] was called *)
  st_content : jstr;               (* [pendingStreamChunksRef] *)
  st_reasoning : jstr;
  st_flushTimer : bool;            (* [streamFlushTimerRef], its timer running *)
  st_autoTimer : option nat;       (* [autoResendTimerRef] *)
  st_timers : list nat;            (* the auto-resend timers running *)
  st_nextTimer : nat;
  st_retryCount : Z;
  st_isAutoResendMode : bool;
  st_requestId : nat;
  st_abortController : option nat; (* the request the controller belongs to *)
  st_aborted : list nat;
  st_inFlight : list nat;          (* requests not answered yet *)
  st_effects : list Effect         (* all effects so far *)
}.

Definition ChatState_eta (s : ChatState) : ChatState :=
  {| st_messages := st_messages s; st_latest := st_latest s; st_isRequesting := st_isRequesting s; st_editing
     := st_editing s; st_hasTriggered := st_hasTriggered s; st_sseSource := st_sseSource s;
     st_isStreamComplete := st_isStreamComplete s; st_isStreaming := st_isStreaming s; st_nextSource :=
     st_nextSource s; st_closed := st_closed s; st_content := st_content s; st_reasoning := st_reasoning s;
     st_flushTimer := st_flushTimer s; st_autoTimer := st_autoTimer s; st_timers := st_timers s; st_nextTimer
     := st_nextTimer s; st_retryCount := st_retryCount s; st_isAutoResendMode := st_isAutoResendMode s;
     st_requestId := st_requestId s; st_abortController := st_abortController s; st_aborted := st_aborted s;
     st_inFlight := st_inFlight s; st_effects := st_effects s |}.

#[export] Hint Extern 0 (@Setter ChatState ?E ?getter) =>
  projections_setter ChatState_eta ChatState E getter : typeclass_instances.

(** The hooks mounted on loaded messages. *)
Definition mounted (messages : list Message) : ChatState :=
  {| st_messages := messages; st_latest := messages; st_isRequesting := false; st_editing := None;
     st_hasTriggered := false; st_sseSource := None; st_isStreamComplete := false; st_isStreaming := false;
     st_nextSource := 0; st_closed := []; st_content := []; st_reasoning := []; st_flushTimer := false;
     st_autoTimer := None; st_timers := []; st_nextTimer := 0; st_retryCount := -1;
     st_isAutoResendMode := false; st_requestId := 0; st_abortController := None; st_aborted := [];
     st_inFlight := []; st_effects := [] |}.

Definition isGenerating (s : ChatState) : bool := st_isStreaming s || st_isRequesting s.

Definition effect (e : Effect) (s : ChatState) : ChatState := s{{ st_effects := st_effects s ++ [e] }}.

(** [onMessageUpdate] *)
Definition update_messages (updater : list Message -> list Message) (s : ChatState) : ChatState :=
  s{{ st_messages := updater (st_messages s) }}.

Definition remove (x : nat) (l : list nat) : list nat := List.filter (fun y => y !=? x) l.

Section Chat.
(** The configuration, the translations, and whether opening a source succeeds:
    [source.stream()] of sse.js may throw. *)
Context (config : PlaygroundConfig) (parameterEnabled : ParameterEnabled) (t : jstr -> jstr) (sse_opens : nat -> bool).

(** ** use-chat-handler.ts: streamed text *)

Definition mergePendingStreamChunk (currentChunk : jstr) (nextChunk : jsval) : res jstr :=
  match currentChunk with
  | [] => Ok (js_to_string nextChunk)
  | _ =>
      match nextChunk with
      | JStr next => Ok (if startsWith next currentChunk then next else currentChunk ++ next)
      | _ => type_error
      end
  end.

Definition apply_chunks (now : Z) (reasoning content : jstr) (message : Message) : Message :=
  let message := if non_empty reasoning then applyStreamingChunk now message ReasoningChunk reasoning else message in
  if non_empty content then applyStreamingChunk now message ContentChunk content else message.

Definition flushStreamUpdates (now : Z) (s : ChatState) : ChatState :=
  let s := s{{ st_flushTimer := false }} in
  let reasoning := st_reasoning s in
  let content := st_content s in
  if negb (non_empty reasoning) && negb (non_empty content) then s
  else
    update_messages (fun prev => updateLastAssistantMessage prev (apply_chunks now reasoning content))
      (s{{ st_content := []; st_reasoning := [] }}).

Definition scheduleStreamFlush (s : ChatState) : ChatState := s{{ st_flushTimer := true }}.

Definition handleStreamUpdate (type : StreamChunkType) (chunk : jsval) (s : ChatState) : res ChatState :=
  match type with
  | ReasoningChunk =>
      let* merged := mergePendingStreamChunk (st_reasoning s) chunk in
      Ok (scheduleStreamFlush (s{{ st_reasoning := merged }}))
  | ContentChunk =>
      let* merged := mergePendingStreamChunk (st_content s) chunk in
      Ok (scheduleStreamFlush (s{{ st_content := merged }}))
  end.

(** ** Auto-resend *)

Definition clearAutoResendTimer (s : ChatState) : ChatState :=
  match st_autoTimer s with
  | Some timer => s{{ st_timers := remove timer (st_timers s); st_autoTimer := None }}
  | None => s
  end.

Definition exitAutoResendMode (s : ChatState) : ChatState :=
  (clearAutoResendTimer s){{ st_isAutoResendMode := false; st_retryCount := (-1)%Z }}.

Definition KNOWN_ERROR_MESSAGES : list jstr :=
  [API_REQUEST_ERROR; NETWORK_ERROR; PARSE_ERROR; STREAM_START_ERROR; CONNECTION_CLOSED; INTERRUPTED].

Definition getDisplayError (error : jstr) : jstr :=
  if bool_decide (error ∈ KNOWN_ERROR_MESSAGES) then t error
  else if endsWith error (": " ++ CONNECTION_CLOSED)
  then take (length error - length CONNECTION_CLOSED) error ++ t CONNECTION_CLOSED
  else error.

(** ** The end of a request *)

Definition completed (now : Z) (message : Message) : Message :=
  (completeAssistantMessage now message){{ m_pendingAutoResend := None }}.

Definition handleStreamComplete (now : Z) (s : ChatState) : ChatState :=
  let s := exitAutoResendMode (flushStreamUpdates now s) in
  let s := s{{ st_isRequesting := false }} in
  update_messages
    (fun prev => updateLastAssistantMessage prev (fun message =>
       if isAssistantMessageFinal message && negb (flag (m_pendingAutoResend message)) then message
       else completed now message)) s.

Definition arm_retry (delayMs : Z) (s : ChatState) : ChatState :=
  let nextRetryCount := (st_retryCount s + 1)%Z in
  let s := effect (ToastRetrying nextRetryCount (pc_autoResendMaxRetries config)) (s{{ st_retryCount := nextRetryCount }}) in
  let timer := st_nextTimer s in
  effect (RetryTimer timer delayMs)
    (s{{ st_nextTimer := S timer; st_timers := st_timers s ++ [timer]; st_autoTimer := Some timer }}).

Definition abandon (now : Z) (error : jstr) (errorCode : option jstr) (s : ChatState) : ChatState :=
  let s := (exitAutoResendMode s){{ st_isRequesting := false }} in
  let displayError := getDisplayError error in
  update_messages
    (fun prev => updateAssistantMessageWithError now prev displayError errorCode (t API_REQUEST_ERROR))
    (effect (ToastError displayError) s).

Definition handleStreamError (now : Z) (error : jstr) (errorCode : option jstr) (s : ChatState) : ChatState :=
  let s := flushStreamUpdates now s in
  match decideAutoResend (st_isAutoResendMode s) (pc_autoResendEnabled config) (st_retryCount s)
          (pc_autoResendMaxRetries config) with
  | Some delayMs => arm_retry delayMs s
  | None => abandon now error errorCode s
  end.

(** ** use-stream-request.ts *)

Definition close_source (source : nat) (s : ChatState) : ChatState :=
  s{{ st_closed := source :: st_closed s }}.

Definition closeActiveStream (source : option nat) (s : ChatState) : ChatState :=
  let s' := match or_else source (st_sseSource s) with Some src => close_source src s | None => s end in
  match source with
  | None => s'{{ st_sseSource := None; st_isStreaming := false }}
  | Some src => if st_sseSource s' ==? Some src then s'{{ st_sseSource := None; st_isStreaming := false }} else s'
  end.

Definition handleError (now : Z) (source : nat) (errorMessage : jstr) (errorCode : option jstr) (s : ChatState)
  : ChatState :=
  if st_isStreamComplete s then s
  else closeActiveStream (Some source) (handleStreamError now errorMessage errorCode s).

(** The loop over the updates; the error of an update leaves the earlier ones
    applied. *)
Fixpoint apply_updates (updates : list (StreamChunkType * jsval)) (s : ChatState) : ChatState * bool :=
  match updates with
  | [] => (s, true)
  | (type, chunk) :: rest =>
      match handleStreamUpdate type chunk s with
      | Ok s' => apply_updates rest s'
      | Throw _ => (s, false)
      end
  end.

Definition on_message (now : Z) (source : nat) (data : jstr) (s : ChatState) : ChatState :=
  if isStreamDoneMessage data then
    handleStreamComplete now (closeActiveStream (Some source) (s{{ st_isStreamComplete := true }}))
  else
    let '(s', parsed) :=
      match parseStreamMessageUpdates data with
      | Ok updates => apply_updates updates s
      | Throw _ => (s, false)
      end in
    if parsed then s' else handleError now source PARSE_ERROR None s'.

(** [readyState] is the source's when the event comes. *)
Definition on_error (now : Z) (source : nat) (data : jstr) (readyState : Z) (s : ChatState) : ChatState :=
  if isStreamClosedReadyState (Some readyState) then s
  else
    let details := parseStreamErrorDetails data in
    handleError now source (er_message details) (er_code details) s.

Definition on_readystatechange (now : Z) (source : nat) (readyState status : option Z) (s : ChatState) : ChatState :=
  match getStreamReadyStateError readyState status with
  | Some errorMessage => handleError now source errorMessage None s
  | None => s
  end.

Definition sendStreamRequest (now : Z) (payload : ChatCompletionRequest) (s : ChatState) : ChatState :=
  let s := match st_sseSource s with Some src => close_source src s | None => s end in
  let source := st_nextSource s in
  let s := effect (SseRequest source payload)
             (s{{ st_nextSource := S source; st_sseSource := Some source; st_isStreamComplete := false;
                  st_isStreaming := true }}) in
  if sse_opens source then s
  else closeActiveStream (Some source) (handleStreamError now STREAM_START_ERROR None s).

(** ** use-chat-handler.ts: requests *)

Definition sendStreamingChat (now : Z) (messages : list Message) (s : ChatState) : ChatState :=
  sendStreamRequest now (buildChatCompletionPayload messages config parameterEnabled) (s{{ st_isRequesting := true }}).

(** Up to the [await]. *)
Definition sendNonStreamingChat (messages : list Message) (s : ChatState) : ChatState :=
  let payload := buildChatCompletionPayload messages config parameterEnabled in
  let requestId := S (st_requestId s) in
  effect (HttpRequest requestId payload)
    (s{{ st_requestId := requestId; st_abortController := Some requestId; st_isRequesting := true;
         st_inFlight := requestId :: st_inFlight s }}).

(** The [finally] block. *)
Definition request_finally (request : nat) (s : ChatState) : ChatState :=
  if st_requestId s ==? request then s{{ st_abortController := None; st_isRequesting := false }} else s.

Definition on_response (now : Z) (request : nat) (choices : option (list ChatCompletionChoice)) (s : ChatState)
  : ChatState :=
  let s := s{{ st_inFlight := remove request (st_inFlight s) }} in
  request_finally request
    (if bool_decide (request ∈ st_aborted s) then s
     else if negb (hasChatCompletionChoice choices) then handleStreamError now API_REQUEST_ERROR None s
     else
       update_messages
         (fun prev => updateLastAssistantMessage prev (fun message =>
            default message (applyChatCompletionResponse now message choices))) s).

Definition on_failure (now : Z) (request : nat) (error : RequestErrorLike) (s : ChatState) : ChatState :=
  let s := s{{ st_inFlight := remove request (st_inFlight s) }} in
  request_finally request
    (if bool_decide (request ∈ st_aborted s) then s
     else
       let details := parseRequestErrorDetails error in
       handleStreamError now (er_message details) (er_code details) s).

Definition sendChat (now : Z) (messages : list Message) (s : ChatState) : ChatState :=
  let s := clearAutoResendTimer s in
  let s :=
    if negb (existsb (fun m => flag (m_pendingAutoResend m)) messages)
    then s{{ st_isAutoResendMode := false; st_retryCount := (-1)%Z }} else s in
  if pc_stream config then sendStreamingChat now messages s else sendNonStreamingChat messages s.

Definition stopGeneration (now : Z) (s : ChatState) : ChatState :=
  let s := flushStreamUpdates now (exitAutoResendMode (closeActiveStream None s)) in
  let s := match st_abortController s with
           | Some request => s{{ st_aborted := request :: st_aborted s }}
           | None => s
           end in
  let s := s{{ st_abortController := None; st_isRequesting := false }} in
  update_messages
    (fun prev => updateLastAssistantMessage prev (fun message =>
       if negb (isAssistantMessagePending message) then message else completed now message)) s.

(** The identifier [nanoid()] draws for the message at an index. *)
Definition reset_pending (ids : nat -> jstr) (messages : list Message) : list Message :=
  imap (fun i => resetPendingMessageForRetry (ids i)) messages.

(** The callback of the retry timer. *)
Definition on_retry (now : Z) (timer : nat) (ids : nat -> jstr) (s : ChatState) : ChatState :=
  let s := s{{ st_timers := remove timer (st_timers s); st_autoTimer := None }} in
  let resetMessages := reset_pending ids (st_latest s) in
  sendChat now resetMessages (update_messages (fun _ => resetMessages) s).

Definition triggerAutoResend (now : Z) (ids : nat -> jstr) (messages : list Message) (s : ChatState) : ChatState :=
  if negb (hasPendingAutoResend messages) then s
  else
    let resetMessages := reset_pending ids messages in
    let s := update_messages (fun _ => resetMessages) s in
    sendChat now resetMessages (s{{ st_isAutoResendMode := true; st_retryCount := 0%Z }}).

(** ** use-playground-conversation.ts: the callbacks see the messages of their
    render *)

Definition send_messages (now : Z) (nextMessages : list Message) (s : ChatState) : ChatState :=
  sendChat now nextMessages (update_messages (fun _ => nextMessages) s).

Definition handleSendMessage (now : Z) (ids_user ids_assistant : NewIds) (text : jstr) (s : ChatState) : ChatState :=
  send_messages now (appendUserMessagePair ids_user ids_assistant now (st_latest s) text) s.

Definition handleRegenerateMessage (now : Z) (ids : NewIds) (messageKey : jstr) (s : ChatState) : ChatState :=
  match createRegeneratedMessages ids now (st_latest s) messageKey with
  | Some nextMessages => send_messages now nextMessages s
  | None => s
  end.

Definition handleEditMessage (messageKey : jstr) (s : ChatState) : ChatState := s{{ st_editing := Some messageKey }}.

Definition handleEditOpenChange (open : bool) (s : ChatState) : ChatState :=
  if open then s else s{{ st_editing := None }}.

Definition applyEdit (now : Z) (ids : NewIds) (newContent : jstr) (shouldSubmit : bool) (s : ChatState) : ChatState :=
  match st_editing s with
  | None | Some [] => s
  | Some editingMessageKey =>
      match applyMessageEdit ids now (st_latest s) editingMessageKey newContent shouldSubmit with
      | None => s
      | Some (messages, shouldSend) =>
          let s := update_messages (fun _ => messages) (s{{ st_editing := None }}) in
          if shouldSend then sendChat now messages s else s
      end
  end.

Definition handleDeleteMessage (messageKey : jstr) (s : ChatState) : ChatState :=
  update_messages (fun prev => removeMessageByKey prev messageKey) s.

(** ** index.tsx *)

Definition handleClearMessages (s : ChatState) : ChatState :=
  update_messages (fun _ => []) (handleEditOpenChange false s).

(** A loaded message has a version. *)
Definition interrupted (message : Message) : Message :=
  message{{ m_pendingAutoResend := None; m_status := Some ERROR;
            m_versions := [ (getCurrentVersion message){{ mv_content := t API_REQUEST_ERROR ++ ": " ++ t INTERRUPTED }} ] }}.

(** The effect, once the messages are loaded. *)
Definition load_effect (now : Z) (ids : nat -> jstr) (s : ChatState) : ChatState :=
  if st_hasTriggered s then s
  else if negb (hasPendingAutoResend (st_latest s)) then s
  else
    let s := s{{ st_hasTriggered := true }} in
    if negb (pc_autoResendEnabled config) then
      update_messages
        (fun prev => imap (fun i m => if (i + 1 =? length prev)%nat && flag (m_pendingAutoResend m)
                                      then interrupted m else m) prev) s
    else triggerAutoResend now ids (st_latest s) s.

(** ** Events *)

Inductive Event :=
| EvSend (ids_user ids_assistant : NewIds) (text : jstr)
| EvRegenerate (ids : NewIds) (messageKey : jstr)
| EvEditStart (messageKey : jstr)
| EvEditOpenChange (open : bool)
| EvApplyEdit (ids : NewIds) (newContent : jstr) (shouldSubmit : bool)
| EvDelete (messageKey : jstr)
| EvClear
| EvStop
| EvLoaded (ids : nat -> jstr)
| EvRender
| EvMessage (source : nat) (data : jstr)
| EvError (source : nat) (data : jstr) (readyState : Z)
| EvReadyState (source : nat) (readyState status : option Z)
| EvFlush
| EvRetry (timer : nat) (ids : nat -> jstr)
| EvResponse (request : nat) (choices : option (list ChatCompletionChoice))
| EvFailure (request : nat) (error : RequestErrorLike).

(** Only running timers fire, only sent requests are answered, and once. *)
Definition enabled (e : Event) (s : ChatState) : bool :=
  match e with
  | EvMessage source _ | EvError source _ _ | EvReadyState source _ _ => (source <? st_nextSource s)%nat
  | EvFlush => st_flushTimer s
  | EvRetry timer _ => bool_decide (timer ∈ st_timers s)
  | EvResponse request _ | EvFailure request _ => bool_decide (request ∈ st_inFlight s)
  | _ => true
  end.

Definition handle (now : Z) (e : Event) (s : ChatState) : ChatState :=
  match e with
  | EvSend ids_user ids_assistant text => handleSendMessage now ids_user ids_assistant text s
  | EvRegenerate ids messageKey => handleRegenerateMessage now ids messageKey s
  | EvEditStart messageKey => handleEditMessage messageKey s
  | EvEditOpenChange open => handleEditOpenChange open s
  | EvApplyEdit ids newContent shouldSubmit => applyEdit now ids newContent shouldSubmit s
  | EvDelete messageKey => handleDeleteMessage messageKey s
  | EvClear => handleClearMessages s
  | EvStop => stopGeneration now s
  | EvLoaded ids => load_effect now ids s
  | EvRender => s{{ st_latest := st_messages s }}
  | EvMessage source data => on_message now source data s
  | EvError source data readyState => on_error now source data readyState s
  | EvReadyState source readyState status => on_readystatechange now source readyState status s
  | EvFlush => flushStreamUpdates now s
  | EvRetry timer ids => on_retry now timer ids s
  | EvResponse request choices => on_response now request choices s
  | EvFailure request error => on_failure now request error s
  end.

(** One event at a time. *)
Inductive step : Z * Event -> ChatState -> ChatState -> Prop :=
| step_event now e s : enabled e s = true -> step (now, e) s (handle now e s).

Inductive run : list (Z * Event) -> ChatState -> ChatState -> Prop :=
| run_nil s : run [] s s
| run_cons e es s s1 s2 : step e s s1 -> run es s1 s2 -> run (e :: es) s s2.

(** The events as a function: those that are not enabled do not happen. *)
Definition exec (es : list (Z * Event)) (s : ChatState) : ChatState :=
  fold_left (fun s '(now, e) => if enabled e s then handle now e s else s) es s.

Definition reachable (s : ChatState) : Prop := exists messages es, run es (mounted messages) s.

End Chat.
