(* ===== verification/ChatText.v ===== *)
(** * The text of a stream

    What the pending chunks, the flush timer and the last message make of the text a
    source sends, whenever the timer fires. *)
From S2P Require Import RecordUpdate Prelude JsString JsNumber JsValue Json Messages ChatHandler.

(** ** The content of a message *)

Lemma content_update m c : getMessageContent (updateCurrentVersionContent m c) = c.
Proof. done. Qed.

Lemma completeAssistantTiming_fields m now :
  m_versions (completeAssistantTiming m now) = m_versions m /\ m_from (completeAssistantTiming m now) = m_from m
  /\ m_status (completeAssistantTiming m now) = m_status m
  /\ m_pendingAutoResend (completeAssistantTiming m now) = m_pendingAutoResend m.
Proof. unfold completeAssistantTiming. by destruct (_ !=? _). Qed.

Lemma completeReasoningTiming_fields m now :
  m_versions (completeReasoningTiming m now) = m_versions m /\ m_from (completeReasoningTiming m now) = m_from m
  /\ m_status (completeReasoningTiming m now) = m_status m
  /\ m_pendingAutoResend (completeReasoningTiming m now) = m_pendingAutoResend m.
Proof.
  unfold completeReasoningTiming. destruct (m_reasoning m) as [r|]; [|done]. by destruct (rs_durationMs r).
Qed.

Lemma processStreamingContent_fields now m chunk :
  getMessageContent (processStreamingContent now m chunk) = getMessageContent m ++ chunk
  /\ m_from (processStreamingContent now m chunk) = m_from m
  /\ m_pendingAutoResend (processStreamingContent now m chunk) = m_pendingAutoResend m.
Proof. unfold processStreamingContent. by destruct (m_reasoning m), (includes (getMessageContent m ++ chunk) think_open). Qed.

(** A content chunk extends the content by what of it is new. *)
Lemma apply_content now m chunk : m_status m <> Some ERROR ->
  let m' := applyStreamingChunk now m ContentChunk chunk in
  getMessageContent m' = getMessageContent m ++ getAppendableChunk (getMessageContent m) chunk
  /\ m_from m' = m_from m /\ m_status m' = Some STREAMING /\ m_pendingAutoResend m' = m_pendingAutoResend m.
Proof.
  intros Hs. cbn zeta. unfold applyStreamingChunk. rewrite bool_decide_false by done.
  set (c := processStreamingContent _ _ _).
  destruct (processStreamingContent_fields now m (getAppendableChunk (getMessageContent m) chunk)) as (H1 & H2 & H3).
  fold c in H1, H2, H3. destruct (completeReasoningTiming_fields c now) as (K1 & K2 & _ & K3).
  unfold getMessageContent, getCurrentVersion in *. destruct (flag _); cbn; rewrite ?K1, ?K2, ?K3; done.
Qed.

(** Completing a message shows its visible text. *)
Lemma completed_fields now m :
  getMessageContent (completed now m) = tt_visible (parseThinkTags (getMessageContent m))
  /\ m_status (completed now m) = Some COMPLETE /\ m_from (completed now m) = m_from m
  /\ m_pendingAutoResend (completed now m) = None.
Proof.
  unfold completed, completeAssistantMessage.
  destruct (completeAssistantTiming_fields ((finalizeMessage now m None){{ m_status := Some COMPLETE }}) now)
    as (H1 & H2 & H3 & H4).
  unfold getMessageContent at 1, getCurrentVersion at 1. cbn in H1, H2, H3, H4 |- *. rewrite H1, H2, H3.
  unfold finalizeMessage.
  match goal with |- context [completeReasoningTiming ?x now] =>
    destruct (completeReasoningTiming_fields x now) as (K1 & K2 & K3 & K4) end.
  rewrite K1, K2. cbn. split_and!; [|done..]. unfold parseThinkTags.
  by destruct (includes (getMessageContent m) think_open).
Qed.

Lemma pending_not_error m : isAssistantMessagePending m = true -> m_status m <> Some ERROR.
Proof. unfold isAssistantMessagePending. intros H E. by rewrite E in H. Qed.

Lemma pending_not_final m : isAssistantMessagePending m = true -> isAssistantMessageFinal m = false.
Proof. unfold isAssistantMessagePending, isAssistantMessageFinal. by destruct (m_status m) as [[]|]. Qed.

(** ** The last message *)

Lemma last_removelast {A} (l : list A) x : last l = Some x -> l = removelast l ++ [x].
Proof.
  intros [k ->]%last_Some. by rewrite removelast_app, app_nil_r by done.
Qed.

Lemma update_last ms m f : last ms = Some m -> m_from m = ASSISTANT ->
  updateLastAssistantMessage ms f = removelast ms ++ [f m].
Proof. unfold updateLastAssistantMessage. intros -> Hf. by rewrite bool_decide_true. Qed.

Lemma last_update ms m f : last ms = Some m -> m_from m = ASSISTANT ->
  last (updateLastAssistantMessage ms f) = Some (f m).
Proof. intros H1 H2. by rewrite (update_last ms m f), last_snoc. Qed.

(** ** Streams of text *)

Section Text.
Context (config : PlaygroundConfig) (parameterEnabled : ParameterEnabled) (t : jstr -> jstr) (sse_opens : nat -> bool).
Notation exec := (exec config parameterEnabled t sse_opens).
Notation handle := (handle config parameterEnabled t sse_opens).

(** The text of a source's message that only adds to the content. *)
Definition content_delta (data : jstr) : option jstr :=
  if isStreamDoneMessage data then None
  else match parseStreamMessageUpdates data with Ok [(ContentChunk, JStr c)] => Some c | _ => None end.

(** The stream of one source: its messages, with the flush timer firing and the
    page rendering at any time. *)
Definition stream_event (source : nat) (e : Event) : bool :=
  match e with
  | EvMessage src data => (src ==? source) && match content_delta data with Some _ => true | None => false end
  | EvFlush | EvRender => true
  | _ => false
  end.

Definition delta (e : Z * Event) : list jstr :=
  match snd e with
  | EvMessage _ data => match content_delta data with Some c => [c] | None => [] end
  | _ => []
  end.
Definition deltas (es : list (Z * Event)) : list jstr := flat_map delta es.

(** Nothing is pending and the last message is an empty answer. *)
Definition awaiting (source : nat) (s : ChatState) : Prop :=
  (source < st_nextSource s)%nat /\ st_content s = [] /\ st_reasoning s = []
  /\ exists m, last (st_messages s) = Some m /\ m_from m = ASSISTANT /\ isAssistantMessagePending m = true
       /\ getMessageContent m = [].

(** The content of the last message and the pending content, in a stream without
    reasoning. *)
Definition shows (source : nat) (s : ChatState) (content pending : jstr) : Prop :=
  (source < st_nextSource s)%nat /\ st_content s = pending /\ st_reasoning s = []
  /\ (pending <> [] -> st_flushTimer s = true)
  /\ exists m, last (st_messages s) = Some m /\ m_from m = ASSISTANT /\ isAssistantMessagePending m = true
       /\ getMessageContent m = content.

Lemma shows_flush now source s content pending : shows source s content pending ->
  shows source (flushStreamUpdates now s) (content ++ getAppendableChunk content pending) [].
Proof.
  intros (Hsrc & Hc & Hr & _ & m & Hl & Hf & Hst & Hm). unfold flushStreamUpdates. cbn zeta.
  cbn [apply_update constant st_reasoning st_content]. rewrite Hc, Hr. cbn [non_empty negb andb].
  destruct pending as [|c p].
  - cbn [non_empty negb]. unfold getAppendableChunk.
    assert (content ++ match content with [] => [] | _ => if startsWith [] content then drop (length content) [] else [] end
            = content) as ->.
    { destruct content; [done|]. cbn. by rewrite app_nil_r. }
    split_and!; [done|done|done|done|]. eauto 10.
  - cbn [non_empty negb]. unfold update_messages. split_and!; [done|done|done|done|].
    exists (apply_chunks now [] (c :: p) m). cbn [apply_update constant st_messages].
    split; [by apply last_update|]. unfold apply_chunks. cbn [non_empty].
    destruct (apply_content now m (c :: p) (pending_not_error m Hst)) as (H1 & H2 & H3 & _).
    unfold isAssistantMessagePending. rewrite H1, H2, H3, Hm. split_and!; [done|done|done].
Qed.

Definition merge (pending c : jstr) : jstr :=
  match pending with [] => c | _ => if startsWith c pending then c else pending ++ c end.

Lemma shows_delta now source s content pending data c : shows source s content pending ->
  content_delta data = Some c -> c <> [] ->
  shows source (on_message config t now source data s) content (merge pending c).
Proof.
  intros (Hsrc & Hc & Hr & Ht & Hm) Hd Hne. unfold content_delta in Hd. unfold on_message.
  destruct (isStreamDoneMessage data); [done|].
  destruct (parseStreamMessageUpdates data) as [ups|]; [|done].
  destruct ups as [|[[] v] [|? ?]]; try done; destruct v; try done. injection Hd as ->.
  cbn [apply_updates handleStreamUpdate]. unfold mergePendingStreamChunk. rewrite Hc.
  assert (forall p, merge pending c = p -> shows source (scheduleStreamFlush (s{{ st_content := p }})) content (merge pending c)) as H.
  { intros p <-. split_and!; [done|done|done|done|done]. }
  unfold merge in *. destruct pending as [|d p]; cbn [res_bind js_to_string]; [by apply H|].
  destruct (startsWith c (d :: p)); by apply H.
Qed.

(** A chunk of text is never empty. *)
Lemma content_delta_ne data c : content_delta data = Some c -> c <> [].
Proof.
  unfold content_delta. destruct (isStreamDoneMessage data); [done|].
  destruct (parseStreamMessageUpdates data) as [ups|] eqn:E; [|done].
  destruct ups as [|[[] v] [|? ?]]; try done; destruct v; try done. intros [= ->] ->.
  unfold parseStreamMessageUpdates in E. res_inv.
  destruct (negb (truthy r1)); [by res_inv|]. res_inv.
  destruct (truthy r2) eqn:Et; [by destruct (truthy r3)|].
  destruct (truthy r3) eqn:Eu; [|done]. cbn in E. 
  match goal with H : _ = [(ContentChunk, JStr [])] |- _ => injection H as -> end. done.
Qed.

(** What an event does to the content and the pending content. *)
Definition text_step (cp : jstr * jstr) (e : Z * Event) : jstr * jstr :=
  match snd e with
  | EvMessage _ data => match content_delta data with Some c => (fst cp, merge (snd cp) c) | None => cp end
  | EvFlush => (fst cp ++ getAppendableChunk (fst cp) (snd cp), [])
  | _ => cp
  end.

Lemma append_nothing content : content ++ getAppendableChunk content [] = content.
Proof. destruct content; [done|]. cbn. by rewrite app_nil_r. Qed.

Lemma shows_event source s cp e : shows source s (fst cp) (snd cp) -> stream_event source (snd e) = true ->
  let s' := exec [e] s in let cp' := text_step cp e in shows source s' (fst cp') (snd cp').
Proof.
  destruct e as [now e], cp as [c p]. intros H He. unfold ChatHandler.exec, text_step. cbn [fold_left snd fst] in *.
  destruct e as [| | | | | | | | |  |src data| | | | | |]; cbn [stream_event] in He; try done.
  - apply andb_true_iff in He as [Hsrc Hd]. apply bool_decide_eq_true in Hsrc as ->.
    destruct (content_delta data) as [d|] eqn:Ed; [|done]. cbn [enabled ChatHandler.handle].
    rewrite (proj2 (Nat.ltb_lt source (st_nextSource s))) by apply H. cbn [fst snd].
    by apply (shows_delta now source s c p data d H Ed), (content_delta_ne data).
  - cbn [enabled ChatHandler.handle fst snd]. destruct (st_flushTimer s) eqn:Et; [by apply shows_flush|].
    assert (p = []) as ->.
    { destruct H as (_ & _ & _ & Ht & _). destruct p; [done|]. rewrite Ht in Et; done. }
    by rewrite append_nothing.
Qed.

Lemma exec_app es1 es2 s : exec (es1 ++ es2) s = exec es2 (exec es1 s).
Proof. unfold ChatHandler.exec. apply fold_left_app. Qed.

Lemma shows_exec source es : forall s cp, shows source s (fst cp) (snd cp) ->
  forallb (fun e => stream_event source (snd e)) es = true ->
  shows source (exec es s) (fst (fold_left text_step es cp)) (snd (fold_left text_step es cp)).
Proof.
  induction es as [|e es IH]; intros s cp H Hes; [done|]. cbn [forallb] in Hes. apply andb_true_iff in Hes as [He Hes].
  change (e :: es) with ([e] ++ es). rewrite exec_app. cbn [app fold_left]. apply IH; [|done]. by apply shows_event.
Qed.

(** Closing the source and completing shows the visible text. *)
Lemma shows_done now source s content pending : shows source s content pending ->
  exists m, last (st_messages (handle now (EvMessage source STREAM_DONE_MESSAGE) s)) = Some m
    /\ m_status m = Some COMPLETE /\ m_pendingAutoResend m = None
    /\ getMessageContent m = tt_visible (parseThinkTags (content ++ getAppendableChunk content pending)).
Proof.
  intros H. cbn [ChatHandler.handle]. unfold on_message. rewrite (eq_refl : isStreamDoneMessage STREAM_DONE_MESSAGE = true).
  set (s1 := closeActiveStream _ _).
  assert (shows source s1 content pending) as H1.
  { unfold s1, closeActiveStream. cbn [or_else]. destruct (st_sseSource _ ==? _); exact H. }
  apply (shows_flush now) in H1. destruct H1 as (_ & _ & _ & _ & m & Hl & Hf & Hp & Hc).
  unfold handleStreamComplete. cbn zeta. unfold update_messages. cbn [apply_update constant st_messages].
  assert (forall s, st_messages (exitAutoResendMode s) = st_messages s) as ->.
  { intros s2. unfold exitAutoResendMode, clearAutoResendTimer. by destruct (st_autoTimer s2). }
  rewrite (last_update _ m) by done. rewrite (pending_not_final m Hp). cbn [andb].
  destruct (completed_fields now m) as (E1 & E2 & E3 & E4). rewrite Hc in E1. eauto 10.
Qed.

(** *** Deltas *)

(** No piece of the stream occurs again in the text after it. *)
Fixpoint fresh_deltas (ds : list jstr) : bool :=
  match ds with [] => true | d :: rest => negb (includes (concat rest) d) && fresh_deltas rest end.

Lemma includes_middle a b c : includes (a ++ b ++ c) b = true.
Proof.
  induction a as [|x a IH].
  - cbn [app]. destruct (b ++ c) eqn:E; cbn [includes]; rewrite <- E, startsWith_app; done.
  - cbn [app includes]. by rewrite IH, orb_true_r.
Qed.

Lemma fresh_deltas_spec a d b x y : fresh_deltas (a ++ d :: b) = true -> concat b <> x ++ d ++ y.
Proof.
  induction a as [|e a IH]; cbn [app fresh_deltas]; rewrite andb_true_iff; intros [H1 H2]; [|by apply IH].
  intros E. by rewrite E, includes_middle in H1.
Qed.

(** In such a stream a pending text never looks like the start of what follows. *)
Lemma fresh_prefix a ds b rest : fresh_deltas (a ++ ds ++ b) = true -> ds <> [] -> concat b <> concat ds ++ rest.
Proof.
  destruct ds as [|d ds]; [done|]. intros H _ E. cbn [app concat] in *.
  apply (fresh_deltas_spec a d (ds ++ b) (concat ds) (concat ds ++ rest) H).
  by rewrite concat_app, E, <- app_assoc.
Qed.

Lemma append_fresh content chunk : (forall rest, chunk <> content ++ rest) -> getAppendableChunk content chunk = chunk.
Proof.
  intros H. unfold getAppendableChunk. destruct content as [|c content]; [done|].
  destruct (startsWith chunk (c :: content)) eqn:E; [|done]. apply startsWith_true in E as [r Hr]. by destruct (H r).
Qed.

Lemma concat_ne (ds : list jstr) : Forall (fun d => d <> []) ds -> ds <> [] -> concat ds <> [].
Proof. destruct 1 as [|d ds Hd]; [done|]. intros _. cbn. by destruct d. Qed.

Lemma flush_fresh ds1 ds2 rest : Forall (fun d => d <> []) (ds1 ++ ds2) -> fresh_deltas (ds1 ++ ds2 ++ rest) = true ->
  concat ds1 ++ getAppendableChunk (concat ds1) (concat ds2) = concat (ds1 ++ ds2).
Proof.
  intros Hne Hf. rewrite concat_app. f_equal. destruct (decide (ds1 = [])) as [->|H1]; [done|].
  apply append_fresh. intros r E. apply (fresh_prefix [] ds1 (ds2 ++ rest) (r ++ concat rest)); [done|done|].
  by rewrite concat_app, E, <- app_assoc.
Qed.

(** What is shown and what is pending are the first pieces and the last. *)
Lemma fresh_text es : forall ds1 ds2, Forall (fun d => d <> []) (ds1 ++ ds2) ->
  fresh_deltas (ds1 ++ ds2 ++ deltas es) = true ->
  exists ds1' ds2', fold_left text_step es (concat ds1, concat ds2) = (concat ds1', concat ds2')
    /\ ds1' ++ ds2' = ds1 ++ ds2 ++ deltas es /\ Forall (fun d => d <> []) (ds1' ++ ds2').
Proof.
  induction es as [|[now e] es IH]; intros ds1 ds2 Hne Hf.
  - exists ds1, ds2. cbn in Hf |- *. by rewrite !app_nil_r in *.
  - cbn [fold_left deltas flat_map] in *. change (flat_map delta es) with (deltas es) in *.
    unfold text_step at 2. unfold delta in Hf |- *. cbn [snd fst] in *.
    destruct e as [| | | | | | | | |  |src data| | | | | |]; try (by apply IH).
    + destruct (content_delta data) as [c|] eqn:Ed; [|by apply IH].
      pose proof (content_delta_ne data c Ed) as Hc.
      assert (merge (concat ds2) c = concat (ds2 ++ [c])) as ->.
      { rewrite concat_app. cbn. rewrite app_nil_r. unfold merge. destruct (concat ds2) as [|x p] eqn:Ep; [done|].
        destruct (startsWith c (x :: p)) eqn:Es; [|done]. exfalso. apply startsWith_true in Es as [r Hr].
        rewrite <- Ep in Hr. apply (fresh_prefix ds1 ds2 (c :: deltas es) (r ++ concat (deltas es)) Hf); [by intros ->|].
        cbn. by rewrite Hr, <- app_assoc. }
      replace (ds1 ++ ds2 ++ [c] ++ deltas es) with (ds1 ++ (ds2 ++ [c]) ++ deltas es) in Hf |- * by (by rewrite <- !app_assoc).
      apply IH; [|done]. rewrite app_assoc. apply Forall_app. split; [done|by repeat constructor].
    + cbn [app] in *. rewrite (flush_fresh ds1 ds2 (deltas es)) by done. change (@nil N) with (concat (@nil jstr)).
      rewrite app_assoc in Hf. destruct (IH (ds1 ++ ds2) []) as (a & b & H1 & H2 & H3); [by rewrite app_nil_r|done|].
      exists a, b. split_and!; [exact H1| |done]. by rewrite H2, <- app_assoc.
Qed.

(** *** Snapshots *)

(** Each piece repeats the text so far. *)
Fixpoint snapshots (x : jstr) (ds : list jstr) : bool :=
  match ds with [] => true | d :: rest => startsWith d x && snapshots d rest end.

Lemma append_prefix content x : startsWith x content = true -> content ++ getAppendableChunk content x = x.
Proof.
  intros H. unfold getAppendableChunk. destruct content as [|c content]; [done|]. rewrite H. symmetry. by apply startsWith_drop.
Qed.

Lemma startsWith_refl x : startsWith x x = true.
Proof. rewrite <- (app_nil_r x) at 1. apply startsWith_app. Qed.

Lemma snapshot_text es : forall x cp,
  (cp = (x, []) \/ snd cp = x /\ startsWith x (fst cp) = true) -> snapshots x (deltas es) = true ->
  let cp' := fold_left text_step es cp in
  fst cp' ++ getAppendableChunk (fst cp') (snd cp') = default x (last (deltas es)).
Proof.
  induction es as [|[now e] es IH]; intros x cp Hcp Hs; cbn zeta.
  - cbn. destruct Hcp as [->|[-> H]]; [apply append_nothing|by apply append_prefix].
  - cbn [fold_left deltas flat_map] in *. change (flat_map delta es) with (deltas es) in *.
    unfold delta in Hs |- *. cbn [snd] in *.
    destruct e as [| | | | | | | | |  |src data| | | | | |]; try (by apply IH).
    + change (text_step cp (now, EvMessage src data))
        with (match content_delta data with Some c => (fst cp, merge (snd cp) c) | None => cp end).
      destruct (content_delta data) as [c|] eqn:Ed; [|by apply IH]. cbn [app snapshots] in Hs |- *.
      apply andb_true_iff in Hs as [Hc Hs].
      assert (default x (last (c :: deltas es)) = default c (last (deltas es))) as ->.
      { destruct (deltas es) as [|d ds]; [done|]. cbn [last]. destruct (last (d :: ds)) eqn:E; [done|].
        by apply last_None in E. }
      apply IH; [|done]. right. cbn [fst snd]. destruct Hcp as [->|[E Hp]]; cbn [fst snd].
      * split; [done|]. done.
      * split.
        -- unfold merge. rewrite E. by destruct x as [|y x]; [|rewrite Hc].
        -- apply startsWith_true in Hp as [r ->], Hc as [r' ->]. rewrite <- app_assoc. apply startsWith_app.
    + cbn [app] in *. apply IH; [|done]. left. unfold text_step. cbn [snd]. f_equal.
      destruct Hcp as [->|[-> H]]; cbn [fst snd]; [apply append_nothing|by apply append_prefix].
Qed.

(** C6: whenever the flush timer fires and the page renders, a stream of fresh
    pieces is shown as their concatenation, and a stream of snapshots as the last one, with
    think tags taken out: the answer ends complete. *)
Theorem stream_text_delivered source es now s :
  awaiting source s ->
  forallb (fun e => stream_event source (snd e)) es = true ->
  exists m, last (st_messages (exec (es ++ [(now, EvMessage source STREAM_DONE_MESSAGE)]) s)) = Some m
    /\ m_status m = Some COMPLETE /\ m_pendingAutoResend m = None
    /\ (fresh_deltas (deltas es) = true ->
        getMessageContent m = tt_visible (parseThinkTags (concat (deltas es))))
    /\ (snapshots [] (deltas es) = true ->
        getMessageContent m = tt_visible (parseThinkTags (default [] (last (deltas es))))).
Proof.
  intros (Hsrc & Hc & Hr & Hm) Hes. rewrite exec_app.
  assert (shows source s (fst (@nil N, @nil N)) (snd (@nil N, @nil N))) as H by (by split_and!).
  apply (shows_exec _ _ _ _ H) in Hes. destruct (shows_done now _ _ _ _ Hes) as (m & H1 & H2 & H3 & H4).
  exists m. unfold ChatHandler.exec at 1. cbn [fold_left enabled].
  rewrite (proj2 (Nat.ltb_lt source _)) by apply Hes. split_and!; [done..| |]; intros Hd; rewrite H4; do 2 f_equal.
  - destruct (fresh_text es [] []) as (a & b & E & Eab & Hne); [constructor|done|]. cbn [concat app] in E, Eab.
    rewrite E. cbn [fst snd]. rewrite <- Eab. apply (flush_fresh a b []); [done|]. by rewrite app_nil_r, Eab.
  - apply (snapshot_text es [] ([], [])); [by left|done].
Qed.

End Text.

(** ** Concrete streams *)

Definition demo_config (stream : bool) : PlaygroundConfig :=
  {| pc_model := "gpt"; pc_group := "default"; pc_temperature := nzero; pc_top_p := nzero; pc_max_tokens := nzero;
     pc_frequency_penalty := nzero; pc_presence_penalty := nzero; pc_seed := None; pc_stream := stream;
     pc_autoResendEnabled := true; pc_autoResendMaxRetries := 3 |}.

Definition demo_parameters : ParameterEnabled :=
  {| pe_temperature := true; pe_top_p := false; pe_max_tokens := false; pe_frequency_penalty := false;
     pe_presence_penalty := false; pe_seed := false |}.

Definition demo_exec (stream : bool) : list (Z * Event) -> ChatState -> ChatState :=
  exec (demo_config stream) demo_parameters (fun s => s) (fun _ => true).

Definition demo_ids (key : jstr) : NewIds := {| new_key := key; new_version := "v" |}.

Definition demo_send (u a text : jstr) : Z * Event := (0%Z, EvSend (demo_ids u) (demo_ids a) text).

(** A message of source 0 that adds [c]. *)
Definition demo_delta (c : jstr) : Z * Event :=
  (0%Z, EvMessage 0 (sq "{'choices':[{'delta':{'content':'" ++ c ++ sq "'}}]}")).

Definition demo_flush : Z * Event := (0%Z, EvFlush).
Definition demo_done : Z * Event := (0%Z, EvMessage 0 "[DONE]").

Definition demo_sent : ChatState := demo_exec true [demo_send "u1" "a1" "hi"; (0%Z, EvRender)] (mounted []).

Definition last_content (s : ChatState) : option jstr := option_map getMessageContent (last (st_messages s)).

Lemma stream_text_delivered_witness :
  awaiting 0 demo_sent
  /\ exists m, last (st_messages (demo_exec true [demo_delta "Hel"; demo_flush; demo_delta "lo "; demo_delta "you"; demo_done]
                                   demo_sent)) = Some m
       /\ getMessageContent m = "Hello you".
Proof.
  assert (awaiting 0 demo_sent) as H.
  { split_and!; [vm_compute; lia|vm_compute; reflexivity|vm_compute; reflexivity|].
    exists (createLoadingAssistantMessage (demo_ids "a1") 0). split_and!; vm_compute; reflexivity. }
  split; [exact H|].
  destruct (stream_text_delivered (demo_config true) demo_parameters (fun s => s) (fun _ => true) 0
    [demo_delta "Hel"; demo_flush; demo_delta "lo "; demo_delta "you"] 0%Z demo_sent H) as (m & H1 & _ & _ & H2 & _);
    [vm_compute; reflexivity|].
  exists m. split; [exact H1|]. rewrite H2 by (vm_compute; reflexivity). vm_compute. reflexivity.
Defined.

(** A piece of text that repeats the text so far is taken for a snapshot: two
    equal pieces show one of them, and whether the text of a stream is kept depends on when
    the flush timer fires. *)
Theorem repeated_text_lost :
  last_content (demo_exec true [demo_delta "1"; demo_delta "1"; demo_done] demo_sent) = Some "1"
  /\ last_content (demo_exec true [demo_delta "a"; demo_flush; demo_delta "b"; demo_delta "ab"; demo_done] demo_sent)
     = Some "abab"
  /\ last_content (demo_exec true [demo_delta "a"; demo_delta "b"; demo_delta "ab"; demo_done] demo_sent) = Some "ab".
Proof. vm_compute. done. Qed.
