(* ===== verification/ChatProgress.v ===== *)
(** * Progress of the chat

    The invariants of the refs, timers and sources, and what follows: the page is never
    stuck generating, and a message is resent a bounded number of times. *)
From S2P Require Import RecordUpdate Prelude JsString JsValue Messages ChatHandler ChatText.

Lemma elem_of_remove x y l : y ∈ remove x l <-> y ∈ l /\ y <> x.
Proof.
  unfold remove. rewrite !list_elem_of_In, filter_In, negb_true_iff, bool_decide_eq_false. done.
Qed.

Lemma length_remove x l : (length (remove x l) <= length l)%nat.
Proof. apply List.filter_length_le. Qed.

Lemma length_remove_elem x l : x ∈ l -> (length (remove x l) < length l)%nat.
Proof.
  intros H. apply list_elem_of_In in H. induction l as [|y l IH]; [done|]. cbn [remove List.filter length].
  fold (remove x l). destruct (decide (y = x)) as [->|Hne].
  - rewrite bool_decide_true by done. cbn [negb]. pose proof (length_remove x l). lia.
  - rewrite bool_decide_false by done. cbn [negb length]. destruct H as [->|H]; [done|]. specialize (IH H). lia.
Qed.

(** ** Invariants *)

(** The state of the refs, the timers and the sources. *)
Record coherent (s : ChatState) : Prop := {
  co_streaming : st_isStreaming s = match st_sseSource s with Some _ => true | None => false end;
  co_pending : st_flushTimer s = false -> st_content s = [] /\ st_reasoning s = [];
  co_timer timer : st_autoTimer s = Some timer -> timer ∈ st_timers s;
  co_current source : st_sseSource s = Some source -> (source < st_nextSource s)%nat /\ source ∉ st_closed s;
  co_open source : (source < st_nextSource s)%nat -> source ∉ st_closed s -> st_sseSource s = Some source;
  co_closed source : source ∈ st_closed s -> (source < st_nextSource s)%nat;
  co_aborted request : request ∈ st_aborted s -> (request <= st_requestId s)%nat;
  co_controller request : st_abortController s = Some request -> (request <= st_requestId s)%nat
}.

(** A request in progress has an open source, a retry timer or an answer to come. *)
Definition served (s : ChatState) : Prop :=
  st_sseSource s <> None \/ st_autoTimer s <> None
  \/ st_requestId s ∈ st_inFlight s /\ st_requestId s ∉ st_aborted s.

(** The stream of the open source is not complete. *)
Definition unfinished (s : ChatState) : Prop := st_sseSource s <> None -> st_isStreamComplete s = false.

Record sound (s : ChatState) : Prop := {
  so_coherent : coherent s;
  so_served : st_isRequesting s = true -> served s;
  so_unfinished : unfinished s
}.

Lemma mounted_sound messages : sound (mounted messages).
Proof. split; [split|..]; cbn; try done; try set_solver; lia. Qed.

Section Chat.
Context (config : PlaygroundConfig) (parameterEnabled : ParameterEnabled) (t : jstr -> jstr) (sse_opens : nat -> bool).
Notation handle := (handle config parameterEnabled t sse_opens).
Notation step := (step config parameterEnabled t sse_opens).
Notation run := (run config parameterEnabled t sse_opens).
Notation handleStreamError := (handleStreamError config t).
Notation sendChat := (sendChat config parameterEnabled t sse_opens).

(** What a step of the hooks leaves alone: [keeps s s'] says that the stream, the
    requests and the coherence of the state are as before. *)
Record keeps (s s' : ChatState) : Prop := {
  ke_coherent : coherent s -> coherent s';
  ke_source : st_sseSource s' = st_sseSource s;
  ke_next : st_nextSource s' = st_nextSource s;
  ke_complete : st_isStreamComplete s' = st_isStreamComplete s;
  ke_request : st_requestId s' = st_requestId s;
  ke_inFlight : st_inFlight s' = st_inFlight s;
  ke_aborted : st_aborted s' = st_aborted s
}.

Lemma keeps_trans s1 s2 s3 : keeps s1 s2 -> keeps s2 s3 -> keeps s1 s3.
Proof. intros [] []. split; [auto|congruence..]. Qed.

Ltac coherence := intros []; split; cbn; auto.

Lemma keeps_update f s : keeps s (update_messages f s).
Proof. split; [coherence|done..]. Qed.

Lemma keeps_effect e s : keeps s (effect e s).
Proof. split; [coherence|done..]. Qed.

Lemma keeps_requesting b s : keeps s (s{{ st_isRequesting := b }}).
Proof. split; [coherence|done..]. Qed.

Lemma keeps_flush now s : keeps s (flushStreamUpdates now s).
Proof.
  unfold flushStreamUpdates. cbn zeta. cbn [apply_update constant st_reasoning st_content].
  destruct (st_reasoning s) eqn:Er, (st_content s) eqn:Ec; cbn [non_empty negb andb];
    (split; [coherence; by rewrite ?Er, ?Ec|done..]).
Qed.

Lemma keeps_clear s : keeps s (clearAutoResendTimer s).
Proof. unfold clearAutoResendTimer. destruct (st_autoTimer s) eqn:E; split; try done. coherence. done. Qed.

Lemma keeps_exit s : keeps s (exitAutoResendMode s).
Proof. eapply keeps_trans; [apply keeps_clear|]. split; [coherence|done..]. Qed.

Lemma flush_same now s :
  st_autoTimer (flushStreamUpdates now s) = st_autoTimer s /\ st_isRequesting (flushStreamUpdates now s) = st_isRequesting s.
Proof. unfold flushStreamUpdates. cbn zeta. by destruct (negb _ && negb _). Qed.

Lemma keeps_error now e c s : keeps s (handleStreamError now e c s).
Proof.
  unfold ChatHandler.handleStreamError. eapply keeps_trans; [apply (keeps_flush now)|].
  set (s1 := flushStreamUpdates now s). destruct (decideAutoResend _ _ _ _) as [d|].
  - unfold arm_retry. cbn zeta. split; [|done..]. coherence. intros tm [= <-]. set_solver.
  - unfold abandon. cbn zeta. eapply keeps_trans; [apply keeps_exit|].
    eapply keeps_trans; [apply (keeps_requesting false)|]. eapply keeps_trans; [apply keeps_effect|]. apply keeps_update.
Qed.

(** After an error a retry timer runs, or nothing is requested. *)
Lemma error_served now e c s : let s' := handleStreamError now e c s in
  st_isRequesting s' = true -> st_autoTimer s' <> None.
Proof.
  cbn zeta. unfold ChatHandler.handleStreamError. destruct (decideAutoResend _ _ _ _); [done|]. done.
Qed.

Lemma served_keeps s s' : keeps s s' -> served s ->
  (st_autoTimer s <> None -> st_autoTimer s' <> None \/ st_sseSource s <> None) -> served s'.
Proof.
  intros K [H|[H|H]] Ht; unfold served in *; rewrite (ke_source _ _ K), (ke_request _ _ K), (ke_inFlight _ _ K), (ke_aborted _ _ K); tauto.
Qed.

Lemma unfinished_keeps s s' : keeps s s' -> unfinished s -> unfinished s'.
Proof. intros K. unfold unfinished. by rewrite (ke_source _ _ K), (ke_complete _ _ K). Qed.

(** A step that keeps the stream, and after which what is requested is served. *)
Lemma sound_keeps s s' : keeps s s' -> sound s -> (st_isRequesting s' = true -> served s') -> sound s'.
Proof. intros K [H1 _ H3] Hs. split; [by apply (ke_coherent _ _ K)|done|by eapply unfinished_keeps]. Qed.

Lemma error_sound now e c s : sound s -> sound (handleStreamError now e c s).
Proof.
  intros H. eapply sound_keeps; [apply keeps_error|done|]. intros Hr. right. left. by eapply error_served.
Qed.

Lemma coherent_close src s : (src < st_nextSource s)%nat -> coherent s -> coherent (closeActiveStream (Some src) s).
Proof.
  intros Hn []. unfold closeActiveStream. cbn [or_else].
  destruct (bool_decide_reflect (st_sseSource (close_source src s) = Some src)) as [E|E]; cbn in E;
    split; cbn; try done.
  - intros s1 H1 [H2 H3]%not_elem_of_cons. specialize (co_open0 s1 H1 H3). congruence.
  - by intros s1 [->|H1]%elem_of_cons; [|apply co_closed0].
  - intros s1 H1. destruct (co_current0 s1 H1). split; [done|]. rewrite not_elem_of_cons. split; [congruence|done].
  - intros s1 H1 [H2 H3]%not_elem_of_cons. by apply co_open0.
  - by intros s1 [->|H1]%elem_of_cons; [|apply co_closed0].
Qed.

Lemma close_fields src s : let s' := closeActiveStream (Some src) s in
  st_isRequesting s' = st_isRequesting s /\ st_autoTimer s' = st_autoTimer s /\ st_requestId s' = st_requestId s
  /\ st_inFlight s' = st_inFlight s /\ st_aborted s' = st_aborted s /\ st_isStreamComplete s' = st_isStreamComplete s
  /\ st_sseSource s' = (if st_sseSource s ==? Some src then None else st_sseSource s).
Proof.
  unfold closeActiveStream. cbn [or_else]. cbn zeta. cbn [close_source apply_update constant st_sseSource].
  by destruct (st_sseSource s ==? Some src).
Qed.

(** Closing a source is sound when what it served is served otherwise. *)
Lemma sound_close src s : (src < st_nextSource s)%nat -> sound s ->
  (st_isRequesting s = true -> st_autoTimer s <> None) -> sound (closeActiveStream (Some src) s).
Proof.
  intros Hn [H1 H2 H3] Hr. destruct (close_fields src s) as (E1 & E2 & E3 & E4 & E5 & E6 & E7). split.
  - by apply coherent_close.
  - rewrite E1. intros H. right. left. rewrite E2. by apply Hr.
  - unfold unfinished. rewrite E6, E7. destruct (_ ==? _); [done|]. exact H3.
Qed.

Lemma sound_handleError now src e c s : (src < st_nextSource s)%nat -> sound s ->
  sound (handleError config t now src e c s).
Proof.
  intros Hn Hs. unfold handleError. destruct (st_isStreamComplete s); [done|].
  apply sound_close; [by rewrite (ke_next _ _ (keeps_error now e c s))|by apply error_sound|apply error_served].
Qed.

(** ** The hooks keep the state sound *)

Lemma sound_update f s : sound s -> sound (update_messages f s).
Proof. intros H. eapply sound_keeps; [apply keeps_update|done|]. apply H. Qed.

Lemma sound_flush now s : sound s -> sound (flushStreamUpdates now s).
Proof.
  intros H. destruct (flush_same now s) as [E1 E2]. eapply sound_keeps; [apply keeps_flush|done|].
  rewrite E2. intros Hr. eapply served_keeps; [apply keeps_flush|by apply H|]. rewrite E1. auto.
Qed.

Lemma sound_apply_updates ups : forall s, sound s -> sound (fst (apply_updates ups s))
  /\ st_nextSource (fst (apply_updates ups s)) = st_nextSource s.
Proof.
  induction ups as [|[ty v] ups IH]; intros s Hs; [done|]. cbn [apply_updates].
  destruct (handleStreamUpdate ty v s) as [s1|] eqn:E; [|done].
  assert (sound s1 /\ st_nextSource s1 = st_nextSource s) as [H1 <-]; [|by apply IH].
  unfold handleStreamUpdate in E. destruct ty; res_inv; (split; [|done]);
    (destruct Hs as [[] H2 H3]; split; [split; cbn; auto|exact H2|exact H3]); done.
Qed.

Lemma keeps_complete now s : keeps s (handleStreamComplete now s).
Proof.
  unfold handleStreamComplete. cbn zeta. eapply keeps_trans; [|apply keeps_update].
  eapply keeps_trans; [|apply keeps_requesting]. eapply keeps_trans; [apply (keeps_flush now)|]. apply keeps_exit.
Qed.

Lemma sound_done now src s : (src < st_nextSource s)%nat -> sound s ->
  st_sseSource s = Some src -> sound (on_message config t now src STREAM_DONE_MESSAGE s).
Proof.
  intros Hn Hs Hc. unfold on_message. rewrite (eq_refl : isStreamDoneMessage STREAM_DONE_MESSAGE = true).
  set (s1 := closeActiveStream _ _).
  assert (st_sseSource s1 = None) as E.
  { unfold s1. destruct (close_fields src (s{{ st_isStreamComplete := true }})) as (_ & _ & _ & _ & _ & _ & E). rewrite E.
    cbn. rewrite Hc. by rewrite bool_decide_true. }
  assert (coherent s1) as H1.
  { apply coherent_close; [done|]. destruct Hs as [[] _ _]. split; cbn; auto. }
  pose proof (keeps_complete now s1) as K.
  split; [by apply (ke_coherent _ _ K)|done|]. unfold unfinished. by rewrite (ke_source _ _ K), E.
Qed.

Lemma coherent_clear s : coherent s -> coherent (clearAutoResendTimer s).
Proof. apply (ke_coherent _ _ (keeps_clear s)). Qed.

(** Opening a source closes the one before. *)
Lemma sound_stream now payload s : coherent s -> sound (sendStreamRequest config t sse_opens now payload s).
Proof.
  intros H. unfold sendStreamRequest. cbn zeta.
  match goal with |- context [if sse_opens _ then ?x else _] => set (s1 := x) end.
  assert (sound s1) as H1.
  { subst s1. destruct H. split; [|left; done|done].
    destruct (st_sseSource s) as [src|] eqn:E.
    - destruct (co_current0 src eq_refl) as [Hlt Hcl]. split; cbn; try done.
      + intros source Hs. apply Some_inj in Hs. subst source. split; [lia|]. intros [?|H]%elem_of_cons; [lia|]. apply co_closed0 in H. lia.
      + intros source H1 H2. destruct (decide (source = st_nextSource s)) as [->|]; [done|].
        assert (source <> src /\ source ∉ st_closed s) as [Hne Hnc] by set_solver.
        specialize (co_open0 source ltac:(lia) Hnc). congruence.
      + intros source [->|H]%elem_of_cons; [lia|]. apply co_closed0 in H. lia.
    - split; cbn; try done.
      + intros source Hs. apply Some_inj in Hs. subst source. split; [lia|]. intros H. apply co_closed0 in H. lia.
      + intros source H1 H2. destruct (decide (source = st_nextSource s)) as [->|]; [done|].
        by specialize (co_open0 source ltac:(lia) H2).
      + intros source H. apply co_closed0 in H. lia. }
  destruct (sse_opens _); [exact H1|].
  apply sound_close; [|by apply error_sound|apply error_served].
  rewrite (ke_next _ _ (keeps_error now STREAM_START_ERROR None s1)). unfold s1. destruct (st_sseSource s); cbn; lia.
Qed.

Lemma sound_request messages s : coherent s -> unfinished s ->
  sound (sendNonStreamingChat config parameterEnabled messages s).
Proof.
  intros [] Hu. unfold sendNonStreamingChat. cbn zeta. split; [split; cbn; auto| |exact Hu].
  - intros r H. apply Some_inj in H. lia.
  - intros _. right. right. cbn. split; [left|]. intros H. apply co_aborted0 in H. lia.
Qed.

Lemma sound_sendChat now messages s : coherent s -> unfinished s -> sound (sendChat now messages s).
Proof.
  intros Hc Hu. unfold ChatHandler.sendChat. cbn zeta.
  match goal with |- context [sendStreamingChat _ _ _ _ _ _ ?x] => set (s1 := x) end.
  assert (keeps s s1) as K.
  { unfold s1. destruct (negb _); [|apply keeps_clear]. eapply keeps_trans; [apply keeps_clear|]. split; [coherence|done..]. }
  destruct (pc_stream config).
  - apply sound_stream. apply (ke_coherent _ _ (keeps_requesting true s1)), (ke_coherent _ _ K), Hc.
  - apply sound_request; [by apply (ke_coherent _ _ K)|by eapply unfinished_keeps].
Qed.

Lemma sound_stop now s : sound s -> sound (stopGeneration now s).
Proof.
  intros Hs. unfold stopGeneration. cbn zeta. apply sound_update.
  set (s1 := closeActiveStream None s). set (s2 := flushStreamUpdates now (exitAutoResendMode s1)).
  assert (coherent s1 /\ unfinished s1) as [H1 U1].
  { unfold s1, closeActiveStream. cbn [or_else]. destruct Hs as [[] _ Hu]. split; [|by intros []].
    destruct (st_sseSource s) as [src|] eqn:E; split; cbn; auto; try done.
    - intros x H1 [H2 H3]%not_elem_of_cons. specialize (co_open0 x H1 H3). congruence.
    - intros x [->|H1]%elem_of_cons; [|by apply co_closed0]. by apply co_current0. }
  assert (keeps s1 s2) as K by (eapply keeps_trans; [apply keeps_exit|apply keeps_flush]).
  assert (coherent s2) as H2 by (by apply (ke_coherent _ _ K)).
  assert (unfinished s2) as U2 by (by eapply unfinished_keeps).
  destruct (st_abortController s2) as [r|] eqn:E; (split; [|done|exact U2]); destruct H2; split; cbn; try done.
  intros r' [->|H]%elem_of_cons; auto.
Qed.

(** An answer to a request: what it served is over. *)
Lemma sound_answer request s s1 : sound s -> keeps (s{{ st_inFlight := remove request (st_inFlight s) }}) s1 ->
  (st_isRequesting s1 = true -> st_autoTimer s1 = None -> st_isRequesting s = true /\ st_autoTimer s = None) ->
  sound (request_finally request s1).
Proof.
  intros [Hc Hs Hu] K Hr.
  assert (coherent s1) as H1 by (apply (ke_coherent _ _ K); destruct Hc; split; cbn; auto).
  assert (unfinished s1) as U1 by (by eapply unfinished_keeps; [exact K|exact Hu]).
  unfold request_finally. destruct (bool_decide_reflect (st_requestId s1 = request)) as [E|E].
  - destruct H1. split; [split; cbn; auto|done|exact U1]. done.
  - split; [done| |done]. intros Hr1. destruct (st_autoTimer s1) as [tm|] eqn:Et; [right; left; by rewrite Et|].
    destruct (Hr Hr1 eq_refl) as [Hr0 Ht0]. specialize (Hs Hr0). unfold served in *.
    rewrite (ke_source _ _ K), (ke_request _ _ K), (ke_inFlight _ _ K), (ke_aborted _ _ K) in *. cbn in *.
    rewrite elem_of_remove. destruct Hs as [H|[H|[H1' H2]]]; [by left|done|].
    right. right. done.
Qed.

(** A source delivers no event once it is closed. *)
Definition prompt (e : Event) (s : ChatState) : bool :=
  match e with
  | EvMessage source _ | EvError source _ _ | EvReadyState source _ _ => bool_decide (source ∉ st_closed s)
  | _ => true
  end.

Lemma sound_response now request choices s : sound s -> sound (on_response config t now request choices s).
Proof.
  intros Hs. unfold on_response. cbn zeta. set (s0 := s{{ st_inFlight := remove request (st_inFlight s) }}).
  apply (sound_answer request s); [done| |]; fold s0.
  - destruct (bool_decide _); [by split|]. destruct (negb _); [apply keeps_error|apply keeps_update].
  - destruct (bool_decide _); [done|]. destruct (negb _); [|done].
    intros H1 H2. by destruct (error_served now API_REQUEST_ERROR None s0 H1).
Qed.

Lemma sound_failure now request error s : sound s -> sound (on_failure config t now request error s).
Proof.
  intros Hs. unfold on_failure. cbn zeta. set (s0 := s{{ st_inFlight := remove request (st_inFlight s) }}).
  apply (sound_answer request s); [done| |]; fold s0.
  - destruct (bool_decide _); [by split|]. apply keeps_error.
  - destruct (bool_decide _); [done|]. intros H1 H2. by destruct (error_served now _ _ s0 H1).
Qed.

Lemma sound_on_message now src data s : (src < st_nextSource s)%nat -> src ∉ st_closed s -> sound s ->
  sound (on_message config t now src data s).
Proof.
  intros Hn Ho Hs. destruct (isStreamDoneMessage data) eqn:Ed.
  - assert (data = STREAM_DONE_MESSAGE) as -> by (unfold isStreamDoneMessage in Ed; by apply bool_decide_eq_true in Ed).
    apply sound_done; [done..|]. by apply (co_open s (so_coherent s Hs)).
  - unfold on_message. rewrite Ed. destruct (parseStreamMessageUpdates data) as [ups|].
    + destruct (sound_apply_updates ups s Hs) as [H1 H2]. destruct (apply_updates ups s) as [s1 [|]]; [done|].
      cbn [fst] in *. apply sound_handleError; [by rewrite H2|done].
    + by apply sound_handleError.
Qed.

Lemma sound_trigger now ids messages s : sound s ->
  sound (triggerAutoResend config parameterEnabled t sse_opens now ids messages s).
Proof.
  intros Hs. unfold triggerAutoResend. cbn zeta. destruct (negb _); [done|].
  apply sound_sendChat; [|exact (so_unfinished s Hs)]. destruct (so_coherent s Hs). split; cbn; auto.
Qed.

Lemma sound_handle now e s : sound s -> enabled e s = true -> prompt e s = true -> sound (handle now e s).
Proof.
  intros Hs He Hp. pose proof Hs as [Hc Hr Hu].
  assert (forall messages, sound (send_messages config parameterEnabled t sse_opens now messages s)) as Hsend.
  { intros messages. apply sound_sendChat; [by apply (ke_coherent _ _ (keeps_update _ s))|exact Hu]. }
  destruct e; cbn [ChatHandler.handle enabled prompt] in *; try (apply Nat.ltb_lt in He); try (apply bool_decide_eq_true in Hp).
  - apply Hsend.
  - unfold handleRegenerateMessage. destruct (createRegeneratedMessages _ _ _ _); [apply Hsend|done].
  - by destruct Hc; split; [split; cbn; auto|exact Hr|exact Hu].
  - unfold handleEditOpenChange. destruct open; [done|]. by destruct Hc; split; [split; cbn; auto|exact Hr|exact Hu].
  - unfold applyEdit. destruct (st_editing s) as [[|]|]; [done| |done].
    destruct (applyMessageEdit _ _ _ _ _ _) as [[messages []]|]; [| |done].
    + apply sound_sendChat; [|exact Hu]. destruct Hc; split; cbn; auto.
    + apply sound_update. by destruct Hc; split; [split; cbn; auto|exact Hr|exact Hu].
  - by apply sound_update.
  - unfold handleClearMessages. apply sound_update. by destruct Hc; split; [split; cbn; auto|exact Hr|exact Hu].
  - by apply sound_stop.
  - unfold load_effect. destruct (st_hasTriggered s); [done|]. destruct (negb _); [done|]. cbn zeta.
    assert (sound (s{{ st_hasTriggered := true }})) as H1 by (destruct Hc; split; [split; cbn; auto|exact Hr|exact Hu]; done).
    destruct (negb _); [by apply sound_update|by apply sound_trigger].
  - by destruct Hc; split; [split; cbn; auto|exact Hr|exact Hu].
  - by apply sound_on_message.
  - unfold on_error. destruct (isStreamClosedReadyState _); [done|]. by apply sound_handleError.
  - unfold on_readystatechange. destruct (getStreamReadyStateError _ _); [|done]. by apply sound_handleError.
  - by apply sound_flush.
  - unfold on_retry. cbn zeta. apply sound_sendChat; [|exact Hu]. destruct Hc; split; cbn; auto. done.
  - by apply sound_response.
  - by apply sound_failure.
Qed.

(** ** Retries are bounded *)

Definition is_request (e : Effect) : bool := match e with SseRequest _ _ | HttpRequest _ _ => true | _ => false end.

(** The requests sent so far. *)
Definition requests (s : ChatState) : Z := Z.of_nat (length (List.filter is_request (st_effects s))).

(** The resends that may still come: running timers and the retries left. *)
Definition retries_left (s : ChatState) : Z :=
  Z.of_nat (length (st_timers s))
  + (if st_isAutoResendMode s then Z.max 0 (pc_autoResendMaxRetries config - st_retryCount s) else 0).

Definition budget (s : ChatState) : Z := requests s + retries_left s.

Lemma requests_effect e s : requests (effect e s) = (requests s + if is_request e then 1 else 0)%Z.
Proof.
  unfold requests, effect. cbn [apply_update constant st_effects]. rewrite List.filter_app, length_app. cbn [List.filter].
  destruct (is_request e); cbn [length]; lia.
Qed.

Lemma budget_effect e s : budget (effect e s) = (budget s + if is_request e then 1 else 0)%Z.
Proof. unfold budget. rewrite requests_effect. change (retries_left (effect e s)) with (retries_left s). lia. Qed.

Lemma budget_update f s : budget (update_messages f s) = budget s.
Proof. done. Qed.

Lemma budget_flush now s : budget (flushStreamUpdates now s) = budget s.
Proof. unfold flushStreamUpdates. cbn zeta. by destruct (negb _ && negb _). Qed.

Lemma budget_clear s : (budget (clearAutoResendTimer s) <= budget s)%Z.
Proof.
  unfold clearAutoResendTimer. destruct (st_autoTimer s) as [tm|]; [|done]. unfold budget, requests, retries_left. cbn.
  pose proof (length_remove tm (st_timers s)). lia.
Qed.

(** Leaving the auto-resend mode leaves no retries. *)
Lemma budget_leave s : (budget (s{{ st_isAutoResendMode := false; st_retryCount := (-1)%Z }}) <= budget s)%Z.
Proof. unfold budget, requests, retries_left. cbn. destruct (st_isAutoResendMode s); lia. Qed.

Lemma budget_exit s : (budget (exitAutoResendMode s) <= budget s)%Z.
Proof. etransitivity; [apply budget_leave|apply budget_clear]. Qed.

Lemma requests_arm d s : requests (arm_retry config d s) = requests s.
Proof. unfold requests, arm_retry, effect. cbn. by rewrite !List.filter_app, !app_nil_r. Qed.

(** A retry is paid by the retries left. *)
Lemma budget_error now e c s : (budget (handleStreamError now e c s) <= budget s)%Z.
Proof.
  unfold ChatHandler.handleStreamError. rewrite <- (budget_flush now s). set (s1 := flushStreamUpdates now s).
  destruct (decideAutoResend _ _ _ _) as [d|] eqn:E.
  - unfold decideAutoResend in E. destruct (st_isAutoResendMode s1) eqn:Em; [|done]. destruct (pc_autoResendEnabled config); [|done].
    cbn [negb orb] in E. destruct (Z.leb_spec (pc_autoResendMaxRetries config) (st_retryCount s1)) as [|Hlt]; [done|].
    unfold budget. rewrite requests_arm. unfold retries_left, arm_retry, effect.
    cbn [apply_update constant st_timers st_isAutoResendMode st_retryCount]. rewrite length_app, Em. cbn [length]. lia.
  - unfold abandon. cbn zeta. etransitivity; [|apply (budget_exit s1)].
    rewrite budget_update, budget_effect. cbn [is_request]. rewrite Z.add_0_r. done.
Qed.

Lemma budget_close src s : budget (closeActiveStream src s) = budget s.
Proof.
  unfold closeActiveStream. destruct src as [src|]; cbn [or_else]; [by destruct (_ ==? _)|].
  by destruct (st_sseSource s).
Qed.

Lemma budget_handleError now src e c s : (budget (handleError config t now src e c s) <= budget s)%Z.
Proof.
  unfold handleError. destruct (st_isStreamComplete s); [done|]. rewrite budget_close. apply budget_error.
Qed.

(** A send makes one request. *)
Lemma budget_sendChat now messages s : (budget (sendChat now messages s) <= budget s + 1)%Z.
Proof.
  unfold ChatHandler.sendChat. cbn zeta.
  match goal with |- context [sendStreamingChat _ _ _ _ _ _ ?x] => set (s1 := x) end.
  assert (budget s1 <= budget s)%Z as H1.
  { unfold s1. pose proof (budget_clear s). destruct (negb _); [|done]. etransitivity; [apply budget_leave|done]. }
  destruct (pc_stream config).
  - unfold sendStreamingChat, sendStreamRequest. cbn zeta.
    match goal with |- context [if sse_opens _ then ?x else _] => set (s2 := x) end.
    assert (budget s2 = budget s1 + 1)%Z as H2.
    { unfold s2. rewrite budget_effect. cbn [is_request]. cbn. by destruct (st_sseSource s1). }
    destruct (sse_opens _); [lia|]. rewrite budget_close. pose proof (budget_error now STREAM_START_ERROR None s2). lia.
  - unfold sendNonStreamingChat. cbn zeta. rewrite budget_effect. cbn [is_request]. match goal with |- (budget ?x + _ <= _)%Z => change (budget x) with (budget s1) end. lia.
Qed.

Lemma apply_updates_budget ups : forall s, budget (fst (apply_updates ups s)) = budget s.
Proof.
  induction ups as [|[ty v] ups IH]; intros s; [done|]. cbn [apply_updates].
  destruct (handleStreamUpdate ty v s) as [s1|] eqn:E; [|done]. rewrite IH.
  unfold handleStreamUpdate in E. destruct ty; by res_inv.
Qed.

Lemma budget_stop now s : (budget (stopGeneration now s) <= budget s)%Z.
Proof.
  unfold stopGeneration. cbn zeta. rewrite <- (budget_close None s). set (s1 := closeActiveStream None s).
  etransitivity; [|apply (budget_exit s1)]. rewrite <- (budget_flush now (exitAutoResendMode s1)).
  generalize (flushStreamUpdates now (exitAutoResendMode s1)). intros s2. rewrite budget_update.
  by destruct (st_abortController s2).
Qed.

Lemma budget_finally r s : budget (request_finally r s) = budget s.
Proof. unfold request_finally. by destruct (_ ==? _). Qed.

Lemma budget_complete now s : (budget (handleStreamComplete now s) <= budget s)%Z.
Proof.
  unfold handleStreamComplete. cbn zeta. rewrite budget_update.
  etransitivity; [|by rewrite <- (budget_flush now s)]. apply (budget_exit (flushStreamUpdates now s)).
Qed.

(** The events by which the user sends messages. *)
Definition sends (e : Event) : bool :=
  match e with EvSend _ _ _ | EvRegenerate _ _ | EvApplyEdit _ _ _ => true | _ => false end.

(** What the load of the page may still resend: it does so once. *)
Definition load_budget (s : ChatState) : Z :=
  if st_hasTriggered s then 0 else (1 + Z.max 0 (pc_autoResendMaxRetries config))%Z.

Lemma budget_retry now timer ids s : timer ∈ st_timers s ->
  (budget (on_retry config parameterEnabled t sse_opens now timer ids s) <= budget s)%Z.
Proof.
  intros H. unfold on_retry. cbn zeta. etransitivity; [apply budget_sendChat|].
  unfold budget, requests, retries_left. cbn. pose proof (length_remove_elem timer (st_timers s) H). lia.
Qed.

Lemma triggered_error now e c s : st_hasTriggered (handleStreamError now e c s) = st_hasTriggered s.
Proof.
  unfold ChatHandler.handleStreamError. assert (st_hasTriggered (flushStreamUpdates now s) = st_hasTriggered s) as <-.
  { unfold flushStreamUpdates. cbn zeta. by destruct (negb _ && negb _). }
  destruct (decideAutoResend _ _ _ _); [done|]. unfold abandon. cbn. unfold clearAutoResendTimer. by destruct (st_autoTimer _).
Qed.

Lemma triggered_close src s : st_hasTriggered (closeActiveStream src s) = st_hasTriggered s.
Proof.
  unfold closeActiveStream. destruct src as [src|]; cbn [or_else]; [by destruct (_ ==? _)|]. by destruct (st_sseSource s).
Qed.

Lemma triggered_handleError now src e c s : st_hasTriggered (handleError config t now src e c s) = st_hasTriggered s.
Proof. unfold handleError. destruct (st_isStreamComplete s); [done|]. by rewrite triggered_close, triggered_error. Qed.

Lemma triggered_sendChat now messages s : st_hasTriggered (sendChat now messages s) = st_hasTriggered s.
Proof.
  unfold ChatHandler.sendChat. cbn zeta.
  match goal with |- context [sendStreamingChat _ _ _ _ _ _ ?x] => set (s1 := x) end.
  assert (st_hasTriggered s1 = st_hasTriggered s) as <-.
  { unfold s1, clearAutoResendTimer. by destruct (st_autoTimer s), (negb _). }
  destruct (pc_stream config); [|done]. unfold sendStreamingChat, sendStreamRequest. cbn zeta.
  destruct (sse_opens _); [|rewrite triggered_close, triggered_error]; by destruct (st_sseSource _).
Qed.

Lemma apply_updates_triggered ups : forall s, st_hasTriggered (fst (apply_updates ups s)) = st_hasTriggered s.
Proof.
  induction ups as [|[ty v] ups IH]; intros s; [done|]. cbn [apply_updates].
  destruct (handleStreamUpdate ty v s) as [s1|] eqn:E; [|done]. rewrite IH.
  unfold handleStreamUpdate in E. destruct ty; by res_inv.
Qed.

(** Only the load of the page triggers its resend. *)
Lemma triggered_handle now e s : (match e with EvLoaded _ => false | _ => true end) = true ->
  st_hasTriggered (handle now e s) = st_hasTriggered s.
Proof.
  assert (forall r s, st_hasTriggered (request_finally r s) = st_hasTriggered s) as Hfin.
  { intros r s1. unfold request_finally. by destruct (_ ==? _). }
  assert (forall s, st_hasTriggered (flushStreamUpdates now s) = st_hasTriggered s) as Hfl.
  { intros s1. unfold flushStreamUpdates. cbn zeta. by destruct (negb _ && negb _). }
  assert (forall s, st_hasTriggered (exitAutoResendMode s) = st_hasTriggered s) as Hex.
  { intros s1. unfold exitAutoResendMode, clearAutoResendTimer. by destruct (st_autoTimer s1). }
  assert (forall f s, st_hasTriggered (update_messages f s) = st_hasTriggered s) as Hup by done.
  assert (forall b s, st_hasTriggered (s{{ st_isRequesting := b }}) = st_hasTriggered s) as Hreq by done.
  destruct e as [u a x|ids k|k|open|ids c sub|k| | |ids| |src data|src data rs|src rs st| |timer ids|r cs|r err];
    cbn [ChatHandler.handle]; intros He; try done.
  - unfold handleSendMessage, send_messages. by rewrite triggered_sendChat.
  - unfold handleRegenerateMessage. destruct (createRegeneratedMessages _ _ _ _); [|done].
    unfold send_messages. by rewrite triggered_sendChat.
  - by destruct open.
  - unfold applyEdit. destruct (st_editing s) as [[|]|]; [done| |done].
    destruct (applyMessageEdit _ _ _ _ _ _) as [[ms []]|]; [|done..]. by rewrite triggered_sendChat.
  - unfold stopGeneration. cbn zeta. rewrite Hup.
    assert (st_hasTriggered (flushStreamUpdates now (exitAutoResendMode (closeActiveStream None s))) = st_hasTriggered s) as <-
      by (by rewrite Hfl, Hex, triggered_close).
    generalize (flushStreamUpdates now (exitAutoResendMode (closeActiveStream None s))). intros s1.
    by destruct (st_abortController s1).
  - unfold on_message. destruct (isStreamDoneMessage data).
    + unfold handleStreamComplete. cbn zeta. rewrite Hup, Hreq. by rewrite Hex, Hfl, triggered_close.
    + destruct (parseStreamMessageUpdates data) as [ups|]; [|apply triggered_handleError].
      pose proof (apply_updates_triggered ups s) as E. destruct (apply_updates ups s) as [s1 [|]]; cbn [fst] in E; [done|].
      by rewrite triggered_handleError.
  - unfold on_error. destruct (isStreamClosedReadyState _); [done|]. apply triggered_handleError.
  - unfold on_readystatechange. destruct (getStreamReadyStateError _ _); [|done]. apply triggered_handleError.
  - unfold on_retry. cbn zeta. by rewrite triggered_sendChat.
  - unfold on_response. cbn zeta. rewrite Hfin. destruct (bool_decide _); [done|]. destruct (negb _); [|done]. by rewrite triggered_error.
  - unfold on_failure. cbn zeta. rewrite Hfin. destruct (bool_decide _); [done|]. by rewrite triggered_error.
Qed.

(** The load sends once: its request and the retries are paid by [load_budget]. *)
Lemma budget_load now ids s :
  (budget (handle now (EvLoaded ids) s) + load_budget (handle now (EvLoaded ids) s) <= budget s + load_budget s)%Z.
Proof.
  cbn [ChatHandler.handle]. unfold load_effect. destruct (st_hasTriggered s) eqn:Et; [done|].
  destruct (negb (hasPendingAutoResend (st_latest s))) eqn:Ep; [done|]. cbn zeta.
  assert (load_budget s = 1 + Z.max 0 (pc_autoResendMaxRetries config))%Z as Es by (unfold load_budget; by rewrite Et).
  destruct (negb (pc_autoResendEnabled config)).
  { rewrite budget_update. change (budget _) with (budget s). unfold load_budget at 1. cbn. lia. }
  unfold triggerAutoResend. change (st_latest (s{{ st_hasTriggered := true }})) with (st_latest s). rewrite Ep.
  cbn zeta. unfold load_budget at 1. rewrite triggered_sendChat. cbn [apply_update constant st_hasTriggered update_messages].
  etransitivity; [apply Z.add_le_mono_r, budget_sendChat|]. rewrite Es.
  unfold budget, requests, retries_left. cbn. destruct (st_isAutoResendMode s); lia.
Qed.

(** An event costs what it is paid: a send of the user one request, the load its own. *)
Lemma budget_handle now e s : enabled e s = true ->
  (budget (handle now e s) + load_budget (handle now e s)
   <= budget s + load_budget s + if sends e then 1 else 0)%Z.
Proof.
  intros He. destruct (match e with EvLoaded _ => false | _ => true end) eqn:Hl.
  2: { destruct e; try done. pose proof (budget_load now ids s). cbn [sends]. lia. }
  assert (load_budget (handle now e s) = load_budget s) as ->.
  { unfold load_budget. by rewrite triggered_handle. }
  assert (budget (handle now e s) <= budget s + if sends e then 1 else 0)%Z; [|lia].
  destruct e as [u a x|ids k|k|open|ids c sub|k| | |ids| |src data|src data rs|src rs st| |timer ids|r cs|r err];
    cbn [sends enabled ChatHandler.handle] in *; rewrite ?Z.add_0_r; try done.
  - unfold handleSendMessage, send_messages. etransitivity; [apply budget_sendChat|]. by rewrite budget_update.
  - unfold handleRegenerateMessage. destruct (createRegeneratedMessages _ _ _ _); [|lia].
    unfold send_messages. etransitivity; [apply budget_sendChat|]. by rewrite budget_update.
  - by destruct open.
  - unfold applyEdit. destruct (st_editing s) as [[|]|]; [lia| |lia].
    destruct (applyMessageEdit _ _ _ _ _ _) as [[ms []]|]; [|rewrite budget_update; change (budget _) with (budget s); lia|lia].
    etransitivity; [apply budget_sendChat|]. rewrite budget_update. done.
  - apply budget_stop.
  - unfold on_message. destruct (isStreamDoneMessage data).
    + etransitivity; [apply budget_complete|]. by rewrite budget_close.
    + destruct (parseStreamMessageUpdates data) as [ups|]; [|apply budget_handleError].
      pose proof (apply_updates_budget ups s) as E. destruct (apply_updates ups s) as [s1 [|]]; cbn [fst] in E;
        [by rewrite E|]. etransitivity; [apply budget_handleError|]. by rewrite E.
  - unfold on_error. destruct (isStreamClosedReadyState _); [done|]. apply budget_handleError.
  - unfold on_readystatechange. destruct (getStreamReadyStateError _ _); [|done]. apply budget_handleError.
  - by rewrite budget_flush.
  - apply bool_decide_eq_true in He. by apply budget_retry.
  - unfold on_response. cbn zeta. rewrite budget_finally. destruct (bool_decide (r ∈ st_aborted _)); [apply Z.le_refl|].
    destruct (negb _); [|apply Z.le_refl]. etransitivity; [apply budget_error|]. apply Z.le_refl.
  - unfold on_failure. cbn zeta. rewrite budget_finally. destruct (bool_decide (r ∈ st_aborted _)); [apply Z.le_refl|].
    etransitivity; [apply budget_error|]. apply Z.le_refl.
Qed.

Definition sends_of (es : list (Z * Event)) : Z := Z.of_nat (length (List.filter (fun e => sends (snd e)) es)).

Lemma budget_run es s s' : run es s s' -> (budget s' + load_budget s' <= budget s + load_budget s + sends_of es)%Z.
Proof.
  induction 1 as [s|e es s s1 s2 Hst _ IH]; [unfold sends_of; cbn; lia|]. destruct Hst as [now e s Hen].
  pose proof (budget_handle now e s Hen) as H1. unfold sends_of in *. cbn [List.filter snd].
  destruct (sends e); cbn [length]; lia.
Qed.

Lemma requests_budget s : (requests s <= budget s)%Z.
Proof. unfold budget, retries_left. destruct (st_isAutoResendMode s); lia. Qed.

(** C2: whatever the user, the sources, the timers and the requests do, and however often the
    loading effect runs, the page makes at most one request for each time the user sends,
    regenerates or applies an edit, one more for the message that a reload interrupted, and
    the retries the limit allows. *)
Theorem auto_resend_bounded messages es s :
  run es (mounted messages) s ->
  (requests s <= sends_of es + 1 + Z.max 0 (pc_autoResendMaxRetries config))%Z.
Proof.
  intros Hr%budget_run. pose proof (requests_budget s). unfold load_budget in Hr.
  assert (budget (mounted messages) = 0)%Z as E by done. cbn [mounted st_hasTriggered] in Hr.
  destruct (st_hasTriggered s); lia.
Qed.

(** ** The page is never stuck *)

(** Runs in which closed sources are silent. *)
Inductive prompt_run : list (Z * Event) -> ChatState -> ChatState -> Prop :=
| prompt_nil s : prompt_run [] s s
| prompt_cons now e es s s' : enabled e s = true -> prompt e s = true ->
    prompt_run es (handle now e s) s' -> prompt_run ((now, e) :: es) s s'.

Lemma sound_run es s s' : prompt_run es s s' -> sound s -> sound s'.
Proof. induction 1 as [|now e es s s' He Hp _ IH]; [done|]. intros Hs. by apply IH, sound_handle. Qed.






(** *** The work that is left *)




















(** C5: in every such run the page holds exactly one open source while it streams, a
    request in progress has an open source, a running retry timer or an answer to come, and
    text that is not shown yet has a timer that will show it. *)
Theorem chat_invariant messages es s :
  prompt_run es (mounted messages) s ->
  (st_isStreaming s = true <-> exists source, (source < st_nextSource s)%nat /\ source ∉ st_closed s)
  /\ (forall a b, (a < st_nextSource s)%nat -> (b < st_nextSource s)%nat ->
        a ∉ st_closed s -> b ∉ st_closed s -> a = b)
  /\ (st_isRequesting s = true ->
        st_isStreaming s = true
        \/ (exists timer, st_autoTimer s = Some timer /\ timer ∈ st_timers s)
        \/ (st_requestId s ∈ st_inFlight s /\ st_requestId s ∉ st_aborted s))
  /\ (st_content s <> [] \/ st_reasoning s <> [] -> st_flushTimer s = true).
Proof.
  intros H. pose proof (sound_run _ _ _ H (mounted_sound messages)) as [Hc Hr Hu]. pose proof Hc as [].
  split_and!.
  - rewrite co_streaming0. destruct (st_sseSource s) as [src|].
    + split; [|done]. intros _. exists src. by apply co_current0.
    + split; [done|]. intros (src & H1 & H2). by specialize (co_open0 src H1 H2).
  - intros a b Ha Hb Ha' Hb'. specialize (co_open0 a Ha Ha') as E1. specialize (co_open0 b Hb Hb') as E2. congruence.
  - intros Hq. destruct (Hr Hq) as [E|[E|E]]; [left|right; left|by right; right].
    + rewrite co_streaming0. by destruct (st_sseSource s).
    + destruct (st_autoTimer s) as [tm|]; [|done]. eauto.
  - intros Hp. destruct (st_flushTimer s); [done|]. destruct (co_pending0 eq_refl) as [E1 E2]. rewrite E1, E2 in Hp. tauto.
Qed.

(** ** Runs as computations *)

(** Every event can happen when its turn comes, and closed sources are silent. *)
Fixpoint admissible (es : list (Z * Event)) (s : ChatState) : bool :=
  match es with
  | [] => true
  | (now, e) :: es => enabled e s && prompt e s && admissible es (handle now e s)
  end.

Lemma exec_prompt_run es : forall s, admissible es s = true ->
  prompt_run es s (exec config parameterEnabled t sse_opens es s).
Proof.
  induction es as [|[now e] es IH]; intros s H; cbn [admissible] in H; [constructor|].
  rewrite !andb_true_iff in H. destruct H as [[He Hp] H]. constructor; [done..|].
  unfold exec. cbn [fold_left]. rewrite He. by apply IH.
Qed.

Lemma prompt_run_run es s s' : prompt_run es s s' -> run es s s'.
Proof. induction 1; econstructor; [by constructor|done]. Qed.

End Chat.

(** ** Concrete runs *)

(** A conversation whose last answer was interrupted by a reload. *)
Definition demo_loaded : list Message :=
  [createUserMessage (demo_ids "u1") "question" 0;
   sanitized (createLoadingAssistantMessage (demo_ids "a1") 0)].

Definition demo_load : Z * Event := (0%Z, EvLoaded (fun _ => "v")).
Definition demo_fail (source : nat) : Z * Event := (0%Z, EvError source "boom" 1).
Definition demo_retry (timer : nat) : Z * Event := (0%Z, EvRetry timer (fun _ => "v")).

(** Every attempt fails. *)
Definition demo_failing : list (Z * Event) :=
  [demo_fail 0; demo_retry 0; demo_fail 1; demo_retry 1; demo_fail 2; demo_retry 2; demo_fail 3].

Definition demo_end : ChatState := demo_exec true (demo_load :: demo_failing) (mounted demo_loaded).

Lemma demo_run : run (demo_config true) demo_parameters (fun s => s) (fun _ => true)
  (demo_load :: demo_failing) (mounted demo_loaded) demo_end.
Proof. apply prompt_run_run, exec_prompt_run. vm_compute. reflexivity. Qed.

Lemma demo_prompt_run : prompt_run (demo_config true) demo_parameters (fun s => s) (fun _ => true)
  [demo_load; demo_fail 0] (mounted demo_loaded) (demo_exec true [demo_load; demo_fail 0] (mounted demo_loaded)).
Proof. apply exec_prompt_run. vm_compute. reflexivity. Qed.

(** The delays double, then the page gives up. *)
Example demo_backoff :
  flat_map (fun e => match e with RetryTimer _ d => [d] | _ => [] end) (st_effects demo_end) = [1000; 2000; 4000]%Z
  /\ requests demo_end = 4%Z /\ isGenerating demo_end = false
  /\ option_map m_status (last (st_messages demo_end)) = Some (Some ERROR).
Proof. vm_compute. done. Qed.

Lemma auto_resend_bounded_witness : (requests demo_end <= 4)%Z.
Proof.
  exact (auto_resend_bounded (demo_config true) demo_parameters (fun s => s) (fun _ => true)
           demo_loaded (demo_load :: demo_failing) demo_end demo_run).
Defined.


Lemma chat_invariant_witness :
  let s := demo_exec true [demo_load; demo_fail 0] (mounted demo_loaded) in
  st_isRequesting s = true
  /\ (st_isStreaming s = true \/ (exists timer, st_autoTimer s = Some timer /\ timer ∈ st_timers s)
      \/ (st_requestId s ∈ st_inFlight s /\ st_requestId s ∉ st_aborted s)).
Proof.
  cbn zeta. match goal with |- ?P /\ _ => assert P as H by (vm_compute; reflexivity) end. split; [exact H|].
  exact (proj1 (proj2 (proj2 (chat_invariant _ _ _ _ _ _ _ demo_prompt_run))) H).
Defined.

(** Without streaming: the resent answer arrives, the user asks again, the second request
    fails and its retry timer fires. *)
Definition demo_answer : option (list ChatCompletionChoice) :=
  Some [Some {| ch_content := Some "answer"; ch_reasoning_content := None |}].

Definition demo_answered : list (Z * Event) := [demo_load; (0%Z, EvRender); (0%Z, EvResponse 1 demo_answer); (0%Z, EvRender)].

Definition demo_failure : Z * Event :=
  (0%Z, EvFailure 2 {| re_code := None; re_data_message := None; re_message := Some "Network Error" |}).

Definition demo_asked_again : list (Z * Event) :=
  demo_answered ++ [demo_send "u2" "a2" "next"; (0%Z, EvRender); demo_failure; demo_retry 0].

(** Without streaming, an answer that was resent after a reload keeps its resend
    mark, so the page stays in auto-resend mode: when a later question fails, its retry resets the
    finished answer too, and the text the user had read is gone. *)
Theorem resent_answer_erased :
  let answered := demo_exec false demo_answered (mounted demo_loaded) in
  let retried := demo_exec false demo_asked_again (mounted demo_loaded) in
  map (fun m => (m_key m, getMessageContent m, m_status m)) (st_messages answered)
  = [("u1", "question", None); ("a1", "answer", Some COMPLETE)]
  /\ isGenerating answered = false /\ st_isAutoResendMode answered = true
  /\ map (fun m => (m_key m, getMessageContent m, m_status m)) (st_messages retried)
     = [("u1", "question", None); ("a1", [], Some LOADING); ("u2", "next", None); ("a2", [], Some LOADING)].
Proof. vm_compute. done. Qed.
