(* ===== verification/HttpStatusRules.v ===== *)
(** * HTTP status code rules (lib/http-status-code-rules.ts)

    The list of status codes and ranges of a setting: its parser, the merge of the
    ranges and the normal form it writes. *)
From stdpp Require Import sorting.
From S2P Require Import Prelude JsString JsNumber JsValue OrderedMap.

Record StatusCodeRange := { start : Z; stop : Z }.

#[export] Instance StatusCodeRange_eq : EqDecision StatusCodeRange.
Proof. solve_decision. Defined.

Record ParsedHttpStatusCodeRules := {
  ok : bool;
  ranges : list StatusCodeRange;
  tokens : list jstr;
  normalized : jstr;
  invalidTokens : list jstr
}.

(** [/^\d+$/.test(s)] *)
Definition isNumber (s : jstr) : bool := non_empty s && forallb is_digit s.

Definition isValidCode (code : Z) : bool := ((100 <=? code) && (code <=? 599))%Z.

(** [parseInt] on digits; a number too large for a double is no code either way. *)
Definition parseToken (token : jstr) : option StatusCodeRange :=
  let cleaned := List.filter (fun c => negb (is_space c)) (trim token) in
  if negb (non_empty cleaned) then None
  else if includes cleaned "-" then
    match split "-" cleaned with
    | a :: b :: _ =>
        if negb (isNumber a) || negb (isNumber b) then None
        else
          let s := digits_val a in
          let e := digits_val b in
          if negb (isValidCode s) || negb (isValidCode e) || (e <? s)%Z then None
          else Some {| start := s; stop := e |}
    | _ => None
    end
  else if negb (isNumber cleaned) then None
  else
    let code := digits_val cleaned in
    if negb (isValidCode code) then None else Some {| start := code; stop := code |}.

(** [a.start !== b.start ? a.start - b.start : a.end - b.end] *)
Definition range_cmp (a b : StatusCodeRange) : comparison :=
  cmp_or (start a ?= start b)%Z (stop a ?= stop b)%Z.

(** One step of the reduction: the last range is changed in place. *)
Definition merge_step (merged : list StatusCodeRange) (current : StatusCodeRange) : list StatusCodeRange :=
  match last merged with
  | None => merged ++ [current]
  | Some l =>
      if (stop l + 1 <? start current)%Z then merged ++ [current]
      else removelast merged ++ [{| start := start l; stop := Z.max (stop l) (stop current) |}]
  end.

Definition mergeRanges (rs : list StatusCodeRange) : list StatusCodeRange :=
  fold_left merge_step (js_sort range_cmp rs) [].

Definition range_token (r : StatusCodeRange) : jstr :=
  if (start r =? stop r)%Z then Z_to_jstr (start r) else Z_to_jstr (start r) ++ "-" ++ Z_to_jstr (stop r).

Definition comma : jstr := ",".

(** The fullwidth comma is read as a comma. *)
Definition sanitize (raw : jstr) : jstr := map (fun c => if (c =? 65292)%N then 44%N else c) raw.

Definition segments (raw : jstr) : list jstr := List.filter non_empty (map trim (split comma (sanitize raw))).

Definition parseHttpStatusCodeRules (input : jsval) : ParsedHttpStatusCodeRules :=
  let raw := trim (js_to_string (js_nullish input (JStr []))) in
  match raw with
  | [] => {| ok := true; ranges := []; tokens := []; normalized := []; invalidTokens := [] |}
  | _ =>
      let parsed := map (fun s => (s, parseToken s)) (segments raw) in
      let invalid := flat_map (fun '(s, r) => match r with None => [s] | Some _ => [] end) parsed in
      match invalid with
      | _ :: _ => {| ok := false; ranges := []; tokens := []; normalized := raw; invalidTokens := invalid |}
      | [] =>
          let merged := mergeRanges (omap snd parsed) in
          {| ok := true; ranges := merged; tokens := map range_token merged;
             normalized := join comma (map range_token merged); invalidTokens := [] |}
      end
  end.

(** ** Merging *)

Definition covers (rs : list StatusCodeRange) (code : Z) : Prop :=
  exists r, r ∈ rs /\ (start r <= code <= stop r)%Z.

(** Ranges that are in order and do not touch. *)
Definition apart (a b : StatusCodeRange) : Prop := (stop a + 1 < start b)%Z.
Definition separated (rs : list StatusCodeRange) : Prop :=
  Forall (fun r => (start r <= stop r)%Z) rs /\ StronglySorted apart rs.

Lemma covers_app a b code : covers (a ++ b) code <-> covers a code \/ covers b code.
Proof. unfold covers. setoid_rewrite elem_of_app. naive_solver. Qed.

Lemma covers_one r code : covers [r] code <-> (start r <= code <= stop r)%Z.
Proof. unfold covers. setoid_rewrite list_elem_of_singleton. naive_solver. Qed.

Lemma covers_perm a b code : a ≡ₚ b -> covers a code <-> covers b code.
Proof. intros H. unfold covers. by setoid_rewrite H. Qed.

Lemma StronglySorted_snoc {A} (R : A -> A -> Prop) l x :
  StronglySorted R (l ++ [x]) <-> StronglySorted R l /\ Forall (fun y => R y x) l.
Proof.
  induction l as [|y l IH]; cbn; [split; intros; repeat constructor|]. split.
  - inversion 1 as [|? ? H1 H2]; subst. apply IH in H1 as [H1 H3]. apply Forall_app in H2 as [H2 H4].
    inversion H4; subst. repeat (constructor; try done).
  - intros [H1 H2]. inversion H1; subst. inversion H2; subst. constructor; [by apply IH|]. apply Forall_app. auto.
Qed.

Lemma merge_snoc m l r : merge_step (m ++ [l]) r
  = if (stop l + 1 <? start r)%Z then (m ++ [l]) ++ [r]
    else m ++ [{| start := start l; stop := Z.max (stop l) (stop r) |}].
Proof. unfold merge_step. rewrite last_snoc, removelast_app by done. cbn. by rewrite app_nil_r. Qed.

(** A range that starts no earlier than the last one keeps the list separated, and adds
    its codes. *)
Lemma merge_step_spec m r : separated m -> (start r <= stop r)%Z ->
  (forall l, last m = Some l -> (start l <= start r)%Z) ->
  separated (merge_step m r) /\ (forall code, covers (merge_step m r) code <-> covers m code \/ covers [r] code)
  /\ (forall l, last (merge_step m r) = Some l -> (start l <= start r)%Z).
Proof.
  intros [Hv Hs] Hr Hl. destruct m as [|l m _] using rev_ind.
  { cbn. split_and!; [by repeat constructor| |by intros l [= <-]]. intros code. rewrite covers_one. unfold covers at 1. set_solver. }
  rewrite merge_snoc. specialize (Hl l (last_snoc _ _)). apply Forall_app in Hv as [Hv Hvl]. inversion Hvl as [|? ? Hl1 _]; subst.
  apply StronglySorted_snoc in Hs as [Hs Hsl]. rewrite Forall_forall in Hv, Hsl.
  destruct (Z.ltb_spec (stop l + 1) (start r)) as [Hlt|Hge].
  - split_and!; [split| |].
    + rewrite !Forall_app, Forall_forall. auto using Forall_singleton.
    + apply StronglySorted_snoc. split; [apply StronglySorted_snoc; split; [done|by apply Forall_forall]|].
      apply Forall_app. split; [|by repeat constructor]. apply Forall_forall. intros y Hy. specialize (Hsl y Hy). unfold apart in *. lia.
    + intros code. by rewrite !covers_app.
    + intros x. rewrite last_snoc. by intros [= <-].
  - split_and!; [split| |].
    + rewrite Forall_app, Forall_forall. split; [done|]. repeat constructor. cbn. lia.
    + apply StronglySorted_snoc. split; [done|]. apply Forall_forall. intros y Hy. exact (Hsl y Hy).
    + intros code. rewrite !covers_app, !covers_one. cbn. split; [intros [?|?]|intros [[?|?]|?]]; auto; lia.
    + intros x. rewrite last_snoc. intros [= <-]. done.
Qed.

Lemma merge_fold rs : forall m, separated m -> Forall (fun r => (start r <= stop r)%Z) rs ->
  StronglySorted (fun a b => start a <= start b)%Z rs ->
  (forall l r, last m = Some l -> r ∈ rs -> (start l <= start r)%Z) ->
  separated (fold_left merge_step rs m) /\ forall code, covers (fold_left merge_step rs m) code <-> covers m code \/ covers rs code.
Proof.
  induction rs as [|r rs IH]; intros m Hm Hv Hs Hl; cbn [fold_left].
  { split; [done|]. intros code. unfold covers at 3. set_solver. }
  inversion Hv as [|? ? Hv1 Hv2]; subst. inversion Hs as [|? ? Hs1 Hs2]; subst. rewrite Forall_forall in Hs2.
  destruct (merge_step_spec m r) as (H1 & H2 & H3); [done|done| |].
  { intros l Hl'. apply (Hl l r Hl'). left. }
  destruct (IH (merge_step m r)) as (K1 & K2); [done|done|done| |].
  { intros l x Hl' Hx. specialize (H3 l Hl'). specialize (Hs2 x Hx). cbn in Hs2. lia. }
  split; [done|]. intros code. rewrite K2, H2. change (r :: rs) with ([r] ++ rs). rewrite covers_app. tauto.
Qed.

Lemma sorted_starts rs : StronglySorted (fun a b => start a <= start b)%Z (js_sort range_cmp rs).
Proof.
  apply Sorted_StronglySorted; [intros a b c; lia|]. apply js_sort_sorted_by; unfold range_cmp, cmp_or; intros a b.
  - destruct (Z.compare_spec (start a) (start b)); try done; lia.
  - destruct (Z.compare_spec (start a) (start b)); try done; lia.
Qed.

Lemma mergeRanges_spec rs : Forall (fun r => (start r <= stop r)%Z) rs ->
  separated (mergeRanges rs) /\ forall code, covers (mergeRanges rs) code <-> covers rs code.
Proof.
  intros Hv. destruct (merge_fold (js_sort range_cmp rs) []) as (H1 & H2).
  - split; constructor.
  - by rewrite js_sort_perm.
  - apply sorted_starts.
  - done.
  - split; [done|]. intros code. unfold mergeRanges. rewrite H2, (covers_perm _ _ code (js_sort_perm range_cmp rs)).
    unfold covers at 1. set_solver.
Qed.

(** Separated ranges are left alone. *)
Lemma merge_separated rs : forall m, StronglySorted apart (m ++ rs) -> fold_left merge_step rs m = m ++ rs.
Proof.
  induction rs as [|r rs IH]; intros m Hs; cbn [fold_left]; [by rewrite app_nil_r|].
  assert (merge_step m r = m ++ [r]) as ->.
  { destruct m as [|l m _] using rev_ind; [done|]. rewrite merge_snoc.
    assert (apart l r) as Ha.
    { rewrite <- app_assoc in Hs. apply StronglySorted_app in Hs as (_ & _ & Hs). inversion Hs as [|? ? _ H]; subst.
      by inversion H. }
    unfold apart in Ha. by rewrite (proj2 (Z.ltb_lt _ _) Ha). }
  rewrite IH; [by rewrite <- app_assoc|]. by rewrite <- app_assoc.
Qed.

Lemma separated_sorted rs : separated rs -> Sorted (cmp_le range_cmp) rs.
Proof.
  intros [Hv Hs]. induction Hs as [|r rs _ IH Hr]; [constructor|]. inversion Hv; subst. constructor; [by apply IH|].
  destruct Hr as [|x rs Hx _]; constructor. unfold cmp_le, range_cmp, cmp_or, apart in *.
  destruct (Z.compare_spec (start r) (start x)); try done; lia.
Qed.

Lemma mergeRanges_id rs : separated rs -> mergeRanges rs = rs.
Proof.
  intros H. unfold mergeRanges. rewrite js_sort_id by (by apply separated_sorted). by apply merge_separated, H.
Qed.

(** ** Tokens *)

Definition range_ok (r : StatusCodeRange) : Prop := (100 <= start r <= stop r /\ stop r <= 599)%Z.

Lemma parseToken_ok s r : parseToken s = Some r -> range_ok r.
Proof.
  assert (forall c, isValidCode c = true -> (100 <= c <= 599)%Z) as Hc.
  { intros c. unfold isValidCode. rewrite andb_true_iff, !Z.leb_le. done. }
  unfold parseToken, range_ok. intros H. destruct (negb (non_empty _)); [done|]. destruct (includes _ "-").
  - destruct (split "-" _) as [|a [|b l]]; [done..|]. destruct (_ || _); [done|].
    destruct (isValidCode (digits_val a)) eqn:Ea; [|done]. destruct (isValidCode (digits_val b)) eqn:Eb; [|done].
    cbn [negb orb] in H. destruct (Z.ltb_spec (digits_val b) (digits_val a)); [done|]. apply Some_inj in H. subst r. cbn.
    apply Hc in Ea, Eb. lia.
  - destruct (negb (isNumber _)); [done|]. destruct (isValidCode _) eqn:E; [|done]. apply Some_inj in H. subst r. cbn.
    apply Hc in E. lia.
Qed.

Definition code_ok (code : Z) : bool :=
  isNumber (Z_to_jstr code) && (digits_val (Z_to_jstr code) =? code)%Z && isValidCode code.

Lemma codes_ok code : (100 <= code <= 599)%Z -> code_ok code = true.
Proof.
  intros H. assert (forallb (fun n => code_ok (Z.of_nat n)) (seq 100 500) = true) as Hall by (vm_compute; reflexivity).
  rewrite forallb_forall in Hall. rewrite <- (Z2Nat.id code) by lia. apply Hall, in_seq. lia.
Qed.

Definition plain (s : jstr) : bool := forallb (fun c => negb (is_space c) && negb (c =? 44)%N && negb (c =? 65292)%N) s.

Lemma plain_trim s : forallb (fun c => negb (is_space c)) s = true -> trim s = s.
Proof.
  intros H. apply trim_id. unfold trimmed. destruct s as [|c s]; [done|]. rewrite forallb_forall in H.
  rewrite H by (by left). destruct (rev (c :: s)) as [|d l] eqn:E; [done|]. apply H, in_rev. rewrite E. by left.
Qed.

Lemma plain_space s : plain s = true -> forallb (fun c => negb (is_space c)) s = true.
Proof. unfold plain. rewrite !forallb_forall. intros H c Hc. specialize (H c Hc). rewrite !andb_true_iff in H. apply H. Qed.

Lemma filter_all_true {A} (p : A -> bool) l : forallb p l = true -> List.filter p l = l.
Proof. induction l as [|x l IH]; cbn; [done|]. intros [-> H]%andb_true_iff. by rewrite IH. Qed.

Lemma digit_plain c : is_digit c = true -> negb (is_space c) && negb (c =? 44)%N && negb (c =? 65292)%N && negb (c =? 45)%N = true.
Proof.
  unfold is_digit. intros H. bools. unfold is_space.
  repeat match goal with
    | |- context [(?a <=? ?b)%N] => destruct (N.leb_spec a b); try lia
    | |- context [(?a =? ?b)%N] => destruct (N.eqb_spec a b); try lia
    end; done.
Qed.

Lemma isNumber_plain s : isNumber s = true -> plain s = true /\ without 45 s = true /\ s <> [].
Proof.
  unfold isNumber, plain, without. rewrite andb_true_iff, !forallb_forall. intros [Hn H]. split_and!.
  - intros c Hc. specialize (digit_plain c (H c Hc)). rewrite andb_true_iff. tauto.
  - intros c Hc. specialize (digit_plain c (H c Hc)). rewrite andb_true_iff. tauto.
  - by destruct s.
Qed.

Lemma without_includes c s : without c s = true -> includes s [c] = false.
Proof.
  induction s as [|d s IH]; [done|]. unfold without in *. cbn. rewrite andb_true_iff, negb_true_iff, N.eqb_neq. intros [Hd Hs].
  rewrite IH by done. unfold startsWith. cbn. destruct (N.eqb_spec c d); [done|]. done.
Qed.

Lemma plain_app a b : plain (a ++ b) = plain a && plain b.
Proof. apply forallb_app. Qed.

(** A range is read back from its token. *)
Lemma range_token_read r : range_ok r ->
  plain (range_token r) = true /\ range_token r <> [] /\ parseToken (range_token r) = Some r.
Proof.
  intros (Hs & He). assert (code_ok (start r) = true) as H1 by (apply codes_ok; lia).
  assert (code_ok (stop r) = true) as H2 by (apply codes_ok; lia). unfold code_ok in H1, H2. bools.
  rewrite !Z.eqb_eq in *. destruct (isNumber_plain (Z_to_jstr (start r))) as (P1 & W1 & N1); [done|].
  destruct (isNumber_plain (Z_to_jstr (stop r))) as (P2 & W2 & N2); [done|].
  assert (forall s, plain s = true -> s <> [] -> List.filter (fun c => negb (is_space c)) (trim s) = s /\ non_empty s = true) as Hclean.
  { intros s P Hne. rewrite plain_trim, filter_all_true by (by apply plain_space). by destruct s. }
  unfold range_token. destruct (Z.eqb_spec (start r) (stop r)) as [E|E].
  - destruct (Hclean _ P1 N1) as [C1 C2]. split_and!; [done|done|]. unfold parseToken. rewrite C1, C2. cbn [negb].
    rewrite (without_includes 45) by done.
    repeat match goal with H : ?x = true |- context [?x] => rewrite H; cbn [negb] end.
    match goal with H : digits_val _ = start r |- _ => rewrite H end.
    repeat match goal with H : ?x = true |- context [?x] => rewrite H; cbn [negb] end.
    f_equal. destruct r; cbn in *. by subst.
  - set (s := Z_to_jstr (start r) ++ "-" ++ Z_to_jstr (stop r)).
    assert (plain s = true) as Ps by (unfold s; by rewrite !plain_app, P1, P2).
    assert (s <> []) as Ns by (unfold s; destruct (Z_to_jstr (start r)); done).
    destruct (Hclean _ Ps Ns) as [C1 C2]. split_and!; [done|done|]. unfold parseToken. rewrite C1, C2. cbn [negb].
    assert (includes s "-" = true) as -> by apply (includes_here (Z_to_jstr (start r)) "-" (Z_to_jstr (stop r))).
    assert (split "-" s = [Z_to_jstr (start r); Z_to_jstr (stop r)]) as ->.
    { apply (split_join 45 [Z_to_jstr (start r); Z_to_jstr (stop r)]); [|done]. cbn. by rewrite W1, W2. }
    repeat match goal with H : ?x = true |- context [?x] => rewrite H; cbn [negb orb] end.
    repeat match goal with H : digits_val _ = _ |- _ => rewrite H; clear H end.
    repeat match goal with H : ?x = true |- context [?x] => rewrite H; cbn [negb orb] end.
    destruct (Z.ltb_spec (stop r) (start r)); [lia|]. by destruct r.
Qed.

(** The normal form is read back segment by segment. *)
Lemma segments_join ts : Forall (fun s => plain s = true /\ s <> []) ts -> ts <> [] ->
  segments (join comma ts) = ts /\ trim (join comma ts) = join comma ts /\ join comma ts <> [].
Proof.
  intros H Hne.
  assert (forallb (fun c => negb (is_space c) && negb (c =? 65292)%N) (join comma ts) = true) as Hj.
  { clear Hne. induction H as [|s ts [Hs _] _ IH]; [done|]. unfold plain in Hs.
    assert (forallb (fun c => negb (is_space c) && negb (c =? 65292)%N) s = true) as Hs'.
    { rewrite forallb_forall in *. intros c Hc. specialize (Hs c Hc). rewrite !andb_true_iff in *. tauto. }
    cbn [join]. destruct ts; [done|]. rewrite !forallb_app, Hs'. cbn [andb]. by rewrite IH. }
  split_and!.
  - unfold segments. assert (sanitize (join comma ts) = join comma ts) as ->.
    { unfold sanitize. rewrite <- (map_id (join comma ts)) at 2. apply map_ext_in. intros c Hc.
      rewrite forallb_forall in Hj. specialize (Hj c Hc).
      apply andb_true_iff in Hj as [_ Hj]. apply negb_true_iff in Hj. by rewrite Hj. }
    assert (split comma (join comma ts) = ts) as ->.
    { apply (split_join 44); [|done]. apply forallb_Forall. eapply Forall_impl; [exact H|]. intros s [Hs _].
      unfold plain, without in *. rewrite forallb_forall in *. intros c Hc. specialize (Hs c Hc). rewrite !andb_true_iff in Hs. apply Hs. }
    assert (map trim ts = ts) as ->.
    { rewrite <- (map_id ts) at 2. apply map_ext_in. intros s Hs. apply plain_trim, plain_space. rewrite List.Forall_forall in H. by apply H. }
    apply filter_all_true. apply forallb_Forall. eapply Forall_impl; [exact H|]. intros s [_ Hs]. by destruct s.
  - apply plain_trim. rewrite forallb_forall in *. intros c Hc. specialize (Hj c Hc). by apply andb_true_iff in Hj as [Hj _].
  - destruct H as [|s ts [_ Hs] _]; [done|]. cbn. destruct ts; [done|]. by destruct s.
Qed.

(** What accepted rules are made of. *)
Definition accepted (rs : list StatusCodeRange) : ParsedHttpStatusCodeRules :=
  {| ok := true; ranges := rs; tokens := map range_token rs; normalized := join comma (map range_token rs);
     invalidTokens := [] |}.

Definition input_text (input : jsval) : jstr := trim (js_to_string (js_nullish input (JStr []))).

Lemma parsed_ranges l :
  omap snd (map (fun s => (s, parseToken s)) l) = omap parseToken l.
Proof. induction l as [|s l IH]; [done|]. cbn. by rewrite IH. Qed.

Lemma parse_shape input : let r := parseHttpStatusCodeRules input in
  ok r = true -> let rs := omap parseToken (segments (input_text input)) in
  r = accepted (mergeRanges rs) /\ Forall range_ok rs.
Proof.
  cbn zeta. intros Hok. split.
  - unfold parseHttpStatusCodeRules in *. fold (input_text input) in *. destruct (input_text input) as [|c raw]; [done|].
    rewrite parsed_ranges in *. by destruct (flat_map _ _).
  - apply Forall_forall. intros r Hr. apply list_elem_of_omap in Hr as (s & _ & Hs). by eapply parseToken_ok.
Qed.

Lemma merged_ok rs : Forall range_ok rs -> Forall range_ok (mergeRanges rs).
Proof.
  intros Hok. destruct (mergeRanges_spec rs) as [[Hv _] H2].
  { eapply Forall_impl; [exact Hok|]. intros r [Hr _]. lia. }
  rewrite Forall_forall in *. intros r Hr. specialize (Hv r Hr).
  assert (forall code, (start r <= code <= stop r)%Z -> (100 <= code <= 599)%Z) as Hb.
  { intros code Hc. destruct (proj1 (H2 code) (ex_intro _ r (conj Hr Hc))) as (x & Hx & Hcx). destruct (Hok x Hx). lia. }
  pose proof (Hb (start r)). pose proof (Hb (stop r)). split; lia.
Qed.

(** The normal form of separated ranges is accepted as them. *)
Lemma parse_accepted rs : Forall range_ok rs -> separated rs ->
  parseHttpStatusCodeRules (JStr (join comma (map range_token rs))) = accepted rs.
Proof.
  intros Hok Hs. destruct (decide (rs = [])) as [->|Hne]; [done|].
  assert (Forall (fun s => plain s = true /\ s <> []) (map range_token rs)) as Hp.
  { apply Forall_map. eapply Forall_impl; [exact Hok|]. intros r Hr. destruct (range_token_read r Hr) as (? & ? & _). done. }
  destruct (segments_join (map range_token rs) Hp) as (E1 & E2 & E3); [by destruct rs|].
  unfold parseHttpStatusCodeRules. cbn [js_nullish js_to_string]. rewrite E2.
  destruct (join comma (map range_token rs)) as [|c raw] eqn:Ej; [done|]. rewrite <- Ej in *. rewrite E1.
  assert (map (fun s => (s, parseToken s)) (map range_token rs) = map (fun r => (range_token r, Some r)) rs) as ->.
  { rewrite map_map. apply map_ext_in. intros r Hr. f_equal. rewrite List.Forall_forall in Hok.
    by destruct (range_token_read r (Hok r Hr)) as (_ & _ & ?). }
  rewrite flat_map_nil.
  - assert (omap snd (map (fun r => (range_token r, Some r)) rs) = rs) as ->.
    { clear. induction rs as [|r rs IH]; [done|]. cbn. by rewrite IH. }
    by rewrite mergeRanges_id.
  - intros [s o] Hin. by apply in_map_iff in Hin as (r & [= <- <-] & _).
Qed.

(** ** Properties *)

(** C37: the accepted ranges cover exactly the codes the segments name, all of them
    between 100 and 599, in increasing order, with a code missing between any two. *)
Theorem accepted_rules_spec input :
  let r := parseHttpStatusCodeRules input in
  ok r = true ->
  (forall code, covers (ranges r) code <-> covers (omap parseToken (segments (input_text input))) code)
  /\ Forall range_ok (ranges r) /\ separated (ranges r).
Proof.
  cbn zeta. intros [-> Hok]%parse_shape. cbn [ranges accepted].
  destruct (mergeRanges_spec (omap parseToken (segments (input_text input)))) as [H1 H2].
  { eapply Forall_impl; [exact Hok|]. intros r [Hr _]. lia. }
  split_and!; [done|by apply merged_ok|done].
Qed.

(** The normal form of accepted rules is accepted as it is: it names the same
    ranges and is its own normal form. *)
Theorem normal_form_stable input :
  let r := parseHttpStatusCodeRules input in
  ok r = true -> parseHttpStatusCodeRules (JStr (normalized r)) = r.
Proof.
  cbn zeta. intros [-> Hok]%parse_shape. cbn [normalized accepted].
  apply parse_accepted; [by apply merged_ok|]. apply mergeRanges_spec.
  eapply Forall_impl; [exact Hok|]. intros r [Hr _]. lia.
Qed.

(** A segment with more than one dash is accepted, and what follows the second
    dash is dropped without a word. *)
Theorem third_bound_dropped :
  parseHttpStatusCodeRules (JStr "400-404-599, 500") = parseHttpStatusCodeRules (JStr "400-404,500")
  /\ ok (parseHttpStatusCodeRules (JStr "400-404-599, 500")) = true
  /\ ok (parseHttpStatusCodeRules (JStr "400-404-x")) = true.
Proof. vm_compute. done. Qed.

Definition demo_rules : jsval := JStr " 503, 401-403,404 , 500-502,".

Lemma accepted_rules_spec_witness :
  ok (parseHttpStatusCodeRules demo_rules) = true /\ separated (ranges (parseHttpStatusCodeRules demo_rules)).
Proof.
  assert (ok (parseHttpStatusCodeRules demo_rules) = true) as H by (vm_compute; reflexivity).
  split; [exact H|]. exact (proj2 (proj2 (accepted_rules_spec demo_rules H))).
Defined.

Lemma normal_form_stable_witness :
  normalized (parseHttpStatusCodeRules demo_rules) = "401-404,500-503"
  /\ parseHttpStatusCodeRules (JStr (normalized (parseHttpStatusCodeRules demo_rules))) = parseHttpStatusCodeRules demo_rules.
Proof.
  assert (ok (parseHttpStatusCodeRules demo_rules) = true) as H by (vm_compute; reflexivity).
  split; [vm_compute; reflexivity|]. exact (normal_form_stable demo_rules H).
Defined.
