(* ===== verification/ModelPricing.v ===== *)
(** * Model pricing (features/system-settings/models/model-pricing-core.ts,
    pricing-format.ts and model-global-discount.ts)

    How a price is written, the default output ratio of a model, the editor's lanes of
    prices and its preview, and the discount all models share. *)
From S2P Require Import Prelude JsString JsNumber JsValue Regex Json BillingExpr.

(** ** Writing a price (pricing-format.ts) *)

Definition DISPLAY_DECIMALS : nat := 12.
Definition SNAP_DECIMALS : nat := 8.
Definition SNAP_EPSILON : num := num_of_string "1e-12".

(** [Number.EPSILON], 2 to the power -52. *)
Definition EPSILON : num := S754_finite false 4503599627370496 (-104).

(** [hasValue] of model-pricing-core.ts, and the test of [toNumberOrNull]. *)
Definition hasValue (value : jsval) : bool :=
  match value with JStr [] | JNull | JUndef | JBool false => false | _ => true end.

Definition toNumberOrNull (value : jsval) : option num :=
  if negb (hasValue value) then None
  else
    let n := js_to_number value in
    if is_finite n then Some n else None.

Definition roundToDecimals (value : num) (decimals : nat) : num :=
  let factor := num_of_Z (10 ^ Z.of_nat decimals) in
  ndiv (math_round (nmul value factor)) factor.

Definition snapFloatDrift (value : num) : num :=
  let tolerance := math_max SNAP_EPSILON (nmul (nmul (SFabs value) EPSILON) (num_of_Z 8)) in
  match List.find (fun rounded => nle (SFabs (nsub value rounded)) tolerance)
          (map (roundToDecimals value) (seq 0 (S SNAP_DECIMALS))) with
  | Some rounded => rounded
  | None => value
  end.

(** [parseFloat] reads the whole text of [toFixed], as [Number] does. *)
Definition formatPricingNumber (value : jsval) : jstr :=
  match toNumberOrNull value with
  | None => []
  | Some n => num_to_string (num_of_string (to_fixed DISPLAY_DECIMALS (snapFloatDrift n)))
  end.

Example format_drift :
  map (fun s => formatPricingNumber (JNum (nmul (num_of_string s) (num_of_Z 3))))
    ["0.1"; "0.07"; "1e-13"; "1e30"; "-0.1"; "0"]
  = ["0.3"; "0.21"; "0"; "3.0000000000000003e+30"; "-0.3"; "0"].
Proof. vm_compute. reflexivity. Qed.


(** ** Checks (model-pricing-core.ts) *)

Definition isValidDiscountDraft (value : option jstr) : bool :=
  match value with
  | None | Some [] => true
  | Some value =>
      let n := num_of_string value in
      is_finite n && nlt nzero n && nle n (num_of_Z 1)
  end.

Definition isInvalidModelName (value : jstr) : bool :=
  let trimmed := trim value in
  (length trimmed =? 0)%nat || (trimmed !=? value) || endsWith trimmed dquote.

Definition hasPositiveTokenOutput (value : jsval) : bool :=
  match value with
  | JNum _ | JStr _ =>
      let numberValue := js_to_number value in
      is_finite numberValue && nlt nzero numberValue
  | _ => false
  end.

(** A quotient of two decimal literals. *)
Definition quot (a b : jstr) : num := ndiv (num_of_string a) (num_of_string b).

(** The default output ratio of a model without one, by its name. *)
Definition default_completion_ratio (modelName : jstr) : num :=
  let starts := startsWith modelName in
  let ends := endsWith modelName in
  let has := includes modelName in
  let lit := num_of_string in
  if modelName ==? "deepseek-v4-flash-0731" then lit "3"
  else if ends "-all" || ends "-gizmo-*" then lit "2"
  else if starts "gpt-4o" then
    if modelName ==? "gpt-4o-2024-05-13" then lit "3"
    else if starts "gpt-4o-mini-tts" then lit "20"
    else lit "4"
  else if starts "gpt-5" then
    if negb (has ".") then lit "8"
    else if starts "gpt-5.4-nano" then lit "6.25"
    else lit "6"
  else if starts "gpt-4.5-preview" then lit "2"
  else if starts "gpt-4-turbo" || ends "gpt-4-1106" || ends "gpt-4-1105" then lit "3"
  else if starts "gpt-" then lit "2"
  else if starts "o1" || starts "o3" then lit "4"
  else if modelName ==? "chatgpt-4o-latest" then lit "3"
  else if has "claude-3" || has "claude-sonnet-4" || has "claude-opus-4" || has "claude-haiku-4" then lit "5"
  else if starts "gpt-3.5" then
    if (modelName ==? "gpt-3.5-turbo") || ends "0125" then lit "3"
    else if ends "1106" then lit "2"
    else quot "4" "3"
  else if starts "mistral-" then lit "3"
  else if starts "gemini-1.5" then lit "4"
  else if starts "gemini-2.0" then lit "4"
  else if starts "gemini-2.5-pro" then lit "8"
  else if starts "gemini-2.5-flash-preview" then
    if ends "-nothinking" then lit "4" else quot "3.5" "0.15"
  else if starts "gemini-2.5-flash-lite" then lit "4"
  else if starts "gemini-2.5-flash" then quot "2.5" "0.3"
  else if starts "gemini-robotics-er-1.5" then quot "2.5" "0.3"
  else if starts "gemini-3-pro-image" then lit "60"
  else if starts "gemini-3-pro" then lit "6"
  else if starts "gemini-" then lit "4"
  else if starts "command" then
    if modelName ==? "command-r" then lit "3"
    else if modelName ==? "command-r-plus" then lit "5"
    else lit "4"
  else if starts "ERNIE-Speed-" || starts "ERNIE-Lite-" || starts "ERNIE-Character" || starts "ERNIE-Functions"
  then lit "2"
  else if starts "grok-4.5" || starts "grok-4" then lit "3"
  else if modelName ==? "llama2-70b-4096" then quot "0.8" "0.64"
  else if modelName ==? "llama3-8b-8192" then lit "2"
  else if modelName ==? "llama3-70b-8192" then quot "0.79" "0.59"
  else lit "1".

Definition getEffectiveCompletionRatio (modelName : jstr) (storedRatio : jsval) : num :=
  if hasPositiveTokenOutput storedRatio then js_to_number storedRatio else default_completion_ratio modelName.

(** ** The editor's data *)

Inductive PricingMode := per_token | per_request | tiered_expr.

#[export] Instance PricingMode_eq : EqDecision PricingMode.
Proof. solve_decision. Defined.

(** One value per lane. *)
Record Lanes (A : Type) := {
  completion : A;
  cache : A;
  createCache : A;
  image : A;
  audioInput : A;
  audioOutput : A
}.
Arguments completion {A}. Arguments cache {A}. Arguments createCache {A}.
Arguments image {A}. Arguments audioInput {A}. Arguments audioOutput {A}.

Record ModelRatioData := {
  md_name : jstr;
  md_price : option jstr;
  md_ratio : option jstr;
  md_cacheRatio : option jstr;
  md_createCacheRatio : option jstr;
  md_completionRatio : option jstr;
  md_imageRatio : option jstr;
  md_audioRatio : option jstr;
  md_audioCompletionRatio : option jstr;
  md_discount : option jstr;
  md_billingMode : option PricingMode;
  md_billingExpr : option jstr;
  md_requestRuleExpr : option jstr
}.

(** An optional string as a value. *)
Definition opt_val (s : option jstr) : jsval := match s with Some s => JStr s | None => JUndef end.

Definition hasRequiredTokenOutput (data : ModelRatioData) : bool :=
  match md_billingMode data with
  | Some per_request | Some tiered_expr => true
  | None => hasValue (opt_val (md_price data)) || hasPositiveTokenOutput (opt_val (md_completionRatio data))
  | Some per_token => hasPositiveTokenOutput (opt_val (md_completionRatio data))
  end.

Definition numericDraftRegex : rx :=
  rseq [RBol;
        ropt (RCap 1 (RAlt (RSeq (rplus (RSet is_digit)) (ropt (RCap 2 (RSeq (RLit ".") (RStar (RSet is_digit))))))
                           (RSeq (RLit ".") (RStar (RSet is_digit)))));
        REol].

Definition EMPTY_LANE_PRICES : Lanes jstr :=
  {| completion := []; cache := []; createCache := []; image := []; audioInput := []; audioOutput := [] |}.

Definition EMPTY_LANE_ENABLED : Lanes bool :=
  {| completion := false; cache := false; createCache := false; image := false; audioInput := false;
     audioOutput := false |}.

Definition ratioFieldByLane : Lanes jstr :=
  {| completion := "completionRatio"; cache := "cacheRatio"; createCache := "createCacheRatio";
     image := "imageRatio"; audioInput := "audioRatio"; audioOutput := "audioCompletionRatio" |}.

Record LaneConfig := { lc_titleKey : jstr; lc_descriptionKey : jstr; lc_placeholder : jstr }.

Definition laneConfigs : Lanes LaneConfig :=
  {| completion := {| lc_titleKey := "Completion price"; lc_descriptionKey := "Output token price for generated tokens.";
                      lc_placeholder := "15" |};
     cache := {| lc_titleKey := "Cache read price"; lc_descriptionKey := "Token price for cache reads.";
                 lc_placeholder := "0.3" |};
     createCache := {| lc_titleKey := "Cache write price";
                       lc_descriptionKey := "Token price for creating cache entries."; lc_placeholder := "3.75" |};
     image := {| lc_titleKey := "Image input price"; lc_descriptionKey := "Token price for image input.";
                 lc_placeholder := "2.5" |};
     audioInput := {| lc_titleKey := "Audio input price"; lc_descriptionKey := "Token price for audio input.";
                      lc_placeholder := "3.81" |};
     audioOutput := {| lc_titleKey := "Audio output price"; lc_descriptionKey := "Token price for audio output.";
                       lc_placeholder := "15.11" |} |}.

(** ** The lanes of a stored model *)

Definition ratioToBasePrice (ratio : jsval) : jstr :=
  match toNumberOrNull ratio with
  | None => []
  | Some n => formatPricingNumber (JNum (nmul n (num_of_Z 2)))
  end.

(** Without the optional fallback, which no call gives. *)
Definition deriveLanePrice (ratio denominator : jsval) : jstr :=
  match toNumberOrNull ratio, toNumberOrNull denominator with
  | Some r, Some d => formatPricingNumber (JNum (nmul r d))
  | _, _ => []
  end.

Record LaneState := { ls_promptPrice : jstr; ls_prices : Lanes jstr; ls_enabled : Lanes bool }.

Definition createInitialLaneState (data : option ModelRatioData) : LaneState :=
  match data with
  | None => {| ls_promptPrice := []; ls_prices := EMPTY_LANE_PRICES; ls_enabled := EMPTY_LANE_ENABLED |}
  | Some data =>
      let promptPrice := ratioToBasePrice (opt_val (md_ratio data)) in
      let effectiveCompletionRatio :=
        if hasValue (opt_val (md_ratio data)) && negb (hasValue (opt_val (md_price data)))
        then JNum (getEffectiveCompletionRatio (md_name data) (opt_val (md_completionRatio data)))
        else opt_val (md_completionRatio data) in
      let lane ratio := deriveLanePrice ratio (JStr promptPrice) in
      let audioInputPrice := lane (opt_val (md_audioRatio data)) in
      {| ls_promptPrice := promptPrice;
         ls_prices :=
           {| completion := lane effectiveCompletionRatio;
              cache := lane (opt_val (md_cacheRatio data));
              createCache := lane (opt_val (md_createCacheRatio data));
              image := lane (opt_val (md_imageRatio data));
              audioInput := audioInputPrice;
              audioOutput := deriveLanePrice (opt_val (md_audioCompletionRatio data)) (JStr audioInputPrice) |};
         ls_enabled :=
           {| completion := hasValue effectiveCompletionRatio;
              cache := hasValue (opt_val (md_cacheRatio data));
              createCache := hasValue (opt_val (md_createCacheRatio data));
              image := hasValue (opt_val (md_imageRatio data));
              audioInput := hasValue (opt_val (md_audioRatio data));
              audioOutput := hasValue (opt_val (md_audioCompletionRatio data)) |} |}
  end.

(** ** The preview *)

Record PreviewRow := { pr_key : jstr; pr_label : jstr; pr_value : jstr; pr_multiline : bool }.

Definition row (key label value : jstr) : PreviewRow :=
  {| pr_key := key; pr_label := label; pr_value := value; pr_multiline := false |}.

(** A discount that changes the price: strictly between 0 and 1. *)
Definition active_discount (discount : option jstr) : option num :=
  match toNumberOrNull (opt_val discount) with
  | Some d => if nlt nzero d && nlt d (num_of_Z 1) then Some d else None
  | None => None
  end.

(** [Math.round((1 - discount) * 100)] *)
Definition discount_percent (d : num) : jstr :=
  num_to_string (math_round (nmul (nsub (num_of_Z 1) d) (num_of_Z 100))).

Definition discountRows (discount : option jstr) (t : jstr -> jstr) (basePrice : jstr) : list PreviewRow :=
  match active_discount discount with
  | None => []
  | Some d =>
      row "discount" (t "Discount rate") ("×" ++ default [] discount ++ " (-" ++ discount_percent d ++ "%)")
      :: match toNumberOrNull (JStr basePrice) with
         | Some b => [row "discountedPrice" (t "Discounted price") ("$" ++ formatPricingNumber (JNum (nmul b d)))]
         | None => []
         end
  end.

(** [values] is read for its price and its discount. *)
Definition buildPreviewRows (price discount : option jstr) (mode : PricingMode)
    (billingExpr requestRuleExpr promptPrice : jstr) (lanePrices : Lanes jstr) (laneEnabled : Lanes bool)
    (t : jstr -> jstr) : list PreviewRow :=
  match mode with
  | tiered_expr =>
      [ row "mode" "BillingMode" "tiered_expr";
        {| pr_key := "expr"; pr_label := t "Expression";
           pr_value := str_or (combineBillingExpr billingExpr requestRuleExpr) (t "Empty");
           pr_multiline := true |} ]
  | per_request =>
      row "price" "ModelPrice" (str_or (default [] price) (t "Empty"))
      :: discountRows discount t (default [] price)
  | per_token =>
      let lane key label (enabled : bool) p :=
        row key (t label) (if enabled && non_empty p then "$" ++ p else t "Empty") in
      row "inputPrice" (t "Input price") (if non_empty promptPrice then "$" ++ promptPrice else t "Empty")
      :: discountRows discount t promptPrice
      ++ [ lane "completion" "Completion price" (completion laneEnabled) (completion lanePrices);
           lane "cache" "Cache read price" (cache laneEnabled) (cache lanePrices);
           lane "createCache" "Cache write price" (createCache laneEnabled) (createCache lanePrices);
           lane "image" "Image input price" (image laneEnabled) (image lanePrices);
           lane "audio" "Audio input price" (audioInput laneEnabled) (audioInput lanePrices);
           lane "audioCompletion" "Audio output price" (audioOutput laneEnabled) (audioOutput lanePrices) ]
  end.

(** ** The discount of all models (model-global-discount.ts) *)

Definition GLOBAL_MODEL_DISCOUNT_KEY : jstr := "*".

(** An object, or what [parseDiscountMap] throws. *)
Definition parseDiscountMap (value : jstr) : res jsobj :=
  let* parsed := json_parse value in
  match parsed with
  | JObj o => Ok o
  | _ => Throw "Expected a JSON object for model discounts"
  end.

(** [Number.isFinite(rate) && rate > 0 && rate <= 1] *)
Definition valid_rate (rate : num) : bool := is_finite rate && nlt nzero rate && nle rate (num_of_Z 1).

(** The rate, when the discount is enabled. *)
Definition getGlobalDiscountDraft (value : jstr) : option num :=
  match parseDiscountMap value with
  | Ok m =>
      match prop m GLOBAL_MODEL_DISCOUNT_KEY with
      | JNum rate => if valid_rate rate then Some rate else None
      | _ => None
      end
  | Throw _ => None
  end.

Definition setGlobalDiscountDraft (value : jstr) (enabled : bool) (rate : num) : res jstr :=
  let* discountMap := parseDiscountMap value in
  if enabled then
    if negb (valid_rate rate) then Throw "Global discount must be within (0, 1]"
    else Ok (stringify2 (JObj (obj_set GLOBAL_MODEL_DISCOUNT_KEY (JNum rate) discountMap)))
  else Ok (stringify2 (JObj (obj_delete GLOBAL_MODEL_DISCOUNT_KEY discountMap))).

(** ** The pricing options *)

(** One value per option: its text, its parsed value, or the object in it. *)
Record PricingMaps (A : Type) := {
  modelPrice : A;
  modelRatio : A;
  cacheRatio : A;
  createCacheRatio : A;
  completionRatio : A;
  imageRatio : A;
  audioRatio : A;
  audioCompletionRatio : A;
  modelDiscount : A;
  billingMode : A;
  billingExpr : A
}.
Arguments modelPrice {A}. Arguments modelRatio {A}. Arguments cacheRatio {A}. Arguments createCacheRatio {A}.
Arguments completionRatio {A}. Arguments imageRatio {A}. Arguments audioRatio {A}.
Arguments audioCompletionRatio {A}. Arguments modelDiscount {A}. Arguments billingMode {A}. Arguments billingExpr {A}.

Definition maps_map {A B} (f : A -> B) (m : PricingMaps A) : PricingMaps B :=
  {| modelPrice := f (modelPrice m); modelRatio := f (modelRatio m); cacheRatio := f (cacheRatio m);
     createCacheRatio := f (createCacheRatio m); completionRatio := f (completionRatio m);
     imageRatio := f (imageRatio m); audioRatio := f (audioRatio m);
     audioCompletionRatio := f (audioCompletionRatio m); modelDiscount := f (modelDiscount m);
     billingMode := f (billingMode m); billingExpr := f (billingExpr m) |}.

(** [safeJsonParse] (utils/json-parser.ts): the fallback for blank or malformed text. *)
Definition safeJsonParse (value : option jstr) (fallback : option jsval) : jsval :=
  let fallback := js_nullish (default JUndef fallback) JNull in
  match trim (default [] value) with
  | [] => fallback
  | trimmedValue => match parse trimmedValue with Some v => v | None => fallback end
  end.

(** ** Properties *)

Definition positive (n : num) : Prop := is_finite n = true /\ nlt nzero n = true.

Lemma hasPositive_num n : hasPositiveTokenOutput (JNum n) = true <-> positive n.
Proof. unfold hasPositiveTokenOutput, positive. cbn [js_to_number]. by rewrite andb_true_iff. Qed.

Lemma hasPositive_positive v : hasPositiveTokenOutput v = true -> positive (js_to_number v).
Proof. destruct v; cbn [hasPositiveTokenOutput]; try done; intros H; by apply andb_true_iff in H. Qed.

(** A constant that survives every writer and reader of JSON. *)
Definition good_default (n : num) : bool := is_finite n && nlt nzero n && num_ok n.

Lemma default_completion_good name : good_default (default_completion_ratio name) = true.
Proof.
  unfold default_completion_ratio.
  repeat match goal with |- context [if ?b then _ else _] => destruct b end; vm_compute; reflexivity.
Qed.

Lemma effective_ratio_positive modelName storedRatio : positive (getEffectiveCompletionRatio modelName storedRatio).
Proof.
  unfold getEffectiveCompletionRatio. destruct (hasPositiveTokenOutput storedRatio) eqn:E.
  - by apply hasPositive_positive.
  - pose proof (default_completion_good modelName) as H. unfold good_default in H. by bools.
Qed.

(** The output ratio the editors show is always finite and positive, and it is its own effective
    ratio: storing it changes nothing. *)
Theorem effective_completion_stable modelName storedRatio :
  let r := getEffectiveCompletionRatio modelName storedRatio in
  is_finite r = true /\ nlt nzero r = true /\ getEffectiveCompletionRatio modelName (JNum r) = r.
Proof.
  cbn zeta. destruct (effective_ratio_positive modelName storedRatio) as [H1 H2]. split_and!; [done|done|].
  unfold getEffectiveCompletionRatio at 1. assert (hasPositiveTokenOutput (JNum (getEffectiveCompletionRatio modelName storedRatio)) = true)
    as -> by by apply hasPositive_num. done.
Qed.

(** The branch of [gpt-3.5] is never reached: the one of [gpt-] comes first. *)
Lemma gpt_35_takes_the_default modelName :
  startsWith modelName "gpt-3.5" = true -> endsWith modelName "-all" = false ->
  endsWith modelName "-gizmo-*" = false ->
  endsWith modelName "gpt-4-1106" = false -> endsWith modelName "gpt-4-1105" = false ->
  getEffectiveCompletionRatio modelName JUndef = num_of_Z 2.
Proof.
  intros (r & ->)%startsWith_true H1 H2 H3 H4. unfold getEffectiveCompletionRatio, default_completion_ratio.
  rewrite H1, H2, H3, H4. reflexivity.
Qed.

(** A shared discount that is set is the one read back, without it none is, and no other
    model's discount changes. *)
Theorem global_discount_roundtrip value enabled rate text :
  setGlobalDiscountDraft value enabled rate = Ok text ->
  (forall o, parse value = Some (JObj o) -> json_ok (JObj (obj_set GLOBAL_MODEL_DISCOUNT_KEY (JNum rate) o)) = true
     /\ json_ok (JObj (obj_delete GLOBAL_MODEL_DISCOUNT_KEY o)) = true) ->
  getGlobalDiscountDraft text = (if enabled then Some rate else None)
  /\ exists o o', parse value = Some (JObj o) /\ parse text = Some (JObj o')
       /\ forall model, model <> GLOBAL_MODEL_DISCOUNT_KEY -> obj_get model o' = obj_get model o.
Proof.
  intros H Hok. unfold setGlobalDiscountDraft, parseDiscountMap, json_parse in H.
  destruct (parse value) as [[| | | | | |o]|]; try done. cbn [res_bind] in H.
  destruct (Hok o eq_refl) as [Hs Hd].
  unfold getGlobalDiscountDraft, parseDiscountMap, json_parse. destruct enabled.
  - destruct (valid_rate rate) eqn:Hr; [|done]. cbn [negb] in H. injection H as <-.
    rewrite parse_stringify2 by done. cbn [res_bind]. split.
    + unfold prop. rewrite obj_get_set_eq. cbn. by rewrite Hr.
    + do 2 eexists. split_and!; [done|done|]. intros model Hne. by apply obj_get_set_ne.
  - injection H as <-. rewrite parse_stringify2 by done. cbn [res_bind]. split.
    + unfold prop. rewrite obj_get_delete. by rewrite bool_decide_true.
    + do 2 eexists. split_and!; [done|done|]. intros model Hne. rewrite obj_get_delete. by rewrite bool_decide_false.
Qed.

Lemma global_discount_roundtrip_witness : exists text,
  setGlobalDiscountDraft (sq "{'gpt':0.5}") true (num_of_string "0.8") = Ok text
  /\ getGlobalDiscountDraft text = Some (num_of_string "0.8")
  /\ exists o o', parse (sq "{'gpt':0.5}") = Some (JObj o) /\ parse text = Some (JObj o')
       /\ forall model, model <> GLOBAL_MODEL_DISCOUNT_KEY -> obj_get model o' = obj_get model o.
Proof.
  eexists. split; [vm_compute; reflexivity|].
  apply (global_discount_roundtrip (sq "{'gpt':0.5}") true (num_of_string "0.8")); [vm_compute; reflexivity|].
  intros o H. vm_compute in H. injection H as <-. split; vm_compute; reflexivity.
Defined.
