(* ===== verification/PricingSnapshots.v ===== *)
(** * Snapshots of model prices
    (features/system-settings/models/model-pricing-snapshots.ts)

    One row per model from the eleven pricing options, its summary, and the signature by
    which the editor tells a changed row. *)
From S2P Require Import Prelude JsString JsNumber JsValue Regex Json OrderedMap BillingExpr ModelPricing.

Section Snapshots.
(** [String.prototype.localeCompare] of the browser's locale. *)
Variable localeCompare : jstr -> jstr -> comparison.

Record ModelPricingSnapshot := {
  sn_name : jstr;
  sn_price : option jstr;
  sn_ratio : option jstr;
  sn_cacheRatio : option jstr;
  sn_createCacheRatio : option jstr;
  sn_completionRatio : option jstr;
  sn_imageRatio : option jstr;
  sn_audioRatio : option jstr;
  sn_audioCompletionRatio : option jstr;
  sn_discount : option jstr;
  sn_billingMode : option jstr;
  sn_billingExpr : option jstr;
  sn_requestRuleExpr : option jstr;
  sn_hasConflict : bool
}.

Inductive ModelPricingFilterMode := FilterAll | FilterConfigured | FilterUnset.

Definition resolveVisibleModelNames (savedModelNames draftModelNames : list jstr)
    (candidateModelNames : option (list jstr)) (filterMode : ModelPricingFilterMode) : list jstr :=
  let modelNames :=
    match filterMode with
    | FilterAll => uniq (savedModelNames ++ draftModelNames)
    | _ => uniq (default [] candidateModelNames)
    end in
  js_sort localeCompare modelNames.

Definition hasPricingValue (value : option jstr) : bool :=
  match value with None | Some [] => false | Some _ => true end.

Definition isBasePricingUnset (snapshot : option ModelPricingSnapshot) : bool :=
  match snapshot with
  | None => true
  | Some s => (sn_billingMode s !=? Some ("tiered_expr" : jstr))
              && negb (hasPricingValue (sn_price s)) && negb (hasPricingValue (sn_ratio s))
  end.

(** [toNumberOrNull] of this file. *)
Definition snapshot_number (value : option jstr) : option num :=
  match value with
  | None | Some [] => None
  | Some value => let n := num_of_string value in if is_finite n then Some n else None
  end.

Definition ratioToPrice (ratio denominator : option jstr) : jstr :=
  let denominatorNumber :=
    match denominator with None | Some [] => Some (num_of_Z 2) | _ => snapshot_number denominator end in
  match snapshot_number ratio, denominatorNumber with
  | Some r, Some d => formatPricingNumber (JNum (nmul r d))
  | _, _ => []
  end.

Definition getModeLabel (mode : option jstr) : jstr :=
  if mode ==? Some ("per-request" : jstr) then "Per-request"
  else if mode ==? Some ("tiered_expr" : jstr) then "Expression"
  else "Per-token".

Definition getModeVariant (mode : option jstr) : jstr :=
  if mode ==? Some ("per-request" : jstr) then "warning"
  else if mode ==? Some ("tiered_expr" : jstr) then "info"
  else "success".

Section Text.
Variable t : jstr -> jstr.

Definition getExpressionSummary (r : ModelPricingSnapshot) : jstr :=
  let tierCount := length (rx_exec_all (RLit "tier(") (default [] (sn_billingExpr r))) in
  if (0 <? tierCount)%nat
  then t "Tiered pricing" ++ " · " ++ Z_to_jstr (Z.of_nat tierCount) ++ " " ++ t "tiers"
  else t "Expression pricing".

Definition discountSuffix (discount : option jstr) : jstr :=
  match snapshot_number discount with
  | Some d => if nlt nzero d && nlt d (num_of_Z 1) then " · -" ++ discount_percent d ++ "%" else []
  | None => []
  end.

Definition extra_ratios (r : ModelPricingSnapshot) : list (option jstr) :=
  [ sn_completionRatio r; sn_cacheRatio r; sn_createCacheRatio r; sn_imageRatio r; sn_audioRatio r;
    sn_audioCompletionRatio r ].

Definition getPriceSummary (r : ModelPricingSnapshot) : jstr :=
  if sn_billingMode r ==? Some ("tiered_expr" : jstr) then getExpressionSummary r
  else if sn_billingMode r ==? Some ("per-request" : jstr) then
    match sn_price r with
    | None | Some [] => t "Unset price"
    | Some price => "$" ++ price ++ " / " ++ t "request" ++ discountSuffix (sn_discount r)
    end
  else
    match ratioToPrice (sn_ratio r) None with
    | [] => t "Unset price"
    | inputPrice =>
        let extraCount := length (List.filter hasPricingValue (extra_ratios r)) in
        if (0 <? extraCount)%nat
        then t "Input" ++ " $" ++ inputPrice ++ " · " ++ Z_to_jstr (Z.of_nat extraCount) ++ " " ++ t "extras"
               ++ discountSuffix (sn_discount r)
        else t "Input" ++ " $" ++ inputPrice ++ discountSuffix (sn_discount r)
    end.

Definition getPriceDetail (r : ModelPricingSnapshot) : jstr :=
  if sn_billingMode r ==? Some ("tiered_expr" : jstr) then
    match sn_requestRuleExpr r with
    | None | Some [] => t "Expression based"
    | _ => t "Includes request rules"
    end
  else if sn_billingMode r ==? Some ("per-request" : jstr) then t "Fixed request price"
  else
    match ratioToPrice (sn_ratio r) None with
    | [] => t "No base input price"
    | inputPrice =>
        let detail label ratio :=
          if hasPricingValue ratio then [t label ++ " $" ++ ratioToPrice ratio (Some inputPrice)] else [] in
        let details :=
          take 2 (detail "Output" (sn_completionRatio r) ++ detail "Cache" (sn_cacheRatio r)
                    ++ detail "Cache write" (sn_createCacheRatio r)) in
        match details with [] => t "Base input price only" | _ => join " · " details end
    end.
End Text.

(** [map[name]?.toString() || ''] *)
Definition value_text (map : jsval) (name : jstr) : res jstr :=
  let* v := js_at map name in
  Ok (match v with JUndef | JNull => [] | _ => js_to_string v end).

(** The options, parsed. *)
Definition parse_maps (input : PricingMaps jstr) : PricingMaps jsval :=
  maps_map (fun text => safeJsonParse (Some text) (Some (JObj []))) input.

(** The options in the order in which their models are listed. *)
Definition map_list {A} (m : PricingMaps A) : list A :=
  [ modelPrice m; modelRatio m; cacheRatio m; createCacheRatio m; completionRatio m; imageRatio m; audioRatio m;
    audioCompletionRatio m; modelDiscount m; billingMode m; billingExpr m ].

Definition build_snapshot (m : PricingMaps jsval) (name : jstr) : res ModelPricingSnapshot :=
  let* price := value_text (modelPrice m) name in
  let* ratio := value_text (modelRatio m) name in
  let* cache := value_text (cacheRatio m) name in
  let* createCache := value_text (createCacheRatio m) name in
  let* completion := value_text (completionRatio m) name in
  let* image := value_text (imageRatio m) name in
  let* audio := value_text (audioRatio m) name in
  let* audioCompletion := value_text (audioCompletionRatio m) name in
  let* discount := value_text (modelDiscount m) name in
  let snapshot mode expr rules conflict :=
    {| sn_name := name; sn_price := Some price; sn_ratio := Some ratio; sn_cacheRatio := Some cache;
       sn_createCacheRatio := Some createCache; sn_completionRatio := Some completion;
       sn_imageRatio := Some image; sn_audioRatio := Some audio; sn_audioCompletionRatio := Some audioCompletion;
       sn_discount := Some discount; sn_billingMode := Some mode; sn_billingExpr := expr;
       sn_requestRuleExpr := rules; sn_hasConflict := conflict |} in
  let* modeForModel := js_at (billingMode m) name in
  if modeForModel ==? JStr "tiered_expr" then
    let* exprForModel := js_at (billingExpr m) name in
    let* fullExpr := (match js_or exprForModel (JStr []) with JStr s => Ok s | _ => type_error end) in
    let* parts := splitBillingExprAndRequestRules fullExpr in
    Ok (snapshot "tiered_expr" (Some (sp_billingExpr parts)) (Some (sp_requestRuleExpr parts)) false)
  else
    Ok (snapshot (if non_empty price then "per-request" else "per-token") None None
          (non_empty price
           && (non_empty ratio || non_empty completion || non_empty cache || non_empty createCache
               || non_empty image || non_empty audio || non_empty audioCompletion))).

Definition buildModelSnapshots (input : PricingMaps jstr) : res (list ModelPricingSnapshot) :=
  let m := parse_maps input in
  let* keys := res_map js_keys (map_list m) in
  res_map (build_snapshot m) (uniq (concat keys)).

(** [s || d] on an optional string. *)
Definition opt_or (s : option jstr) (d : jstr) : jstr := str_or (default [] s) d.

(** What the signature of a snapshot records. *)
Definition signature_fields (s : ModelPricingSnapshot) : list (jstr * jstr) :=
  [ ("price", opt_or (sn_price s) []); ("ratio", opt_or (sn_ratio s) []);
    ("cacheRatio", opt_or (sn_cacheRatio s) []); ("createCacheRatio", opt_or (sn_createCacheRatio s) []);
    ("completionRatio", opt_or (sn_completionRatio s) []); ("imageRatio", opt_or (sn_imageRatio s) []);
    ("audioRatio", opt_or (sn_audioRatio s) []); ("audioCompletionRatio", opt_or (sn_audioCompletionRatio s) []);
    ("discount", opt_or (sn_discount s) []); ("billingMode", opt_or (sn_billingMode s) "per-token");
    ("billingExpr", opt_or (sn_billingExpr s) []); ("requestRuleExpr", opt_or (sn_requestRuleExpr s) []) ].

Definition getSnapshotSignature (snapshot : option ModelPricingSnapshot) : jstr :=
  match snapshot with
  | None => []
  | Some s => stringify (JObj (map (fun '(k, v) => (k, JStr v)) (signature_fields s)))
  end.
End Snapshots.

(** ** Properties *)

(** A snapshot whose texts are 16-bit units, as every JavaScript string is. *)
Definition signature_ok (s : ModelPricingSnapshot) : bool :=
  forallb (fun kv => str_ok (snd kv)) (signature_fields s).

Lemma signature_json s : signature_ok s = true ->
  json_ok (JObj (map (fun '(k, v) => (k, JStr v)) (signature_fields s))) = true.
Proof.
  unfold signature_ok, signature_fields. intros H. cbn [map forallb snd] in *. bools.
  cbn [json_ok forallb fst snd]. apply andb_true_iff. split; [by apply bool_decide_eq_true|].
  repeat match goal with H : str_ok _ = true |- _ => rewrite H; clear H end. vm_compute. reflexivity.
Qed.

(** The signature by which the editor tells a changed row: two snapshots have the same signature exactly
    when they show the same prices, mode and expressions. *)
Theorem signature_tells_changes a b :
  signature_ok a = true -> signature_ok b = true ->
  getSnapshotSignature (Some a) = getSnapshotSignature (Some b) <-> signature_fields a = signature_fields b.
Proof.
  intros Ha Hb. unfold getSnapshotSignature. split; [|by intros ->]. intros H.
  apply (f_equal parse) in H. rewrite !parse_stringify in H by by apply signature_json. injection H as H.
  unfold signature_fields. congruence.
Qed.

Definition demo_snapshot (price : jstr) : ModelPricingSnapshot :=
  {| sn_name := "m"; sn_price := Some price; sn_ratio := None; sn_cacheRatio := None; sn_createCacheRatio := None;
     sn_completionRatio := None; sn_imageRatio := None; sn_audioRatio := None; sn_audioCompletionRatio := None;
     sn_discount := None; sn_billingMode := Some ("per-request" : jstr); sn_billingExpr := None; sn_requestRuleExpr := None;
     sn_hasConflict := false |}.

Lemma signature_tells_changes_witness :
  getSnapshotSignature (Some (demo_snapshot "1")) = getSnapshotSignature (Some (demo_snapshot "2"))
  <-> signature_fields (demo_snapshot "1") = signature_fields (demo_snapshot "2").
Proof. apply (signature_tells_changes (demo_snapshot "1") (demo_snapshot "2")); vm_compute; reflexivity. Defined.

(** One expression with a bad escape makes the whole list of snapshots throw. *)
Definition demo_bad_options : PricingMaps jstr :=
  {| modelPrice := sq "{'draw':0.04}"; modelRatio := "{}"; cacheRatio := "{}"; createCacheRatio := "{}";
     completionRatio := "{}"; imageRatio := "{}"; audioRatio := "{}"; audioCompletionRatio := "{}";
     modelDiscount := "{}"; billingMode := sq "{'gpt':'tiered_expr'}";
     billingExpr := stringify (JObj [("gpt", JStr (sq "(tier('base', p * 1)) * (has(header('x'), '\q') ? 2 : 1)"))]) |}.

Lemma bad_expression_breaks_snapshots : exists msg, buildModelSnapshots demo_bad_options = Throw msg.
Proof. eexists. vm_compute. reflexivity. Qed.

(** ** One snapshot per model *)

Lemma js_keys_objects (l : list jsobj) : res_map js_keys (map JObj l) = Ok (map obj_keys l).
Proof. induction l as [|o l IH]; cbn; [done|]. by rewrite IH. Qed.

(** The options of prices of one model, as the row shows them. *)
Definition shown_value (o : jsobj) (name : jstr) : jstr :=
  match prop o name with JUndef | JNull => [] | v => js_to_string v end.

Lemma value_text_object o name : value_text (JObj o) name = Ok (shown_value o name).
Proof.
  unfold value_text, shown_value, prop. cbn [js_at js_own_prop js_own res_bind].
  destruct (default JUndef (obj_get name o)); done.
Qed.

(** What a row must show of a model. *)
Definition shows_model (om : PricingMaps jsobj) (name : jstr) (s : ModelPricingSnapshot) : Prop :=
  let v f := shown_value (f om) name in
  let ratios := [v modelRatio; v completionRatio; v cacheRatio; v createCacheRatio; v imageRatio; v audioRatio;
                 v audioCompletionRatio] in
  let tiered := prop (billingMode om) name ==? JStr "tiered_expr" in
  sn_name s = name
  /\ sn_price s = Some (v modelPrice) /\ sn_ratio s = Some (v modelRatio) /\ sn_discount s = Some (v modelDiscount)
  /\ extra_ratios s = map Some [v completionRatio; v cacheRatio; v createCacheRatio; v imageRatio; v audioRatio;
                                v audioCompletionRatio]
  /\ sn_billingMode s = Some (if tiered then "tiered_expr" else if non_empty (v modelPrice) then "per-request" else "per-token")
  /\ sn_hasConflict s = negb tiered && non_empty (v modelPrice) && existsb non_empty ratios.

Lemma build_snapshot_shows om name s : build_snapshot (maps_map JObj om) name = Ok s -> shows_model om name s.
Proof.
  unfold build_snapshot. cbn [maps_map modelPrice modelRatio cacheRatio createCacheRatio completionRatio imageRatio
    audioRatio audioCompletionRatio modelDiscount billingMode billingExpr].
  rewrite !value_text_object. cbn [res_bind js_at js_own_prop js_own].
  change (default JUndef (obj_get name (billingMode om))) with (prop (billingMode om) name).
  unfold shows_model. cbn zeta. destruct (prop (billingMode om) name ==? JStr "tiered_expr"); intros H.
  - apply res_bind_Ok in H as (full & _ & H). apply res_bind_Ok in H as (parts & _ & H). injection H as <-.
    cbn. done.
  - injection H as <-. cbn. split_and!; try done. by rewrite ?orb_assoc, orb_false_r.
Qed.

(** The table of prices has exactly one row per model of any option, which shows the model's values, its
    mode, and a conflict exactly when a price per request meets a ratio. *)
Theorem snapshots_show_options input om rows :
  parse_maps input = maps_map JObj om ->
  buildModelSnapshots input = Ok rows ->
  NoDup (map sn_name rows)
  /\ (forall name, name ∈ map sn_name rows <-> exists o, o ∈ map_list om /\ name ∈ obj_keys o)
  /\ forall s, s ∈ rows -> shows_model om (sn_name s) s.
Proof.
  intros Hm H. unfold buildModelSnapshots in H. rewrite Hm in H.
  change (map_list (maps_map JObj om)) with (map JObj (map_list om)) in H. rewrite js_keys_objects in H.
  cbn [res_bind] in H. apply res_map_Ok in H.
  assert (map sn_name rows = uniq (concat (map obj_keys (map_list om)))) as E.
  { clear Hm. induction H as [|name s names rows Hs _ IH]; [done|]. cbn. apply build_snapshot_shows in Hs as [-> _].
    by rewrite IH. }
  rewrite E. split_and!.
  - apply NoDup_uniq.
  - intros name. rewrite elem_of_uniq, list_elem_of_In, in_concat. split.
    + intros (ks & (o & <- & Ho)%in_map_iff & Hin). exists o. by rewrite !list_elem_of_In.
    + intros (o & Ho & Hin). exists (obj_keys o). rewrite in_map_iff. rewrite !list_elem_of_In in *. eauto.
  - intros s Hs. apply list_elem_of_lookup in Hs as [i Hi]. destruct (Forall2_lookup_r _ _ _ _ _ H Hi) as (name & _ & Hb).
    pose proof (build_snapshot_shows _ _ _ Hb) as Hsh. assert (sn_name s = name) as -> by apply Hsh. done.
Qed.

Definition demo_options : PricingMaps jstr :=
  {| modelPrice := sq "{'draw':0.04}"; modelRatio := sq "{'chat':1.5,'draw':2}"; cacheRatio := "{}";
     createCacheRatio := "{}"; completionRatio := sq "{'chat':5}"; imageRatio := "{}"; audioRatio := "{}";
     audioCompletionRatio := "{}"; modelDiscount := sq "{'chat':0.9}"; billingMode := sq "{'gpt':'tiered_expr'}";
     billingExpr := sq "{'gpt':'p * 2'}" |}.

Lemma snapshots_show_options_witness :
  exists rows, buildModelSnapshots demo_options = Ok rows /\ map sn_hasConflict rows = [true; false; false]
  /\ NoDup (map sn_name rows).
Proof.
  destruct (buildModelSnapshots demo_options) as [rows|e] eqn:E; [|vm_compute in E; discriminate E].
  exists rows. split; [reflexivity|]. split; [vm_compute in E; injection E as <-; reflexivity|].
  apply (snapshots_show_options demo_options (maps_map js_own (parse_maps demo_options)) rows);
    [vm_compute; reflexivity|exact E].
Defined.
