(* ===== verification/PricingJson.v ===== *)
(** * Prices as JSON documents (features/system-settings/models/model-pricing-bulk-json.ts
    and model-pricing-fields-json.ts)

    The bulk editor turns the pricing options into one document per model and applies such
    a document; the field editor shows and replaces the options one by one. An option whose
    text is [null] parses to [null], and the first use of it throws. *)
From S2P Require Import Prelude JsString JsNumber JsValue Json OrderedMap ModelPricing PricingSnapshots.

Definition defined (v : jsval) : bool := match v with JUndef => false | _ => true end.

(** [Number(formatPricingNumber(value))] *)
Definition round (value : num) : num := num_of_string (formatPricingNumber (JNum value)).

Definition isFiniteNumber (value : jsval) : bool := match value with JNum n => is_finite n | _ => false end.

Definition is_tiered (mode : jsval) : bool := mode ==? JStr "tiered_expr".

Definition PRICE_FIELDS : list jstr :=
  ["per_request"; "input"; "output"; "cache_read"; "cache_write"; "image_input"; "audio_input"; "audio_output";
   "discount"].

(** A short-circuit [||] over operations that may throw. *)
Fixpoint res_exists {A} (f : A -> res bool) (l : list A) : res bool :=
  match l with
  | [] => Ok false
  | x :: t => let* b := f x in if b then Ok true else res_exists f t
  end.

(** [Array.prototype.filter] with a callback that may throw. *)
Fixpoint res_filter {A} (f : A -> res bool) (l : list A) : res (list A) :=
  match l with
  | [] => Ok []
  | x :: t => let* b := f x in let* r := res_filter f t in Ok (if b then x :: r else r)
  end.

Section BulkJson.
Variable localeCompare : jstr -> jstr -> comparison.
(** The message of the [SyntaxError] of [JSON.parse] on a text. *)
Variable syntax_message : jstr -> jstr.

(** ** Exporting *)

(** [if (map[name] !== undefined) entry.field = round(map[name] * base)] *)
Definition export_lane (map : jsval) (name field : jstr) (base : num) : res jsobj :=
  let* v := js_at map name in
  Ok (if defined v then [(field, JNum (round (nmul (js_to_number v) base)))] else []).

Definition export_tokens (m : PricingMaps jsval) (name : jstr) (ratio : jsval) : res jsobj :=
  let input := nmul (js_to_number ratio) (num_of_Z 2) in
  let* completion := js_at (completionRatio m) name in
  let* cache := export_lane (cacheRatio m) name "cache_read" input in
  let* createCache := export_lane (createCacheRatio m) name "cache_write" input in
  let* image := export_lane (imageRatio m) name "image_input" input in
  let* audio := js_at (audioRatio m) name in
  let* audioLanes :=
    (if defined audio then
       let audioInput := nmul (js_to_number audio) input in
       let* out := export_lane (audioCompletionRatio m) name "audio_output" audioInput in
       Ok (("audio_input" : jstr, JNum (round audioInput)) :: out)
     else Ok []) in
  Ok ([("input", JNum (round input));
       ("output", JNum (round (nmul (getEffectiveCompletionRatio name completion) input)))]
        ++ cache ++ createCache ++ image ++ audioLanes).

(** [discount > 0 && discount <= 1 ? discount : 1] *)
Definition export_discount (discount : jsval) : jsval :=
  let d := js_to_number discount in
  if nlt nzero d && nle d (num_of_Z 1) then discount else JNum (num_of_Z 1).

Definition export_entry (m : PricingMaps jsval) (name : jstr) : res jsobj :=
  let* price := js_at (modelPrice m) name in
  let* prices :=
    (if defined price then Ok [("per_request" : jstr, price)]
     else
       let* ratio := js_at (modelRatio m) name in
       if defined ratio then export_tokens m name ratio else Ok []) in
  let* discount := js_at (modelDiscount m) name in
  Ok (prices ++ (if defined discount then [("discount" : jstr, export_discount discount)] else [])).

Definition export_model (m : PricingMaps jsval) (document : jsobj) (name : jstr) : res jsobj :=
  let* mode := js_at (billingMode m) name in
  if is_tiered mode then Ok document
  else
    let* entry := export_entry m name in
    Ok (obj_set name (match entry with [] => JNull | _ => JObj entry end) document).

(** The options whose models are exported: all but the two of expressions. *)
Definition price_maps {A} (m : PricingMaps A) : list A :=
  [ modelPrice m; modelRatio m; cacheRatio m; createCacheRatio m; completionRatio m; imageRatio m; audioRatio m;
    audioCompletionRatio m; modelDiscount m ].

Definition exportPricingJson (maps : PricingMaps jstr) (candidateModelNames : list jstr)
    (candidateModelsOnly : bool) : res jstr :=
  let m := parse_maps maps in
  let* names :=
    (if candidateModelsOnly then Ok (uniq candidateModelNames)
     else
       let* keys := res_map js_keys (price_maps m) in
       Ok (uniq (concat keys ++ candidateModelNames))) in
  let names := List.filter (fun n => n !=? GLOBAL_MODEL_DISCOUNT_KEY) names in
  let* document := res_fold (export_model m) [] (js_sort localeCompare names) in
  Ok (stringify2 (JObj document)).

Definition getUnsetPricingModelNames (maps : PricingMaps jstr) (candidateModelNames : list jstr)
  : res (list jstr) :=
  let m := parse_maps maps in
  let* names :=
    res_filter
      (fun name =>
         let* mode := js_at (billingMode m) name in
         if is_tiered mode then Ok false
         else
           let* priced := js_has_own (modelPrice m) name in
           if priced then Ok false
           else let* rated := js_has_own (modelRatio m) name in Ok (negb rated))
      (uniq candidateModelNames) in
  Ok (js_sort localeCompare names).

(** ** Checking a document *)

Definition laneKeys : list jstr :=
  ["output"; "cache_read"; "cache_write"; "image_input"; "audio_input"; "audio_output"].

(** [name: message] *)
Definition complaint (name message : jstr) : jstr := name ++ ": " ++ message.

Definition check (b : bool) (e : jstr) : list jstr := if b then [e] else [].

Definition entry_errors (name : jstr) (entry : jsobj) : list jstr :=
  let e := prop entry in
  let fin key := isFiniteNumber (e key) in
  let hasPerRequest := fin "per_request" in
  let hasInput := fin "input" in
  let hasLanes := existsb (fun key => defined (e key)) laneKeys in
  let value key := js_to_number (e key) in
  let about m := complaint name m in
  flat_map (fun key => check (negb (bool_decide (key ∈ PRICE_FIELDS))) (about (sq "unknown field '" ++ key ++ dquote)))
    (obj_keys entry)
  ++ flat_map (fun key => check (defined (e key) && negb (fin key)) (about (dquote ++ key ++ sq "' must be a number")))
       PRICE_FIELDS
  ++ check (hasPerRequest && (hasInput || hasLanes)) (about (sq "'per_request' cannot be combined with token prices"))
  ++ check (negb hasPerRequest && hasLanes && negb hasInput) (about (sq "token prices require 'input'"))
  ++ check (negb hasPerRequest && hasInput && nle (value "input") nzero)
       (about "positive input price is required for token pricing")
  ++ check (negb hasPerRequest && hasInput && negb (hasPositiveTokenOutput (e "output")))
       (about "positive output price is required for token pricing")
  ++ check (defined (e "audio_output") && negb (defined (e "audio_input")) && negb hasPerRequest)
       (about (sq "'audio_output' requires 'audio_input'"))
  ++ check (fin "discount" && (nle (value "discount") nzero || nlt (num_of_Z 1) (value "discount")))
       (about (sq "'discount' must be within (0, 1]"))
  ++ check (existsb (fun key => fin key && nlt (value key) nzero) PRICE_FIELDS)
       (about "negative prices are not allowed")
  ++ check (negb hasPerRequest && negb hasInput && negb hasLanes && negb (defined (e "discount")))
       (about "entry has no pricing fields").

Definition model_errors (nv : jstr * jsval) : list jstr :=
  let '(name, rawEntry) := nv in
  if isInvalidModelName name then [complaint name "invalid model name; trailing quote is not allowed"]
  else if trim name ==? [] then ["Empty model name"]
  else if trim name ==? GLOBAL_MODEL_DISCOUNT_KEY then [sq "'*' is reserved for the global discount control"]
  else
    match rawEntry with
    | JNull => []
    | JObj entry => entry_errors name entry
    | _ => [complaint name "entry must be an object or null"]
    end.

(** ** Applying a document *)

Record BulkState := {
  bk_maps : PricingMaps jsobj;
  bk_applied : Z;
  bk_removed : Z;
  bk_skippedTiered : list jstr
}.

(** [delete] of a model from the options of prices and expressions, and from all of them. *)
Definition delete_prices (name : jstr) (m : PricingMaps jsobj) : PricingMaps jsobj :=
  let d := obj_delete name in
  {| modelPrice := d (modelPrice m); modelRatio := d (modelRatio m); cacheRatio := d (cacheRatio m);
     createCacheRatio := d (createCacheRatio m); completionRatio := d (completionRatio m);
     imageRatio := d (imageRatio m); audioRatio := d (audioRatio m);
     audioCompletionRatio := d (audioCompletionRatio m); modelDiscount := modelDiscount m;
     billingMode := d (billingMode m); billingExpr := d (billingExpr m) |}.

Definition delete_model (name : jstr) (m : PricingMaps jsobj) : PricingMaps jsobj := maps_map (obj_delete name) m.

(** [if (b) map[name] = v] *)
Definition set_if (b : bool) (name : jstr) (v : jsval) (o : jsobj) : jsobj := if b then obj_set name v o else o.

(** The prices of an entry, set on options without the model. *)
Definition set_prices (name : jstr) (entry : jsobj) (m : PricingMaps jsobj) : PricingMaps jsobj :=
  let has key := defined (prop entry key) in
  let value key := js_to_number (prop entry key) in
  let ratio a b := JNum (round (ndiv (value a) (value b))) in
  if has "per_request" then
    {| modelPrice := obj_set name (prop entry "per_request") (modelPrice m); modelRatio := modelRatio m;
       cacheRatio := cacheRatio m; createCacheRatio := createCacheRatio m; completionRatio := completionRatio m;
       imageRatio := imageRatio m; audioRatio := audioRatio m; audioCompletionRatio := audioCompletionRatio m;
       modelDiscount := modelDiscount m; billingMode := billingMode m; billingExpr := billingExpr m |}
  else
    let input := value "input" in
    let lane key := has key && nlt nzero input in
    {| modelPrice := modelPrice m;
       modelRatio := obj_set name (JNum (round (ndiv input (num_of_Z 2)))) (modelRatio m);
       cacheRatio := set_if (lane "cache_read") name (ratio "cache_read" "input") (cacheRatio m);
       createCacheRatio := set_if (lane "cache_write") name (ratio "cache_write" "input") (createCacheRatio m);
       completionRatio := set_if (lane "output") name (ratio "output" "input") (completionRatio m);
       imageRatio := set_if (lane "image_input") name (ratio "image_input" "input") (imageRatio m);
       audioRatio := set_if (lane "audio_input") name (ratio "audio_input" "input") (audioRatio m);
       audioCompletionRatio :=
         set_if (lane "audio_input" && has "audio_output" && nlt nzero (value "audio_input")) name
           (ratio "audio_output" "audio_input") (audioCompletionRatio m);
       modelDiscount := modelDiscount m; billingMode := billingMode m; billingExpr := billingExpr m |}.

(** [delete discountMap[name]], then the discount of the entry when it is below 1. *)
Definition set_discount (name : jstr) (entry : jsobj) (m : PricingMaps jsobj) : PricingMaps jsobj :=
  let discount := prop entry "discount" in
  let o := obj_delete name (modelDiscount m) in
  {| modelPrice := modelPrice m; modelRatio := modelRatio m; cacheRatio := cacheRatio m;
     createCacheRatio := createCacheRatio m; completionRatio := completionRatio m; imageRatio := imageRatio m;
     audioRatio := audioRatio m; audioCompletionRatio := audioCompletionRatio m;
     modelDiscount := set_if (defined discount && nlt (js_to_number discount) (num_of_Z 1)) name discount o;
     billingMode := billingMode m; billingExpr := billingExpr m |}.

(** [entry.per_request === undefined && entry.input === undefined] *)
Definition discount_only (entry : jsobj) : bool :=
  negb (defined (prop entry "per_request")) && negb (defined (prop entry "input")).

Definition apply_entry (name : jstr) (entry : jsobj) (s : BulkState) : BulkState :=
  let m := bk_maps s in
  let discountOnly := discount_only entry in
  if is_tiered (prop (billingMode m) name) && discountOnly
  then {| bk_maps := m; bk_applied := bk_applied s; bk_removed := bk_removed s;
          bk_skippedTiered := bk_skippedTiered s ++ [name] |}
  else
    let m := if discountOnly then m else set_prices name entry (delete_prices name m) in
    {| bk_maps := set_discount name entry m; bk_applied := bk_applied s + 1; bk_removed := bk_removed s;
       bk_skippedTiered := bk_skippedTiered s |}.

(** A checked document holds objects and [null]s. *)
Definition apply_model (existing : PricingMaps jsval) (s : BulkState) (nv : jstr * jsval) : res BulkState :=
  let '(rawName, rawEntry) := nv in
  let name := trim rawName in
  match rawEntry with
  | JObj entry => Ok (apply_entry name entry s)
  | _ =>
      let* hadConfig := res_exists (fun map => js_has_own map name)
        [ modelPrice existing; modelRatio existing; cacheRatio existing; createCacheRatio existing;
          completionRatio existing; imageRatio existing; audioRatio existing; audioCompletionRatio existing;
          modelDiscount existing; billingMode existing; billingExpr existing ] in
      Ok {| bk_maps := delete_model name (bk_maps s); bk_applied := bk_applied s;
            bk_removed := (if hadConfig then bk_removed s + 1 else bk_removed s);
            bk_skippedTiered := bk_skippedTiered s |}
  end.

(** What a replacing document starts from: the discount of all models and the models billed by
    expression that it does not name. *)
Definition keep_expression (existing : PricingMaps jsval) (documentNames : list jstr) (m : PricingMaps jsobj)
    (nm : jstr * jsval) : res (PricingMaps jsobj) :=
  let '(name, mode) := nm in
  if bool_decide (name ∈ documentNames) || negb (is_tiered mode) then Ok m
  else
    let* expr := js_at (billingExpr existing) name in
    Ok {| modelPrice := modelPrice m; modelRatio := modelRatio m; cacheRatio := cacheRatio m;
          createCacheRatio := createCacheRatio m; completionRatio := completionRatio m; imageRatio := imageRatio m;
          audioRatio := audioRatio m; audioCompletionRatio := audioCompletionRatio m;
          modelDiscount := modelDiscount m;
          billingMode := obj_set name mode (billingMode m);
          billingExpr := set_if (defined expr) name expr (billingExpr m) |}.

Definition start_maps (existing : PricingMaps jsval) (documentNames : list jstr) (replace : bool)
  : res (PricingMaps jsobj) :=
  if replace then
    let* globalDiscount := js_at (modelDiscount existing) GLOBAL_MODEL_DISCOUNT_KEY in
    let m :=
      {| modelPrice := []; modelRatio := []; cacheRatio := []; createCacheRatio := []; completionRatio := [];
         imageRatio := []; audioRatio := []; audioCompletionRatio := [];
         modelDiscount := set_if (defined globalDiscount) GLOBAL_MODEL_DISCOUNT_KEY globalDiscount [];
         billingMode := []; billingExpr := [] |} in
    let* _ := js_keys (billingMode existing) in
    res_fold (keep_expression existing documentNames) m (js_own (billingMode existing))
  else Ok (maps_map (fun v => obj_spread [] (js_own v)) existing).

(** The models a replacing document drops without naming them. *)
Definition dropped_models (existing : PricingMaps jsval) (documentNames : list jstr) : res Z :=
  let* keys := res_map js_keys (map_list existing) in
  let previousNames := List.filter (fun n => n !=? GLOBAL_MODEL_DISCOUNT_KEY) (uniq (concat keys)) in
  let* dropped :=
    res_filter
      (fun name =>
         if bool_decide (name ∈ documentNames) then Ok false
         else let* mode := js_at (billingMode existing) name in Ok (negb (is_tiered mode)))
      previousNames in
  Ok (Z.of_nat (length dropped)).

(** The updates are the texts of the options [ModelPrice] to [billing_setting.billing_expr]. *)
Inductive BulkApplyResult :=
| BulkApplied (updates : PricingMaps jstr) (applied removed : Z) (skippedTiered : list jstr)
| BulkRejected (errors : list jstr).

Definition maps_text (m : PricingMaps jsobj) : PricingMaps jstr := maps_map (fun o => stringify2 (JObj o)) m.

Definition apply_document (existing : PricingMaps jsval) (entries : jsobj) (replace : bool) : res BulkApplyResult :=
  let documentNames := uniq (List.filter non_empty (map (fun nv => trim (fst nv)) entries)) in
  let* m := start_maps existing documentNames replace in
  let* s := res_fold (apply_model existing)
    {| bk_maps := m; bk_applied := 0; bk_removed := 0; bk_skippedTiered := [] |} entries in
  let* dropped := (if replace then dropped_models existing documentNames else Ok 0%Z) in
  Ok (BulkApplied (maps_text (bk_maps s)) (bk_applied s) (bk_removed s + dropped) (bk_skippedTiered s)).

Definition applyPricingJson (maps : PricingMaps jstr) (jsonText : jstr) (replace : bool) : res BulkApplyResult :=
  match parse jsonText with
  | None => Ok (BulkRejected [syntax_message jsonText])
  | Some (JObj entries) =>
      match flat_map model_errors entries with
      | [] => apply_document (parse_maps maps) entries replace
      | errors => Ok (BulkRejected errors)
      end
  | Some _ => Ok (BulkRejected ["Expected a JSON object keyed by model name"])
  end.
End BulkJson.

(** ** The options one by one (model-pricing-fields-json.ts) *)

Inductive PricingField :=
| ModelPrice | ModelRatio | CacheRatio | CreateCacheRatio | CompletionRatio | ImageRatio | AudioRatio
| AudioCompletionRatio | ModelDiscount.

#[export] Instance PricingField_eq : EqDecision PricingField.
Proof. solve_decision. Defined.

Definition pricingJsonFields : list PricingField :=
  [ModelPrice; ModelRatio; CacheRatio; CreateCacheRatio; CompletionRatio; ImageRatio; AudioRatio;
   AudioCompletionRatio; ModelDiscount].

Definition field_name (f : PricingField) : jstr :=
  match f with
  | ModelPrice => "ModelPrice" | ModelRatio => "ModelRatio" | CacheRatio => "CacheRatio"
  | CreateCacheRatio => "CreateCacheRatio" | CompletionRatio => "CompletionRatio" | ImageRatio => "ImageRatio"
  | AudioRatio => "AudioRatio" | AudioCompletionRatio => "AudioCompletionRatio" | ModelDiscount => "ModelDiscount"
  end.

(** [maps[mapKey]] *)
Definition map_of {A} (m : PricingMaps A) (f : PricingField) : A :=
  match f with
  | ModelPrice => modelPrice m | ModelRatio => modelRatio m | CacheRatio => cacheRatio m
  | CreateCacheRatio => createCacheRatio m | CompletionRatio => completionRatio m | ImageRatio => imageRatio m
  | AudioRatio => audioRatio m | AudioCompletionRatio => audioCompletionRatio m | ModelDiscount => modelDiscount m
  end.

(** [Record<PricingFieldName, string>] *)
Definition PricingFieldsDrafts : Type := PricingField -> jstr.

(** The object, or the error. *)
Definition parseNumberMap (value : jstr) (field : PricingField) : jsobj + jstr :=
  match parse value with
  | None => inr (complaint (field_name field) "invalid JSON")
  | Some (JObj o) =>
      if forallb isFiniteNumber (obj_values o) then inl o
      else inr (complaint (field_name field) "must be a JSON object containing finite numbers")
  | Some _ => inr (complaint (field_name field) "must be a JSON object containing finite numbers")
  end.

Definition fill_completion (modelPrice : jsobj) (values : jsobj) (name : jstr) : jsobj :=
  if obj_has name modelPrice then values
  else obj_set name (JNum (getEffectiveCompletionRatio name (prop values name))) values.

Definition effective_completion_source (maps : PricingMaps jstr) : jstr :=
  match parseNumberMap (modelPrice maps) ModelPrice, parseNumberMap (modelRatio maps) ModelRatio,
        parseNumberMap (completionRatio maps) CompletionRatio with
  | inl price, inl ratio, inl completion =>
      stringify2 (JObj (fold_left (fill_completion price) (obj_keys ratio) (obj_spread [] completion)))
  | _, _, _ => completionRatio maps
  end.

Definition exportPricingFieldsJson (maps : PricingMaps jstr) (candidateModelNames : list jstr)
    (candidateModelsOnly : bool) : PricingFieldsDrafts :=
  fun field =>
    let source := if field ==? CompletionRatio then effective_completion_source maps else map_of maps field in
    if negb candidateModelsOnly then source
    else
      match parseNumberMap source field with
      | inr _ => "{}"
      | inl o =>
          stringify2 (JObj (obj_of_entries (List.filter (fun kv => bool_decide (fst kv ∈ candidateModelNames)) o)))
      end.

Inductive ApplyPricingFieldsResult :=
| FieldsApplied (updates : PricingFieldsDrafts)
| FieldsRejected (errors : list jstr).

Section FieldsJson.
Variable maps : PricingMaps jstr.
Variable drafts : PricingFieldsDrafts.
Variable candidateModelNames : list jstr.
Variable candidateModelsOnly : bool.

Definition parsedDraft (field : PricingField) : jsobj + jstr := parseNumberMap (drafts field) field.

(** [map.get(field) || {}] *)
Definition or_empty (p : jsobj + jstr) : jsobj := match p with inl o => o | inr _ => [] end.

Definition bad_name (field : PricingField) (name : jstr) : list jstr :=
  check (isInvalidModelName name) (complaint (field_name field) "invalid model name; trailing quote is not allowed").

Definition scope_error (field : PricingField) (name : jstr) : list jstr :=
  if isInvalidModelName name then bad_name field name
  else check (negb (bool_decide (name ∈ candidateModelNames)))
         (complaint (field_name field) (sq "model '" ++ name ++ sq "' is outside the allowed unset-pricing scope")).

(** The first loop. *)
Definition draft_errors (field : PricingField) : list jstr :=
  match parsedDraft field with
  | inr e => [e]
  | inl o =>
      if negb candidateModelsOnly then []
      else
        flat_map (scope_error field) (obj_keys o)
        ++ match parseNumberMap (map_of maps field) field with inr e => [e] | inl _ => [] end
  end.

(** The second loop. *)
Definition name_errors (field : PricingField) : list jstr :=
  if negb candidateModelsOnly then flat_map (bad_name field) (obj_keys (or_empty (parsedDraft field))) else [].

(** The third loop. *)
Definition token_errors (modelPrice modelRatio completionRatio : jsobj) (name : jstr) : list jstr :=
  if obj_has name modelPrice then []
  else if negb (obj_has name modelRatio) || negb (hasPositiveTokenOutput (prop modelRatio name))
  then [complaint name "completion ratio requires a matching ModelRatio input"]
  else check (negb (hasPositiveTokenOutput (prop completionRatio name)))
         (complaint name "positive completion output price is required for token pricing").

Definition fields_errors : list jstr :=
  let modelPrice := or_empty (parsedDraft ModelPrice) in
  let modelRatio := or_empty (parsedDraft ModelRatio) in
  let completionRatio := or_empty (parsedDraft CompletionRatio) in
  flat_map draft_errors pricingJsonFields ++ flat_map name_errors pricingJsonFields
  ++ flat_map (token_errors modelPrice modelRatio completionRatio)
       (uniq (obj_keys modelRatio ++ obj_keys completionRatio)).

Definition field_update (field : PricingField) : jstr :=
  let draft := or_empty (parsedDraft field) in
  if negb candidateModelsOnly then stringify2 (JObj draft)
  else
    let current := or_empty (parseNumberMap (map_of maps field) field) in
    stringify2 (JObj (obj_of_entries
      (List.filter (fun kv => negb (bool_decide (fst kv ∈ candidateModelNames))) current ++ draft))).

Definition applyPricingFieldsJson : ApplyPricingFieldsResult :=
  match fields_errors with
  | [] => FieldsApplied field_update
  | errors => FieldsRejected errors
  end.
End FieldsJson.
