(* ===== verification/PricingJsonProofs.v ===== *)
(** * Prices as JSON documents: properties

    Companion of [PricingJson]: which documents are accepted, what a document does to the
    prices of every model, and the round trip of the field editor. *)
From S2P Require Import Prelude JsString JsNumber JsValue Json OrderedMap ModelPricing PricingSnapshots PricingJson.

(** ** Computations that may throw *)

Lemma res_fold_app {A S} (f : S -> A -> res S) l1 l2 s :
  res_fold f s (l1 ++ l2) = res_bind (res_fold f s l1) (fun s' => res_fold f s' l2).
Proof.
  revert s. induction l1 as [|x l1 IH]; intros s; cbn; [done|]. destruct (f s x); cbn; [apply IH|done].
Qed.

Lemma res_fold_total {A S} (f : S -> A -> res S) l : forall s,
  (forall s x, x ∈ l -> exists s', f s x = Ok s') -> exists s', res_fold f s l = Ok s'.
Proof.
  induction l as [|x l IH]; intros s H; cbn; [eauto|].
  destruct (H s x ltac:(left)) as [s' ->]. cbn. apply IH. intros s1 y Hy. apply H. by right.
Qed.

Lemma res_map_total {A B} (f : A -> res B) l : (forall x, x ∈ l -> exists y, f x = Ok y) -> exists ys, res_map f l = Ok ys.
Proof.
  induction l as [|x l IH]; intros H; cbn; [eauto|]. destruct (H x ltac:(left)) as [y ->]. cbn.
  destruct IH as [ys ->]; [intros z Hz; apply H; by right|]. cbn. eauto.
Qed.

Lemma res_filter_total {A} (f : A -> res bool) l : (forall x, exists b, f x = Ok b) -> exists r, res_filter f l = Ok r.
Proof.
  intros H. induction l as [|x l [r IH]]; cbn; [eauto|]. destruct (H x) as [b ->]. cbn. rewrite IH. cbn. eauto.
Qed.

Lemma res_exists_total {A} (f : A -> res bool) l : (forall x, x ∈ l -> exists b, f x = Ok b) -> exists b, res_exists f l = Ok b.
Proof.
  induction l as [|x l IH]; intros H; cbn; [eauto|]. destruct (H x ltac:(left)) as [[] ->]; cbn; [eauto|].
  apply IH. intros y Hy. apply H. by right.
Qed.

(** ** One model's prices *)

(** The eleven options of one model: [None] where an option has no entry. *)
Definition pricing : Type := PricingMaps (option jsval).

Definition pricing_of (m : PricingMaps jsobj) (name : jstr) : pricing := maps_map (obj_get name) m.

Definition unpriced : pricing :=
  {| modelPrice := None; modelRatio := None; cacheRatio := None; createCacheRatio := None; completionRatio := None;
     imageRatio := None; audioRatio := None; audioCompletionRatio := None; modelDiscount := None;
     billingMode := None; billingExpr := None |}.

(** What the prices of an entry are, with the discount of [p] and no expression. *)
Definition entry_prices (entry : jsobj) (p : pricing) : pricing :=
  let has key := defined (prop entry key) in
  let value key := js_to_number (prop entry key) in
  let lane b a d := if has a && b then Some (JNum (round (ndiv (value a) (value d)))) else None in
  if has "per_request" then
    {| modelPrice := Some (prop entry "per_request"); modelRatio := None; cacheRatio := None;
       createCacheRatio := None; completionRatio := None; imageRatio := None; audioRatio := None;
       audioCompletionRatio := None; modelDiscount := modelDiscount p; billingMode := None; billingExpr := None |}
  else
    let b := nlt nzero (value "input") in
    {| modelPrice := None; modelRatio := Some (JNum (round (ndiv (value "input") (num_of_Z 2))));
       cacheRatio := lane b "cache_read" "input"; createCacheRatio := lane b "cache_write" "input";
       completionRatio := lane b "output" "input"; imageRatio := lane b "image_input" "input";
       audioRatio := lane b "audio_input" "input";
       audioCompletionRatio :=
         lane (has "audio_input" && b && nlt nzero (value "audio_input")) "audio_output" "audio_input";
       modelDiscount := modelDiscount p; billingMode := None; billingExpr := None |}.

(** A discount below 1 is kept, any other is none. *)
Definition with_discount (entry : jsobj) (p : pricing) : pricing :=
  {| modelPrice := modelPrice p; modelRatio := modelRatio p; cacheRatio := cacheRatio p;
     createCacheRatio := createCacheRatio p; completionRatio := completionRatio p; imageRatio := imageRatio p;
     audioRatio := audioRatio p; audioCompletionRatio := audioCompletionRatio p;
     modelDiscount :=
       (let d := prop entry "discount" in
        if defined d && nlt (js_to_number d) (num_of_Z 1) then Some d else None);
     billingMode := billingMode p; billingExpr := billingExpr p |}.

Definition expression_billed (p : pricing) : bool := is_tiered (default JUndef (billingMode p)).

(** The specification of one entry of a document. *)
Definition priced_by (rawEntry : jsval) (p : pricing) : pricing :=
  match rawEntry with
  | JObj entry =>
      if discount_only entry then if expression_billed p then p else with_discount entry p
      else with_discount entry (entry_prices entry p)
  | _ => unpriced
  end.

(** What a model keeps before the document is applied. *)
Definition kept_by_document (replace named : bool) (name : jstr) (p : pricing) : pricing :=
  if negb replace then p
  else
    let expression := expression_billed p && negb named in
    {| modelPrice := None; modelRatio := None; cacheRatio := None; createCacheRatio := None; completionRatio := None;
       imageRatio := None; audioRatio := None; audioCompletionRatio := None;
       modelDiscount := if name ==? GLOBAL_MODEL_DISCOUNT_KEY then modelDiscount p else None;
       billingMode := if expression then billingMode p else None;
       billingExpr := if expression then billingExpr p else None |}.

(** ** Applying one entry *)

(** Lookups in an option after a [set] or a [delete]. *)
Ltac lookups := cbn; unfold set_if, prop; rewrite ?obj_get_set, ?obj_get_delete.

Lemma maps_map_ext {A B} (f g : A -> B) (m : PricingMaps A) :
  Forall (fun x => f x = g x) (map_list m) -> maps_map f m = maps_map g m.
Proof.
  intros H. unfold maps_map, map_list in *. repeat (apply Forall_cons in H as [-> H]). done.
Qed.

Lemma pricing_delete_model name other m :
  pricing_of (delete_model name m) other = if other ==? name then unpriced else pricing_of m other.
Proof.
  unfold pricing_of, delete_model, maps_map. cbn. rewrite !obj_get_delete. by destruct (other ==? name).
Qed.

Lemma obj_get_set_if b name v o other :
  obj_get other (set_if b name v o) = if b && (other ==? name) then Some v else obj_get other o.
Proof. unfold set_if. destruct b; [|done]. rewrite obj_get_set. by destruct (other ==? name). Qed.

Lemma pricing_set_discount name entry other m :
  pricing_of (set_discount name entry m) other
  = if other ==? name then with_discount entry (pricing_of m name) else pricing_of m other.
Proof.
  unfold pricing_of, set_discount, with_discount, maps_map. cbn. rewrite obj_get_set_if, obj_get_delete.
  destruct (decide (other = name)) as [->|H].
  - rewrite bool_decide_true by done. rewrite andb_true_r. by destruct (_ && _).
  - rewrite bool_decide_false by done. by rewrite andb_false_r.
Qed.

Lemma pricing_set_prices name entry other m :
  pricing_of (set_prices name entry (delete_prices name m)) other
  = if other ==? name then entry_prices entry (pricing_of m name) else pricing_of m other.
Proof.
  unfold pricing_of, set_prices, delete_prices, entry_prices, maps_map.
  destruct (decide (other = name)) as [->|H].
  - rewrite (bool_decide_true (name = name)) by done. destruct (defined (prop entry "per_request")); cbn;
      rewrite ?obj_get_set_if, ?obj_get_set, ?obj_get_delete, ?(bool_decide_true (name = name)) by done;
      rewrite ?andb_true_r; [done|].
    f_equal; repeat match goal with |- context [if ?b then _ else _] => destruct b eqn:? end;
      repeat match goal with H : _ = _ |- _ => revert H end;
      repeat match goal with |- context [defined ?x] => destruct (defined x) | |- context [nlt ?a ?b] => destruct (nlt a b) end;
      done.
  - rewrite (bool_decide_false (other = name)) by done. destruct (defined (prop entry "per_request")); cbn;
      rewrite ?obj_get_set_if, ?obj_get_set, ?obj_get_delete, ?(bool_decide_false (other = name)) by done;
      by rewrite ?andb_false_r.
Qed.

Lemma pricing_apply_entry name entry s other :
  pricing_of (bk_maps (apply_entry name entry s)) other
  = if other ==? name then priced_by (JObj entry) (pricing_of (bk_maps s) name) else pricing_of (bk_maps s) other.
Proof.
  unfold apply_entry. cbn [priced_by].
  change (is_tiered (prop (billingMode (bk_maps s)) name)) with (expression_billed (pricing_of (bk_maps s) name)).
  destruct (discount_only entry); rewrite ?andb_true_r, ?andb_false_r.
  - destruct (expression_billed _); cbn [bk_maps]; [by bd|by rewrite pricing_set_discount].
  - cbn [bk_maps]. rewrite pricing_set_discount, !pricing_set_prices. rewrite (bool_decide_true (name = name)) by done.
    by destruct (other ==? name).
Qed.

(** ** Applying a document *)

Lemma pricing_apply_model existing s n raw s' other :
  apply_model existing s (n, raw) = Ok s' ->
  pricing_of (bk_maps s') other
  = if other ==? trim n then priced_by raw (pricing_of (bk_maps s) (trim n)) else pricing_of (bk_maps s) other.
Proof.
  cbn [apply_model]. intros H. destruct raw.
  all: lazymatch type of H with
       | Ok (apply_entry _ _ _) = _ => injection H as <-; apply pricing_apply_entry
       | _ => apply res_bind_Ok in H as (had & _ & H); injection H as <-; apply pricing_delete_model
       end.
Qed.

Lemma pricing_apply_all existing entries : forall s s',
  NoDup (obj_keys entries) -> Forall (fun nv => trim (fst nv) = fst nv) entries ->
  res_fold (apply_model existing) s entries = Ok s' ->
  forall name, pricing_of (bk_maps s') name
    = match obj_get name entries with
      | Some raw => priced_by raw (pricing_of (bk_maps s) name)
      | None => pricing_of (bk_maps s) name
      end.
Proof.
  induction entries as [|[n raw] entries IH]; intros s s' Hnd Ht H name; [by injection H as <-|].
  cbn [res_fold] in H. apply res_bind_Ok in H as (s1 & H1 & H). inversion Hnd as [|? ? Hni Hnd']; subst.
  inversion Ht as [|? ? Htn Ht']; subst. cbn [fst] in Htn.
  rewrite (IH _ _ Hnd' Ht' H name), !(pricing_apply_model _ _ _ _ _ _ H1), Htn. cbn [obj_get].
  destruct (decide (name = n)) as [->|Hne]; [|by rewrite !bool_decide_false].
  rewrite !bool_decide_true by done. apply obj_get_None in Hni. by rewrite Hni.
Qed.

(** An option as [JSON.parse] reads it. *)
Definition option_ok (o : jsobj) : Prop := NoDup (obj_keys o) /\ Forall (fun kv => kv.2 <> JUndef) o.

Lemma defined_prop o k : Forall (fun kv => kv.2 <> JUndef) o -> defined (prop o k) = obj_has k o.
Proof.
  intros H. unfold prop, obj_has. destruct (obj_get k o) as [v|] eqn:E; [|done]. apply obj_get_In in E.
  eapply Forall_forall in H; [|exact E]. by destruct v.
Qed.

Lemma obj_get_of_entries (k : jstr) (o : jsobj) : NoDup (obj_keys o) -> obj_get k (obj_spread [] o) = obj_get k o.
Proof. intros H. rewrite obj_get_spread by done. by destruct (obj_get k o). Qed.

(** Every option is an object. *)
Definition objects (existing : PricingMaps jsval) (om : PricingMaps jsobj) : Prop :=
  existing = maps_map JObj om /\ Forall option_ok (map_list om).

Section Start.
Context (om : PricingMaps jsobj) (Hom : Forall option_ok (map_list om)).
Let existing := maps_map JObj om.

Lemma option_in (f : PricingMaps jsobj -> jsobj) : f om ∈ map_list om -> option_ok (f om).
Proof. intros H. eapply Forall_forall in Hom; [|exact H]. done. Qed.

Lemma keep_all_expressions names l : forall m, NoDup (obj_keys l) ->
  exists m', res_fold (keep_expression existing names) m l = Ok m' /\ forall name,
    pricing_of m' name =
      let p := pricing_of m name in
      if negb (bool_decide (name ∈ names)) && is_tiered (prop l name) then
        {| modelPrice := modelPrice p; modelRatio := modelRatio p; cacheRatio := cacheRatio p;
           createCacheRatio := createCacheRatio p; completionRatio := completionRatio p; imageRatio := imageRatio p;
           audioRatio := audioRatio p; audioCompletionRatio := audioCompletionRatio p; modelDiscount := modelDiscount p;
           billingMode := obj_get name l;
           billingExpr := if defined (prop (billingExpr om) name) then obj_get name (billingExpr om) else billingExpr p |}
      else p.
Proof.
  induction l as [|[n mode] l IH]; intros m Hnd; cbn [res_fold].
  { exists m. split; [done|]. intros name. cbn. by rewrite andb_false_r. }
  inversion Hnd as [|? ? Hni Hnd']; subst. apply obj_get_None in Hni. cbn [keep_expression].
  destruct (bool_decide (n ∈ names) || negb (is_tiered mode)) eqn:E; cbn [res_bind].
  - destruct (IH m Hnd') as (m' & -> & Hm). exists m'. split; [done|]. intros name. rewrite Hm. cbn zeta.
    unfold prop. cbn [obj_get]. destruct (decide (name = n)) as [->|Hne]; [|by rewrite (bool_decide_false (name = n))].
    rewrite (bool_decide_true (n = n)) by done. rewrite Hni. cbn. rewrite andb_false_r.
    destruct (bool_decide (n ∈ names)), (is_tiered mode); done.
  - apply orb_false_iff in E as [E1 E2]. apply negb_false_iff in E2.
    cbn [existing maps_map billingExpr js_at js_own_prop js_own res_bind].
    match goal with |- context [res_fold _ ?m1 _] => destruct (IH m1 Hnd') as (m' & -> & Hm) end.
    exists m'. split; [done|]. intros name. rewrite Hm. cbn zeta. unfold prop. cbn [obj_get].
    unfold pricing_of, maps_map. cbn.
    destruct (decide (name = n)) as [->|Hne].
    + rewrite Hni. cbn [default from_option id]. change (is_tiered JUndef) with false. rewrite andb_false_r.
      rewrite !(bool_decide_true (n = n)) by done. cbn [default from_option id]. rewrite E1, E2. cbn.
      rewrite obj_get_set, obj_get_set_if, (bool_decide_true (n = n)) by done. rewrite andb_true_r.
      f_equal. unfold default. destruct (obj_get n (billingExpr om)) as [[]|]; done.
    + rewrite !(bool_decide_false (name = n)) by done.
      rewrite obj_get_set, obj_get_set_if, (bool_decide_false (name = n)) by done. by rewrite andb_false_r.
Qed.

Lemma start_maps_spec names replace :
  exists m, start_maps existing names replace = Ok m /\ forall name,
    pricing_of m name = kept_by_document replace (bool_decide (name ∈ names)) name (pricing_of om name).
Proof.
  unfold start_maps, kept_by_document. destruct replace; cbn [negb].
  - cbn [existing maps_map modelDiscount billingMode js_at js_keys js_own_prop js_own res_bind].
    assert (option_ok (billingMode om)) as [Hnd _] by (apply (option_in billingMode); set_solver).
    assert (option_ok (billingExpr om)) as [_ Hde] by (apply (option_in billingExpr); set_solver).
    assert (option_ok (modelDiscount om)) as [_ Hdd] by (apply (option_in modelDiscount); set_solver).
    match goal with |- context [res_fold _ ?m1 _] => destruct (keep_all_expressions names _ m1 Hnd) as (m' & -> & Hm) end.
    exists m'. split; [done|]. intros name. rewrite Hm. cbn zeta. unfold pricing_of, maps_map, expression_billed. cbn.
    change (default JUndef (obj_get name (billingMode om))) with (prop (billingMode om) name).
    change (default JUndef (obj_get GLOBAL_MODEL_DISCOUNT_KEY (modelDiscount om)))
      with (prop (modelDiscount om) GLOBAL_MODEL_DISCOUNT_KEY).
    rewrite obj_get_set_if, !defined_prop by done. unfold obj_has.
    assert ((if bool_decide (name = GLOBAL_MODEL_DISCOUNT_KEY) then obj_get name (modelDiscount om) else None)
      = if match obj_get GLOBAL_MODEL_DISCOUNT_KEY (modelDiscount om) with Some _ => true | None => false end
           && (name ==? GLOBAL_MODEL_DISCOUNT_KEY)
        then Some (prop (modelDiscount om) GLOBAL_MODEL_DISCOUNT_KEY) else @obj_get jsval name []) as ->.
    { destruct (decide (name = GLOBAL_MODEL_DISCOUNT_KEY)) as [->|Hne].
      - rewrite bool_decide_true by done. rewrite andb_true_r. unfold prop. by destruct (obj_get _ (modelDiscount om)).
      - rewrite bool_decide_false by done. by rewrite andb_false_r. }
    rewrite (andb_comm (negb _)). destruct (is_tiered _ && negb _); [|done]. f_equal.
    by destruct (obj_get name (billingExpr om)).
  - eexists. split; [done|]. intros name.
    change (maps_map (fun o => obj_get name (obj_spread [] o)) om = pricing_of om name).
    apply maps_map_ext. eapply Forall_impl; [exact Hom|]. intros o [Hnd _]. by apply obj_get_of_entries.
Qed.
End Start.

(** ** Which documents are accepted *)

Definition no_lanes (e : jsobj) : Prop := forall key, key ∈ laneKeys -> defined (prop e key) = false.

(** What an entry may be: a price per request, token prices, or a discount alone. *)
Inductive entry_shape (e : jsobj) : Prop :=
| per_request_shape :
    defined (prop e "per_request") = true -> defined (prop e "input") = false -> no_lanes e -> entry_shape e
| token_shape :
    defined (prop e "per_request") = false -> nlt nzero (js_to_number (prop e "input")) = true ->
    nlt nzero (js_to_number (prop e "output")) = true ->
    (defined (prop e "audio_output") = true -> defined (prop e "audio_input") = true) -> entry_shape e
| discount_shape :
    defined (prop e "per_request") = false -> defined (prop e "input") = false -> no_lanes e ->
    defined (prop e "discount") = true -> entry_shape e.

(** The fields of an entry: known ones, with finite numbers that are not negative. *)
Definition entry_fields (e : jsobj) : Prop :=
  (forall key, key ∈ obj_keys e -> key ∈ PRICE_FIELDS)
  /\ forall key, key ∈ PRICE_FIELDS -> defined (prop e key) = true ->
       exists n, prop e key = JNum n /\ is_finite n = true /\ nle nzero n = true.

Definition valid_entry (e : jsobj) : Prop :=
  entry_fields e /\ entry_shape e
  /\ (defined (prop e "discount") = true ->
      nlt nzero (js_to_number (prop e "discount")) = true
      /\ nle (js_to_number (prop e "discount")) (num_of_Z 1) = true).

Lemma check_nil b e : check b e = [] <-> b = false.
Proof. by destruct b. Qed.

Lemma flat_map_nil_iff {A B} (f : A -> list B) l : flat_map f l = [] <-> forall x, x ∈ l -> f x = [].
Proof.
  induction l as [|x l IH]; cbn; [split; [intros _ ? H; by apply elem_of_nil in H|done]|].
  split.
  - intros [H1 H2]%app_eq_nil y [->|Hy]%elem_of_cons; [done|]. by apply IH.
  - intros H. rewrite (H x ltac:(left)). apply IH. intros y Hy. apply H. by right.
Qed.

Lemma existsb_false {A} (p : A -> bool) l : existsb p l = false <-> forall x, x ∈ l -> p x = false.
Proof.
  induction l as [|x l IH]; cbn; [split; [intros _ ? H; by apply elem_of_nil in H|done]|].
  rewrite orb_false_iff, IH. setoid_rewrite elem_of_cons. naive_solver.
Qed.

(** On numbers, [isFiniteNumber] only asks whether the field is there. *)
Definition numeric (e : jsobj) : Prop :=
  forall key, key ∈ PRICE_FIELDS -> isFiniteNumber (prop e key) = defined (prop e key).

Lemma numeric_iff e :
  numeric e <-> forall key, key ∈ PRICE_FIELDS -> defined (prop e key) && negb (isFiniteNumber (prop e key)) = false.
Proof.
  unfold numeric. split; intros H key Hk; specialize (H key Hk).
  - rewrite H. by destruct (defined _).
  - destruct (prop e key); cbn in *; try done. by destruct (is_finite n).
Qed.

Lemma isFiniteNumber_inv v : isFiniteNumber v = true -> exists n, v = JNum n /\ is_finite n = true.
Proof. destruct v; try done. eauto. Qed.

Lemma entry_fields_iff e :
  entry_fields e
  <-> (forall key, key ∈ obj_keys e -> key ∈ PRICE_FIELDS) /\ numeric e
      /\ existsb (fun key => isFiniteNumber (prop e key) && nlt (js_to_number (prop e key)) nzero) PRICE_FIELDS = false.
Proof.
  unfold entry_fields. rewrite existsb_false. split.
  - intros [Hk Hn]. split_and!; [done|..].
    + intros key Hp. destruct (defined (prop e key)) eqn:E; [|by destruct (prop e key)].
      destruct (Hn key Hp E) as (n & -> & Hf & _). done.
    + intros key Hp. destruct (isFiniteNumber (prop e key)) eqn:E; [|done]. cbn [andb].
      destruct (Hn key Hp) as (n & -> & Hf & H0); [by destruct (prop e key)|]. cbn.
      rewrite nle_negb_nlt in H0 by done. by apply negb_true_iff.
  - intros (Hk & Hn & H0). split; [done|]. intros key Hp Hd. rewrite <- Hn in Hd by done.
    specialize (H0 key Hp). rewrite Hd in H0. apply isFiniteNumber_inv in Hd as (n & E & Hf). rewrite E in *.
    exists n. split_and!; [done|done|]. rewrite nle_negb_nlt by done. cbn in H0. by rewrite H0.
Qed.

Lemma no_lanes_iff e : no_lanes e <-> existsb (fun key => defined (prop e key)) laneKeys = false.
Proof. by rewrite existsb_false. Qed.

Lemma positive_output e : hasPositiveTokenOutput (prop e "output") = true ->
  existsb (fun key => defined (prop e key)) laneKeys = true.
Proof. intros H. cbn [existsb laneKeys]. by destruct (prop e "output"). Qed.

Section Entry.
Context (e : jsobj) (Hnum : numeric e).
Let D key := defined (prop e key).
Let V key := js_to_number (prop e key).
Let L := existsb (fun key => defined (prop e key)) laneKeys.

Lemma price_field key : bool_decide (key ∈ PRICE_FIELDS) = true -> isFiniteNumber (prop e key) = D key.
Proof. intros H. apply Hnum. by apply bool_decide_eq_true in H. Qed.

Lemma positive_defined key : bool_decide (key ∈ PRICE_FIELDS) = true -> nlt nzero (V key) = true -> D key = true.
Proof. intros _. unfold V, D. by destruct (prop e key). Qed.

Lemma hasPositive_value key : bool_decide (key ∈ PRICE_FIELDS) = true ->
  hasPositiveTokenOutput (prop e key) = nlt nzero (V key).
Proof.
  intros H. apply price_field in H. unfold V, D in *. destruct (prop e key); try done. cbn in *. by rewrite H.
Qed.

Lemma compare_defined key n : bool_decide (key ∈ PRICE_FIELDS) = true -> is_finite n = true -> D key = true ->
  nle (V key) n = negb (nlt n (V key)) /\ nlt n (V key) = negb (nle (V key) n).
Proof.
  intros H Hn Hd. rewrite <- price_field in Hd by done. apply isFiniteNumber_inv in Hd as (v & E & Hf).
  unfold V. rewrite E. cbn [js_to_number]. rewrite nle_negb_nlt by done. by rewrite negb_involutive.
Qed.

(** The checks of a numeric entry's shape and discount, as one boolean each. *)
Lemma shape_checks :
  (D "per_request" && (D "input" || L) = false
   /\ negb (D "per_request") && L && negb (D "input") = false
   /\ negb (D "per_request") && D "input" && nle (V "input") nzero = false
   /\ negb (D "per_request") && D "input" && negb (hasPositiveTokenOutput (prop e "output")) = false
   /\ D "audio_output" && negb (D "audio_input") && negb (D "per_request") = false
   /\ negb (D "per_request") && negb (D "input") && negb L && negb (D "discount") = false)
  <-> entry_shape e.
Proof.
  rewrite hasPositive_value by done. pose proof (positive_defined "input" eq_refl) as Hi.
  pose proof (fun H => proj1 (compare_defined "input" nzero eq_refl eq_refl H)) as Hc.
  pose proof (positive_output e) as Ho. rewrite hasPositive_value in Ho by done.
  assert (L = false -> D "audio_output" = false) as Ha.
  { intros H. apply no_lanes_iff in H. apply H. cbn. set_solver. }
  fold L in Ho. split.
  - intros (H1 & H2 & H3 & H4 & H5 & H6). destruct (D "per_request") eqn:EP; cbn in *.
    { apply orb_false_iff in H1 as [H1 HL]. apply per_request_shape; [done|done|by apply no_lanes_iff]. }
    destruct (D "input") eqn:EI; cbn in *.
    { rewrite Hc in H3 by done. apply token_shape; [done|by apply negb_false_iff|by apply negb_false_iff|].
      intros H. fold (D "audio_output") in H. rewrite H in H5. cbn in H5. rewrite andb_true_r in H5. by apply negb_false_iff in H5. }
    rewrite andb_true_r in H2. rewrite H2 in H6. cbn in H6.
    apply discount_shape; [done|done|by apply no_lanes_iff|by apply negb_false_iff].
  - intros [HP HI HL|HP HI HO HA|HP HI HL HD].
    + apply no_lanes_iff in HL. fold L in HL. fold (D "per_request") (D "input") in *.
      rewrite HP, HI, HL, Ha by done. done.
    + fold (V "input") (V "output") (D "per_request") (D "audio_output") (D "audio_input") in *.
      rewrite HP, Hi, HO, (Ho HO), Hc, HI by auto. cbn.
      destruct (D "audio_output"); [rewrite HA by done|]; done.
    + apply no_lanes_iff in HL. fold L in HL. fold (D "per_request") (D "input") (D "discount") in *.
      rewrite HP, HI, HL, HD, Ha by done. done.
Qed.

Lemma discount_check :
  D "discount" && (nle (V "discount") nzero || nlt (num_of_Z 1) (V "discount")) = false
  <-> (D "discount" = true -> nlt nzero (V "discount") = true /\ nle (V "discount") (num_of_Z 1) = true).
Proof.
  destruct (D "discount") eqn:E; [|naive_solver]. cbn [andb]. rewrite orb_false_iff.
  destruct (compare_defined "discount" nzero eq_refl eq_refl E) as [-> _].
  destruct (compare_defined "discount" (num_of_Z 1) eq_refl eq_refl E) as [_ ->].
  rewrite !negb_false_iff. naive_solver.
Qed.
End Entry.

Lemma entry_errors_nil name e : entry_errors name e = [] <-> valid_entry e.
Proof.
  unfold valid_entry. rewrite entry_fields_iff. unfold entry_errors. rewrite !app_nil, !flat_map_nil_iff.
  repeat setoid_rewrite check_nil.
  assert ((forall key, key ∈ obj_keys e -> negb (bool_decide (key ∈ PRICE_FIELDS)) = false)
          <-> forall key, key ∈ obj_keys e -> key ∈ PRICE_FIELDS) as ->.
  { split; intros H key Hk; specialize (H key Hk); [apply negb_false_iff in H; by apply bool_decide_eq_true in H|].
    by rewrite bool_decide_true. }
  rewrite <- numeric_iff. split.
  - intros (Hk & Hn & H). rewrite !(price_field e Hn) in H by done. destruct H as (H1 & H2 & H3 & H4 & H5 & H6 & H7 & H8).
    split_and!; [done|done|done| |by apply discount_check]. apply shape_checks; [done|]. split_and!; done.
  - intros ((Hk & Hn & H0) & Hs & Hd). split; [done|]. split; [done|]. rewrite !(price_field e Hn) by done.
    apply shape_checks in Hs as (H1 & H2 & H3 & H4 & H5 & H6); [|done]. apply discount_check in Hd; [|done].
    split_and!; done.
Qed.

(** The entries a document may have. *)
Definition valid_model (nv : jstr * jsval) : Prop :=
  isInvalidModelName (fst nv) = false /\ fst nv <> GLOBAL_MODEL_DISCOUNT_KEY
  /\ (snd nv = JNull \/ exists e, snd nv = JObj e /\ valid_entry e).

Lemma valid_name n : isInvalidModelName n = false -> trim n = n /\ n <> [].
Proof.
  unfold isInvalidModelName. intros H. bools. match goal with H : trim n = n |- _ => rewrite H in * end.
  split; [done|]. by intros ->.
Qed.

Lemma model_errors_nil nv : model_errors nv = [] <-> valid_model nv.
Proof.
  destruct nv as [n raw]. unfold valid_model. cbn [fst snd model_errors].
  destruct (isInvalidModelName n) eqn:En; [split; [done|by intros []]|].
  destruct (valid_name n En) as [-> Hne]. rewrite bool_decide_false by done.
  destruct (decide (n = GLOBAL_MODEL_DISCOUNT_KEY)) as [->|Hg].
  { rewrite bool_decide_true by done. split; [done|by intros (_ & [] & _)]. }
  rewrite bool_decide_false by done. destruct raw as [| | | | | |e].
  2: by split; [intros _; split_and!; [done|done|by left]|].
  6: rewrite entry_errors_nil; split; [intros H; split_and!; [done|done|right; eauto]
       |by intros (_ & _ & [?|(e' & [= <-] & H)])].
  all: split; [intros H; discriminate H|intros (_ & _ & [H|(e & H & _)]); discriminate H].
Qed.

Lemma document_errors_nil entries : flat_map model_errors entries = [] <-> Forall valid_model entries.
Proof. rewrite flat_map_nil_iff, Forall_forall. by setoid_rewrite model_errors_nil. Qed.

Lemma maps_map_sources {A} (f : A -> jsval) (m : PricingMaps A) om : maps_map f m = maps_map JObj om ->
  Forall (fun o => exists x, f x = JObj o) (map_list om).
Proof.
  intros H. unfold maps_map in H. injection H as H1 H2 H3 H4 H5 H6 H7 H8 H9 H10 H11.
  unfold map_list. repeat (apply Forall_cons; split; [eauto|]). constructor.
Qed.

(** The options of [maps] as objects: what the server stores. *)
Lemma parsed_option_ok maps om : parse_maps maps = maps_map JObj om -> Forall option_ok (map_list om).
Proof.
  intros H. assert (forall text o, safeJsonParse (Some text) (Some (JObj [])) = JObj o -> option_ok o) as Hs.
  { unfold safeJsonParse. cbn [default from_option id js_nullish]. intros text o.
    destruct (trim text) as [|c t]; [intros [= <-]; split; constructor|].
    destruct (parse (c :: t)) as [v|] eqn:E; [intros ->|intros [= <-]; split; constructor].
    split; [by apply (parse_NoDup _ _ E)|by apply (parse_defined _ _ E)]. }
  apply maps_map_sources in H. eapply Forall_impl; [exact H|]. intros o [text Ht]. by apply (Hs text).
Qed.

Section Apply.
Context (syntax_message : jstr -> jstr) (maps : PricingMaps jstr) (om : PricingMaps jsobj).
Context (Hmaps : parse_maps maps = maps_map JObj om).

Lemma apply_all_total entries s : Forall valid_model entries ->
  exists s', res_fold (apply_model (maps_map JObj om)) s entries = Ok s'.
Proof.
  intros H. apply res_fold_total. intros s1 [n raw] Hin. eapply Forall_forall in H as (_ & _ & H); [|exact Hin].
  cbn [snd] in H. destruct H as [->|(e & -> & _)]; [|eauto]. cbn [apply_model].
  match goal with |- context [res_exists ?f ?l] => destruct (res_exists_total f l) as [had ->]; [|cbn; eauto] end.
  intros v Hv. change (v ∈ map JObj (map_list om)) in Hv.
  apply list_elem_of_In, in_map_iff in Hv as (o & <- & _). cbn. eauto.
Qed.

Lemma dropped_total names : exists z, dropped_models (maps_map JObj om) names = Ok z.
Proof.
  unfold dropped_models. change (map_list (maps_map JObj om)) with (map JObj (map_list om)).
  destruct (res_map_total js_keys (map JObj (map_list om))) as [keys ->].
  { intros v (o & <- & _)%list_elem_of_In%in_map_iff. cbn. eauto. }
  cbn [res_bind].
  match goal with |- context [res_filter ?f ?l] => destruct (res_filter_total f l) as [r ->]; [|cbn; eauto] end.
  intros x. destruct (bool_decide _); cbn; eauto.
Qed.

Lemma valid_trim entries : Forall valid_model entries -> Forall (fun nv => trim (fst nv) = fst nv) entries.
Proof. intros H. eapply Forall_impl; [exact H|]. intros [n raw] (Hn & _). by apply valid_name. Qed.

Lemma document_names entries name : Forall valid_model entries ->
  name ∈ uniq (List.filter non_empty (map (fun nv => trim (fst nv)) entries)) <-> name ∈ obj_keys entries.
Proof.
  intros H. rewrite elem_of_uniq. replace (map (fun nv => trim (fst nv)) entries) with (obj_keys entries).
  2:{ unfold obj_keys. apply map_ext_in. intros nv Hin%list_elem_of_In. symmetry.
      eapply Forall_forall in Hin; [|by apply valid_trim]. done. }
  rewrite filter_all; [done|]. apply forallb_Forall, Forall_map. eapply Forall_impl; [exact H|].
  intros [n raw] (Hn & _). apply valid_name in Hn as [_ Hn]. by destruct n.
Qed.

(** A valid document is applied, and what it does to each model. *)
Lemma apply_document_spec entries replace : Forall valid_model entries -> NoDup (obj_keys entries) ->
  exists m applied removed skipped,
    apply_document (maps_map JObj om) entries replace = Ok (BulkApplied (maps_text m) applied removed skipped)
    /\ forall name,
         let kept := kept_by_document replace (bool_decide (name ∈ obj_keys entries)) name (pricing_of om name) in
         pricing_of m name
         = match obj_get name entries with Some raw => priced_by raw kept | None => kept end.
Proof.
  intros Hv Hnd. unfold apply_document.
  destruct (start_maps_spec om (parsed_option_ok _ _ Hmaps)
    (uniq (List.filter non_empty (map (fun nv => trim (fst nv)) entries))) replace) as (m & -> & Hm).
  cbn [res_bind]. destruct (apply_all_total entries {| bk_maps := m; bk_applied := 0; bk_removed := 0; bk_skippedTiered := [] |} Hv)
    as [s Hs]. rewrite Hs. cbn [res_bind].
  assert (exists z, (if replace then dropped_models (maps_map JObj om)
    (uniq (List.filter non_empty (map (fun nv => trim (fst nv)) entries))) else Ok 0%Z) = Ok z) as [z ->].
  { destruct replace; [apply dropped_total|eauto]. }
  cbn [res_bind]. do 4 eexists. split; [reflexivity|]. intros name. cbn zeta.
  rewrite (pricing_apply_all _ _ _ _ Hnd (valid_trim _ Hv) Hs). cbn [bk_maps]. rewrite Hm.
  rewrite (bool_decide_ext _ _ (document_names entries name Hv)). done.
Qed.

Lemma apply_text text replace :
  applyPricingJson syntax_message maps text replace
  = match parse text with
    | None => Ok (BulkRejected [syntax_message text])
    | Some (JObj entries) =>
        match flat_map model_errors entries with
        | [] => apply_document (maps_map JObj om) entries replace
        | errors => Ok (BulkRejected errors)
        end
    | Some _ => Ok (BulkRejected ["Expected a JSON object keyed by model name"])
    end.
Proof. unfold applyPricingJson. by rewrite Hmaps. Qed.
End Apply.

(** C32: on stored options the bulk editor never throws, and it applies exactly the well-formed
    documents: known fields, finite prices that are not negative, and per model a price per request, token
    prices with a positive input and output, or a discount in (0, 1] alone. *)
Theorem bulk_accepts_valid syntax_message maps om text replace :
  parse_maps maps = maps_map JObj om ->
  exists r, applyPricingJson syntax_message maps text replace = Ok r
    /\ ((exists updates applied removed skipped, r = BulkApplied updates applied removed skipped)
        <-> exists entries, parse text = Some (JObj entries) /\ Forall valid_model entries).
Proof.
  intros H. rewrite (apply_text _ _ _ H). destruct (parse text) as [v|] eqn:E; [|eexists; split; [done|]; split; [by intros (? & ? & ? & ? & ?)|by intros (? & ? & _)]].
  destruct v as [| | | | | |entries];
    try (eexists; split; [done|]; split; [by intros (? & ? & ? & ? & ?)|by intros (? & ? & _)]).
  destruct (flat_map model_errors entries) as [|e l] eqn:Ee.
  - apply document_errors_nil in Ee. destruct (apply_document_spec _ _ H entries replace Ee (parse_NoDup _ _ E))
      as (m & a & r & sk & -> & _). eexists. split; [done|]. split; [eauto|]. intros _. do 4 eexists. done.
  - eexists. split; [done|]. split; [by intros (? & ? & ? & ? & ?)|]. intros (entries' & [= <-] & Hv%document_errors_nil).
    by rewrite Hv in Ee.
Qed.

(** C26: the document that is applied decides the prices of the models it names, and only theirs:
    [null] removes a model, an entry with prices replaces all of them and any expression, a discount alone
    leaves the prices and an expression; a replacing document also clears the other models, keeping the
    discount of all models and the expressions of the models it does not name, so that an expression of a
    model it names with a discount alone is dropped. *)
Theorem bulk_apply_spec syntax_message maps om text replace updates applied removed skipped :
  parse_maps maps = maps_map JObj om ->
  applyPricingJson syntax_message maps text replace = Ok (BulkApplied updates applied removed skipped) ->
  exists entries m, parse text = Some (JObj entries) /\ updates = maps_text m
    /\ forall name,
         let kept := kept_by_document replace (bool_decide (name ∈ obj_keys entries)) name (pricing_of om name) in
         pricing_of m name
         = match obj_get name entries with Some raw => priced_by raw kept | None => kept end.
Proof.
  intros H Hr. rewrite (apply_text _ _ _ H) in Hr. destruct (parse text) as [[| | | | | |entries]|] eqn:E; try done.
  destruct (flat_map model_errors entries) as [|e l] eqn:Ee; [|done]. apply document_errors_nil in Ee.
  destruct (apply_document_spec _ _ H entries replace Ee (parse_NoDup _ _ E)) as (m & a & r & sk & Hm & Hspec).
  rewrite Hm in Hr. injection Hr as <- _ _ _. eauto.
Qed.

(** ** A stored price list *)

Definition demo_maps : PricingMaps jstr :=
  {| modelPrice := sq "{'draw':0.04}"; modelRatio := sq "{'chat':1.5,'free':0}"; cacheRatio := sq "{'chat':0.1}";
     createCacheRatio := []; completionRatio := sq "{'chat':5}"; imageRatio := "{}"; audioRatio := "{}";
     audioCompletionRatio := "{}"; modelDiscount := sq "{'*':0.8,'chat':0.9}";
     billingMode := sq "{'gpt':'tiered_expr'}"; billingExpr := sq "{'gpt':'tier(p * 2)'}" |}.

Definition demo_objects : PricingMaps jsobj := maps_map js_own (parse_maps demo_maps).

Definition demo_document : jstr :=
  sq "{'chat':{'input':3,'output':15,'cache_read':0.3,'discount':0.8},'draw':null,'gpt':{'discount':0.5}}".

Lemma demo_stored : parse_maps demo_maps = maps_map JObj demo_objects.
Proof. vm_compute. reflexivity. Qed.

Lemma demo_applied : exists updates applied removed skipped,
  applyPricingJson (fun _ => []) demo_maps demo_document false = Ok (BulkApplied updates applied removed skipped)
  /\ modelRatio updates = stringify2 (JObj [("free", JNum nzero); ("chat", JNum (num_of_string "1.5"))])
  /\ completionRatio updates = stringify2 (JObj [("chat", JNum (num_of_Z 5))])
  /\ modelPrice updates = "{}" /\ applied = 1%Z /\ removed = 1%Z /\ skipped = ["gpt" : jstr].
Proof. vm_compute. do 4 eexists. split_and!; reflexivity. Qed.

Lemma bulk_accepts_valid_witness :
  exists r, applyPricingJson (fun _ => []) demo_maps demo_document false = Ok r
    /\ ((exists updates applied removed skipped, r = BulkApplied updates applied removed skipped)
        <-> exists entries, parse demo_document = Some (JObj entries) /\ Forall valid_model entries).
Proof. apply (bulk_accepts_valid _ _ _ _ _ demo_stored). Defined.

Lemma bulk_apply_spec_witness :
  exists updates applied removed skipped,
    applyPricingJson (fun _ => []) demo_maps demo_document false = Ok (BulkApplied updates applied removed skipped)
    /\ exists entries m, parse demo_document = Some (JObj entries) /\ updates = maps_text m
    /\ forall name,
         let kept := kept_by_document false (bool_decide (name ∈ obj_keys entries)) name (pricing_of demo_objects name) in
         pricing_of m name
         = match obj_get name entries with Some raw => priced_by raw kept | None => kept end.
Proof.
  destruct demo_applied as (u & a & r & s & H & _). exists u, a, r, s. split; [exact H|].
  exact (bulk_apply_spec _ _ _ _ _ _ _ _ _ demo_stored H).
Defined.

(** A replacing document that gives a model billed by expression only a discount drops the
    expression and stores the discount: the model has no price left, and it counts as
    applied. *)
Lemma replace_drops_expression : exists updates,
  applyPricingJson (fun _ => []) demo_maps (sq "{'gpt':{'discount':0.5}}") true
  = Ok (BulkApplied updates 1 3 [])
  /\ modelDiscount updates = stringify2 (JObj [("*", JNum (num_of_string "0.8")); ("gpt", JNum (num_of_string "0.5"))])
  /\ billingMode updates = "{}" /\ billingExpr updates = "{}".
Proof. vm_compute. eexists. split_and!; reflexivity. Qed.

(** A free model is exported with price 0, which the editor does not accept back. *)
Lemma free_model_not_accepted_back localeCompare :
  exists text, exportPricingJson localeCompare demo_maps ["free"] true = Ok text
  /\ exists errors, applyPricingJson (fun _ => []) demo_maps text false = Ok (BulkRejected errors).
Proof.
  exists (stringify2 (JObj [("free", JObj [("input", JNum nzero); ("output", JNum nzero)])])).
  split; [vm_compute; reflexivity|]. eexists. vm_compute. reflexivity.
Qed.
