(* ===== verification/PricingFieldsProofs.v ===== *)
(** * The options one by one: properties

    Companion of [PricingJson]: what the field editor accepts and writes, and that what it
    shows can be applied back. *)
From S2P Require Import Prelude JsString JsNumber JsValue Json OrderedMap ModelPricing PricingSnapshots PricingJson.
From S2P Require Import PricingJsonProofs.

(** An option holds finite numbers. *)
Definition finite_numbers (o : jsobj) : Prop := Forall (fun kv => isFiniteNumber kv.2 = true) o.

Lemma parseNumberMap_inl text field o :
  parseNumberMap text field = inl o <-> parse text = Some (JObj o) /\ finite_numbers o.
Proof.
  unfold parseNumberMap, finite_numbers. destruct (parse text) as [[| | | | | |o']|]; try (split; [done|by intros []]).
  destruct (forallb isFiniteNumber (obj_values o')) eqn:E.
  - split; [|by intros [[= <-] _]]. intros [= <-]. split; [done|]. apply forallb_Forall in E. by apply Forall_map in E.
  - split; [done|]. intros [[= <-] H]. exfalso. apply not_true_iff_false in E. apply E, forallb_Forall, Forall_map. done.
Qed.

(** A name of a model: not empty, without blanks at its ends, and not ending with a quote. *)
Definition proper_name (name : jstr) : Prop :=
  exists first final, head name = Some first /\ last name = Some final
    /\ is_space first = false /\ is_space final = false /\ final <> 34%N.

Lemma proper_name_iff name : isInvalidModelName name = false <-> proper_name name.
Proof.
  unfold isInvalidModelName, proper_name. split.
  - intros H. bools. match goal with H : trim name = name |- _ => rename H into Ht end. rewrite Ht in *.
    pose proof (trimmed_trim name) as Htr. rewrite Ht in Htr. clear Ht. destruct name as [|c l] eqn:E; [done|].
    destruct (exists_last (l := c :: l)) as (l' & d & E'); [done|]. rewrite E' in *. clear E'.
    unfold trimmed, endsWith, dquote in *. rewrite rev_app_distr in *. cbn in *.
    assert (exists f r, l' ++ [d] = f :: r) as (f & r & Ef) by (destruct l'; eexists _, _; reflexivity).
    rewrite Ef in *. bools. exists f, d. rewrite <- Ef, last_snoc, Ef. split_and!; try done. intros ->. done.
  - intros (f & d & Hf & Hd & Sf & Sd & Hq). apply last_Some in Hd as [l ->].
    assert (trim (l ++ [d]) = l ++ [d]) as ->.
    { apply trim_id. unfold trimmed. rewrite rev_app_distr. cbn. destruct (l ++ [d]) as [|x y] eqn:E; [done|].
      injection Hf as ->. by rewrite Sf, Sd. }
    rewrite (bool_decide_true (l ++ [d] = l ++ [d])) by done. rewrite length_app, Nat.add_comm.
    unfold endsWith, startsWith, dquote. rewrite rev_app_distr. cbn -[N.eqb].
    by rewrite (proj2 (N.eqb_neq 34 d)) by congruence.
Qed.

(** ** What is shown *)

(** The completion ratios with the defaults of the token-priced models. *)
Definition filled (price ratio completion : jsobj) : jsobj :=
  fold_left (fill_completion price) (obj_keys ratio) (obj_spread [] completion).

Lemma fill_lookup price names : forall c name, NoDup names ->
  obj_get name (fold_left (fill_completion price) names c)
  = if bool_decide (name ∈ names) && negb (obj_has name price)
    then Some (JNum (getEffectiveCompletionRatio name (prop c name))) else obj_get name c.
Proof.
  induction names as [|n names IH]; intros c name Hnd; [done|]. inversion Hnd as [|? ? Hni Hnd']; subst.
  cbn [fold_left]. rewrite IH by done. unfold fill_completion, prop.
  destruct (decide (name = n)) as [->|Hne].
  - rewrite (bool_decide_false (n ∈ names)), (bool_decide_true (n ∈ n :: names)) by (done || by left). cbn [andb].
    destruct (obj_has n price); cbn [negb]; [done|]. by rewrite obj_get_set_eq.
  - rewrite (bool_decide_ext (name ∈ n :: names) (name ∈ names)) by (rewrite elem_of_cons; naive_solver).
    destruct (obj_has n price); [done|]. by rewrite obj_get_set_ne.
Qed.

Lemma finite_numbers_set k n o : is_finite n = true -> finite_numbers o -> finite_numbers (obj_set k (JNum n) o).
Proof.
  intros Hn Ho. apply (Forall_obj_spread _ o [(k, JNum n)]); [done|]. by repeat constructor.
Qed.

Lemma effective_positive name v : hasPositiveTokenOutput (JNum (getEffectiveCompletionRatio name v)) = true.
Proof. apply hasPositive_num, effective_ratio_positive. Qed.

Lemma filled_finite price names : forall c, finite_numbers c -> finite_numbers (fold_left (fill_completion price) names c).
Proof.
  induction names as [|n names IH]; intros c Hc; [done|]. cbn [fold_left]. apply IH. unfold fill_completion.
  destruct (obj_has n price); [done|]. apply finite_numbers_set; [apply effective_ratio_positive|done].
Qed.

(** ** What is accepted *)

Section Fields.
Context (maps : PricingMaps jstr) (drafts : PricingFieldsDrafts) (names : list jstr) (scoped : bool).

Lemma fields_errors_nil :
  fields_errors maps drafts names scoped = []
  <-> (forall f, draft_errors maps drafts names scoped f = []) /\ (forall f, name_errors drafts scoped f = [])
      /\ forall name, name ∈ obj_keys (or_empty (parsedDraft drafts ModelRatio))
                      \/ name ∈ obj_keys (or_empty (parsedDraft drafts CompletionRatio)) ->
           token_errors (or_empty (parsedDraft drafts ModelPrice)) (or_empty (parsedDraft drafts ModelRatio))
             (or_empty (parsedDraft drafts CompletionRatio)) name = [].
Proof.
  unfold fields_errors. rewrite !app_nil, !flat_map_nil_iff. setoid_rewrite elem_of_uniq. setoid_rewrite elem_of_app.
  assert (forall f, f ∈ pricingJsonFields) as Hall by (intros []; unfold pricingJsonFields; set_solver).
  naive_solver.
Qed.

Lemma token_errors_nil price ratio completion name :
  token_errors price ratio completion name = []
  <-> obj_has name price = true
      \/ obj_has name ratio = true /\ hasPositiveTokenOutput (prop ratio name) = true
         /\ hasPositiveTokenOutput (prop completion name) = true.
Proof.
  unfold token_errors. destruct (obj_has name price); [naive_solver|].
  destruct (obj_has name ratio), (hasPositiveTokenOutput (prop ratio name)); cbn [negb orb]; try (split; [done|naive_solver]).
  rewrite check_nil, negb_false_iff. naive_solver.
Qed.

Lemma draft_accepted f : draft_errors maps drafts names scoped f = [] ->
  exists o, parsedDraft drafts f = inl o /\ parse (drafts f) = Some (JObj o) /\ finite_numbers o.
Proof.
  unfold draft_errors, parsedDraft. destruct (parseNumberMap (drafts f) f) as [o|e] eqn:E; [|done].
  intros _. exists o. split; [done|]. by apply parseNumberMap_inl in E.
Qed.

Lemma scope_accepted f o : parsedDraft drafts f = inl o -> draft_errors maps drafts names true f = [] ->
  (forall name, name ∈ obj_keys o -> name ∈ names) /\ exists current, parseNumberMap (map_of maps f) f = inl current.
Proof.
  unfold draft_errors. intros -> [H1 H2]%app_nil. cbn [negb] in *. split.
  - intros name Hin. rewrite flat_map_nil_iff in H1. specialize (H1 name Hin). unfold scope_error, bad_name in H1.
    destruct (isInvalidModelName name); [done|]. apply check_nil, negb_false_iff in H1. by apply bool_decide_eq_true in H1.
  - destruct (parseNumberMap (map_of maps f) f); [eauto|done].
Qed.

(** The names of an accepted draft. *)
Lemma name_accepted f name : draft_errors maps drafts names scoped f = [] -> name_errors drafts scoped f = [] ->
  obj_has name (or_empty (parsedDraft drafts f)) = true -> proper_name name /\ (scoped = true -> name ∈ names).
Proof.
  intros Hd Hn Hin%obj_has_keys. rewrite <- proper_name_iff. unfold name_errors in Hn.
  destruct (draft_accepted f Hd) as (o & Ho & _). rewrite Ho in *. cbn [or_empty] in *.
  destruct scoped; cbn [negb] in Hn.
  - destruct (scope_accepted f o Ho Hd) as [Hs _]. split; [|intros _; by apply Hs].
    unfold draft_errors in Hd. rewrite Ho in Hd. cbn [negb] in Hd. apply app_nil in Hd as [Hd _].
    rewrite flat_map_nil_iff in Hd. specialize (Hd name Hin). unfold scope_error, bad_name in Hd.
    by destruct (isInvalidModelName name).
  - split; [|done]. rewrite flat_map_nil_iff in Hn. specialize (Hn name Hin). unfold bad_name in Hn. by apply check_nil in Hn.
Qed.

(** What is written to one option. *)
Lemma update_spec f o : parsedDraft drafts f = inl o -> draft_errors maps drafts names scoped f = [] ->
  exists u, field_update maps drafts names scoped f = stringify2 (JObj u) /\ forall name,
    obj_get name u
    = if scoped && negb (bool_decide (name ∈ names))
      then obj_get name (or_empty (parseNumberMap (map_of maps f) f)) else obj_get name o.
Proof.
  intros Ho He. unfold field_update. rewrite Ho. cbn [or_empty]. destruct scoped eqn:Es; cbn [negb andb]; [|eauto].
  destruct (scope_accepted f o Ho He) as (Hin & current & Hc). rewrite Hc. cbn [or_empty].
  eexists. split; [done|]. intros name.
  apply parseNumberMap_inl in Hc as [Hc%parse_NoDup _]. apply parseNumberMap_inl in Ho as [Hd%parse_NoDup _].
  set (kept := List.filter (fun kv => negb (bool_decide (fst kv ∈ names))) current).
  assert (forall n, obj_get n kept = if bool_decide (n ∈ names) then None else obj_get n current) as Hk.
  { intros n. unfold kept. clear. induction current as [|[k v] l IH]; cbn; [by destruct (bool_decide _)|].
    destruct (bool_decide (k ∈ names)) eqn:Ek; cbn [negb obj_get]; rewrite IH.
    - destruct (decide (n = k)) as [->|]; [by rewrite Ek|]. by rewrite (bool_decide_false (n = k)).
    - destruct (decide (n = k)) as [->|]; [by rewrite Ek, (bool_decide_true (k = k))|].
      by rewrite !(bool_decide_false (n = k)). }
  assert (NoDup (obj_keys (kept ++ o))) as Hnd.
  { unfold obj_keys. rewrite map_app. apply NoDup_app. split_and!; [|intros n H1 H2|done].
    - unfold kept. clear -Hc. induction current as [|[k v] l IH]; cbn; [constructor|].
      inversion Hc as [|? ? Hn Hc']; subst. destruct (negb _); cbn; [|auto]. constructor; [|auto].
      intros Hin. apply Hn. apply list_elem_of_In, in_map_iff in Hin as (kv & <- & Hin).
      apply filter_In in Hin as [Hin _]. apply list_elem_of_In, in_map_iff. eauto.
    - apply (obj_has_keys n) in H1. unfold obj_has in H1. rewrite Hk in H1.
      rewrite bool_decide_true in H1; [done|]. apply Hin. done. }
  unfold obj_of_entries. change (fold_left _ (kept ++ o) []) with (obj_spread [] (kept ++ o)).
  rewrite obj_get_of_entries, obj_get_app, Hk by done. destruct (bool_decide (name ∈ names)) eqn:E; cbn [negb]; [done|].
  destruct (obj_get name current); [done|]. destruct (obj_get name o) eqn:Eo; [|done]. apply bool_decide_eq_false in E.
  exfalso. apply E, Hin, obj_has_keys. unfold obj_has. by rewrite Eo.
Qed.
End Fields.

(** ** Properties *)

(** C29: what the field editor writes: only numbers under proper names of models, in the unset
    view only of models it may touch, keeping what the others have, and every model with token
    prices and no price per request gets a positive input and a positive output. *)
Theorem fields_applied_spec maps drafts candidateModelNames candidateModelsOnly updates :
  applyPricingFieldsJson maps drafts candidateModelNames candidateModelsOnly = FieldsApplied updates ->
  exists d : PricingField -> jsobj,
    (forall f, parse (drafts f) = Some (JObj (d f)) /\ finite_numbers (d f))
    /\ (forall f name, obj_has name (d f) = true ->
          proper_name name /\ (candidateModelsOnly = true -> name ∈ candidateModelNames))
    /\ (forall f, exists u, updates f = stringify2 (JObj u) /\ forall name,
          obj_get name u
          = if candidateModelsOnly && negb (bool_decide (name ∈ candidateModelNames))
            then obj_get name (or_empty (parseNumberMap (map_of maps f) f)) else obj_get name (d f))
    /\ forall name, obj_has name (d ModelRatio) = true \/ obj_has name (d CompletionRatio) = true ->
         obj_has name (d ModelPrice) = true
         \/ hasPositiveTokenOutput (prop (d ModelRatio) name) = true
            /\ hasPositiveTokenOutput (prop (d CompletionRatio) name) = true.
Proof.
  unfold applyPricingFieldsJson. destruct (fields_errors _ _ _ _) eqn:E; [|done]. intros [= <-].
  apply fields_errors_nil in E as (Hd & Hnames & Ht). exists (fun f => or_empty (parsedDraft drafts f)). split_and!.
  - intros f. destruct (draft_accepted _ _ _ _ _ (Hd f)) as (o & -> & Ho). done.
  - intros f name Hn. by eapply name_accepted.
  - intros f. destruct (draft_accepted _ _ _ _ _ (Hd f)) as (o & Ho & _). rewrite Ho. cbn [or_empty].
    apply update_spec; [done|apply Hd].
  - intros name Hn. rewrite !obj_has_keys in Hn. specialize (Ht name Hn). apply token_errors_nil in Ht as [H|(_ & H)]; auto.
Qed.

Section Accepting.
Context (maps : PricingMaps jstr) (o : PricingField -> jsobj) (candidateModelNames : list jstr).
Context (Hp : forall f, parse (map_of maps f) = Some (JObj (o f))).
Context (Hn : forall f, finite_numbers (o f)).
Context (Hnames : forall f name, obj_has name (o f) = true -> isInvalidModelName name = false).
Context (Hratio : forall name, obj_has name (o ModelRatio) = true ->
  obj_has name (o ModelPrice) = true \/ hasPositiveTokenOutput (prop (o ModelRatio) name) = true).
Context (Hcompletion : forall name, obj_has name (o CompletionRatio) = true ->
  obj_has name (o ModelPrice) = true \/ obj_has name (o ModelRatio) = true).
Let shown := filled (o ModelPrice) (o ModelRatio) (o CompletionRatio).
Context (Hok : json_ok (JObj shown) = true /\ forall f, json_ok (JObj (o f)) = true).

Definition shown_option (f : PricingField) : jsobj := if f ==? CompletionRatio then shown else o f.

Lemma shown_lookup name :
  obj_get name shown
  = if obj_has name (o ModelRatio) && negb (obj_has name (o ModelPrice))
    then Some (JNum (getEffectiveCompletionRatio name (prop (o CompletionRatio) name)))
    else obj_get name (o CompletionRatio).
Proof.
  pose proof (parse_NoDup _ _ (Hp ModelRatio)) as H1. pose proof (parse_NoDup _ _ (Hp CompletionRatio)) as H2.
  unfold shown, filled. rewrite fill_lookup, obj_get_of_entries by done. unfold prop. rewrite obj_get_of_entries by done.
  destruct (obj_has name (o ModelRatio)) eqn:E.
  - apply obj_has_keys in E. by rewrite bool_decide_true.
  - rewrite bool_decide_false; [done|]. rewrite <- obj_has_keys, E. done.
Qed.

Lemma exported f : exportPricingFieldsJson maps candidateModelNames false f
  = if f ==? CompletionRatio then stringify2 (JObj shown) else map_of maps f.
Proof.
  unfold exportPricingFieldsJson, effective_completion_source. cbn [negb]. destruct (f ==? CompletionRatio); [|done].
  rewrite (proj2 (parseNumberMap_inl (modelPrice maps) ModelPrice (o ModelPrice))) by (split; [apply (Hp ModelPrice)|apply Hn]).
  rewrite (proj2 (parseNumberMap_inl (modelRatio maps) ModelRatio (o ModelRatio))) by (split; [apply (Hp ModelRatio)|apply Hn]).
  by rewrite (proj2 (parseNumberMap_inl (completionRatio maps) CompletionRatio (o CompletionRatio)))
    by (split; [apply (Hp CompletionRatio)|apply Hn]).
Qed.

Lemma shown_finite f : finite_numbers (shown_option f).
Proof.
  unfold shown_option. destruct (f ==? CompletionRatio); [|apply Hn]. unfold shown, filled. apply filled_finite.
  apply Forall_obj_spread; [constructor|apply Hn].
Qed.

Lemma shown_parsed f : parsedDraft (exportPricingFieldsJson maps candidateModelNames false) f = inl (shown_option f).
Proof.
  unfold parsedDraft. apply parseNumberMap_inl. split; [|apply shown_finite]. rewrite exported. unfold shown_option.
  destruct (f ==? CompletionRatio); [|apply Hp]. apply parse_stringify2, Hok.
Qed.

Lemma shown_has f name : obj_has name (shown_option f) = true ->
  obj_has name (o f) = true \/ f = CompletionRatio /\ obj_has name (o ModelRatio) = true.
Proof.
  unfold shown_option. destruct (bool_decide_reflect (f = CompletionRatio)) as [->|]; [|by left].
  unfold obj_has at 1. rewrite shown_lookup. destruct (obj_has name (o ModelRatio)) eqn:E; [by right|]. cbn. by left.
Qed.

Lemma import_accepted :
  fields_errors maps (exportPricingFieldsJson maps candidateModelNames false) candidateModelNames false = [].
Proof.
  apply fields_errors_nil. rewrite !shown_parsed. cbn [or_empty]. split_and!.
  - intros f. unfold draft_errors. by rewrite shown_parsed.
  - intros f. unfold name_errors. rewrite shown_parsed. cbn [negb or_empty]. apply flat_map_nil_iff. intros name Hin.
    apply check_nil. apply obj_has_keys, shown_has in Hin as [Hin|[_ Hin]]; by eapply Hnames.
  - intros name Hin. apply token_errors_nil. rewrite <- !obj_has_keys in Hin.
    change (shown_option ModelPrice) with (o ModelPrice). change (shown_option ModelRatio) with (o ModelRatio).
    change (shown_option CompletionRatio) with shown.
    assert (obj_has name (o ModelPrice) = true \/ obj_has name (o ModelRatio) = true) as [?|Hr]; [|by left|].
    { destruct Hin as [H|H]; [by right|]. apply (shown_has CompletionRatio) in H as [H|[_ H]]; auto. }
    destruct (obj_has name (o ModelPrice)) eqn:Ep; [by left|right]. split; [done|].
    destruct (Hratio name Hr) as [?|Hpos]; [congruence|]. split; [done|].
    unfold prop. rewrite shown_lookup, Hr, Ep. apply effective_positive.
Qed.
End Accepting.

(** What the field editor shows can be applied as it is, and applying it changes no option but the
    completion ratios of token-priced models, which become the effective ones. *)
Theorem shown_fields_apply maps o candidateModelNames :
  (forall f, parse (map_of maps f) = Some (JObj (o f)) /\ finite_numbers (o f) /\ json_ok (JObj (o f)) = true) ->
  (forall f name, obj_has name (o f) = true -> isInvalidModelName name = false) ->
  (forall name, obj_has name (o ModelRatio) = true ->
     obj_has name (o ModelPrice) = true \/ hasPositiveTokenOutput (prop (o ModelRatio) name) = true) ->
  (forall name, obj_has name (o CompletionRatio) = true ->
     obj_has name (o ModelPrice) = true \/ obj_has name (o ModelRatio) = true) ->
  json_ok (JObj (filled (o ModelPrice) (o ModelRatio) (o CompletionRatio))) = true ->
  exists updates,
    applyPricingFieldsJson maps (exportPricingFieldsJson maps candidateModelNames false) candidateModelNames false
    = FieldsApplied updates
    /\ forall f, exists u, parse (updates f) = Some (JObj u) /\ forall name,
         obj_get name u
         = if (f ==? CompletionRatio) && obj_has name (o ModelRatio) && negb (obj_has name (o ModelPrice))
           then Some (JNum (getEffectiveCompletionRatio name (prop (o CompletionRatio) name)))
           else obj_get name (o f).
Proof.
  intros Ho Hnames Hratio Hcompletion Hok.
  pose proof (fun f => proj1 (Ho f)) as Hp. pose proof (fun f => proj1 (proj2 (Ho f))) as Hn.
  pose proof (fun f => proj2 (proj2 (Ho f))) as Hj. eexists. split.
  { unfold applyPricingFieldsJson. by rewrite (import_accepted maps o). }
  intros f. exists (shown_option o f). unfold field_update. cbn [negb]. rewrite (shown_parsed maps o) by done.
  cbn [or_empty]. split.
  - unfold shown_option. destruct (f ==? CompletionRatio); apply parse_stringify2; [done|apply Hj].
  - intros name. unfold shown_option. destruct (bool_decide_reflect (f = CompletionRatio)) as [->|]; [|done].
    cbn [andb]. by apply (shown_lookup maps).
Qed.

(** ** A stored price list *)

Definition demo_fields : PricingMaps jstr :=
  {| modelPrice := sq "{'draw':0.04}"; modelRatio := sq "{'gpt-4o':1.5,'o1':7.5}"; cacheRatio := sq "{'o1':0.25}";
     createCacheRatio := "{}"; completionRatio := sq "{'o1':4,'draw':2}"; imageRatio := "{}"; audioRatio := "{}";
     audioCompletionRatio := "{}"; modelDiscount := sq "{'*':0.8}"; billingMode := "{}"; billingExpr := "{}" |}.

Definition demo_field_objects (f : PricingField) : jsobj :=
  match parse (map_of demo_fields f) with Some (JObj o) => o | _ => [] end.

Lemma demo_fields_stored f : parse (map_of demo_fields f) = Some (JObj (demo_field_objects f))
  /\ finite_numbers (demo_field_objects f) /\ json_ok (JObj (demo_field_objects f)) = true.
Proof.
  destruct f; (split_and!; [vm_compute; reflexivity| |vm_compute; reflexivity]).
  all: unfold finite_numbers; apply forallb_Forall; vm_compute; reflexivity.
Qed.

Lemma demo_field_names f name : obj_has name (demo_field_objects f) = true -> isInvalidModelName name = false.
Proof.
  assert (forallb (fun n => negb (isInvalidModelName n)) (obj_keys (demo_field_objects f)) = true) as H
    by (destruct f; vm_compute; reflexivity).
  intros Hin%obj_has_keys%list_elem_of_In. rewrite forallb_forall in H. apply H in Hin. by apply negb_true_iff.
Qed.

Lemma shown_fields_apply_witness :
  exists updates,
    applyPricingFieldsJson demo_fields (exportPricingFieldsJson demo_fields [] false) [] false = FieldsApplied updates
    /\ exists u, parse (updates CompletionRatio) = Some (JObj u) /\ obj_get "gpt-4o" u = Some (JNum (num_of_Z 4)).
Proof.
  destruct (shown_fields_apply demo_fields demo_field_objects []) as (updates & H & Hu).
  - exact demo_fields_stored.
  - exact demo_field_names.
  - intros name H. assert (forallb (fun n => hasPositiveTokenOutput (prop (demo_field_objects ModelRatio) n))
      (obj_keys (demo_field_objects ModelRatio)) = true) as Hall by (vm_compute; reflexivity).
    apply obj_has_keys, list_elem_of_In in H. rewrite forallb_forall in Hall. right. by apply Hall.
  - intros name H. assert (forallb (fun n => obj_has n (demo_field_objects ModelPrice) || obj_has n (demo_field_objects ModelRatio))
      (obj_keys (demo_field_objects CompletionRatio)) = true) as Hall by (vm_compute; reflexivity).
    apply obj_has_keys, list_elem_of_In in H. rewrite forallb_forall in Hall. apply orb_true_iff. by apply Hall.
  - vm_compute. reflexivity.
  - exists updates. split; [exact H|]. destruct (Hu CompletionRatio) as (u & Hp & Hl). exists u. split; [exact Hp|].
    rewrite Hl. vm_compute. reflexivity.
Defined.

Definition demo_drafts : PricingFieldsDrafts :=
  fun f => match f with ModelRatio => sq "{'new':2}" | CompletionRatio => sq "{'new':3}" | _ => "{}" end.

Lemma demo_drafts_applied : exists updates,
  applyPricingFieldsJson demo_fields demo_drafts ["new"] true = FieldsApplied updates
  /\ updates ModelRatio = stringify2 (JObj [("gpt-4o", JNum (num_of_string "1.5")); ("o1", JNum (num_of_string "7.5"));
                                              ("new", JNum (num_of_Z 2))]).
Proof.
  unfold applyPricingFieldsJson.
  assert (fields_errors demo_fields demo_drafts ["new"] true = []) as -> by (vm_compute; reflexivity).
  eexists. split; [reflexivity|]. vm_compute. reflexivity.
Qed.

Lemma fields_applied_spec_witness :
  exists updates, applyPricingFieldsJson demo_fields demo_drafts ["new"] true = FieldsApplied updates
  /\ exists d : PricingField -> jsobj,
    (forall f, parse (demo_drafts f) = Some (JObj (d f)) /\ finite_numbers (d f))
    /\ (forall f name, obj_has name (d f) = true -> proper_name name /\ (true = true -> name ∈ ["new" : jstr]))
    /\ (forall f, exists u, updates f = stringify2 (JObj u) /\ forall name,
          obj_get name u
          = if true && negb (bool_decide (name ∈ ["new" : jstr]))
            then obj_get name (or_empty (parseNumberMap (map_of demo_fields f) f)) else obj_get name (d f))
    /\ forall name, obj_has name (d ModelRatio) = true \/ obj_has name (d CompletionRatio) = true ->
         obj_has name (d ModelPrice) = true
         \/ hasPositiveTokenOutput (prop (d ModelRatio) name) = true
            /\ hasPositiveTokenOutput (prop (d CompletionRatio) name) = true.
Proof.
  destruct demo_drafts_applied as (updates & H & _). exists updates. split; [exact H|].
  exact (fields_applied_spec _ _ _ _ _ H).
Defined.
