(* ===== verification/PricingEditor.v ===== *)
(** * The visual price editor (features/system-settings/models/model-pricing-sheet.tsx
    and model-ratio-visual-editor.tsx)

    The editor of one model's prices as a state machine over the administrator's input: the
    price lanes, the ratios in the form that follow them, the discount and the mode; and
    what saving or deleting a model does to the options. Rendering, the table and the toasts
    are left out. *)
From S2P Require Import Prelude JsString JsNumber JsValue Regex Json OrderedMap BillingExpr ModelPricing.
From S2P Require Import PricingSnapshots PricingJson.

(** ** Lanes *)

Inductive LaneKey := Completion | Cache | CreateCache | Image | AudioInput | AudioOutput.

#[export] Instance LaneKey_eq : EqDecision LaneKey.
Proof. solve_decision. Defined.

(** The keys of [laneConfigs], in order. *)
Definition lane_keys : list LaneKey := [Completion; Cache; CreateCache; Image; AudioInput; AudioOutput].

Definition lane {A} (l : Lanes A) (k : LaneKey) : A :=
  match k with
  | Completion => completion l | Cache => cache l | CreateCache => createCache l | Image => image l
  | AudioInput => audioInput l | AudioOutput => audioOutput l
  end.

Definition lanes_of {A} (f : LaneKey -> A) : Lanes A :=
  {| completion := f Completion; cache := f Cache; createCache := f CreateCache; image := f Image;
     audioInput := f AudioInput; audioOutput := f AudioOutput |}.

(** [{ ...lanes, [key]: value }] *)
Definition lane_set {A} (k : LaneKey) (v : A) (l : Lanes A) : Lanes A :=
  lanes_of (fun k' => if k' ==? k then v else lane l k').

Lemma lane_lanes_of {A} (f : LaneKey -> A) k : lane (lanes_of f) k = f k.
Proof. by destruct k. Qed.

Lemma lane_lane_set {A} k (v : A) l k' : lane (lane_set k v l) k' = if k' ==? k then v else lane l k'.
Proof. apply lane_lanes_of. Qed.

(** ** The state *)

(** The form: a ratio per lane is the field [ratioFieldByLane] names. *)
Record FormValues := {
  fv_name : jstr;
  fv_price : jstr;
  fv_ratio : jstr;
  fv_laneRatios : Lanes jstr;
  fv_discount : jstr
}.

Record EditorState := {
  es_pricingMode : PricingMode;
  es_promptPrice : jstr;
  es_lanePrices : Lanes jstr;
  es_laneEnabled : Lanes bool;
  es_billingExpr : jstr;
  es_requestRuleExpr : jstr;
  es_discountPrice : jstr;
  es_form : FormValues
}.

Definition empty_form : FormValues :=
  {| fv_name := []; fv_price := []; fv_ratio := []; fv_laneRatios := EMPTY_LANE_PRICES; fv_discount := [] |}.

(** [toNumberOrNull] on a string. *)
Definition text_number (s : jstr) : option num := toNumberOrNull (JStr s).

Definition fmt (n : num) : jstr := formatPricingNumber (JNum n).

(** [data.field || ''] *)
Definition or_blank (s : option jstr) : jstr := default [] s.

(** The effect that loads the model to edit: [None] is a new model. *)
Definition open_editor (editData : option ModelRatioData) : EditorState :=
  let next := createInitialLaneState editData in
  match editData with
  | None =>
      {| es_pricingMode := per_token; es_promptPrice := ls_promptPrice next; es_lanePrices := ls_prices next;
         es_laneEnabled := ls_enabled next; es_billingExpr := []; es_requestRuleExpr := [];
         es_discountPrice := []; es_form := empty_form |}
  | Some d =>
      let priced := non_empty (or_blank (md_price d)) in
      let discountRate := toNumberOrNull (opt_val (md_discount d)) in
      let discountBase :=
        if priced then toNumberOrNull (opt_val (md_price d)) else text_number (ls_promptPrice next) in
      {| es_pricingMode :=
           (if md_billingMode d ==? Some tiered_expr then tiered_expr else if priced then per_request else per_token);
         es_promptPrice := ls_promptPrice next; es_lanePrices := ls_prices next; es_laneEnabled := ls_enabled next;
         es_billingExpr := or_blank (md_billingExpr d); es_requestRuleExpr := or_blank (md_requestRuleExpr d);
         es_discountPrice :=
           (match discountRate, discountBase with Some r, Some b => fmt (nmul b r) | _, _ => [] end);
         es_form :=
           {| fv_name := md_name d; fv_price := or_blank (md_price d); fv_ratio := or_blank (md_ratio d);
              fv_laneRatios :=
                {| completion := or_blank (md_completionRatio d); cache := or_blank (md_cacheRatio d);
                   createCache := or_blank (md_createCacheRatio d); image := or_blank (md_imageRatio d);
                   audioInput := or_blank (md_audioRatio d); audioOutput := or_blank (md_audioCompletionRatio d) |};
              fv_discount := or_blank (md_discount d) |} |}
  end.

(** ** The handlers *)

Definition set_form (f : FormValues) (s : EditorState) : EditorState :=
  {| es_pricingMode := es_pricingMode s; es_promptPrice := es_promptPrice s; es_lanePrices := es_lanePrices s;
     es_laneEnabled := es_laneEnabled s; es_billingExpr := es_billingExpr s;
     es_requestRuleExpr := es_requestRuleExpr s; es_discountPrice := es_discountPrice s; es_form := f |}.

Definition set_lanes (promptPrice : jstr) (prices : Lanes jstr) (enabled : Lanes bool) (ratio : jstr)
    (ratios : Lanes jstr) (s : EditorState) : EditorState :=
  {| es_pricingMode := es_pricingMode s; es_promptPrice := promptPrice; es_lanePrices := prices;
     es_laneEnabled := enabled; es_billingExpr := es_billingExpr s; es_requestRuleExpr := es_requestRuleExpr s;
     es_discountPrice := es_discountPrice s;
     es_form := {| fv_name := fv_name (es_form s); fv_price := fv_price (es_form s); fv_ratio := ratio;
                   fv_laneRatios := ratios; fv_discount := fv_discount (es_form s) |} |}.

Definition set_form_discount (discount discountPrice : jstr) (s : EditorState) : EditorState :=
  {| es_pricingMode := es_pricingMode s; es_promptPrice := es_promptPrice s; es_lanePrices := es_lanePrices s;
     es_laneEnabled := es_laneEnabled s; es_billingExpr := es_billingExpr s;
     es_requestRuleExpr := es_requestRuleExpr s; es_discountPrice := discountPrice;
     es_form := {| fv_name := fv_name (es_form s); fv_price := fv_price (es_form s);
                   fv_ratio := fv_ratio (es_form s); fv_laneRatios := fv_laneRatios (es_form s);
                   fv_discount := discount |} |}.

(** The quotient of two prices, when the divisor is a number other than zero. *)
Definition price_ratio (price base : jstr) : jstr :=
  match text_number price, text_number base with
  | Some p, Some b => if neq b nzero then [] else fmt (ndiv p b)
  | _, _ => []
  end.

Definition deriveLaneRatio (k : LaneKey) (price promptPrice : jstr) (prices : Lanes jstr) : jstr :=
  if k ==? AudioOutput then price_ratio price (audioInput prices) else price_ratio price promptPrice.

(** The ratios [syncLaneRatios] writes. *)
Definition prompt_ratio (promptPrice : jstr) : jstr :=
  match text_number promptPrice with Some p => fmt (ndiv p (num_of_Z 2)) | None => [] end.

Definition lane_ratios (promptPrice : jstr) (prices : Lanes jstr) (enabled : Lanes bool) : Lanes jstr :=
  lanes_of (fun k => if lane enabled k then deriveLaneRatio k (lane prices k) promptPrice prices else []).

Definition discountBaseFor (s : EditorState) (mode : PricingMode) (base : option jstr) : option num :=
  match mode with
  | per_request => text_number (default (fv_price (es_form s)) base)
  | _ => text_number (default (es_promptPrice s) base)
  end.

Definition discounted_price (rate : jstr) (baseNumber : option num) : jstr :=
  match text_number rate, baseNumber with
  | Some r, Some b => fmt (nmul b r)
  | _, _ => []
  end.

Definition syncDiscountPrice (rate : jstr) (baseNumber : option num) (s : EditorState) : EditorState :=
  set_form_discount (fv_discount (es_form s)) (discounted_price rate baseNumber) s.

Definition handlePromptPriceChange (value : jstr) (s : EditorState) : EditorState :=
  if negb (rx_test numericDraftRegex value) then s
  else
    let s' := set_lanes value (es_lanePrices s) (es_laneEnabled s) (prompt_ratio value)
                (lane_ratios value (es_lanePrices s) (es_laneEnabled s)) s in
    if es_pricingMode s ==? per_token
    then syncDiscountPrice (fv_discount (es_form s)) (discountBaseFor s per_token (Some value)) s' else s'.

Definition handleLanePriceChange (k : LaneKey) (value : jstr) (s : EditorState) : EditorState :=
  if negb (rx_test numericDraftRegex value) then s
  else
    let prices := lane_set k value (es_lanePrices s) in
    let ratios := fv_laneRatios (es_form s) in
    let ratios :=
      if lane (es_laneEnabled s) k then lane_set k (deriveLaneRatio k value (es_promptPrice s) prices) ratios
      else ratios in
    let ratios :=
      if (k ==? AudioInput) && audioOutput (es_laneEnabled s)
      then lane_set AudioOutput (deriveLaneRatio AudioOutput (audioOutput prices) (es_promptPrice s) prices) ratios
      else ratios in
    set_lanes (es_promptPrice s) prices (es_laneEnabled s) (fv_ratio (es_form s)) ratios s.

Definition handleLaneToggle (k : LaneKey) (checked : bool) (s : EditorState) : EditorState :=
  let enabled := lane_set k checked (es_laneEnabled s) in
  let prices := es_lanePrices s in
  let ratios := fv_laneRatios (es_form s) in
  if checked then
    set_lanes (es_promptPrice s) prices enabled (fv_ratio (es_form s))
      (lane_set k (deriveLaneRatio k (lane prices k) (es_promptPrice s) prices) ratios) s
  else
    let off {A} (v : A) (l : Lanes A) : Lanes A :=
      if k ==? AudioInput then lane_set AudioOutput v (lane_set k v l) else lane_set k v l in
    set_lanes (es_promptPrice s) (off [] prices)
      (if k ==? AudioInput then lane_set AudioOutput false enabled else enabled) (fv_ratio (es_form s))
      (off [] ratios) s.

Definition handleModeChange (nextMode : PricingMode) (s : EditorState) : EditorState :=
  let s' :=
    {| es_pricingMode := nextMode; es_promptPrice := es_promptPrice s; es_lanePrices := es_lanePrices s;
       es_laneEnabled := es_laneEnabled s;
       es_billingExpr :=
         (if (nextMode ==? tiered_expr) && negb (non_empty (es_billingExpr s))
          then sq "tier('base', p * 0 + c * 0)" else es_billingExpr s);
       es_requestRuleExpr := es_requestRuleExpr s; es_discountPrice := es_discountPrice s; es_form := es_form s |} in
  syncDiscountPrice (fv_discount (es_form s)) (discountBaseFor s nextMode None) s'.

Definition handleDiscountRateChange (value : jstr) (s : EditorState) : EditorState :=
  if negb (rx_test numericDraftRegex value) then s
  else set_form_discount value (discounted_price value (discountBaseFor s (es_pricingMode s) None)) s.

Definition handleDiscountPriceChange (value : jstr) (s : EditorState) : EditorState :=
  if negb (rx_test numericDraftRegex value) then s
  else
    let keep := fv_discount (es_form s) in
    match value with
    | [] => set_form_discount [] value s
    | _ =>
        match text_number value, discountBaseFor s (es_pricingMode s) None with
        | Some p, Some b => set_form_discount (if neq b nzero then keep else fmt (ndiv p b)) value s
        | _, _ => set_form_discount keep value s
        end
    end.

(** The input of the fixed price, and the name of a new model. *)
Definition handleFixedPriceChange (value : jstr) (s : EditorState) : EditorState :=
  if negb (rx_test numericDraftRegex value) then s
  else
    let f := es_form s in
    syncDiscountPrice (fv_discount f) (discountBaseFor s per_request (Some value))
      (set_form {| fv_name := fv_name f; fv_price := value; fv_ratio := fv_ratio f;
                   fv_laneRatios := fv_laneRatios f; fv_discount := fv_discount f |} s).

Definition handleNameChange (value : jstr) (s : EditorState) : EditorState :=
  let f := es_form s in
  set_form {| fv_name := value; fv_price := fv_price f; fv_ratio := fv_ratio f; fv_laneRatios := fv_laneRatios f;
              fv_discount := fv_discount f |} s.

(** The expression editor's callbacks. *)
Definition handleExprChange (billingExpr requestRuleExpr : jstr) (s : EditorState) : EditorState :=
  {| es_pricingMode := es_pricingMode s; es_promptPrice := es_promptPrice s; es_lanePrices := es_lanePrices s;
     es_laneEnabled := es_laneEnabled s; es_billingExpr := billingExpr; es_requestRuleExpr := requestRuleExpr;
     es_discountPrice := es_discountPrice s; es_form := es_form s |}.

(** ** Committing a draft *)

(** Some enabled lane has a price. *)
Definition priced_lane (s : EditorState) : bool :=
  existsb (fun k => lane (es_laneEnabled s) k && non_empty (lane (es_lanePrices s) k)) lane_keys.

Definition missing_prompt (s : EditorState) : bool :=
  (es_pricingMode s ==? per_token) && (match text_number (es_promptPrice s) with None => true | Some _ => false end)
  && priced_lane s.

Definition missing_audio_input (s : EditorState) : bool :=
  (es_pricingMode s ==? per_token) && audioOutput (es_laneEnabled s) && negb (non_empty (audioInput (es_lanePrices s))).

Definition warnings (editData : option ModelRatioData) (t : jstr -> jstr) (s : EditorState) : list jstr :=
  let hasConflict :=
    match editData with
    | None => false
    | Some d =>
        non_empty (or_blank (md_price d))
        && existsb (fun r => non_empty (or_blank r))
             [md_ratio d; md_completionRatio d; md_cacheRatio d; md_createCacheRatio d; md_imageRatio d;
              md_audioRatio d; md_audioCompletionRatio d]
    end in
  check hasConflict (t "This model has both fixed-price and token-price settings. Saving the current mode will rewrite the conflicting fields.")
  ++ check (missing_prompt s) (t "Input price is required before saving dependent prices.")
  ++ check (missing_audio_input s) (t "Audio output price requires an audio input price.").

Definition validatePricingValues (s : EditorState) : bool :=
  negb (missing_prompt s)
  && negb ((es_pricingMode s ==? per_token) && negb (hasPositiveTokenOutput (JStr (completion (es_lanePrices s)))))
  && negb (missing_audio_input s).

(** [form.trigger()] with the schema of [createModelPricingSchema]. *)
Definition form_valid (f : FormValues) : bool :=
  non_empty (fv_name f) && negb (isInvalidModelName (fv_name f)) && isValidDiscountDraft (Some (fv_discount f)).

Definition buildSubmitData (s : EditorState) : ModelRatioData :=
  let f := es_form s in
  let tiered := es_pricingMode s ==? tiered_expr in
  {| md_name := trim (fv_name f); md_price := Some (fv_price f); md_ratio := Some (fv_ratio f);
     md_cacheRatio := Some (cache (fv_laneRatios f)); md_createCacheRatio := Some (createCache (fv_laneRatios f));
     md_completionRatio := Some (completion (fv_laneRatios f)); md_imageRatio := Some (image (fv_laneRatios f));
     md_audioRatio := Some (audioInput (fv_laneRatios f));
     md_audioCompletionRatio := Some (audioOutput (fv_laneRatios f));
     md_discount := Some (if tiered then [] else fv_discount f);
     md_billingMode := Some (es_pricingMode s);
     md_billingExpr := if tiered then Some (es_billingExpr s) else None;
     md_requestRuleExpr := if tiered then Some (es_requestRuleExpr s) else None |}.

(** [commitDraft]: [None] is [null]. *)
Definition commitDraft (s : EditorState) : option ModelRatioData :=
  if form_valid (es_form s) && validatePricingValues s then Some (buildSubmitData s) else None.

(** ** Saving and deleting (model-ratio-visual-editor.tsx)

    The options are the objects the server stores. *)

Definition setIfPresent (name : jstr) (value : option jstr) (target : jsobj) : jsobj :=
  match value with
  | None | Some [] => target
  | Some v => let parsed := parse_float v in if is_finite parsed then obj_set name (JNum parsed) target else target
  end.

Definition setDiscountIfPresent (name : jstr) (value : option jstr) (target : jsobj) : jsobj :=
  match value with
  | None | Some [] => target
  | Some v =>
      let parsed := parse_float v in
      if is_finite parsed && nlt nzero parsed && nlt parsed (num_of_Z 1)
      then obj_set name (JNum parsed) target else target
  end.

(** The ratios of [data], set on the options. *)
Definition set_ratios (name : jstr) (data : ModelRatioData) (m : PricingMaps jsobj) : PricingMaps jsobj :=
  {| modelPrice := modelPrice m; modelRatio := setIfPresent name (md_ratio data) (modelRatio m);
     cacheRatio := setIfPresent name (md_cacheRatio data) (cacheRatio m);
     createCacheRatio := setIfPresent name (md_createCacheRatio data) (createCacheRatio m);
     completionRatio := setIfPresent name (md_completionRatio data) (completionRatio m);
     imageRatio := setIfPresent name (md_imageRatio data) (imageRatio m);
     audioRatio := setIfPresent name (md_audioRatio data) (audioRatio m);
     audioCompletionRatio := setIfPresent name (md_audioCompletionRatio data) (audioCompletionRatio m);
     modelDiscount := modelDiscount m; billingMode := billingMode m; billingExpr := billingExpr m |}.

Definition set_fixed_price (name : jstr) (data : ModelRatioData) (m : PricingMaps jsobj) : PricingMaps jsobj :=
  {| modelPrice := setIfPresent name (md_price data) (modelPrice m); modelRatio := modelRatio m;
     cacheRatio := cacheRatio m; createCacheRatio := createCacheRatio m; completionRatio := completionRatio m;
     imageRatio := imageRatio m; audioRatio := audioRatio m; audioCompletionRatio := audioCompletionRatio m;
     modelDiscount := modelDiscount m; billingMode := billingMode m; billingExpr := billingExpr m |}.

Definition set_expression (name combined : jstr) (m : PricingMaps jsobj) : PricingMaps jsobj :=
  {| modelPrice := modelPrice m; modelRatio := modelRatio m; cacheRatio := cacheRatio m;
     createCacheRatio := createCacheRatio m; completionRatio := completionRatio m; imageRatio := imageRatio m;
     audioRatio := audioRatio m; audioCompletionRatio := audioCompletionRatio m; modelDiscount := modelDiscount m;
     billingMode := set_if (non_empty combined) name (JStr "tiered_expr") (billingMode m);
     billingExpr := set_if (non_empty combined) name (JStr combined) (billingExpr m) |}.

Definition set_model_discount (name : jstr) (data : ModelRatioData) (m : PricingMaps jsobj) : PricingMaps jsobj :=
  {| modelPrice := modelPrice m; modelRatio := modelRatio m; cacheRatio := cacheRatio m;
     createCacheRatio := createCacheRatio m; completionRatio := completionRatio m; imageRatio := imageRatio m;
     audioRatio := audioRatio m; audioCompletionRatio := audioCompletionRatio m;
     modelDiscount := setDiscountIfPresent name (md_discount data) (modelDiscount m);
     billingMode := billingMode m; billingExpr := billingExpr m |}.

(** The body of [targetNames.forEach]. *)
Definition save_model (data : ModelRatioData) (m : PricingMaps jsobj) (name : jstr) : PricingMaps jsobj :=
  let m := delete_model name m in
  if md_billingMode data ==? Some tiered_expr then
    let combined := combineBillingExpr (or_blank (md_billingExpr data)) (or_blank (md_requestRuleExpr data)) in
    set_ratios name data (set_fixed_price name data (set_expression name combined m))
  else
    let m := set_model_discount name data m in
    if non_empty (or_blank (md_price data)) then set_fixed_price name data m else set_ratios name data m.

(** [None]: a toast, and nothing is saved. *)
Definition persistPricingData (m : PricingMaps jsobj) (data : ModelRatioData) (targetNames : list jstr)
  : option (PricingMaps jstr) :=
  if isInvalidModelName (md_name data) || existsb isInvalidModelName targetNames then None
  else if negb (hasRequiredTokenOutput data) then None
  else Some (maps_text (fold_left (save_model data) targetNames m)).

Definition handleDelete (m : PricingMaps jsobj) (name : jstr) : PricingMaps jstr := maps_text (delete_model name m).

(** The targets of [handleBatchCopy]: the source, then the selected models. *)
Definition copy_targets (sourceName : jstr) (selected : list jstr) : list jstr := uniq (sourceName :: selected).

(** ** The rows of the table *)

Record ModelRow := {
  mr_displayed : ModelPricingSnapshot;
  mr_saved : option ModelPricingSnapshot;
  mr_draft : option ModelPricingSnapshot;
  mr_isDraftChanged : bool;
  mr_isDraftDeleted : bool;
  mr_isDraftNew : bool
}.

(** A model without prices. *)
Definition unset_snapshot (name : jstr) : ModelPricingSnapshot :=
  {| sn_name := name; sn_price := None; sn_ratio := None; sn_cacheRatio := None; sn_createCacheRatio := None;
     sn_completionRatio := None; sn_imageRatio := None; sn_audioRatio := None; sn_audioCompletionRatio := None;
     sn_discount := None; sn_billingMode := Some ("per-token" : jstr); sn_billingExpr := None;
     sn_requestRuleExpr := None; sn_hasConflict := false |}.

(** [new Map(rows.map((row) => [row.name, row]))] *)
Definition by_name (rows : list ModelPricingSnapshot) : list (jstr * ModelPricingSnapshot) :=
  fold_left (fun m r => map_set (sn_name r) r m) rows [].

Definition model_row (saved draft : option ModelPricingSnapshot) (name : jstr) : ModelRow :=
  {| mr_displayed := match saved, draft with Some s, _ => s | None, Some d => d | None, None => unset_snapshot name end;
     mr_saved := saved; mr_draft := draft;
     mr_isDraftChanged := getSnapshotSignature saved !=? getSnapshotSignature draft;
     mr_isDraftDeleted := match saved, draft with Some _, None => true | _, _ => false end;
     mr_isDraftNew := match saved, draft with None, Some _ => true | _, _ => false end |}.

Definition model_rows (localeCompare : jstr -> jstr -> comparison) (savedRows draftRows : list ModelPricingSnapshot)
    (candidateModelNames : option (list jstr)) (filterMode : ModelPricingFilterMode) : list ModelRow :=
  let savedByName := by_name savedRows in
  let draftByName := by_name draftRows in
  let names := resolveVisibleModelNames localeCompare (map_keys savedByName) (map_keys draftByName)
                 candidateModelNames filterMode in
  let rows := map (fun name => model_row (map_get name savedByName) (map_get name draftByName) name) names in
  List.filter
    (fun r => match filterMode with FilterUnset => isBasePricingUnset (mr_saved r) | _ => true end)
    (List.filter (fun r => negb (mr_isDraftDeleted r)) rows).

(** [modeCounts]: the rows per mode. *)
Definition row_mode (r : ModelRow) : PricingMode :=
  let mode := sn_billingMode (mr_displayed r) in
  if mode ==? Some ("per-request" : jstr) then per_request
  else if mode ==? Some ("tiered_expr" : jstr) then tiered_expr
  else per_token.

Definition modeCounts (rows : list ModelRow) (mode : PricingMode) : nat :=
  length (List.filter (fun r => row_mode r ==? mode) rows).

(** What [handleEdit] opens: the draft of a row, or else what is saved, or the row. *)
Definition handleEdit (r : ModelRow) : ModelRatioData :=
  let e := match mr_draft r, mr_saved r with Some d, _ => d | None, Some s => s | None, None => mr_displayed r end in
  {| md_name := sn_name e; md_price := sn_price e; md_ratio := sn_ratio e; md_cacheRatio := sn_cacheRatio e;
     md_createCacheRatio := sn_createCacheRatio e; md_completionRatio := sn_completionRatio e;
     md_imageRatio := sn_imageRatio e; md_audioRatio := sn_audioRatio e;
     md_audioCompletionRatio := sn_audioCompletionRatio e; md_discount := sn_discount e;
     md_billingMode :=
       Some (if sn_billingMode e ==? Some ("tiered_expr" : jstr) then tiered_expr
             else if non_empty (or_blank (sn_price e)) then per_request else per_token);
     md_billingExpr := sn_billingExpr e; md_requestRuleExpr := sn_requestRuleExpr e |}.
