(* ===== verification/PricingEditorProofs.v ===== *)
(** * The visual price editor: properties

    Companion of [PricingEditor]: the ratios in the form follow the prices typed, what
    saving and deleting do to the prices of every model, and saving a model that was opened
    and not edited. *)
From stdpp Require Import relations.
From S2P Require Import Prelude JsString JsNumber JsValue Regex Json OrderedMap BillingExpr ModelPricing.
From S2P Require Import PricingSnapshots PricingJson PricingJsonProofs PricingEditor.

(** ** The ratios follow the prices *)

(** One input of the administrator. *)
Inductive edit : EditorState -> EditorState -> Prop :=
| edit_prompt_price v s : edit s (handlePromptPriceChange v s)
| edit_lane_price k v s : edit s (handleLanePriceChange k v s)
| edit_lane_toggle k b s : edit s (handleLaneToggle k b s)
| edit_mode mode s : edit s (handleModeChange mode s)
| edit_discount_rate v s : edit s (handleDiscountRateChange v s)
| edit_discount_price v s : edit s (handleDiscountPriceChange v s)
| edit_fixed_price v s : edit s (handleFixedPriceChange v s)
| edit_name v s : edit s (handleNameChange v s)
| edit_expression e r s : edit s (handleExprChange e r s).

(** The ratios of the form are those of the prices shown. *)
Definition lock_step (s : EditorState) : Prop :=
  fv_ratio (es_form s) = prompt_ratio (es_promptPrice s)
  /\ fv_laneRatios (es_form s) = lane_ratios (es_promptPrice s) (es_lanePrices s) (es_laneEnabled s).

Lemma lanes_ext {A} (l l' : Lanes A) : (forall k, lane l k = lane l' k) -> l = l'.
Proof.
  intros H. destruct l, l'. f_equal.
  - apply (H Completion).
  - apply (H Cache).
  - apply (H CreateCache).
  - apply (H Image).
  - apply (H AudioInput).
  - apply (H AudioOutput).
Qed.

(** Only the audio output depends on another lane's price. *)
Lemma derive_other_lane k price prompt prices prices' :
  k <> AudioOutput \/ audioInput prices = audioInput prices' ->
  deriveLaneRatio k price prompt prices = deriveLaneRatio k price prompt prices'.
Proof. unfold deriveLaneRatio. intros [H| ->]; [|done]. by bd. Qed.

(** Evaluates the comparisons of closed lanes. *)
Ltac keys :=
  repeat match goal with
  | |- context [bool_decide (@eq LaneKey ?a ?b)] =>
      let r := eval vm_compute in (bool_decide (@eq LaneKey a b)) in
      change (bool_decide (@eq LaneKey a b)) with r; cbv iota
  end.

Lemma lane_price_ratios k value prompt prices enabled :
  let prices' := lane_set k value prices in
  let ratios := lane_ratios prompt prices enabled in
  let ratios := if lane enabled k then lane_set k (deriveLaneRatio k value prompt prices') ratios else ratios in
  (if (k ==? AudioInput) && audioOutput enabled
   then lane_set AudioOutput (deriveLaneRatio AudioOutput (audioOutput prices') prompt prices') ratios else ratios)
  = lane_ratios prompt prices' enabled.
Proof.
  cbn zeta. apply lanes_ext. intros k'. unfold lane_ratios. rewrite lane_lanes_of.
  destruct prices as [p1 p2 p3 p4 p5 p6], enabled as [e1 e2 e3 e4 e5 e6].
  destruct e6, k, k'; cbn -[deriveLaneRatio bool_decide]; keys; cbn -[deriveLaneRatio bool_decide]; keys;
    repeat match goal with |- context [if ?b then _ else _] => is_var b; destruct b end;
    cbn -[deriveLaneRatio bool_decide]; keys; try reflexivity; apply derive_other_lane; (by left) || by right.
Qed.

Lemma lane_on_ratios k prompt prices enabled :
  lane_set k (deriveLaneRatio k (lane prices k) prompt prices) (lane_ratios prompt prices enabled)
  = lane_ratios prompt prices (lane_set k true enabled).
Proof.
  apply lanes_ext. intros k'. unfold lane_ratios. rewrite lane_lane_set, !lane_lanes_of, lane_lane_set.
  destruct (decide (k' = k)) as [->|H]; [by rewrite bool_decide_true|by rewrite bool_decide_false].
Qed.

Lemma lock_step_prompt value s : rx_test numericDraftRegex value = true -> lock_step (handlePromptPriceChange value s).
Proof. intros H. unfold handlePromptPriceChange. rewrite H. cbn [negb]. by destruct (_ ==? _). Qed.

Lemma lock_step_new : lock_step (open_editor None).
Proof. split; vm_compute; reflexivity. Qed.

Lemma lock_step_toggle k checked s : lock_step s -> lock_step (handleLaneToggle k checked s).
Proof.
  intros [H1 H2]. unfold handleLaneToggle, lock_step. destruct checked; cbn [set_lanes es_form fv_ratio fv_laneRatios
    es_promptPrice es_lanePrices es_laneEnabled]; (split; [done|]); rewrite H2; [apply lane_on_ratios|].
  apply lanes_ext. intros k'. unfold lane_ratios. rewrite lane_lanes_of.
  destruct (es_lanePrices s) as [p1 p2 p3 p4 p5 p6], (es_laneEnabled s) as [e1 e2 e3 e4 e5 e6].
  destruct k, k'; reflexivity.
Qed.

Lemma lock_step_edit s s' : edit s s' -> lock_step s -> lock_step s'.
Proof.
  intros [v s0|k v s0|k b s0|mode s0|v s0|v s0|v s0|v s0|e r s0] H.
  - destruct (rx_test numericDraftRegex v) eqn:E; [by apply lock_step_prompt|].
    unfold handlePromptPriceChange. by rewrite E.
  - unfold handleLanePriceChange. destruct (negb _); [done|]. destruct H as [H1 H2]. split; [done|].
    cbn [set_lanes es_form fv_laneRatios es_promptPrice es_lanePrices es_laneEnabled]. rewrite H2.
    apply lane_price_ratios.
  - by apply lock_step_toggle.
  - done.
  - unfold handleDiscountRateChange. by destruct (negb _).
  - unfold handleDiscountPriceChange. destruct (negb _); [done|]. destruct v; [done|].
    destruct (text_number _); [|done]. by destruct (discountBaseFor _ _ _).
  - unfold handleFixedPriceChange. by destruct (negb _).
  - done.
  - done.
Qed.

(** C27: from a new model, or once an input price is typed, the ratios in the form are at every moment those of
    the prices shown: half the input price, each enabled lane's quotient, and none for a disabled lane. *)
Theorem ratios_follow_prices s s' :
  s = open_editor None \/ (exists value s0, rx_test numericDraftRegex value = true /\ s = handlePromptPriceChange value s0) ->
  rtc edit s s' ->
  lock_step s'.
Proof.
  intros Hs Hr. assert (lock_step s) as H by (destruct Hs as [->|(v & s0 & Hv & ->)]; [apply lock_step_new|by apply lock_step_prompt]).
  clear Hs. induction Hr as [|s s1 s' Hstep _ IH]; [done|]. apply IH. by eapply lock_step_edit.
Qed.

(** An input price of 3 and an output price of 15, typed into a new model. *)
Definition demo_edits : EditorState :=
  handleLanePriceChange Completion "15"
    (handleLaneToggle Completion true (handlePromptPriceChange "3" (handleNameChange "m" (open_editor None)))).

Lemma demo_edits_typed : rtc edit (open_editor None) demo_edits.
Proof.
  unfold demo_edits. eapply rtc_l; [apply edit_name|]. eapply rtc_l; [apply edit_prompt_price|].
  eapply rtc_l; [apply edit_lane_toggle|]. eapply rtc_l; [apply edit_lane_price|]. apply rtc_refl.
Qed.

Example demo_edits_ratios : fv_ratio (es_form demo_edits) = "1.5" /\ completion (fv_laneRatios (es_form demo_edits)) = "5".
Proof. vm_compute. split; reflexivity. Qed.

Lemma ratios_follow_prices_witness : lock_step demo_edits.
Proof. exact (ratios_follow_prices (open_editor None) demo_edits (or_introl eq_refl) demo_edits_typed). Defined.

(** ** Saving *)

(** The number an option gets from a text. *)
Definition saved_number (value : option jstr) : option jsval :=
  match value with
  | None | Some [] => None
  | Some v => if is_finite (parse_float v) then Some (JNum (parse_float v)) else None
  end.

Definition saved_discount (value : option jstr) : option jsval :=
  match value with
  | None | Some [] => None
  | Some v =>
      let n := parse_float v in
      if is_finite n && nlt nzero n && nlt n (num_of_Z 1) then Some (JNum n) else None
  end.

Definition saved_expression (data : ModelRatioData) : jstr :=
  combineBillingExpr (or_blank (md_billingExpr data)) (or_blank (md_requestRuleExpr data)).

(** The specification of saving: the prices a target gets. *)
Definition saved_pricing (data : ModelRatioData) : pricing :=
  let tiered := md_billingMode data ==? Some tiered_expr in
  let fixed := non_empty (or_blank (md_price data)) in
  let ratio v := if tiered || negb fixed then saved_number v else None in
  let billed := tiered && non_empty (saved_expression data) in
  {| modelPrice := if tiered || fixed then saved_number (md_price data) else None;
     modelRatio := ratio (md_ratio data); cacheRatio := ratio (md_cacheRatio data);
     createCacheRatio := ratio (md_createCacheRatio data); completionRatio := ratio (md_completionRatio data);
     imageRatio := ratio (md_imageRatio data); audioRatio := ratio (md_audioRatio data);
     audioCompletionRatio := ratio (md_audioCompletionRatio data);
     modelDiscount := if tiered then None else saved_discount (md_discount data);
     billingMode := if billed then Some (JStr "tiered_expr") else None;
     billingExpr := if billed then Some (JStr (saved_expression data)) else None |}.

Lemma get_setIfPresent name value o other :
  obj_get name o = None ->
  obj_get other (setIfPresent name value o) = if other ==? name then saved_number value else obj_get other o.
Proof.
  intros H. destruct (decide (other = name)) as [->|Hne].
  - rewrite bool_decide_true by done. unfold setIfPresent, saved_number. destruct value as [[|c v]|]; [done| |done].
    destruct (is_finite _); [apply obj_get_set_eq|done].
  - rewrite bool_decide_false by done. unfold setIfPresent. destruct value as [[|c v]|]; [done| |done].
    cbn zeta. destruct (is_finite _); [by apply obj_get_set_ne|done].
Qed.

Lemma get_setDiscountIfPresent name value o other :
  obj_get name o = None ->
  obj_get other (setDiscountIfPresent name value o) = if other ==? name then saved_discount value else obj_get other o.
Proof.
  intros H. destruct (decide (other = name)) as [->|Hne].
  - rewrite bool_decide_true by done. unfold setDiscountIfPresent, saved_discount. destruct value as [[|c v]|]; [done| |done].
    cbn zeta. destruct (_ && _); [apply obj_get_set_eq|done].
  - rewrite bool_decide_false by done. unfold setDiscountIfPresent. destruct value as [[|c v]|]; [done| |done].
    cbn zeta. destruct (_ && _); [by apply obj_get_set_ne|done].
Qed.

Lemma get_deleted name (o : jsobj) : obj_get name (obj_delete name o) = None.
Proof. rewrite obj_get_delete. by rewrite bool_decide_true. Qed.

Lemma pricing_save_model data m name other :
  pricing_of (save_model data m name) other = if other ==? name then saved_pricing data else pricing_of m other.
Proof.
  pose proof (get_deleted name) as Hd. unfold save_model, saved_pricing, saved_expression.
  destruct (md_billingMode data ==? Some tiered_expr), (non_empty (or_blank (md_price data)));
    cbn [orb andb negb]; unfold pricing_of, maps_map;
    cbn -[combineBillingExpr obj_get obj_set obj_delete setIfPresent setDiscountIfPresent set_if];
    rewrite ?get_setIfPresent, ?get_setDiscountIfPresent, ?obj_get_set_if, ?obj_get_delete by done;
    (destruct (decide (other = name)) as [->|Hne];
     [rewrite !(bool_decide_true (name = name)) by done
     |rewrite !(bool_decide_false (other = name)) by done]); rewrite ?andb_true_r, ?andb_false_r; done.
Qed.

Lemma pricing_save_all data targets : forall m name,
  pricing_of (fold_left (save_model data) targets m) name
  = if bool_decide (name ∈ targets) then saved_pricing data else pricing_of m name.
Proof.
  induction targets as [|t targets IH]; intros m name; cbn [fold_left].
  - rewrite bool_decide_false; [done|]. set_solver.
  - rewrite IH, pricing_save_model. destruct (decide (name ∈ targets)) as [H|H].
    + rewrite (bool_decide_true (name ∈ targets)), (bool_decide_true (name ∈ t :: targets)) by set_solver. done.
    + rewrite (bool_decide_false (name ∈ targets)) by done. destruct (decide (name = t)) as [->|Hne].
      * rewrite !bool_decide_true by set_solver. done.
      * rewrite !bool_decide_false by set_solver. done.
Qed.

(** C25: saving a draft succeeds exactly when every name is valid and a token-priced draft has a positive output,
    and it decides the prices of the targets and of no other model: the expression, or the fixed price, or the
    ratios, with a discount only when it is strictly between 0 and 1. *)
Theorem visual_save_spec m data targets :
  (is_Some (persistPricingData m data targets)
   <-> Forall (fun name => isInvalidModelName name = false) (md_name data :: targets)
       /\ hasRequiredTokenOutput data = true)
  /\ forall texts, persistPricingData m data targets = Some texts ->
     exists m', texts = maps_text m'
       /\ forall name, pricing_of m' name = if bool_decide (name ∈ targets) then saved_pricing data else pricing_of m name.
Proof.
  unfold persistPricingData. split.
  - rewrite Forall_cons. assert (Forall (fun name => isInvalidModelName name = false) targets
      <-> existsb isInvalidModelName targets = false) as ->.
    { induction targets as [|t l IH]; [by split|]. cbn [existsb]. by rewrite Forall_cons, orb_false_iff, IH. }
    destruct (isInvalidModelName (md_name data)), (existsb _ _), (hasRequiredTokenOutput data); cbn;
      (split; [intros [? H]; done || by split_and!|intros ([? ?] & ?); done || eauto]).
  - intros texts H. destruct (_ || _); [done|]. destruct (negb _); [done|]. injection H as <-.
    eexists. split; [reflexivity|]. intros name. apply pricing_save_all.
Qed.

Definition demo_draft : ModelRatioData :=
  {| md_name := "m"; md_price := None; md_ratio := Some ("1.5" : jstr); md_cacheRatio := None; md_createCacheRatio := None;
     md_completionRatio := Some ("5" : jstr); md_imageRatio := None; md_audioRatio := None; md_audioCompletionRatio := None;
     md_discount := Some ("0.8" : jstr); md_billingMode := Some per_token; md_billingExpr := None;
     md_requestRuleExpr := None |}.

Lemma visual_save_spec_witness :
  exists texts, persistPricingData demo_objects demo_draft ["m"; "chat"] = Some texts
    /\ exists m', texts = maps_text m'
       /\ forall name, pricing_of m' name
            = if bool_decide (name ∈ (["m"; "chat"] : list jstr)) then saved_pricing demo_draft
              else pricing_of demo_objects name.
Proof.
  destruct (visual_save_spec demo_objects demo_draft ["m"; "chat"]) as [Hs Hm].
  destruct (proj2 Hs) as [texts Ht].
  - split; [|vm_compute; reflexivity]. repeat (apply Forall_cons; split; [vm_compute; reflexivity|]). constructor.
  - exists texts. split; [exact Ht|]. exact (Hm texts Ht).
Defined.

(** Deleting a model leaves it without any price, and no other model changes. *)
Lemma delete_spec m name : exists m', handleDelete m name = maps_text m' /\ forall other,
  pricing_of m' other = if other ==? name then unpriced else pricing_of m other.
Proof. eexists. split; [reflexivity|]. intros other. apply pricing_delete_model. Qed.

(** A model priced per request that is switched to token prices is still saved with its price
    per request: the draft keeps the price, and the price decides what is saved. *)
Definition demo_fixed_model : ModelRatioData :=
  {| md_name := "draw"; md_price := Some ("0.04" : jstr); md_ratio := None; md_cacheRatio := None; md_createCacheRatio := None;
     md_completionRatio := None; md_imageRatio := None; md_audioRatio := None; md_audioCompletionRatio := None;
     md_discount := None; md_billingMode := Some per_request; md_billingExpr := None; md_requestRuleExpr := None |}.

Definition demo_switched : EditorState :=
  handleLanePriceChange Completion "15"
    (handleLaneToggle Completion true
       (handlePromptPriceChange "3" (handleModeChange per_token (open_editor (Some demo_fixed_model))))).

Lemma mode_switch_not_saved :
  let data := buildSubmitData demo_switched in
  commitDraft demo_switched = Some data /\ md_billingMode data = Some per_token
  /\ md_ratio data = Some ("1.5" : jstr) /\ md_completionRatio data = Some ("5" : jstr)
  /\ modelRatio (saved_pricing data) = None /\ completionRatio (saved_pricing data) = None
  /\ modelPrice (saved_pricing data) = Some (JNum (num_of_string "0.04")).
Proof. cbn zeta. split_and!; vm_compute; reflexivity. Qed.

(** A token-priced model without an output ratio is shown with the output price of its default
    ratio, and passes the editor's checks; saved as it is, it is rejected for want of an output. *)
Definition demo_default_output : ModelRatioData :=
  {| md_name := "gpt-4o"; md_price := Some ([] : jstr); md_ratio := Some ("1.25" : jstr); md_cacheRatio := Some ([] : jstr);
     md_createCacheRatio := Some ([] : jstr); md_completionRatio := Some ([] : jstr); md_imageRatio := Some ([] : jstr);
     md_audioRatio := Some ([] : jstr); md_audioCompletionRatio := Some ([] : jstr); md_discount := Some ([] : jstr);
     md_billingMode := Some per_token; md_billingExpr := None; md_requestRuleExpr := None |}.

Lemma default_output_not_saved m :
  let s := open_editor (Some demo_default_output) in
  completion (es_lanePrices s) = "10" /\ commitDraft s = Some (buildSubmitData s)
  /\ persistPricingData m (buildSubmitData s) ["gpt-4o"] = None.
Proof. cbn zeta. split_and!; vm_compute; reflexivity. Qed.

(** ** Opening, and saving without a change *)

(** A number that its text keeps. *)
Definition kept_number (n : num) : bool := is_finite n && bool_decide (parse_float (num_to_string n) = n).

(** The prices of a model that has no conflicting or superfluous entry, in the range the editor
    writes: what saving can store for a model not billed by expression. *)
Definition canonical_value (v : option jsval) : bool :=
  match v with None => true | Some (JNum n) => kept_number n | _ => false end.

Definition ratios_of (p : pricing) : list (option jsval) :=
  [ modelRatio p; cacheRatio p; createCacheRatio p; completionRatio p; imageRatio p; audioRatio p; audioCompletionRatio p ].

Definition absent (v : option jsval) : bool := match v with None => true | Some _ => false end.

Definition canonical (p : pricing) : bool :=
  forallb canonical_value (modelPrice p :: modelDiscount p :: ratios_of p)
  && (absent (modelPrice p) || forallb absent (ratios_of p))
  && match modelDiscount p with Some (JNum d) => nlt nzero d && nlt d (num_of_Z 1) | _ => true end
  && absent (billingMode p) && absent (billingExpr p).

(** The text of an option in a row. *)
Lemma shown_canonical v : canonical_value v = true ->
  saved_number (Some (match default JUndef v with JUndef | JNull => [] | v => js_to_string v end)) = v.
Proof.
  destruct v as [[| | |n| | |]|]; try done. cbn [canonical_value default from_option id js_to_string]. unfold kept_number.
  intros [Hf Hn%bool_decide_eq_true]%andb_true_iff. unfold saved_number. rewrite Hn.
  destruct (num_to_string n) eqn:E; [|by rewrite Hf]. rewrite <- Hn in Hf. vm_compute in Hf. done.
Qed.

Lemma shown_discount v : canonical_value v = true ->
  (match v with Some (JNum d) => nlt nzero d && nlt d (num_of_Z 1) | _ => true end) = true ->
  saved_discount (Some (match default JUndef v with JUndef | JNull => [] | v => js_to_string v end)) = v.
Proof.
  intros Hc Hd. pose proof (shown_canonical v Hc) as H. destruct v as [[| | |n| | |]|]; try done.
  cbn [default from_option id js_to_string] in *. unfold saved_number, saved_discount in *.
  destruct (num_to_string n) as [|c t]; [done|]. cbn zeta. destruct (is_finite _); [|done]. injection H as ->.
  cbn [andb]. by rewrite Hd.
Qed.

Lemma shown_nonempty v : canonical_value v = true ->
  non_empty (match default JUndef v with JUndef | JNull => [] | v => js_to_string v end) = negb (absent v).
Proof.
  intros H. pose proof (shown_canonical v H) as Hs. destruct v as [v|]; [|done].
  match type of Hs with saved_number (Some ?t) = _ => destruct t; done end.
Qed.

(** What a row shows of a canonical model is what saving reads. *)
Lemma saved_shown om name r : canonical (pricing_of om name) = true ->
  md_billingMode r <> Some tiered_expr ->
  md_price r = Some (shown_value (modelPrice om) name) -> md_ratio r = Some (shown_value (modelRatio om) name) ->
  md_cacheRatio r = Some (shown_value (cacheRatio om) name) ->
  md_createCacheRatio r = Some (shown_value (createCacheRatio om) name) ->
  md_completionRatio r = Some (shown_value (completionRatio om) name) ->
  md_imageRatio r = Some (shown_value (imageRatio om) name) ->
  md_audioRatio r = Some (shown_value (audioRatio om) name) ->
  md_audioCompletionRatio r = Some (shown_value (audioCompletionRatio om) name) ->
  md_discount r = Some (shown_value (modelDiscount om) name) ->
  saved_pricing r = pricing_of om name.
Proof.
  intros Hc Hm Hp H1 H2 H3 H4 H5 H6 H7 Hd. unfold canonical, ratios_of in Hc.
  repeat apply andb_true_iff in Hc as [Hc ?]. cbn [forallb] in *. bools. unfold saved_pricing.
  rewrite Hp, H1, H2, H3, H4, H5, H6, H7, Hd, (bool_decide_false (md_billingMode r = _)) by done.
  cbn [or_blank default from_option id orb andb]. unfold shown_value, prop. rewrite shown_nonempty by done.
  rewrite shown_discount by done. rewrite !shown_canonical by done. unfold pricing_of, maps_map in *.
  cbn [modelPrice modelRatio cacheRatio createCacheRatio completionRatio imageRatio audioRatio audioCompletionRatio
    modelDiscount billingMode billingExpr] in *.
  repeat match goal with H : absent ?v = true |- _ => destruct v; [done|]; clear H end.
  destruct (obj_get name (modelPrice om)); cbn [absent negb orb] in *; [|done].
  bools. repeat match goal with H : absent ?v = true |- _ => destruct v; [done|]; clear H end. done.
Qed.

(** The row of a model whose draft is [sn]. *)
Definition draft_row (sn : ModelPricingSnapshot) : ModelRow := model_row (Some sn) (Some sn) (sn_name sn).

Lemma reopened_draft om name sn data : canonical (pricing_of om name) = true ->
  shows_model om name sn ->
  commitDraft (open_editor (Some (handleEdit (draft_row sn)))) = Some data ->
  md_name data = name /\ saved_pricing data = pricing_of om name.
Proof.
  intros Hc (Hn & Hp & Hr & Hd & Hx & Hb & _) H. unfold extra_ratios in Hx. cbn [map] in Hx.
  assert ((prop (billingMode om) name ==? JStr "tiered_expr") = false) as Ht.
  { unfold canonical in Hc. apply andb_true_iff in Hc as [Hc _]. apply andb_true_iff in Hc as [_ Hc].
    unfold pricing_of, maps_map in Hc. cbn [billingMode] in Hc. unfold prop.
    destruct (obj_get name (billingMode om)); [done|reflexivity]. }
  rewrite Ht in Hb. injection Hx as Hx1 Hx2 Hx3 Hx4 Hx5 Hx6. unfold commitDraft in H.
  destruct (form_valid _ && _) eqn:Hv; [|done]. injection H as <-. apply andb_true_iff in Hv as [Hv _].
  unfold form_valid in Hv. apply andb_true_iff in Hv as [Hv _]. apply andb_true_iff in Hv as [_ Hv%negb_true_iff].
  cbn in Hv. assert (es_pricingMode (open_editor (Some (handleEdit (draft_row sn)))) <> tiered_expr) as Hm.
  { cbn -[bool_decide]. rewrite Hb, Hp. cbn [or_blank default from_option id].
    destruct (non_empty (shown_value (modelPrice om) name)); vm_compute; discriminate. }
  split.
  - cbn. rewrite <- Hn. by apply valid_name.
  - apply saved_shown; unfold buildSubmitData; cbn [md_billingMode md_price md_ratio md_cacheRatio md_createCacheRatio
      md_completionRatio md_imageRatio md_audioRatio md_audioCompletionRatio md_discount];
      [done|intros [= H]; by apply Hm|..].
    9: rewrite bool_decide_false by done.
    all: cbn; rewrite ?Hp, ?Hr, ?Hd, ?Hx1, ?Hx2, ?Hx3, ?Hx4, ?Hx5, ?Hx6; done.
Qed.

(** C28: opening a model from the table and saving it without an edit changes no price of any model,
    when what it has is what the editor writes: finite numbers, a price per request or ratios but not
    both, a discount above 0 and below 1, and no billing by expression. *)
Theorem unedited_save_keeps_prices om name sn data texts :
  canonical (pricing_of om name) = true ->
  build_snapshot (maps_map JObj om) name = Ok sn ->
  commitDraft (open_editor (Some (handleEdit (draft_row sn)))) = Some data ->
  persistPricingData om data [md_name data] = Some texts ->
  exists m', texts = maps_text m' /\ forall other, pricing_of m' other = pricing_of om other.
Proof.
  intros Hc Hs%build_snapshot_shows Hd Ht. destruct (reopened_draft om name sn data Hc Hs Hd) as [Hn Hp].
  unfold persistPricingData in Ht. destruct (_ || _); [done|]. destruct (negb _); [done|]. injection Ht as <-.
  exists (fold_left (save_model data) [md_name data] om). split; [reflexivity|]. intros other.
  rewrite pricing_save_all, Hp, Hn.
  destruct (decide (other = name)) as [->|Hne]; [by rewrite bool_decide_true by set_solver|].
  by rewrite bool_decide_false by set_solver.
Qed.

Definition demo_priced (name : jstr) : EditorState :=
  match build_snapshot (maps_map JObj demo_objects) name with
  | Ok sn => open_editor (Some (handleEdit (draft_row sn)))
  | Throw _ => open_editor None
  end.

Lemma unedited_save_keeps_prices_witness :
  exists m', persistPricingData demo_objects (buildSubmitData (demo_priced "chat")) ["chat"] = Some (maps_text m')
    /\ forall other, pricing_of m' other = pricing_of demo_objects other.
Proof.
  destruct (persistPricingData demo_objects (buildSubmitData (demo_priced "chat")) ["chat"]) as [texts|] eqn:E.
  - destruct (build_snapshot (maps_map JObj demo_objects) "chat") as [sn|e] eqn:Hs.
    + destruct (unedited_save_keeps_prices demo_objects "chat" sn (buildSubmitData (demo_priced "chat")) texts)
        as (m' & -> & Hm).
      * vm_compute. reflexivity.
      * exact Hs.
      * vm_compute in Hs. injection Hs as <-. vm_compute. reflexivity.
      * exact E.
      * exists m'. split; [reflexivity|exact Hm].
    + vm_compute in Hs. discriminate Hs.
  - vm_compute in E. discriminate E.
Defined.
