(* ===== verification/ParamOverride.v ===== *)
(** * Parameter override rules
    (features/channels/components/dialogs/param-override-editor-dialog.tsx, the functions)

    The rules that rewrite a request before it is relayed: their modes, how a rule is read
    from JSON, checked and written back, and the drafts of the rules that return an error
    or prune objects. The editor on top of them is in [ParamOverrideEditor]. *)
From S2P Require Import RecordUpdate Prelude JsString JsNumber JsValue Json.

(** ** Rules *)

Record ParamOverrideCondition := {
  cd_id : jstr;
  cd_path : jstr;
  cd_mode : jstr;
  cd_value_text : jstr;
  cd_invert : bool;
  cd_pass_missing_key : bool
}.

Definition ParamOverrideCondition_eta (c : ParamOverrideCondition) : ParamOverrideCondition :=
  {| cd_id := cd_id c; cd_path := cd_path c; cd_mode := cd_mode c; cd_value_text := cd_value_text c;
     cd_invert := cd_invert c; cd_pass_missing_key := cd_pass_missing_key c |}.

#[export] Hint Extern 0 (@Setter ParamOverrideCondition ?E ?getter) =>
  projections_setter ParamOverrideCondition_eta ParamOverrideCondition E getter : typeclass_instances.

Record ParamOverrideOperation := {
  op_id : jstr;
  op_description : jstr;
  op_path : jstr;
  op_mode : jstr;
  op_from : jstr;
  op_to : jstr;
  op_value_text : jstr;
  op_keep_origin : bool;
  op_logic : jstr;
  op_conditions : list ParamOverrideCondition
}.

Definition ParamOverrideOperation_eta (o : ParamOverrideOperation) : ParamOverrideOperation :=
  {| op_id := op_id o; op_description := op_description o; op_path := op_path o; op_mode := op_mode o;
     op_from := op_from o; op_to := op_to o; op_value_text := op_value_text o; op_keep_origin := op_keep_origin o;
     op_logic := op_logic o; op_conditions := op_conditions o |}.

#[export] Hint Extern 0 (@Setter ParamOverrideOperation ?E ?getter) =>
  projections_setter ParamOverrideOperation_eta ParamOverrideOperation E getter : typeclass_instances.

(** ** Modes *)

(** The values and the labels. *)
Definition OPERATION_MODE_OPTIONS : list (jstr * jstr) :=
  [ ("set", "Set Field"); ("delete", "Delete Field"); ("append", "Append to End"); ("prepend", "Prepend to Start");
    ("copy", "Copy Field"); ("move", "Move Field"); ("replace", "String Replace"); ("regex_replace", "Regex Replace");
    ("trim_prefix", "Trim Prefix"); ("trim_suffix", "Trim Suffix"); ("ensure_prefix", "Ensure Prefix");
    ("ensure_suffix", "Ensure Suffix"); ("trim_space", "Trim Space"); ("to_lower", "To Lowercase");
    ("to_upper", "To Uppercase"); ("return_error", "Return Custom Error"); ("prune_objects", "Prune Object Items");
    ("pass_headers", "Pass Through Headers"); ("sync_fields", "Sync Fields"); ("set_header", "Set Request Header");
    ("delete_header", "Delete Request Header"); ("copy_header", "Copy Request Header");
    ("move_header", "Move Request Header") ].

Definition OPERATION_MODE_VALUES : list jstr := map fst OPERATION_MODE_OPTIONS.

Definition OPERATION_MODE_LABEL_MAP (mode : jstr) : option jstr := obj_get mode OPERATION_MODE_OPTIONS.

Definition CONDITION_MODE_OPTIONS : list (jstr * jstr) :=
  [ ("full", "Exact Match"); ("prefix", "Prefix"); ("suffix", "Suffix"); ("contains", "Contains");
    ("gt", "Greater Than"); ("gte", "Greater Than or Equal"); ("lt", "Less Than"); ("lte", "Less Than or Equal") ].

Definition CONDITION_MODE_VALUES : list jstr := map fst CONDITION_MODE_OPTIONS.

(** Which fields a mode uses. *)
Record ModeMeta := {
  mm_path : bool;
  mm_pathOptional : bool;
  mm_value : bool;
  mm_from : bool;
  mm_to : bool;
  mm_keepOrigin : bool;
  mm_pathAlias : bool
}.

Definition no_fields : ModeMeta :=
  {| mm_path := false; mm_pathOptional := false; mm_value := false; mm_from := false; mm_to := false;
     mm_keepOrigin := false; mm_pathAlias := false |}.

Definition ModeMeta_eta (m : ModeMeta) : ModeMeta :=
  {| mm_path := mm_path m; mm_pathOptional := mm_pathOptional m; mm_value := mm_value m; mm_from := mm_from m;
     mm_to := mm_to m; mm_keepOrigin := mm_keepOrigin m; mm_pathAlias := mm_pathAlias m |}.

#[export] Hint Extern 0 (@Setter ModeMeta ?E ?getter) =>
  projections_setter ModeMeta_eta ModeMeta E getter : typeclass_instances.

Definition MODE_META : list (jstr * ModeMeta) :=
  let path := no_fields{{ mm_path := true }} in
  let path_value := path{{ mm_value := true }} in
  let path_value_keep := path_value{{ mm_keepOrigin := true }} in
  let from_to := no_fields{{ mm_from := true; mm_to := true }} in
  let path_from := path{{ mm_from := true }} in
  let header := from_to{{ mm_keepOrigin := true; mm_pathAlias := true }} in
  [ ("delete", path); ("set", path_value_keep); ("append", path_value_keep); ("prepend", path_value_keep);
    ("copy", from_to); ("move", from_to); ("replace", path_from); ("regex_replace", path_from);
    ("trim_prefix", path_value); ("trim_suffix", path_value); ("ensure_prefix", path_value);
    ("ensure_suffix", path_value); ("trim_space", path); ("to_lower", path); ("to_upper", path);
    ("return_error", no_fields{{ mm_value := true }});
    ("prune_objects", no_fields{{ mm_pathOptional := true; mm_value := true }});
    ("pass_headers", no_fields{{ mm_value := true; mm_keepOrigin := true }}); ("sync_fields", from_to);
    ("set_header", path_value_keep); ("delete_header", path); ("copy_header", header); ("move_header", header) ].

(** [MODE_META[mode] || MODE_META.set] *)
Definition mode_meta (mode : jstr) : ModeMeta :=
  match obj_get mode MODE_META with
  | Some m => m
  | None => no_fields{{ mm_path := true; mm_value := true; mm_keepOrigin := true }}
  end.

Definition VALUE_REQUIRED_MODES : list jstr :=
  [ "trim_prefix"; "trim_suffix"; "ensure_prefix"; "ensure_suffix"; "set_header"; "return_error"; "prune_objects";
    "pass_headers" ].

Definition FROM_REQUIRED_MODES : list jstr :=
  [ "copy"; "move"; "replace"; "regex_replace"; "copy_header"; "move_header"; "sync_fields" ].

Definition TO_REQUIRED_MODES : list jstr := [ "copy"; "move"; "copy_header"; "move_header"; "sync_fields" ].

(** [set.has(mode)] *)
Definition mode_in (modes : list jstr) (mode : jstr) : bool := bool_decide (mode ∈ modes).

(** ** Texts of values *)

Definition toValueText (value : jsval) : jstr :=
  match value with
  | JUndef => []
  | JStr s => s
  | _ => stringify value
  end.

Definition parseLooseValue (valueText : jstr) : jsval :=
  match trim valueText with
  | [] => JStr []
  | raw => match parse raw with Some v => v | None => JStr raw end
  end.

Definition verifyJSON (text : jstr) : bool := match parse text with Some _ => true | None => false end.

(** ** Identifiers

    A counter of the page numbers the rules and conditions as they are made. *)

(** A computation that may make identifiers and may throw. *)
Definition Ids (A : Type) : Type := Z -> res A * Z.

Definition ids_ret {A} (x : A) : Ids A := fun seed => (Ok x, seed).

Definition ids_bind {A B} (m : Ids A) (k : A -> Ids B) : Ids B :=
  fun seed => match m seed with (Ok x, seed) => k x seed | (Throw e, seed) => (Throw e, seed) end.

Definition ids_lift {A} (r : res A) : Ids A := fun seed => (r, seed).

Notation "'let!' x ':=' m 'in' k" := (ids_bind m (fun x => k))
  (at level 10, x pattern, m at level 100, k at level 200) : js_scope.

(** [l.map(f)] *)
Fixpoint ids_map {A B} (f : A -> Ids B) (l : list A) : Ids (list B) :=
  match l with
  | [] => ids_ret []
  | x :: t => let! y := f x in let! r := ids_map f t in ids_ret (y :: r)
  end.

Section Reading.
(** The time ([Date.now()]) at which each identifier is made. *)
Variable now : Z -> Z.

Definition local_id (seed : Z) : jstr := "po_" ++ Z_to_jstr (now seed) ++ "_" ++ Z_to_jstr seed.

Definition nextLocalId : Ids jstr := fun seed => (Ok (local_id seed), (seed + 1)%Z).

(** ** Reading rules *)

(** [typeof v === 'string' ? v : ''] *)
Definition string_or_blank (v : jsval) : jstr := match v with JStr s => s | _ => [] end.

(** [modes.has(v) ? v : d] *)
Definition known_mode (modes : list jstr) (d : jstr) (v : jsval) : jstr :=
  match v with JStr s => if mode_in modes s then s else d | _ => d end.

(** The parameter default: [undefined] is an object without properties. *)
Definition or_no_object (v : jsval) : jsval := match v with JUndef => JObj [] | _ => v end.

Definition normalizeCondition (condition : jsval) : Ids ParamOverrideCondition :=
  let condition := or_no_object condition in
  let! id := nextLocalId in
  let! path := ids_lift (js_get condition "path") in
  let! mode := ids_lift (js_get condition "mode") in
  let! value := ids_lift (js_get condition "value") in
  let! invert := ids_lift (js_get condition "invert") in
  let! pass_missing_key := ids_lift (js_get condition "pass_missing_key") in
  ids_ret
    {| cd_id := id; cd_path := string_or_blank path; cd_mode := known_mode CONDITION_MODE_VALUES "full" mode;
       cd_value_text := toValueText value; cd_invert := invert ==? JBool true;
       cd_pass_missing_key := pass_missing_key ==? JBool true |}.

Definition createDefaultCondition : Ids ParamOverrideCondition := normalizeCondition (JObj []).

Definition normalize_logic (logic : jsval) : jstr :=
  if toUpperCase (js_to_string (js_or logic (JStr "OR"))) ==? "AND" then "AND" else "OR".

Definition normalizeOperation (operation : jsval) : Ids ParamOverrideOperation :=
  let operation := or_no_object operation in
  let get key := ids_lift (js_get operation key) in
  let! id := nextLocalId in
  let! description := get "description" in
  let! path := get "path" in
  let! mode := get "mode" in
  let! value := get "value" in
  let! keep_origin := get "keep_origin" in
  let! from := get "from" in
  let! to := get "to" in
  let! logic := get "logic" in
  let! conditions := get "conditions" in
  let! conditions := (match conditions with JArr l => ids_map normalizeCondition l | _ => ids_ret [] end) in
  ids_ret
    {| op_id := id; op_description := string_or_blank description; op_path := string_or_blank path;
       op_mode := known_mode OPERATION_MODE_VALUES "set" mode; op_from := string_or_blank from;
       op_to := string_or_blank to; op_value_text := toValueText value; op_keep_origin := keep_origin ==? JBool true;
       op_logic := normalize_logic logic; op_conditions := conditions |}.

Definition createDefaultOperation : Ids ParamOverrideOperation := normalizeOperation (JObj [("mode", JStr "set")]).
End Reading.

(** ** The list of rules *)

(** [l.findIndex((o) => o.id === id)] *)
Fixpoint find_id (id : jstr) (l : list ParamOverrideOperation) : option nat :=
  match l with
  | [] => None
  | o :: t => if op_id o ==? id then Some 0%nat else match find_id id t with Some i => Some (S i) | None => None end
  end.

Inductive DropPosition := Before | After.

Definition reorderOperations (ops : list ParamOverrideOperation) (sourceId targetId : jstr) (position : DropPosition)
  : list ParamOverrideOperation :=
  if negb (non_empty sourceId) || negb (non_empty targetId) || (sourceId ==? targetId) then ops
  else
    match find_id sourceId ops with
    | None => ops
    | Some srcIdx =>
        let next := take srcIdx ops ++ drop (S srcIdx) ops in
        let moved := take 1 (drop srcIdx ops) in
        match find_id targetId next with
        | None => ops
        | Some i =>
            let insertIdx := match position with Before => i | After => S i end in
            take insertIdx next ++ moved ++ drop insertIdx next
        end
    end.

Definition condition_touched (c : ParamOverrideCondition) : bool :=
  non_empty (trim (cd_path c)) || non_empty (trim (cd_value_text c)) || (cd_mode c !=? "full") || cd_invert c
  || cd_pass_missing_key c.

Definition isOperationBlank (operation : ParamOverrideOperation) : bool :=
  let hasCondition := existsb condition_touched (op_conditions operation) in
  (op_mode operation ==? "set") && negb (non_empty (trim (op_path operation)))
  && negb (non_empty (trim (op_from operation))) && negb (non_empty (trim (op_to operation)))
  && (trim (op_value_text operation) ==? []) && negb (op_keep_origin operation) && negb hasCondition.

Definition getOperationSummary (operation : ParamOverrideOperation) (index : Z) : jstr :=
  let mode := str_or (op_mode operation) "set" in
  let modeLabel := str_or (default [] (OPERATION_MODE_LABEL_MAP mode)) mode in
  let path := trim (op_path operation) in
  let from := trim (op_from operation) in
  let to := trim (op_to operation) in
  let subject := if mode ==? "sync_fields" then str_or from (str_or to "-") else str_or path (str_or from (str_or to "-")) in
  Z_to_jstr (index + 1) ++ ". " ++ modeLabel ++ " · " ++ subject.

(** ** Texts of the editor *)

Definition any_of (mode : jstr) (modes : list jstr) : bool := mode_in modes mode.

Definition affix_modes : list jstr := [ "trim_prefix"; "trim_suffix"; "ensure_prefix"; "ensure_suffix" ].
Definition moved_header_modes : list jstr := [ "copy_header"; "move_header" ].

Definition getModePathLabel (mode : jstr) : jstr :=
  if any_of mode ["set_header"; "delete_header"] then "Header Name"
  else if mode ==? "prune_objects" then "Target Path (optional)"
  else "Target Field Path".

Definition getModePathPlaceholder (mode : jstr) : jstr :=
  if mode ==? "set_header" then "Authorization"
  else if mode ==? "delete_header" then "X-Debug-Mode"
  else if mode ==? "prune_objects" then "messages"
  else "temperature".

Definition getModeFromLabel (mode : jstr) : jstr :=
  if mode ==? "replace" then "Match Text"
  else if mode ==? "regex_replace" then "Regex Pattern"
  else if any_of mode moved_header_modes then "Source Header"
  else "Source Field".

Definition getModeFromPlaceholder (mode : jstr) : jstr :=
  if mode ==? "replace" then "openai/"
  else if mode ==? "regex_replace" then "^gpt-"
  else if any_of mode moved_header_modes then "Authorization"
  else "model".

Definition getModeToLabel (mode : jstr) : jstr :=
  if any_of mode ["replace"; "regex_replace"] then "Replace With"
  else if any_of mode moved_header_modes then "Target Header"
  else "Target Field".

Definition getModeToPlaceholder (mode : jstr) : jstr :=
  if mode ==? "replace" then "(leave empty to delete)"
  else if mode ==? "regex_replace" then "openai/gpt-"
  else if any_of mode moved_header_modes then "X-Upstream-Auth"
  else "original_model".

Definition getModeValueLabel (mode : jstr) : jstr :=
  if mode ==? "set_header" then "Header Value (supports string or JSON mapping)"
  else if mode ==? "pass_headers" then "Pass-through Headers (comma-separated or JSON array)"
  else if any_of mode affix_modes then "Prefix/Suffix Text"
  else if mode ==? "prune_objects" then "Prune Rule (string or JSON object)"
  else "Value (supports JSON or plain text)".

Definition getModeValuePlaceholder (mode : jstr) : jstr :=
  if mode ==? "set_header" then "Bearer sk-xxx"
  else if mode ==? "pass_headers" then "Authorization, X-Request-Id"
  else if any_of mode affix_modes then "openai/"
  else if mode ==? "prune_objects" then sq "{'type':'redacted_thinking'}"
  else "0.7".

(** ** Ends of a synchronisation *)

Inductive SyncTarget := SyncJson | SyncHeader.

#[export] Instance SyncTarget_eq : EqDecision SyncTarget.
Proof. solve_decision. Defined.

Definition parseSyncTargetSpec (spec : jstr) : SyncTarget * jstr :=
  match trim spec with
  | [] => (SyncJson, [])
  | raw =>
      match index_of ":" raw with
      | None => (SyncJson, raw)
      | Some idx =>
          let prefix := toLowerCase (trim (take idx raw)) in
          let key := trim (drop (S idx) raw) in
          (if prefix ==? "header" then SyncHeader else SyncJson, key)
      end
  end.

Definition sync_name (type : SyncTarget) : jstr := match type with SyncHeader => "header" | SyncJson => "json" end.

Definition buildSyncTargetSpec (type : SyncTarget) (key : jstr) : jstr :=
  match trim key with
  | [] => []
  | normalizedKey => sync_name type ++ ":" ++ normalizedKey
  end.

(** ** Drafts of an error to return *)

Record ReturnErrorDraft := {
  re_message : jstr;
  re_statusCode : num;
  re_code : jstr;
  re_type : jstr;
  re_skipRetry : bool;
  re_simpleMode : bool
}.

Definition ReturnErrorDraft_eta (d : ReturnErrorDraft) : ReturnErrorDraft :=
  {| re_message := re_message d; re_statusCode := re_statusCode d; re_code := re_code d; re_type := re_type d;
     re_skipRetry := re_skipRetry d; re_simpleMode := re_simpleMode d |}.

#[export] Hint Extern 0 (@Setter ReturnErrorDraft ?E ?getter) =>
  projections_setter ReturnErrorDraft_eta ReturnErrorDraft E getter : typeclass_instances.

Definition default_error_draft : ReturnErrorDraft :=
  {| re_message := []; re_statusCode := num_of_Z 400; re_code := []; re_type := []; re_skipRetry := true;
     re_simpleMode := true |}.

(** A status code from 100 to 599, or else 400. *)
Definition valid_status (n : num) : num :=
  if is_integer n && nle (num_of_Z 100) n && nle n (num_of_Z 599) then n else num_of_Z 400.

(** [String(v || '').trim()] *)
Definition trimmed_text (v : jsval) : jstr := trim (js_to_string (js_or v (JStr []))).

Definition parseReturnErrorDraft (valueText : jstr) : ReturnErrorDraft :=
  match trim valueText with
  | [] => default_error_draft
  | raw =>
      match parse raw with
      | Some (JObj parsed) =>
          let statusRaw :=
            match prop parsed "status_code" with JUndef => prop parsed "status" | v => v end in
          {| re_message := trimmed_text (js_or (prop parsed "message") (prop parsed "msg"));
             re_statusCode := valid_status (js_to_number statusRaw);
             re_code := trimmed_text (prop parsed "code"); re_type := trimmed_text (prop parsed "type");
             re_skipRetry := prop parsed "skip_retry" !=? JBool false; re_simpleMode := false |}
      | _ => default_error_draft{{ re_message := raw; re_simpleMode := true }}
      end
  end.

(** [if (b) payload[key] = v], on a payload without the key *)
Definition field_if (b : bool) (key : jstr) (v : jsval) : jsobj := if b then [(key, v)] else [].

Definition return_error_payload (draft : ReturnErrorDraft) : jsobj :=
  [ ("message", JStr (trim (re_message draft))); ("status_code", JNum (valid_status (re_statusCode draft))) ]
  ++ field_if (non_empty (trim (re_code draft))) "code" (JStr (trim (re_code draft)))
  ++ field_if (non_empty (trim (re_type draft))) "type" (JStr (trim (re_type draft)))
  ++ field_if (negb (re_skipRetry draft)) "skip_retry" (JBool false).

Definition buildReturnErrorValueText (draft : ReturnErrorDraft) : jstr :=
  if re_simpleMode draft then trim (re_message draft) else stringify (JObj (return_error_payload draft)).

(** ** Drafts of a rule that prunes objects *)

(** A rule has the fields of a condition. *)
Definition PruneRule : Type := ParamOverrideCondition.

Record PruneObjectsDraft := {
  po_simpleMode : bool;
  po_typeText : jstr;
  po_logic : jstr;
  po_recursive : bool;
  po_rules : list PruneRule
}.

Definition PruneObjectsDraft_eta (d : PruneObjectsDraft) : PruneObjectsDraft :=
  {| po_simpleMode := po_simpleMode d; po_typeText := po_typeText d; po_logic := po_logic d;
     po_recursive := po_recursive d; po_rules := po_rules d |}.

#[export] Hint Extern 0 (@Setter PruneObjectsDraft ?E ?getter) =>
  projections_setter PruneObjectsDraft_eta PruneObjectsDraft E getter : typeclass_instances.

Definition default_prune_draft : PruneObjectsDraft :=
  {| po_simpleMode := true; po_typeText := []; po_logic := "AND"; po_recursive := true; po_rules := [] |}.

Section Prune.
Variable now : Z -> Z.

Definition normalizePruneRule (rule : jsval) : Ids PruneRule := normalizeCondition now rule.

(** The rule of an entry of [where], or of [conditions] when it is an object. *)
Definition entry_rule (entry : jstr * jsval) : Ids PruneRule :=
  normalizePruneRule (JObj [("path", JStr (fst entry)); ("mode", JStr "full"); ("value", snd entry)]).

(** [item && typeof item === 'object'] *)
Definition is_object (v : jsval) : bool := match v with JArr _ | JObj _ => true | _ => false end.

Definition where_rules (v : jsval) : Ids (list PruneRule) :=
  match v with JObj o => ids_map entry_rule o | _ => ids_ret [] end.

Definition condition_rules (v : jsval) : Ids (list PruneRule) :=
  match v with
  | JArr l => ids_map normalizePruneRule (List.filter is_object l)
  | JObj o => ids_map entry_rule o
  | _ => ids_ret []
  end.

Definition prune_logic (v : jsval) : jstr :=
  if toUpperCase (js_to_string (js_or v (JStr "AND"))) ==? "OR" then "OR" else "AND".

Definition parsePruneObjectsDraft (valueText : jstr) : Ids PruneObjectsDraft :=
  match trim valueText with
  | [] => ids_ret default_prune_draft
  | raw =>
      match parse raw with
      | None => ids_ret (default_prune_draft{{ po_typeText := raw }})
      | Some (JStr s) => ids_ret (default_prune_draft{{ po_typeText := trim s }})
      | Some (JObj parsed) =>
          let p := prop parsed in
          let defined key := match p key with JUndef => false | _ => true end in
          let! whereRules := where_rules (p "where") in
          let! conditionRules := condition_rules (p "conditions") in
          ids_ret
            {| po_simpleMode := negb (defined "logic" || defined "recursive" || defined "where" || defined "conditions");
               po_typeText := (match p "type" with JUndef => [] | v => trim (js_to_string v) end);
               po_logic := prune_logic (p "logic"); po_recursive := p "recursive" !=? JBool false;
               po_rules := whereRules ++ conditionRules |}
      | Some v => ids_ret (default_prune_draft{{ po_typeText := trim (js_to_string (js_nullish v (JStr []))) }})
      end
  end.

End Prune.

Definition prune_condition (rule : PruneRule) : jsval :=
  let valueRaw := trim (cd_value_text rule) in
  JObj ([ ("path" : jstr, JStr (trim (cd_path rule)));
          ("mode" : jstr, JStr (if mode_in CONDITION_MODE_VALUES (cd_mode rule) then cd_mode rule else "full")) ]
        ++ field_if (non_empty valueRaw) "value" (parseLooseValue valueRaw)
        ++ field_if (cd_invert rule) "invert" (JBool true)
        ++ field_if (cd_pass_missing_key rule) "pass_missing_key" (JBool true)).

Definition prune_payload (draft : PruneObjectsDraft) : jsobj :=
  let typeText := trim (po_typeText draft) in
  let conditions := map prune_condition (List.filter (fun rule => non_empty (trim (cd_path rule))) (po_rules draft)) in
  let payload :=
    field_if (non_empty typeText) "type" (JStr typeText)
    ++ field_if (toUpperCase (str_or (po_logic draft) "AND") ==? "OR") "logic" (JStr "OR")
    ++ field_if (negb (po_recursive draft)) "recursive" (JBool false)
    ++ field_if (negb (length conditions =? 0)%nat) "conditions" (JArr conditions) in
  if negb (non_empty typeText) && (length conditions =? 0)%nat then [("logic", JStr "AND")] else payload.

Definition buildPruneObjectsValueText (draft : PruneObjectsDraft) : jstr :=
  if po_simpleMode draft then trim (po_typeText draft) else stringify (JObj (prune_payload draft)).

(** ** Headers to pass on *)

(** [String(i ?? '').trim()] *)
Definition header_text (v : jsval) : jstr := trim (js_to_string (js_nullish v (JStr []))).

Definition parsePassHeaderNames (rawValue : jsval) : list jstr :=
  match rawValue with
  | JArr l => List.filter non_empty (map header_text l)
  | JObj obj =>
      match prop obj "headers" with
      | JArr l => List.filter non_empty (map header_text l)
      | _ =>
          match prop obj "header" with
          | JUndef => []
          | v => match header_text v with [] => [] | single => [single] end
          end
      end
  | JStr s => List.filter non_empty (map trim (split "," s))
  | _ => []
  end.

(** ** Writing rules *)

Definition buildConditionPayload (condition : ParamOverrideCondition) : option jsobj :=
  match trim (cd_path condition) with
  | [] => None
  | path =>
      Some ([ ("path" : jstr, JStr path); ("mode" : jstr, JStr (str_or (cd_mode condition) "full"));
              ("value" : jstr, parseLooseValue (cd_value_text condition)) ]
            ++ field_if (cd_invert condition) "invert" (JBool true)
            ++ field_if (cd_pass_missing_key condition) "pass_missing_key" (JBool true))
  end.

(** [l.map(f).filter(Boolean)] *)
Fixpoint filter_some {A B} (f : A -> option B) (l : list A) : list B :=
  match l with [] => [] | x :: t => match f x with Some y => y :: filter_some f t | None => filter_some f t end end.

(** The source and the target of a rule: in some modes, which use both, the path stands for a
    blank one. *)
Definition aliased (alias : bool) (path v : jstr) : jstr := if alias then str_or v path else v.

Definition operation_payload (operation : ParamOverrideOperation) : jsobj :=
  let mode := str_or (op_mode operation) "set" in
  let meta := mode_meta mode in
  let description := trim (op_description operation) in
  let path := trim (op_path operation) in
  let from := trim (op_from operation) in
  let to := trim (op_to operation) in
  let conditions := filter_some buildConditionPayload (op_conditions operation) in
  let conditional := negb (length conditions =? 0)%nat in
  [("mode" : jstr, JStr mode)]
  ++ field_if (non_empty description) "description" (JStr description)
  ++ field_if (mm_path meta || (mm_pathOptional meta && non_empty path)) "path" (JStr path)
  ++ field_if (mm_value meta) "value" (parseLooseValue (op_value_text operation))
  ++ field_if (mm_keepOrigin meta && op_keep_origin operation) "keep_origin" (JBool true)
  ++ field_if (mm_from meta) "from" (JStr (aliased (mm_pathAlias meta) path from))
  ++ field_if (mm_to meta || non_empty to) "to" (JStr (aliased (mm_pathAlias meta) path to))
  ++ field_if conditional "conditions" (JArr (map JObj conditions))
  ++ field_if conditional "logic" (JStr (if op_logic operation ==? "AND" then "AND" else "OR")).

Section Writing.
(** The translations: of a text, and of a text about a numbered rule. *)
Variable t : jstr -> jstr.
Variable t_line : jstr -> Z -> jstr.

(** What is wrong with the value of a rule, by its mode: the message that is returned. *)
Definition value_error (mode valueText : jstr) (line : Z) : option jstr :=
  let raw := trim valueText in
  if mode ==? "return_error" then
    match raw with
    | [] => Some (t_line "Rule {{line}} is missing value" line)
    | _ =>
        match parse raw with
        | Some (JObj parsed) =>
            if non_empty (trimmed_text (prop parsed "message")) then None
            else Some (t_line "Rule {{line}} return_error requires a message field" line)
        | _ => None
        end
    end
  else if mode ==? "prune_objects" then
    match raw with [] => Some (t_line "Rule {{line}} prune_objects is missing conditions" line) | _ => None end
  else if mode ==? "pass_headers" then
    match raw with
    | [] => Some (t_line "Rule {{line}} pass_headers is missing header names" line)
    | _ =>
        match parsePassHeaderNames (parseLooseValue raw) with
        | [] => Some (t_line "Rule {{line}} pass_headers format is invalid" line)
        | _ => None
        end
    end
  else None.

(** One turn of the loop. *)
Definition operation_error (op : ParamOverrideOperation) (line : Z) : option jstr :=
  let mode := str_or (op_mode op) "set" in
  let meta := mode_meta mode in
  let path := trim (op_path op) in
  let alias := mm_pathAlias meta && non_empty path in
  if mm_path meta && negb (non_empty path) then Some (t_line "Rule {{line}} is missing target path" line)
  else if mode_in FROM_REQUIRED_MODES mode && negb (non_empty (trim (op_from op))) && negb alias
  then Some (t_line "Rule {{line}} is missing source field" line)
  else if mode_in TO_REQUIRED_MODES mode && negb (non_empty (trim (op_to op))) && negb alias
  then Some (t_line "Rule {{line}} is missing target field" line)
  else if mode_in VALUE_REQUIRED_MODES mode && (trim (op_value_text op) ==? [])
  then Some (t_line "Rule {{line}} is missing value" line)
  else value_error mode (op_value_text op) line.

Fixpoint validate_from (operations : list ParamOverrideOperation) (line : Z) : jstr :=
  match operations with
  | [] => []
  | op :: rest => match operation_error op line with None => validate_from rest (line + 1) | Some message => message end
  end.

Definition validateOperations (operations : list ParamOverrideOperation) : jstr := validate_from operations 1.

Definition operations_document (operations : list ParamOverrideOperation) : jsval :=
  JObj [("operations", JArr (map (fun o => JObj (operation_payload o)) operations))].

Definition buildOperationsJson (sourceOperations : list ParamOverrideOperation) (validate : bool) : res jstr :=
  match List.filter (fun o => negb (isOperationBlank o)) sourceOperations with
  | [] => Ok []
  | filteredOps =>
      match (if validate then validateOperations filteredOps else []) with
      | [] => Ok (stringify2 (operations_document filteredOps))
      | message => Throw message
      end
  end.
End Writing.
