(* ===== verification/ParamOverrideEditor.v ===== *)
(** * The editor of parameter overrides
    (features/channels/components/dialogs/param-override-editor-dialog.tsx, the dialog)

    The dialog as a state machine: a visual list of rules, an older format that is one JSON
    object, and the text of the document. An event is a callback of the dialog; React runs
    a state update that no other update precedes at once. The search, the expanded
    conditions, the pointer during a drag, and rendering are left out. *)
From S2P Require Import RecordUpdate Prelude JsString JsNumber JsValue Json OrderedMap ParamOverride.

(** ** Templates *)

Definition ops (l : list jsval) : jsobj := [("operations", JArr l)].
Definition str_arr (l : list jstr) : jsval := JArr (map JStr l).
Definition condition_of (path mode value : jstr) : jsval :=
  JObj [("path", JStr path); ("mode", JStr mode); ("value", JStr value)].

Definition LEGACY_TEMPLATE : jsobj := [("temperature", JNum nzero); ("max_tokens", JNum (num_of_Z 1000))].

Definition OPERATION_TEMPLATE : jsobj :=
  ops [JObj [("description", JStr "Set default temperature for openai/* models."); ("path", JStr "temperature");
             ("mode", JStr "set"); ("value", JNum (num_of_string "0.7"));
             ("conditions", JArr [condition_of "model" "prefix" "openai/"]); ("logic", JStr "AND")]].

Definition HEADER_PASSTHROUGH_TEMPLATE : jsobj :=
  ops [JObj [("description", JStr "Pass through X-Request-Id header to upstream."); ("mode", JStr "pass_headers");
             ("value", str_arr ["X-Request-Id"]); ("keep_origin", JBool true)]].

Definition GEMINI_IMAGE_4K_TEMPLATE : jsobj :=
  ops [JObj [("description", JStr "Set imageSize to 4K when model contains gemini/image and ends with 4k.");
             ("mode", JStr "set"); ("path", JStr "generationConfig.imageConfig.imageSize"); ("value", JStr "4K");
             ("conditions", JArr [condition_of "original_model" "contains" "gemini";
                                  condition_of "original_model" "contains" "image";
                                  condition_of "original_model" "suffix" "4k"]);
             ("logic", JStr "AND")]].

Definition CODEX_CLI_HEADER_PASSTHROUGH_HEADERS : list jstr :=
  [ "Originator"; "Session_id"; "Thread_id"; "Session-Id"; "Thread-Id"; "X-Client-Request-Id"; "User-Agent";
    "X-Codex-Beta-Features"; "X-Codex-Turn-State"; "X-Codex-Turn-Metadata"; "X-Codex-Window-Id";
    "X-Codex-Parent-Thread-Id"; "X-OpenAI-Subagent"; "X-OpenAI-Memgen-Request";
    "X-ResponsesAPI-Include-Timing-Metrics"; "X-OpenAI-Internal-Codex-Responses-Lite" ].

Definition CLAUDE_CLI_HEADER_PASSTHROUGH_HEADERS : list jstr :=
  [ "X-Stainless-Arch"; "X-Stainless-Lang"; "X-Stainless-Os"; "X-Stainless-Package-Version";
    "X-Stainless-Retry-Count"; "X-Stainless-Runtime"; "X-Stainless-Runtime-Version"; "X-Stainless-Timeout";
    "User-Agent"; "X-App"; "Anthropic-Beta"; "Anthropic-Dangerous-Direct-Browser-Access"; "Anthropic-Version" ].

Definition buildPassHeadersTemplate (headers : list jstr) : jsobj :=
  ops [JObj [("mode", JStr "pass_headers"); ("value", str_arr headers); ("keep_origin", JBool true)]].

Definition CODEX_CLI_HEADER_PASSTHROUGH_TEMPLATE : jsobj := buildPassHeadersTemplate CODEX_CLI_HEADER_PASSTHROUGH_HEADERS.
Definition CLAUDE_CLI_HEADER_PASSTHROUGH_TEMPLATE : jsobj := buildPassHeadersTemplate CLAUDE_CLI_HEADER_PASSTHROUGH_HEADERS.

(** The header tokens of the Bedrock template: a replacement, or [null] to drop one. *)
Definition bedrock_tokens : jsobj :=
  [ ("advanced-tool-use-2025-11-20", JStr "tool-search-tool-2025-10-19"); ("bash_20241022", JNull);
    ("bash_20250124", JNull); ("code-execution-2025-08-25", JNull); ("compact-2026-01-12", JStr "compact-2026-01-12");
    ("computer-use-2025-01-24", JStr "computer-use-2025-01-24");
    ("computer-use-2025-11-24", JStr "computer-use-2025-11-24"); ("context-1m-2025-08-07", JStr "context-1m-2025-08-07");
    ("context-management-2025-06-27", JStr "context-management-2025-06-27"); ("effort-2025-11-24", JNull);
    ("fast-mode-2026-02-01", JNull); ("files-api-2025-04-14", JNull);
    ("fine-grained-tool-streaming-2025-05-14", JNull);
    ("interleaved-thinking-2025-05-14", JStr "interleaved-thinking-2025-05-14"); ("mcp-client-2025-11-20", JNull);
    ("mcp-client-2025-04-04", JNull); ("mcp-servers-2025-12-04", JNull); ("output-128k-2025-02-19", JNull);
    ("structured-output-2024-03-01", JNull); ("prompt-caching-scope-2026-01-05", JNull); ("skills-2025-10-02", JNull);
    ("structured-outputs-2025-11-13", JNull); ("text_editor_20241022", JNull); ("text_editor_20250124", JNull);
    ("token-efficient-tools-2025-02-19", JNull);
    ("tool-search-tool-2025-10-19", JStr "tool-search-tool-2025-10-19"); ("web-fetch-2025-09-10", JNull);
    ("web-search-2025-03-05", JNull); ("oauth-2025-04-20", JNull) ].

Definition AWS_BEDROCK_ANTHROPIC_COMPAT_TEMPLATE : jsobj :=
  ops [ JObj [("description", JStr "Normalize anthropic-beta header tokens for Bedrock compatibility.");
              ("mode", JStr "set_header"); ("path", JStr "anthropic-beta"); ("value", JObj bedrock_tokens)];
        JObj [("description", JStr "Remove all tools[*].custom.input_examples before upstream relay.");
              ("mode", JStr "delete"); ("path", JStr "tools.*.custom.input_examples")] ].

Inductive TemplateKind := KindOperations | KindLegacy.

Record TemplatePresetConfig := { tp_label : jstr; tp_kind : TemplateKind; tp_payload : jsobj }.

Definition preset (label : jstr) (kind : TemplateKind) (payload : jsobj) : TemplatePresetConfig :=
  {| tp_label := label; tp_kind := kind; tp_payload := payload |}.

Definition operations_default : TemplatePresetConfig := preset "New Format Template" KindOperations OPERATION_TEMPLATE.

Definition TEMPLATE_PRESET_CONFIG : list (jstr * TemplatePresetConfig) :=
  [ ("operations_default", operations_default);
    ("legacy_default", preset "Legacy Format Template" KindLegacy LEGACY_TEMPLATE);
    ("pass_headers_auth", preset "Header Passthrough (X-Request-Id)" KindOperations HEADER_PASSTHROUGH_TEMPLATE);
    ("gemini_image_4k", preset "Gemini Image 4K" KindOperations GEMINI_IMAGE_4K_TEMPLATE);
    ("claude_cli_headers_passthrough",
       preset "Claude CLI Header Passthrough" KindOperations CLAUDE_CLI_HEADER_PASSTHROUGH_TEMPLATE);
    ("codex_cli_headers_passthrough",
       preset "Codex CLI Header Passthrough" KindOperations CODEX_CLI_HEADER_PASSTHROUGH_TEMPLATE);
    ("aws_bedrock_anthropic_beta_override",
       preset "AWS Bedrock Claude Compat" KindOperations AWS_BEDROCK_ANTHROPIC_COMPAT_TEMPLATE) ].

(** ** State *)

Inductive EditMode := EditVisual | EditJson.
Inductive VisualMode := VisualOperations | VisualLegacy.

#[export] Instance EditMode_eq : EqDecision EditMode.
Proof. solve_decision. Defined.
#[export] Instance VisualMode_eq : EqDecision VisualMode.
Proof. solve_decision. Defined.

(** What a stored text opens as. *)
Record EditorState := {
  es_editMode : EditMode;
  es_visualMode : VisualMode;
  es_legacyValue : jstr;
  es_operations : list ParamOverrideOperation;
  es_jsonText : jstr;
  es_jsonError : jstr
}.

(** The dialog, with the counter of identifiers. *)
Record OverrideState := {
  ov_editMode : EditMode;
  ov_visualMode : VisualMode;
  ov_legacyValue : jstr;
  ov_operations : list ParamOverrideOperation;
  ov_jsonText : jstr;
  ov_jsonError : jstr;
  ov_selected : jstr;
  ov_preset : jstr;
  ov_seed : Z
}.

Definition OverrideState_eta (s : OverrideState) : OverrideState :=
  {| ov_editMode := ov_editMode s; ov_visualMode := ov_visualMode s; ov_legacyValue := ov_legacyValue s;
     ov_operations := ov_operations s; ov_jsonText := ov_jsonText s; ov_jsonError := ov_jsonError s;
     ov_selected := ov_selected s; ov_preset := ov_preset s; ov_seed := ov_seed s |}.

#[export] Hint Extern 0 (@Setter OverrideState ?E ?getter) =>
  projections_setter OverrideState_eta OverrideState E getter : typeclass_instances.

(** Input to a rule. A mode or a logic is one of the options of its menu. *)
Inductive OperationPatch :=
| PatchDescription (v : jstr)
| PatchPath (v : jstr)
| PatchMode (v : jstr)
| PatchFrom (v : jstr)
| PatchTo (v : jstr)
| PatchFromTo (from to : jstr)
| PatchValueText (v : jstr)
| PatchKeepOrigin (v : bool)
| PatchLogic (v : jstr).

Definition patch_operation (p : OperationPatch) (o : ParamOverrideOperation) : ParamOverrideOperation :=
  match p with
  | PatchDescription v => o{{ op_description := v }}
  | PatchPath v => o{{ op_path := v }}
  | PatchMode v => o{{ op_mode := v }}
  | PatchFrom v => o{{ op_from := v }}
  | PatchTo v => o{{ op_to := v }}
  | PatchFromTo from to => o{{ op_from := from; op_to := to }}
  | PatchValueText v => o{{ op_value_text := v }}
  | PatchKeepOrigin v => o{{ op_keep_origin := v }}
  | PatchLogic v => o{{ op_logic := v }}
  end.

(** Input to a condition, or to a rule that prunes objects. *)
Inductive ConditionPatch :=
| CondPath (v : jstr)
| CondMode (v : jstr)
| CondValueText (v : jstr)
| CondInvert (v : bool)
| CondPassMissing (v : bool).

Definition patch_condition (p : ConditionPatch) (c : ParamOverrideCondition) : ParamOverrideCondition :=
  match p with
  | CondPath v => c{{ cd_path := v }}
  | CondMode v => c{{ cd_mode := v }}
  | CondValueText v => c{{ cd_value_text := v }}
  | CondInvert v => c{{ cd_invert := v }}
  | CondPassMissing v => c{{ cd_pass_missing_key := v }}
  end.

(** Input to the draft of an error. *)
Inductive ErrorPatch :=
| ErrMessage (v : jstr)
| ErrStatusCode (v : num)
| ErrCode (v : jstr)
| ErrType (v : jstr)
| ErrSkipRetry (v : bool)
| ErrSimpleMode (v : bool)
| ErrPreset (statusCode : num) (code type : jstr).

Definition patch_error (p : ErrorPatch) (d : ReturnErrorDraft) : ReturnErrorDraft :=
  match p with
  | ErrMessage v => d{{ re_message := v }}
  | ErrStatusCode v => d{{ re_statusCode := v }}
  | ErrCode v => d{{ re_code := v }}
  | ErrType v => d{{ re_type := v }}
  | ErrSkipRetry v => d{{ re_skipRetry := v }}
  | ErrSimpleMode v => d{{ re_simpleMode := v }}
  | ErrPreset statusCode code type => d{{ re_statusCode := statusCode; re_code := code; re_type := type }}
  end.

(** Input to the draft of a pruning rule. *)
Inductive PrunePatch :=
| PruneSimpleMode (v : bool)
| PruneTypeText (v : jstr)
| PruneLogic (v : jstr)
| PruneRecursive (v : bool).

Definition patch_prune (p : PrunePatch) (d : PruneObjectsDraft) : PruneObjectsDraft :=
  match p with
  | PruneSimpleMode v => d{{ po_simpleMode := v }}
  | PruneTypeText v => d{{ po_typeText := v }}
  | PruneLogic v => d{{ po_logic := v }}
  | PruneRecursive v => d{{ po_recursive := v }}
  end.

(** [Number.parseInt(s, 10) || 400] *)
Definition status_input (s : jstr) : num :=
  let t := trimStart s in
  let '(neg, body) :=
    match t with
    | c :: u => if (c =? 45)%N then (true, u) else if (c =? 43)%N then (false, u) else (false, t)
    | [] => (false, t)
    end in
  match fst (span is_digit body) with
  | [] => num_of_Z 400
  | ds => num_or (num_of_Z (if neg then - digits_val ds else digits_val ds)) (num_of_Z 400)
  end.

Section Dialog.
Variable now : Z -> Z.
Variable t : jstr -> jstr.
Variable t_line : jstr -> Z -> jstr.

(** The rules of a document, or a new one when it has none. *)
Definition document_operations (l : list jsval) : Ids (list ParamOverrideOperation) :=
  match l with
  | [] => let! o := createDefaultOperation now in ids_ret [o]
  | _ => ids_map (normalizeOperation now) l
  end.

Definition parseInitialState (rawValue : jstr) : Ids EditorState :=
  let default_operations := let! o := createDefaultOperation now in ids_ret [o] in
  let opened editMode visualMode legacyValue operations jsonText jsonError :=
    {| es_editMode := editMode; es_visualMode := visualMode; es_legacyValue := legacyValue;
       es_operations := operations; es_jsonText := jsonText; es_jsonError := jsonError |} in
  match trim rawValue with
  | [] =>
      let! l := default_operations in
      ids_ret (opened EditVisual VisualOperations [] l [] [])
  | trimmed =>
      match parse trimmed with
      | None =>
          let! l := default_operations in
          ids_ret (opened EditJson VisualOperations [] l rawValue "Invalid JSON format")
      | Some parsed =>
          let pretty := stringify2 parsed in
          match parsed with
          | JObj o =>
              match prop o "operations" with
              | JArr l =>
                  let! l := document_operations l in
                  ids_ret (opened EditVisual VisualOperations [] l pretty [])
              | _ =>
                  let! l := default_operations in
                  ids_ret (opened EditVisual VisualLegacy pretty l pretty [])
              end
          | _ =>
              let! l := default_operations in
              ids_ret (opened EditJson VisualOperations [] l pretty [])
          end
      end
  end.

Definition first_id (l : list ParamOverrideOperation) : jstr := match l with o :: _ => op_id o | [] => [] end.

(** The effect that opens the dialog on a stored text. An exception in it takes the page down. *)
Definition open_dialog (value : jstr) (s : OverrideState) : res OverrideState :=
  match parseInitialState value (ov_seed s) with
  | (Ok e, seed) =>
      Ok {| ov_editMode := es_editMode e; ov_visualMode := es_visualMode e; ov_legacyValue := es_legacyValue e;
            ov_operations := es_operations e; ov_jsonText := es_jsonText e; ov_jsonError := es_jsonError e;
            ov_selected := first_id (es_operations e);
            ov_preset := (match es_visualMode e with VisualLegacy => "legacy_default" | VisualOperations => "operations_default" end);
            ov_seed := seed |}
  | (Throw e, _) => Throw e
  end.

(** The effect that keeps a rule selected. *)
Definition keep_selected (s : OverrideState) : OverrideState :=
  match ov_operations s with
  | [] => s{{ ov_selected := [] }}
  | o :: _ => if existsb (fun o => op_id o ==? ov_selected s) (ov_operations s) then s else s{{ ov_selected := op_id o }}
  end.

(** A callback that makes identifiers: an exception leaves the state as it was. *)
Definition with_ids {A} (m : Ids A) (k : A -> OverrideState -> OverrideState) (s : OverrideState) : OverrideState :=
  match m (ov_seed s) with
  | (Ok x, seed) => k x (s{{ ov_seed := seed }})
  | (Throw _, seed) => s{{ ov_seed := seed }}
  end.

(** ** Rules and conditions *)

(** [ops.map((o) => (o.id === id ? f(o) : o))] *)
Definition map_id (id : jstr) (f : ParamOverrideOperation -> ParamOverrideOperation) (l : list ParamOverrideOperation)
  : list ParamOverrideOperation :=
  map (fun o => if op_id o ==? id then f o else o) l.

Definition set_operations (l : list ParamOverrideOperation) (s : OverrideState) : OverrideState := s{{ ov_operations := l }}.

Definition updateOperation (id : jstr) (p : OperationPatch) (s : OverrideState) : OverrideState :=
  set_operations (map_id id (patch_operation p) (ov_operations s)) s.

Definition addOperation : OverrideState -> OverrideState :=
  with_ids (createDefaultOperation now) (fun created s =>
    s{{ ov_operations := ov_operations s ++ [created]; ov_selected := op_id created }}).

(** What a rule is copied from. *)
Definition condition_source (c : ParamOverrideCondition) : jsval :=
  JObj [("path", JStr (cd_path c)); ("mode", JStr (cd_mode c)); ("value", parseLooseValue (cd_value_text c));
        ("invert", JBool (cd_invert c)); ("pass_missing_key", JBool (cd_pass_missing_key c))].

Definition operation_source (o : ParamOverrideOperation) : jsval :=
  JObj [("description", JStr (op_description o)); ("path", JStr (op_path o)); ("mode", JStr (op_mode o));
        ("value", parseLooseValue (op_value_text o)); ("keep_origin", JBool (op_keep_origin o));
        ("from", JStr (op_from o)); ("to", JStr (op_to o)); ("logic", JStr (op_logic o));
        ("conditions", JArr (map condition_source (op_conditions o)))].

Definition duplicateOperation (id : jstr) (s : OverrideState) : OverrideState :=
  match find_id id (ov_operations s) with
  | None => s
  | Some idx =>
      match drop idx (ov_operations s) with
      | source :: rest =>
          with_ids (normalizeOperation now (operation_source source)) (fun cloned s =>
            s{{ ov_operations := take (S idx) (ov_operations s) ++ cloned :: rest; ov_selected := op_id cloned }}) s
      | [] => s
      end
  end.

Definition removeOperation (id : jstr) (s : OverrideState) : OverrideState :=
  if (length (ov_operations s) <=? 1)%nat
  then with_ids (createDefaultOperation now) (fun created => set_operations [created]) s
  else set_operations (List.filter (fun o => op_id o !=? id) (ov_operations s)) s.

Definition map_conditions (id : jstr) (f : list ParamOverrideCondition -> list ParamOverrideCondition)
  : list ParamOverrideOperation -> list ParamOverrideOperation :=
  map_id id (fun o => o{{ op_conditions := f (op_conditions o) }}).

Definition addCondition (operationId : jstr) : OverrideState -> OverrideState :=
  with_ids (createDefaultCondition now) (fun created s =>
    set_operations (map_conditions operationId (fun l => l ++ [created]) (ov_operations s)) s).

Definition updateCondition (operationId conditionId : jstr) (p : ConditionPatch) (s : OverrideState) : OverrideState :=
  set_operations
    (map_conditions operationId (map (fun c => if cd_id c ==? conditionId then patch_condition p c else c))
       (ov_operations s)) s.

Definition removeCondition (operationId conditionId : jstr) (s : OverrideState) : OverrideState :=
  set_operations (map_conditions operationId (List.filter (fun c => cd_id c !=? conditionId)) (ov_operations s)) s.

(** ** Drafts *)

(** The draft is read from the text of the rule and written back at every input. *)
Definition updateReturnErrorDraft (operationId : jstr) (p : ErrorPatch) (s : OverrideState) : OverrideState :=
  set_operations
    (map_id operationId
       (fun o => o{{ op_value_text := buildReturnErrorValueText (patch_error p (parseReturnErrorDraft (op_value_text o))) }})
       (ov_operations s)) s.

Definition update_prune (operationId : jstr) (updater : PruneObjectsDraft -> Ids PruneObjectsDraft)
    (o : ParamOverrideOperation) : Ids ParamOverrideOperation :=
  if op_id o !=? operationId then ids_ret o
  else
    let! draft := parsePruneObjectsDraft now (op_value_text o) in
    let! nextDraft := updater draft in
    ids_ret (o{{ op_value_text := buildPruneObjectsValueText nextDraft }}).

Definition updatePruneObjectsDraft (operationId : jstr) (updater : PruneObjectsDraft -> Ids PruneObjectsDraft)
    (s : OverrideState) : OverrideState :=
  with_ids (ids_map (update_prune operationId updater) (ov_operations s)) set_operations s.

Definition patchPruneObjectsDraft (operationId : jstr) (p : PrunePatch) : OverrideState -> OverrideState :=
  updatePruneObjectsDraft operationId (fun draft => ids_ret (patch_prune p draft)).

Definition addPruneRule (operationId : jstr) : OverrideState -> OverrideState :=
  updatePruneObjectsDraft operationId (fun draft =>
    let! rule := normalizePruneRule now (JObj []) in
    ids_ret (draft{{ po_simpleMode := false; po_rules := po_rules draft ++ [rule] }})).

Definition updatePruneRule (operationId ruleId : jstr) (p : ConditionPatch) : OverrideState -> OverrideState :=
  updatePruneObjectsDraft operationId (fun draft =>
    ids_ret (draft{{ po_rules := map (fun r => if cd_id r ==? ruleId then patch_condition p r else r) (po_rules draft) }})).

Definition removePruneRule (operationId ruleId : jstr) : OverrideState -> OverrideState :=
  updatePruneObjectsDraft operationId (fun draft =>
    ids_ret (draft{{ po_rules := List.filter (fun r => cd_id r !=? ruleId) (po_rules draft) }})).

(** Dropping a dragged rule before or after another one. *)
Definition handleDrop (sourceId operationId : jstr) (position : DropPosition) (s : OverrideState) : OverrideState :=
  if non_empty sourceId && non_empty operationId && (sourceId !=? operationId)
  then s{{ ov_operations := reorderOperations (ov_operations s) sourceId operationId position; ov_selected := sourceId }}
  else s.

(** ** Switching and templates *)

Definition buildVisualJson (s : OverrideState) : res jstr :=
  match ov_visualMode s with
  | VisualLegacy =>
      match trim (ov_legacyValue s) with
      | [] => Ok []
      | trimmed =>
          match parse trimmed with
          | None => Throw (t "Parameter override must be valid JSON format")
          | Some (JObj parsed) => Ok (stringify2 (JObj parsed))
          | Some _ => Throw (t "Legacy format must be a JSON object")
          end
      end
  | VisualOperations => buildOperationsJson t_line (ov_operations s) true
  end.

Definition switchToJsonMode (s : OverrideState) : OverrideState :=
  match ov_editMode s with
  | EditJson => s
  | EditVisual =>
      let s' :=
        match buildVisualJson s with
        | Ok text => s{{ ov_jsonText := text; ov_jsonError := [] }}
        | Throw message =>
            s{{ ov_jsonText :=
                  (match ov_visualMode s with
                   | VisualLegacy => ov_legacyValue s
                   | VisualOperations => res_catch (buildOperationsJson t_line (ov_operations s) false) []
                   end);
                ov_jsonError := str_or message (t "Parameter configuration error") }}
        end in
      s'{{ ov_editMode := EditJson }}
  end.

(** The visual editor on the rules [l], of which the first is selected. *)
Definition visual_operations (l : list ParamOverrideOperation) (s : OverrideState) : OverrideState :=
  s{{ ov_visualMode := VisualOperations; ov_operations := l; ov_selected := first_id l; ov_jsonError := [];
      ov_editMode := EditVisual }}.

Definition switchToVisualMode (s : OverrideState) : OverrideState :=
  match ov_editMode s with
  | EditVisual => s
  | EditJson =>
      match trim (ov_jsonText s) with
      | [] =>
          with_ids (createDefaultOperation now) (fun fallback s =>
            (visual_operations [fallback] s){{ ov_legacyValue := [] }}) s
      | trimmed =>
          match parse trimmed with
          | Some (JObj parsed) =>
              match prop parsed "operations" with
              | JArr l =>
                  with_ids (document_operations l) (fun nextOps s =>
                    (visual_operations nextOps s){{ ov_legacyValue := []; ov_preset := "operations_default" }}) s
              | _ =>
                  with_ids (createDefaultOperation now) (fun fallback s =>
                    (visual_operations [fallback] s)
                      {{ ov_visualMode := VisualLegacy; ov_legacyValue := stringify2 (JObj parsed);
                         ov_preset := "legacy_default" }}) s
              end
          | _ => s
          end
      end
  end.

(** The older format with the text of a template. *)
Definition legacy_template (text : jstr) : OverrideState -> OverrideState :=
  with_ids (createDefaultOperation now) (fun fallback s =>
    s{{ ov_visualMode := VisualLegacy; ov_legacyValue := text; ov_operations := [fallback]; ov_jsonText := text;
        ov_jsonError := []; ov_editMode := EditVisual }}).

Inductive FillMode := Fill | Append.

Definition chosen_preset (s : OverrideState) : TemplatePresetConfig :=
  default operations_default (obj_get (ov_preset s) TEMPLATE_PRESET_CONFIG).

(** The rules of a template. *)
Definition template_operations (payload : jsobj) : list jsval :=
  match prop payload "operations" with JArr l => l | _ => [] end.

Definition fillTemplate (mode : FillMode) (s : OverrideState) : OverrideState :=
  let preset := chosen_preset s in
  let payload := tp_payload preset in
  match tp_kind preset, mode with
  | KindLegacy, Append =>
      match ov_visualMode s with
      | VisualOperations => legacy_template (stringify2 (JObj payload)) s
      | VisualLegacy =>
          match trim (ov_legacyValue s) with
          | [] => legacy_template (stringify2 (JObj (obj_spread payload []))) s
          | trimmed =>
              match parse trimmed with
              | None => s
              | Some parsedCurrent => legacy_template (stringify2 (JObj (obj_spread payload (js_own parsedCurrent)))) s
              end
          end
      end
  | KindLegacy, Fill => legacy_template (stringify2 (JObj payload)) s
  | KindOperations, Append =>
      with_ids (ids_map (normalizeOperation now) (template_operations payload)) (fun appended s =>
        let existing :=
          match ov_visualMode s with
          | VisualOperations => List.filter (fun o => negb (isOperationBlank o)) (ov_operations s)
          | VisualLegacy => []
          end in
        (visual_operations (existing ++ appended) s){{ ov_legacyValue := []; ov_jsonText := [] }}) s
  | KindOperations, Fill =>
      with_ids (document_operations (template_operations payload)) (fun finalOps s =>
        (visual_operations finalOps s)
          {{ ov_jsonText := stringify2 (JObj [("operations", JArr (template_operations payload))]) }}) s
  end.

Definition resetEditorState : OverrideState -> OverrideState :=
  with_ids (createDefaultOperation now) (fun fallback s =>
    (visual_operations [fallback] s){{ ov_legacyValue := []; ov_jsonText := []; ov_preset := "operations_default" }}).

(** ** The text *)

Definition handleJsonChange (nextValue : jstr) (s : OverrideState) : OverrideState :=
  s{{ ov_jsonText := nextValue;
      ov_jsonError :=
        (match trim nextValue with
         | [] => []
         | trimmed => if verifyJSON trimmed then [] else t "JSON format error"
         end) }}.

Definition formatJson (s : OverrideState) : OverrideState :=
  match trim (ov_jsonText s) with
  | [] => s
  | trimmed =>
      match parse trimmed with
      | None => s
      | Some v => s{{ ov_jsonText := stringify2 v; ov_jsonError := [] }}
      end
  end.

Definition visualValidationError (s : OverrideState) : jstr :=
  match ov_editMode s with
  | EditJson => []
  | EditVisual =>
      match buildVisualJson s with
      | Ok _ => []
      | Throw message => str_or message (t "Parameter configuration error")
      end
  end.

(** What is saved, or the message of a toast. *)
Definition handleSave (s : OverrideState) : res jstr :=
  match ov_editMode s with
  | EditJson =>
      match trim (ov_jsonText s) with
      | [] => Ok []
      | trimmed =>
          match parse trimmed with
          | None => Throw (t "Parameter override must be valid JSON format")
          | Some v => Ok (stringify2 v)
          end
      end
  | EditVisual => buildVisualJson s
  end.

(** ** Events *)

Inductive OverrideEvent :=
| EvUpdateOperation (id : jstr) (p : OperationPatch)
| EvAddOperation
| EvDuplicateOperation (id : jstr)
| EvRemoveOperation (id : jstr)
| EvAddCondition (operationId : jstr)
| EvUpdateCondition (operationId conditionId : jstr) (p : ConditionPatch)
| EvRemoveCondition (operationId conditionId : jstr)
| EvUpdateReturnError (operationId : jstr) (p : ErrorPatch)
| EvPatchPrune (operationId : jstr) (p : PrunePatch)
| EvAddPruneRule (operationId : jstr)
| EvUpdatePruneRule (operationId ruleId : jstr) (p : ConditionPatch)
| EvRemovePruneRule (operationId ruleId : jstr)
| EvDrop (sourceId operationId : jstr) (position : DropPosition)
| EvSwitchToJson
| EvSwitchToVisual
| EvFillTemplate (mode : FillMode)
| EvReset
| EvJsonChange (text : jstr)
| EvFormatJson
| EvLegacyChange (text : jstr)
| EvSelect (id : jstr)
| EvPreset (key : jstr)
| EvRender (drawn : Z). (* a render reads the draft of a pruning rule, which makes identifiers *)

Definition handle_event (e : OverrideEvent) : OverrideState -> OverrideState :=
  match e with
  | EvUpdateOperation id p => updateOperation id p
  | EvAddOperation => addOperation
  | EvDuplicateOperation id => duplicateOperation id
  | EvRemoveOperation id => removeOperation id
  | EvAddCondition id => addCondition id
  | EvUpdateCondition id c p => updateCondition id c p
  | EvRemoveCondition id c => removeCondition id c
  | EvUpdateReturnError id p => updateReturnErrorDraft id p
  | EvPatchPrune id p => patchPruneObjectsDraft id p
  | EvAddPruneRule id => addPruneRule id
  | EvUpdatePruneRule id r p => updatePruneRule id r p
  | EvRemovePruneRule id r => removePruneRule id r
  | EvDrop source target position => handleDrop source target position
  | EvSwitchToJson => switchToJsonMode
  | EvSwitchToVisual => switchToVisualMode
  | EvFillTemplate mode => fillTemplate mode
  | EvReset => resetEditorState
  | EvJsonChange text => handleJsonChange text
  | EvFormatJson => formatJson
  | EvLegacyChange text => fun s => s{{ ov_legacyValue := text }}
  | EvSelect id => fun s => s{{ ov_selected := id }}
  | EvPreset key => fun s => s{{ ov_preset := key }}
  | EvRender drawn => fun s => s{{ ov_seed := (ov_seed s + Z.max 0 drawn)%Z }}
  end.

Definition step (e : OverrideEvent) (s : OverrideState) : OverrideState := keep_selected (handle_event e s).

Definition run (events : list OverrideEvent) (s : OverrideState) : OverrideState := fold_left (fun s e => step e s) events s.
End Dialog.

(** ** Display *)

Definition filteredOperations (operationSearch : jstr) (operations : list ParamOverrideOperation)
  : list ParamOverrideOperation :=
  match toLowerCase (trim operationSearch) with
  | [] => operations
  | keyword =>
      List.filter
        (fun op =>
           includes
             (toLowerCase
                (join " " (List.filter non_empty
                   [op_description op; op_mode op; op_path op; op_from op; op_to op; op_value_text op]))) keyword)
        operations
  end.

Definition operationCount (operations : list ParamOverrideOperation) : nat :=
  length (List.filter (fun o => negb (isOperationBlank o)) operations).

(** The four modes used most. *)
Definition mode_counts (operations : list ParamOverrideOperation) : list (jstr * Z) :=
  fold_left
    (fun counts op =>
       let mode := str_or (op_mode op) "set" in
       obj_set mode (default 0 (obj_get mode counts) + 1)%Z counts)
    operations [].

Definition topOperationModes (operations : list ParamOverrideOperation) : list (jstr * Z) :=
  take 4 (js_sort (fun a b => (snd b ?= snd a)%Z) (mode_counts operations)).
