(* ===== verification/ParamOverrideProofs.v ===== *)
(** * Parameter override rules: the dialog

    Companion of [ParamOverride] and [ParamOverrideEditor]: identifiers are distinct, the
    invariant of the dialog, and the drafts of the rules that prune objects. *)
From S2P Require Import RecordUpdate Prelude JsString JsNumber JsValue Json ParamOverride ParamOverrideEditor.

(** ** Identifiers *)

Lemma pos_digits_spec fuel : forall z acc,
  (0 <= z < 2 ^ Z.of_nat fuel)%Z ->
  exists d, pos_digits fuel z acc = d ++ acc /\ forallb is_digit d = true /\ digits_val d = z.
Proof.
  induction fuel as [|f IH]; intros z acc Hz.
  { exists []. split_and!; [done|done|]. cbn in *. lia. }
  rewrite Nat2Z.inj_succ, Z.pow_succ_r in Hz by lia. cbn [pos_digits].
  assert (0 <= z mod 10 < 10)%Z as Hm by (apply Z.mod_pos_bound; lia).
  assert (is_digit (Z.to_N (48 + z mod 10)) = true) as Hc.
  { unfold is_digit. apply andb_true_iff. split; apply N.leb_le; lia. }
  destruct (z <? 10)%Z eqn:E.
  - apply Z.ltb_lt in E. exists [Z.to_N (48 + z mod 10)]. split_and!; [done|cbn; by rewrite Hc|].
    cbn. rewrite Z2N.id by lia. rewrite Z.mod_small; lia.
  - apply Z.ltb_ge in E.
    destruct (IH (z / 10)%Z (Z.to_N (48 + z mod 10) :: acc)) as (d & -> & Hd & Hv).
    { split; [apply Z.div_pos; lia|]. apply Z.div_lt_upper_bound; lia. }
    exists (d ++ [Z.to_N (48 + z mod 10)]). split_and!.
    + by rewrite <- app_assoc.
    + rewrite forallb_app, Hd. cbn. by rewrite Hc.
    + unfold digits_val in *. rewrite fold_left_app, Hv. cbn. rewrite Z2N.id by lia.
      pose proof (Z.div_mod z 10). lia.
Qed.

Lemma Z_digits_spec z : (0 <= z)%Z -> forallb is_digit (Z_digits z) = true /\ digits_val (Z_digits z) = z.
Proof.
  intros Hz. unfold Z_digits. destruct (pos_digits_spec (S (Z.to_nat (Z.log2 z))) z []) as (d & -> & H1 & H2).
  - split; [done|]. rewrite Nat2Z.inj_succ, Z2Nat.id by apply Z.log2_nonneg.
    destruct (decide (z = 0%Z)) as [->|H]; [done|]. apply Z.log2_spec. lia.
  - by rewrite app_nil_r.
Qed.

(** The text after the last separator. *)
Lemma last_field_inj {A} (x : A) (l1 l2 r1 r2 : list A) :
  x ∉ r1 -> x ∉ r2 -> l1 ++ x :: r1 = l2 ++ x :: r2 -> r1 = r2.
Proof.
  intros H1 H2. revert l2. induction l1 as [|y l1 IH]; intros [|z l2]; cbn; intros H; simplify_eq.
  - done.
  - exfalso. apply H1. set_solver.
  - exfalso. apply H2. set_solver.
  - by apply (IH l2).
Qed.

Section Ids.
Variable now : Z -> Z.

Lemma local_id_inj a b : (0 <= a)%Z -> (0 <= b)%Z -> local_id now a = local_id now b -> a = b.
Proof.
  intros Ha Hb. unfold local_id, Z_to_jstr at 2 4. rewrite !(proj2 (Z.ltb_ge _ _)) by done.
  rewrite !(app_assoc _ (Z_to_jstr _)). intros H. apply last_field_inj in H.
  - destruct (Z_digits_spec a Ha) as [_ <-], (Z_digits_spec b Hb) as [_ <-]. by rewrite H.
  - intros Hin. destruct (Z_digits_spec a Ha) as [Hd _]. apply forallb_Forall in Hd.
    eapply Forall_forall in Hd; [|exact Hin]. done.
  - intros Hin. destruct (Z_digits_spec b Hb) as [Hd _]. apply forallb_Forall in Hd.
    eapply Forall_forall in Hd; [|exact Hin]. done.
Qed.

(** An identifier made before the counter reached [seed]. *)
Definition drawn (seed : Z) (id : jstr) : Prop := exists k, (0 <= k < seed)%Z /\ id = local_id now k.

(** An identifier made between two values of the counter. *)
Definition drawn_between (a b : Z) (id : jstr) : Prop := exists k, (a <= k < b)%Z /\ id = local_id now k.

Lemma drawn_fresh seed seed' id : (0 <= seed)%Z -> drawn seed id -> ~ drawn_between seed seed' id.
Proof.
  intros Hs (k & Hk & ->) (k' & Hk' & H). apply local_id_inj in H; lia.
Qed.

Lemma drawn_mono a b id : (a <= b)%Z -> drawn a id -> drawn b id.
Proof. intros H (k & Hk & ->). exists k. split; [lia|done]. Qed.

Lemma between_drawn a b id : (0 <= a)%Z -> drawn_between a b id -> drawn b id.
Proof. intros H (k & Hk & ->). exists k. split; [lia|done]. Qed.

(** A computation that advances the counter and whose result satisfies [P] of the two values. *)
Definition draws {A} (m : Ids A) (P : Z -> Z -> A -> Prop) : Prop :=
  forall seed, (0 <= seed)%Z ->
    (seed <= snd (m seed))%Z /\ forall x, fst (m seed) = Ok x -> P seed (snd (m seed)) x.

Lemma draws_ret {A} (x : A) P : (forall s, (0 <= s)%Z -> P s s x) -> draws (ids_ret x) P.
Proof. intros H s Hs. cbn. split; [lia|]. intros y [= <-]. by apply H. Qed.

Lemma draws_lift {A} (r : res A) P : (forall s x, (0 <= s)%Z -> r = Ok x -> P s s x) -> draws (ids_lift r) P.
Proof. intros H s Hs. cbn. split; [lia|]. intros y Hy. by apply H. Qed.

Lemma draws_bind {A B} (m : Ids A) (k : A -> Ids B) P Q R :
  draws m P -> (forall x, draws (k x) (Q x)) ->
  (forall a b c x y, (0 <= a)%Z -> (a <= b)%Z -> (b <= c)%Z -> P a b x -> Q x b c y -> R a c y) ->
  draws (ids_bind m k) R.
Proof.
  intros Hm Hk HR s Hs. unfold ids_bind. destruct (Hm s Hs) as [H1 H2]. destruct (m s) as [[x|e] s1] eqn:E; cbn in *.
  - assert (0 <= s1)%Z as Hs1 by lia. destruct (Hk x s1 Hs1) as [H3 H4]. destruct (k x s1) as [r s2]; cbn in *.
    split; [lia|]. intros y ->. eapply HR; [exact Hs|exact H1|exact H3|by apply H2|by apply H4].
  - by split.
Qed.

(** Fields are read without making identifiers. *)
Lemma draws_read {A B} (r : res A) (k : A -> Ids B) R : (forall x, draws (k x) R) -> draws (ids_bind (ids_lift r) k) R.
Proof.
  intros Hk s Hs. unfold ids_bind, ids_lift. destruct r as [x|e]; [by apply Hk|]. cbn. split; [lia|done].
Qed.

Lemma draws_then_ret {A B} (m : Ids A) (g : A -> B) P R :
  draws m P -> (forall a b x, (0 <= a)%Z -> (a <= b)%Z -> P a b x -> R a b (g x)) ->
  draws (ids_bind m (fun x => ids_ret (g x))) R.
Proof.
  intros Hm HR s Hs. unfold ids_bind. destruct (Hm s Hs) as [H1 H2]. destruct (m s) as [[x|e] s1]; cbn in *; [|done].
  split; [done|]. intros y [= <-]. apply HR; [done|done|by apply H2].
Qed.

(** What is made with identifiers [ids x] of its own, all new, and is well formed. *)
Definition made {A} (ids : A -> list jstr) (W : A -> Prop) (a b : Z) (x : A) : Prop :=
  NoDup (ids x) /\ Forall (drawn_between a b) (ids x) /\ W x.

Lemma between_mono a a' b b' l : (a' <= a)%Z -> (b <= b')%Z ->
  Forall (drawn_between a b) l -> Forall (drawn_between a' b') l.
Proof. intros Ha Hb H. eapply Forall_impl; [exact H|]. intros id (k & Hk & ->). exists k. split; [lia|done]. Qed.

Lemma between_disjoint a b c l1 l2 : (0 <= a)%Z -> (a <= b)%Z -> (b <= c)%Z ->
  Forall (drawn_between a b) l1 -> Forall (drawn_between b c) l2 -> NoDup l1 -> NoDup l2 -> NoDup (l1 ++ l2).
Proof.
  intros Ha Hab Hbc H1 H2 N1 N2. apply NoDup_app. split; [done|]. split; [|done]. intros id Hi1 Hi2.
  rewrite Forall_forall in H1, H2. destruct (H1 _ Hi1) as (k1 & Hk1 & ->).
  destruct (H2 _ Hi2) as (k2 & Hk2 & H). apply local_id_inj in H; lia.
Qed.

Lemma draws_map {A B} (f : A -> Ids B) ids W l :
  (forall x, draws (f x) (made ids W)) -> draws (ids_map f l) (made (flat_map ids) (Forall W)).
Proof.
  intros Hf. induction l as [|x l IH]; cbn [ids_map].
  { apply draws_ret. intros s _. split_and!; constructor. }
  eapply (draws_bind _ _ _ (fun y a b l => exists ys, l = y :: ys /\ made (flat_map ids) (Forall W) a b ys)); [apply Hf| |].
  - intros y. eapply draws_then_ret; [exact IH|]. eauto.
  - cbn. intros a b c y l' Ha Hab Hbc (N1 & H1 & W1) (ys & -> & N2 & H2 & W2). unfold made. cbn. split_and!.
    + eapply between_disjoint; [exact Ha|exact Hab|exact Hbc|done..].
    + apply Forall_app. split; eapply between_mono; [| |exact H1| | |exact H2]; lia.
    + by constructor.
Qed.

(** ** What is read is well formed *)

Definition cond_ids (c : ParamOverrideCondition) : list jstr := [cd_id c].
Definition cond_well (c : ParamOverrideCondition) : Prop := cd_mode c ∈ CONDITION_MODE_VALUES.

(** The identifiers of a rule: its own and those of its conditions. *)
Definition op_ids (o : ParamOverrideOperation) : list jstr := op_id o :: flat_map cond_ids (op_conditions o).

Definition op_well (o : ParamOverrideOperation) : Prop :=
  op_mode o ∈ OPERATION_MODE_VALUES /\ (op_logic o = "AND" \/ op_logic o = "OR") /\ Forall cond_well (op_conditions o).

Lemma known_mode_in modes d v : d ∈ modes -> known_mode modes d v ∈ modes.
Proof.
  intros H. unfold known_mode, mode_in. destruct v as [| | | |s| |]; try done. destruct (bool_decide _) eqn:E; [|done].
  by apply bool_decide_eq_true in E.
Qed.

Lemma draws_id {B} (k : jstr -> Ids B) R :
  (forall n, (0 <= n)%Z -> draws (k (local_id now n)) (fun a b y => n < a -> R n b y)%Z) ->
  draws (ids_bind (nextLocalId now) k) R.
Proof.
  intros Hk s Hs. unfold ids_bind, nextLocalId. destruct (Hk s Hs (s + 1)%Z ltac:(lia)) as [H1 H2].
  destruct (k (local_id now s) (s + 1)%Z) as [r s2]; cbn in *. split; [lia|]. intros x Hx. apply H2; [done|lia].
Qed.

Lemma condition_mode_full : ("full" : jstr) ∈ CONDITION_MODE_VALUES.
Proof. by left. Qed.

Lemma draws_condition v : draws (normalizeCondition now v) (made cond_ids cond_well).
Proof.
  unfold normalizeCondition. apply draws_id. intros n Hn. repeat (apply draws_read; intros ?).
  apply draws_ret. intros s Hs Hlt. split_and!.
  - apply NoDup_singleton.
  - constructor; [|done]. exists n. split; [lia|done].
  - apply known_mode_in, condition_mode_full.
Qed.

Lemma draws_operation v : draws (normalizeOperation now v) (made op_ids op_well).
Proof.
  unfold normalizeOperation. apply draws_id. intros n Hn. repeat (apply draws_read; intros ?).
  eapply (draws_then_ret _ _ (made (flat_map cond_ids) (Forall cond_well))).
  - match goal with |- draws (match ?v with _ => _ end) _ => destruct v end;
      try (apply draws_ret; intros; split_and!; constructor). apply draws_map, draws_condition.
  - intros a b conditions Ha Hab (N & H & W) Hlt. unfold made, op_ids. cbn. split_and!.
    + constructor; [|done]. intros Hin. rewrite Forall_forall in H. destruct (H _ Hin) as (k & Hk & Heq).
      apply local_id_inj in Heq; lia.
    + constructor; [exists n; split; [lia|done]|]. eapply between_mono; [| |exact H]; lia.
    + split_and!; [apply known_mode_in; by left| |done]. cbn [op_logic]. unfold normalize_logic.
      case_bool_decide; [by left|by right].
Qed.

Lemma draws_operations l : draws (ids_map (normalizeOperation now) l) (made (flat_map op_ids) (Forall op_well)).
Proof. apply draws_map, draws_operation. Qed.

(** ** The invariant of the dialog *)

Definition ids_of (l : list ParamOverrideOperation) : list jstr := flat_map op_ids l.

Lemma fold_ids_of l : ids_of l = flat_map op_ids l.
Proof. done. Qed.

(** At least one rule, well-formed rules, and identifiers made so far, all different. *)
Definition ops_sound (seed : Z) (l : list ParamOverrideOperation) : Prop :=
  l <> [] /\ NoDup (ids_of l) /\ Forall (drawn seed) (ids_of l) /\ Forall op_well l.

Definition sound (s : OverrideState) : Prop := (0 <= ov_seed s)%Z /\ ops_sound (ov_seed s) (ov_operations s).

Lemma ops_sound_mono a b l : (a <= b)%Z -> ops_sound a l -> ops_sound b l.
Proof.
  intros Hab (N & Hn & Hd & W). split_and!; [done|done| |done]. eapply Forall_impl; [exact Hd|].
  intros id. by apply drawn_mono.
Qed.

Lemma made_sound a b l : (0 <= a)%Z -> l <> [] -> made (flat_map op_ids) (Forall op_well) a b l -> ops_sound b l.
Proof.
  intros Ha Hl (N & H & W). split_and!; [done|done| |done]. eapply Forall_impl; [exact H|].
  intros id. by apply between_drawn.
Qed.

Lemma made_one a b o : made op_ids op_well a b o -> made (flat_map op_ids) (Forall op_well) a b [o].
Proof. intros (N & H & W). unfold made. cbn [flat_map]. rewrite app_nil_r. split_and!; [done|done|by constructor]. Qed.

Lemma NoDup_fresh a b (l l' : list jstr) : (0 <= a)%Z -> NoDup l -> Forall (drawn a) l ->
  NoDup l' -> Forall (drawn_between a b) l' -> NoDup (l ++ l').
Proof.
  intros Ha N H N' H'. apply NoDup_app. split; [done|]. split; [|done]. intros id Hi Hi'.
  rewrite Forall_forall in H, H'. by apply (drawn_fresh a b id Ha (H _ Hi)), H'.
Qed.

Lemma ops_sound_add a b l l' : (0 <= a)%Z -> (a <= b)%Z -> l ++ l' <> [] ->
  NoDup (ids_of l) /\ Forall (drawn a) (ids_of l) /\ Forall op_well l ->
  made (flat_map op_ids) (Forall op_well) a b l' -> ops_sound b (l ++ l').
Proof.
  intros Ha Hab Hl (N & H & W) (N' & H' & W'). unfold ops_sound, ids_of in *. rewrite flat_map_app. split_and!.
  - done.
  - by eapply NoDup_fresh.
  - apply Forall_app. split; eapply Forall_impl; [exact H|intros id; by apply drawn_mono|exact H'|].
    intros id. by apply between_drawn.
  - by apply Forall_app.
Qed.

Lemma ids_of_perm l l' : l ≡ₚ l' -> ids_of l ≡ₚ ids_of l'.
Proof. intros H. unfold ids_of. by rewrite H. Qed.

Lemma ops_sound_perm seed l l' : l ≡ₚ l' -> ops_sound seed l -> ops_sound seed l'.
Proof.
  intros Hp (Hl & N & H & W). split_and!.
  - intros ->. by apply Permutation_nil_r in Hp.
  - by rewrite <- (ids_of_perm _ _ Hp).
  - by rewrite <- (ids_of_perm _ _ Hp).
  - by rewrite <- Hp.
Qed.

Lemma sublist_forall {A} (P : A -> Prop) l l' : l' `sublist_of` l -> Forall P l -> Forall P l'.
Proof. intros Hs H. apply Forall_forall. intros x Hx. rewrite Forall_forall in H. apply H. by eapply elem_of_sublist. Qed.

Lemma ids_of_sublist l l' : l' `sublist_of` l -> ids_of l' `sublist_of` ids_of l.
Proof.
  induction 1 as [|o l1 l2 _ IH|o l1 l2 _ IH]; cbn [ids_of flat_map]; [done| |].
  - by apply (sublist_app (op_ids o) (op_ids o)).
  - by apply sublist_inserts_l.
Qed.

Lemma part_sound seed l l' : l' `sublist_of` l -> ops_sound seed l ->
  NoDup (ids_of l') /\ Forall (drawn seed) (ids_of l') /\ Forall op_well l'.
Proof.
  intros Hs (Hl & N & H & W). split_and!.
  - eapply sublist_NoDup; [exact N|by apply ids_of_sublist].
  - eapply sublist_forall; [by apply ids_of_sublist|exact H].
  - by eapply sublist_forall.
Qed.

(** Rules changed one by one, with the same identifiers. *)
Definition same_ids (o o' : ParamOverrideOperation) : Prop := op_ids o' = op_ids o /\ (op_well o -> op_well o').

Lemma ops_sound_same seed l l' : Forall2 same_ids l l' -> ops_sound seed l -> ops_sound seed l'.
Proof.
  intros Hs (Hl & N & H & W). assert (ids_of l' = ids_of l) as E.
  { clear -Hs. induction Hs as [|o o' l l' [E _] _ IH]; [done|]. cbn [ids_of flat_map].
    by rewrite E, <- !(fold_ids_of), IH. }
  split_and!; [|by rewrite E|by rewrite E|].
  - intros ->. by inversion Hs; subst.
  - clear -Hs W. induction Hs as [|o o' l l' [_ Hw] _ IH]; [done|]. inversion W; subst. constructor; auto.
Qed.

Lemma map_id_same id f l : (forall o, same_ids o (f o)) -> Forall2 same_ids l (map_id id f l).
Proof. intros Hf. induction l as [|o l IH]; [done|]. cbn. constructor; [|done]. bd; [apply Hf|]. by split. Qed.

(** The identifiers of rules without those of their conditions. *)
Lemma op_ids_sublist l : map op_id l `sublist_of` ids_of l.
Proof. induction l as [|o l IH]; cbn; [done|]. apply sublist_skip. by apply sublist_inserts_l. Qed.

Lemma NoDup_op_ids l : NoDup (ids_of l) -> NoDup (map op_id l).
Proof. intros N. eapply sublist_NoDup; [exact N|apply op_ids_sublist]. Qed.

Lemma map_id_absent id f l : id ∉ map op_id l -> map_id id f l = l.
Proof.
  unfold map_id. induction l as [|o l IH]; [done|]. cbn [map]. intros H. rewrite bool_decide_false by set_solver.
  rewrite IH by set_solver. done.
Qed.

(** A condition is added to at most one rule. *)
Lemma add_condition_ids id c l : NoDup (map op_id l) ->
  ids_of (map_conditions id (fun cs => cs ++ [c]) l) ≡ₚ ids_of l ++ (if bool_decide (id ∈ map op_id l) then [cd_id c] else []).
Proof.
  unfold map_conditions. induction l as [|o l IH]; cbn [map]; intros N.
  { rewrite bool_decide_false by set_solver. done. }
  inversion N as [|? ? Hni N']; subst. unfold map_id. cbn [map ids_of flat_map]. fold (map_id id (fun o => o{{ op_conditions := op_conditions o ++ [c] }}) l).
  rewrite <- !fold_ids_of. destruct (decide (op_id o = id)) as [E|E].
  - rewrite bool_decide_true by done. rewrite (bool_decide_true (id ∈ op_id o :: map op_id l)) by (rewrite E; left).
    rewrite map_id_absent by (rewrite <- E; exact Hni). unfold op_ids. cbn -[ids_of]. rewrite flat_map_app.
    cbn -[ids_of]. rewrite <- !app_assoc. rewrite (Permutation_app_comm [cd_id c]). done.
  - rewrite bool_decide_false by done. rewrite (IH N'). rewrite app_assoc. apply Permutation_app; [done|].
    destruct (decide (id ∈ map op_id l)); [rewrite !bool_decide_true by set_solver; done|].
    rewrite !bool_decide_false by set_solver. done.
Qed.

(** ** Moving a rule *)

Lemma find_id_Some id l i : find_id id l = Some i -> exists o, l = take i l ++ o :: drop (S i) l /\ op_id o = id.
Proof.
  revert i. induction l as [|o l IH]; cbn; [done|]. intros i. bd; [intros [= <-]; by exists o|].
  destruct (find_id id l) as [j|]; [|done]. intros [= <-]. destruct (IH j eq_refl) as (o' & E & Ho).
  exists o'. split; [|done]. cbn. by rewrite <- E.
Qed.

Lemma reorder_perm l source target position : reorderOperations l source target position ≡ₚ l.
Proof.
  unfold reorderOperations. destruct (_ || _); [done|]. destruct (find_id source l) as [i|] eqn:E; [|done].
  apply find_id_Some in E as (o & E & _). destruct (find_id target _) as [j|]; [|done].
  rewrite Permutation_app_swap_app, take_drop. assert (drop i l = o :: drop (S i) l) as ->.
  { apply (app_inv_head (take i l)). by rewrite take_drop. }
  change (take 1 (o :: drop (S i) l)) with [o]. cbn [app]. etrans; [apply Permutation_middle|]. apply reflexive_eq. symmetry. exact E.
Qed.

(** ** Events keep the invariant *)

Lemma with_ids_sound {A} (m : Ids A) P k s : sound s -> draws m P ->
  (forall b x, (ov_seed s <= b)%Z -> P (ov_seed s) b x -> sound (k x (s{{ ov_seed := b }}))) -> sound (with_ids m k s).
Proof.
  intros [Hs Ho] Hm Hk. unfold with_ids. destruct (Hm _ Hs) as [H1 H2]. destruct (m (ov_seed s)) as [[x|e] b]; cbn in *.
  - apply Hk; [done|by apply H2].
  - split; [cbn; lia|]. by eapply ops_sound_mono.
Qed.

Lemma sound_same_ops s s' : ov_seed s' = ov_seed s -> ov_operations s' = ov_operations s -> sound s -> sound s'.
Proof. unfold sound. by intros -> ->. Qed.

Lemma draws_default : draws (createDefaultOperation now) (made op_ids op_well).
Proof. apply draws_operation. Qed.

Lemma map_length {A B} (f : A -> Ids B) l : forall seed ys, fst (ids_map f l seed) = Ok ys -> length ys = length l.
Proof.
  induction l as [|x l IH]; intros seed ys; cbn [ids_map]; [by intros [= <-]|]. unfold ids_bind, ids_ret.
  destruct (f x seed) as [[y|e] s1]; [|done]. specialize (IH s1). destruct (ids_map f l s1) as [[r|e] s2]; [|done].
  intros [= <-]. cbn. f_equal. by apply IH.
Qed.

(** A non-empty list of new rules. *)
Definition new_rules (a b : Z) (l : list ParamOverrideOperation) : Prop :=
  l <> [] /\ made (flat_map op_ids) (Forall op_well) a b l.

Lemma draws_document l : draws (document_operations now l) new_rules.
Proof.
  unfold document_operations. destruct l as [|v l].
  - eapply draws_then_ret; [apply draws_default|]. intros a b o _ _ H. split; [done|by apply made_one].
  - intros seed Hs. destruct (draws_operations (v :: l) seed Hs) as [H1 H2]. split; [done|]. intros ys Hy.
    split; [|by apply H2]. apply map_length in Hy. by destruct ys.
Qed.

Lemma visual_rules_sound s b l (k : list ParamOverrideOperation -> OverrideState -> OverrideState) :
  sound s -> (ov_seed s <= b)%Z -> new_rules (ov_seed s) b l ->
  (forall l s, ov_operations (k l s) = l /\ ov_seed (k l s) = ov_seed s) -> sound (k l (s{{ ov_seed := b }})).
Proof.
  intros [Hs _] Hb [Hl Hm] Hk. destruct (Hk l (s{{ ov_seed := b }})) as [E1 E2]. split; [rewrite E2; cbn; lia|].
  rewrite E1, E2. by eapply made_sound.
Qed.

Lemma new_default_sound s k :
  (forall o s, ov_operations (k o s) = [o] /\ ov_seed (k o s) = ov_seed s) -> sound s ->
  sound (with_ids (createDefaultOperation now) k s).
Proof.
  intros Hk Hs. eapply with_ids_sound; [done|apply draws_default|]. intros b o Hb Ho.
  destruct (Hk o (s{{ ov_seed := b }})) as [E1 E2]. destruct Hs as [Hs _]. split; [rewrite E2; cbn; lia|].
  rewrite E1, E2. apply (made_sound (ov_seed s)); [done|done|by apply made_one].
Qed.

(** Every template of rules has one. *)
Lemma preset_rules key : tp_kind (chosen_preset key) = KindOperations -> template_operations (tp_payload (chosen_preset key)) <> [].
Proof.
  unfold chosen_preset. set (l := TEMPLATE_PRESET_CONFIG).
  assert (Forall (fun kv => tp_kind (snd kv) = KindOperations -> template_operations (tp_payload (snd kv)) <> []) l) as H.
  { subst l. unfold TEMPLATE_PRESET_CONFIG. repeat (apply Forall_cons; split; [vm_compute; done|]). constructor. }
  clearbody l. destruct (obj_get (ov_preset key) l) as [p|] eqn:E; [|intros _; vm_compute; done].
  apply obj_get_In in E. rewrite Forall_forall in H. apply (H _ E).
Qed.

Section Events.
Variable t : jstr -> jstr.
Variable t_line : jstr -> Z -> jstr.

(** A menu offers the known modes and logics. *)
Definition event_ok (e : OverrideEvent) : Prop :=
  match e with
  | EvUpdateOperation _ (PatchMode m) => m ∈ OPERATION_MODE_VALUES
  | EvUpdateOperation _ (PatchLogic l) => l = "AND" \/ l = "OR"
  | EvUpdateCondition _ _ (CondMode m) => m ∈ CONDITION_MODE_VALUES
  | _ => True
  end.

Lemma sound_same s l : sound s -> Forall2 same_ids (ov_operations s) l -> sound (set_operations l s).
Proof. intros [Hs Ho] H. split; [done|]. cbn. by eapply ops_sound_same. Qed.

Lemma sound_map_id s id f : sound s -> (forall o, same_ids o (f o)) ->
  sound (set_operations (map_id id f (ov_operations s)) s).
Proof. intros Hs Hf. apply sound_same; [done|by apply map_id_same]. Qed.

Lemma sound_update_operation s id p : sound s -> event_ok (EvUpdateOperation id p) -> sound (updateOperation id p s).
Proof.
  intros Hs Hp. apply sound_map_id; [done|]. intros o. destruct p; (split; [done|]);
    intros (Hm & Hl & Hc); cbn in Hp; split_and!; done.
Qed.

Lemma sound_add s : sound s -> sound (addOperation now s).
Proof.
  intros Hs. eapply with_ids_sound; [done|apply draws_default|]. intros b o Hb Ho. destruct Hs as [Hs (Hl & H)].
  split; [cbn; lia|]. cbn. apply (ops_sound_add (ov_seed s)); [done|done| |done|by apply made_one].
  by destruct (ov_operations s).
Qed.

Lemma sound_duplicate s id : sound s -> sound (duplicateOperation now id s).
Proof.
  intros Hs. unfold duplicateOperation. destruct (find_id id (ov_operations s)) as [i|] eqn:E; [|done].
  destruct (drop i (ov_operations s)) as [|o rest] eqn:Er; [done|].
  eapply with_ids_sound; [done|apply draws_operation|]. intros b c Hb Hc. destruct Hs as [Hs (Hl & H)].
  split; [cbn; lia|]. cbn -[take]. apply (ops_sound_perm _ (ov_operations s ++ [c])).
  - rewrite <- (take_drop (S i) (ov_operations s)) at 1. assert (drop (S i) (ov_operations s) = rest) as ->.
    { replace (S i) with (i + 1)%nat by lia. by rewrite <- drop_drop, Er. }
    rewrite <- app_assoc.
    apply Permutation_app; [done|]. by rewrite Permutation_app_comm.
  - apply (ops_sound_add (ov_seed s)); [done|done| |done|by apply made_one]. by destruct (ov_operations s).
Qed.

Lemma sound_remove s id : sound s -> sound (removeOperation now id s).
Proof.
  intros Hs. unfold removeOperation. destruct (_ <=? 1)%nat eqn:E.
  - apply new_default_sound; [|done]. intros o s'. by split.
  - apply Nat.leb_gt in E. destruct Hs as [Hs Ho]. split; [done|]. cbn.
    destruct (part_sound _ _ (List.filter (fun o => op_id o !=? id) (ov_operations s)) (filter_sublist _ _) Ho) as (N & H & W).
    split_and!; [|done..]. destruct Ho as (_ & Hn & _). apply NoDup_op_ids in Hn.
    destruct (ov_operations s) as [|o1 [|o2 l]]; cbn in E; [lia|lia|]. cbn. inversion Hn as [|? ? Hni _]; subst.
    destruct (decide (op_id o1 = id)) as [<-|H1]; [|by rewrite bool_decide_false].
    rewrite bool_decide_true by done. cbn. rewrite bool_decide_false; [done|]. intros E2. apply Hni. rewrite <- E2. left.
Qed.

Lemma sound_add_condition s id : sound s -> sound (addCondition now id s).
Proof.
  intros Hs. eapply with_ids_sound; [done|apply draws_condition|]. intros b c Hb (Nc & Hc & Wc).
  destruct Hs as [Hs (Hl & N & H & W)]. split; [cbn; lia|]. cbn.
  pose proof (add_condition_ids id c _ (NoDup_op_ids _ N)) as Hp. split_and!.
  - destruct (ov_operations s); [done|]. unfold map_conditions, map_id. done.
  - rewrite Hp. eapply NoDup_fresh; [exact Hs|done|done| |].
    + destruct (bool_decide _); [done|constructor].
    + destruct (bool_decide _); [exact Hc|constructor].
  - rewrite Hp. apply Forall_app. split; [eapply Forall_impl; [exact H|intros i; by apply drawn_mono]|].
    destruct (bool_decide _); [|constructor]. eapply Forall_impl; [exact Hc|]. intros i. by apply between_drawn.
  - unfold map_conditions, map_id. apply Forall_map. eapply Forall_impl; [exact W|]. intros o Ho.
    cbn. destruct (_ ==? _); [|done]. destruct Ho as (Hm & Hg & Hcs). split_and!; [done|done|]. cbn.
    apply Forall_app. split; [done|]. by constructor.
Qed.

Lemma sound_update_condition s id c p : sound s -> event_ok (EvUpdateCondition id c p) -> sound (updateCondition id c p s).
Proof.
  intros Hs Hp. apply sound_map_id; [done|]. intros o. split.
  - unfold op_ids. cbn. f_equal. induction (op_conditions o) as [|d l IH]; [done|]. cbn. rewrite IH. f_equal.
    destruct (_ ==? _); [by destruct p|done].
  - intros (Hm & Hl & Hc). split_and!; [done|done|]. cbn. apply Forall_map. eapply Forall_impl; [exact Hc|].
    intros d Hd. cbn. destruct (_ ==? _); [|done]. by destruct p.
Qed.

Lemma filter_conditions_sublist id f l : ids_of (map_conditions id (List.filter f) l) `sublist_of` ids_of l.
Proof.
  unfold map_conditions, map_id. induction l as [|o l IH]; [done|]. cbn [map ids_of flat_map].
  rewrite <- !fold_ids_of. apply sublist_app; [|done]. destruct (_ ==? _); [|done]. unfold op_ids. cbn.
  apply sublist_skip. generalize (op_conditions o) as cs. induction cs as [|c cs IHc]; cbn; [done|].
  destruct (f c); cbn; [by apply sublist_skip|by apply sublist_cons].
Qed.

Lemma sound_remove_condition s id c : sound s -> sound (removeCondition id c s).
Proof.
  intros [Hs (Hl & N & H & W)]. split; [done|]. cbn. split_and!.
  - destruct (ov_operations s); [done|]. unfold map_conditions, map_id. done.
  - eapply sublist_NoDup; [exact N|apply filter_conditions_sublist].
  - eapply sublist_forall; [apply filter_conditions_sublist|exact H].
  - unfold map_conditions, map_id. apply Forall_map. eapply Forall_impl; [exact W|]. intros o (Hm & Hg & Hc).
    cbn. destruct (_ ==? _); [|by split_and!]. split_and!; [done|done|]. cbn.
    eapply sublist_forall; [apply filter_sublist|exact Hc].
Qed.

(** An update of a pruning rule changes the text of the value only. *)
Lemma draws_prune_draft text : draws (parsePruneObjectsDraft now text) (fun _ _ _ => True).
Proof.
  unfold parsePruneObjectsDraft. destruct (trim text); [by apply draws_ret|].
  assert (forall (v : jsval), draws (where_rules now v) (fun _ _ _ => True)) as Hw.
  { intros [| | | | | |o]; try by apply draws_ret. intros seed Hs. split; [|done].
    by destruct (draws_map (entry_rule now) cond_ids cond_well o (fun e => draws_condition _) seed Hs). }
  assert (forall (v : jsval), draws (condition_rules now v) (fun _ _ _ => True)) as Hc.
  { intros [| | | | |l'|o]; try by apply draws_ret.
    - intros seed Hs. split; [|done].
      by destruct (draws_map (normalizePruneRule now) cond_ids cond_well (List.filter is_object l') draws_condition seed Hs).
    - apply (Hw (JObj o)). }
  destruct (parse _) as [v|]; [|by apply draws_ret]. destruct v; try by apply draws_ret. cbn zeta.
  eapply (draws_bind _ _ _ (fun _ _ _ _ => True)); [apply Hw| |done]. intros x.
  eapply (draws_then_ret _ _ (fun _ _ _ => True)); [apply Hc|done].
Qed.

Lemma sound_prune s id updater : sound s -> (forall d, draws (updater d) (fun _ _ _ => True)) ->
  sound (updatePruneObjectsDraft now id updater s).
Proof.
  intros Hs Hu. eapply (with_ids_sound _ (fun _ _ l' => Forall2 same_ids (ov_operations s) l')); [done| |].
  - generalize (ov_operations s) as l. induction l as [|o l IH]; cbn [ids_map]; [by apply draws_ret|].
    eapply (draws_bind _ _ (fun _ _ o' => same_ids o o') (fun o' _ _ l' => exists l1, l' = o' :: l1 /\ Forall2 same_ids l l1)).
    + unfold update_prune. destruct (_ !=? _); [apply draws_ret; by split|].
      eapply (draws_bind _ _ _ (fun _ _ _ o' => same_ids o o')); [apply draws_prune_draft| |done]. intros d.
      eapply (draws_then_ret _ _ (fun _ _ _ => True)); [apply Hu|]. intros; by split.
    + intros o'. eapply draws_then_ret; [exact IH|]. eauto.
    + intros a b c o' l' _ _ _ Ho (l1 & -> & Hl). by constructor.
  - intros b l' Hb Hl. destruct Hs as [Hs Ho]. split; [cbn; lia|]. cbn. eapply ops_sound_mono; [exact Hb|].
    by eapply ops_sound_same.
Qed.

Lemma sound_drop s source target position : sound s -> sound (handleDrop source target position s).
Proof.
  intros [Hs Ho]. unfold handleDrop. destruct (_ && _); [|done]. split; [done|]. cbn.
  eapply ops_sound_perm; [symmetry; apply reorder_perm|done].
Qed.

Lemma sound_to_visual s : sound s -> sound (switchToVisualMode now s).
Proof.
  intros Hs. unfold switchToVisualMode. destruct (ov_editMode s); [done|].
  destruct (trim (ov_jsonText s)) as [|c x]; [by apply new_default_sound|].
  destruct (parse (c :: x)) as [v|]; [|done]. destruct v; try done.
  destruct (prop o "operations"); try by apply new_default_sound.
  eapply with_ids_sound; [done|apply draws_document|]. intros b ops Hb Hops.
  by apply (visual_rules_sound s b ops (fun nextOps s =>
    (visual_operations nextOps s){{ ov_legacyValue := []; ov_preset := "operations_default" }})).
Qed.

Lemma sound_legacy s text : sound s -> sound (legacy_template now text s).
Proof. by apply new_default_sound. Qed.

Lemma sound_fill s mode : sound s -> sound (fillTemplate now mode s).
Proof.
  intros Hs. unfold fillTemplate. destruct (tp_kind (chosen_preset s)) eqn:Hk, mode.
  - eapply with_ids_sound; [done|apply draws_document|]. intros b ops Hb Hops.
    by apply (visual_rules_sound s b ops (fun finalOps s => (visual_operations finalOps s){{ ov_jsonText :=
      stringify2 (JObj [("operations", JArr (template_operations (tp_payload (chosen_preset s))))]) }})).
  - eapply (with_ids_sound _ (fun a b l => new_rules a b l)); [done| |].
    + intros seed Hseed. destruct (draws_operations (template_operations (tp_payload (chosen_preset s))) seed Hseed) as [H1 H2].
      split; [done|]. intros l Hl. split; [|by apply H2]. apply map_length in Hl. intros ->. symmetry in Hl.
      apply length_zero_iff_nil in Hl. by apply (preset_rules s).
    + intros b l Hb [Hl Hm]. destruct Hs as [Hs Ho]. split; [cbn; lia|]. cbn.
      apply (ops_sound_add (ov_seed s)); [done|done| | |exact Hm].
      * intros [_ H]%app_eq_nil. done.
      * destruct (ov_visualMode s); [apply part_sound with (l := ov_operations s); [apply filter_sublist|done]|].
        split_and!; constructor.
  - by apply sound_legacy.
  - destruct (ov_visualMode s); [by apply sound_legacy|]. destruct (trim (ov_legacyValue s)) as [|c x]; [by apply sound_legacy|].
    destruct (parse (c :: x)); [by apply sound_legacy|done].
Qed.

Lemma sound_event s e : sound s -> event_ok e -> sound (handle_event now t t_line e s).
Proof.
  intros Hs He. destruct e; cbn [handle_event].
  - by apply sound_update_operation.
  - by apply sound_add.
  - by apply sound_duplicate.
  - by apply sound_remove.
  - by apply sound_add_condition.
  - by apply sound_update_condition.
  - by apply sound_remove_condition.
  - apply sound_map_id; [done|]. by split.
  - apply sound_prune; [done|]. intros d. by apply draws_ret.
  - apply sound_prune; [done|]. intros d. eapply draws_then_ret; [apply draws_condition|done].
  - apply sound_prune; [done|]. intros d. by apply draws_ret.
  - apply sound_prune; [done|]. intros d. by apply draws_ret.
  - by apply sound_drop.
  - unfold switchToJsonMode. destruct (ov_editMode s); [|done]. by destruct (buildVisualJson _ _ _).
  - by apply sound_to_visual.
  - by apply sound_fill.
  - by apply new_default_sound.
  - done.
  - unfold formatJson. destruct (trim (ov_jsonText s)); [done|]. by destruct (parse _).
  - done.
  - done.
  - done.
  - destruct Hs as [Hs Ho]. split; [cbn; lia|]. cbn. eapply ops_sound_mono; [|exact Ho]. lia.
Qed.

(** A rule of the list is selected. *)
Definition selected (s : OverrideState) : Prop := ov_selected s ∈ map op_id (ov_operations s).

Lemma keep_selected_sound s : sound s -> sound (keep_selected s) /\ selected (keep_selected s).
Proof.
  intros Hs. assert (ov_operations s <> []) as Hne by apply Hs. unfold keep_selected, selected.
  destruct (ov_operations s) as [|o l] eqn:E; [done|]. destruct (existsb _ _) eqn:Hx.
  - split; [done|]. rewrite E. apply existsb_exists in Hx as (o' & Hin & Ho%bool_decide_eq_true).
    rewrite <- Ho. apply list_elem_of_In. by apply in_map.
  - split; [done|]. cbn. rewrite E. left.
Qed.

Lemma run_sound events : forall s, sound s /\ selected s -> Forall event_ok events ->
  sound (run now t t_line events s) /\ selected (run now t t_line events s).
Proof.
  induction events as [|e events IH]; intros s [Hs Hsel] He; [done|]. inversion He; subst. cbn.
  apply IH; [|done]. by apply keep_selected_sound, sound_event.
Qed.

Lemma open_sound value s s' : (0 <= ov_seed s)%Z -> open_dialog now value s = Ok s' -> sound s' /\ selected s'.
Proof.
  intros Hseed H.
  assert (draws (parseInitialState now value) (fun a b e => new_rules a b (es_operations e))) as Hd.
  { assert (forall e : list ParamOverrideOperation -> EditorState, (forall l, es_operations (e l) = l) ->
      draws (let! l := (let! o := createDefaultOperation now in ids_ret [o]) in ids_ret (e l))
        (fun a b e => new_rules a b (es_operations e))) as Hdef.
    { intros e He. eapply (draws_then_ret _ _ new_rules); [|intros; by rewrite He].
      eapply draws_then_ret; [apply draws_default|]. intros a b o _ _ Ho. split; [done|by apply made_one]. }
    unfold parseInitialState. destruct (trim value) as [|c x]; [by apply Hdef|].
    destruct (parse (c :: x)) as [v|]; [|by apply Hdef]. destruct v; try by apply Hdef.
    destruct (prop o "operations"); try by apply Hdef.
    eapply draws_then_ret; [apply draws_document|]. done. }
  unfold open_dialog in H. destruct (Hd _ Hseed) as [H1 H2]. destruct (parseInitialState now value (ov_seed s)) as [[e|x] b]; [|done].
  injection H as <-. cbn in *. destruct (H2 e eq_refl) as [Hl Hm]. split.
  - split; [cbn; lia|]. cbn. by eapply made_sound.
  - unfold selected. cbn. destruct (es_operations e); [done|]. left.
Qed.

(** C19: however the dialog is used, it has at least one rule, one of its rules is selected, every rule and
    condition has an identifier of its own, and every mode and logic is one the server knows. *)
Theorem override_invariant value s s' events :
  (0 <= ov_seed s)%Z ->
  open_dialog now value s = Ok s' ->
  Forall event_ok events ->
  let s1 := run now t t_line events s' in
  ov_operations s1 <> [] /\ ov_selected s1 ∈ map op_id (ov_operations s1)
  /\ NoDup (flat_map op_ids (ov_operations s1)) /\ Forall op_well (ov_operations s1).
Proof.
  intros Hseed Ho He. cbn zeta. destruct (run_sound events s' (open_sound _ _ _ Hseed Ho) He) as [(_ & Hl & N & _ & W) Hsel].
  split_and!; done.
Qed.
End Events.
End Ids.

(** A rule is selected and listed from the first text on, and after each of a few inputs. *)
Lemma override_invariant_witness :
  let now (seed : Z) := 1700000000000%Z in
  let s0 := {| ov_editMode := EditVisual; ov_visualMode := VisualOperations; ov_legacyValue := []; ov_operations := [];
               ov_jsonText := []; ov_jsonError := []; ov_selected := []; ov_preset := []; ov_seed := 0 |} in
  let s' := res_catch (open_dialog now [] s0) s0 in
  let events := [EvAddOperation; EvAddCondition (ov_selected s'); EvDuplicateOperation (ov_selected s');
                 EvFillTemplate Append; EvRemoveOperation (ov_selected s')] in
  let s1 := run now id (fun x _ => x) events s' in
  ov_operations s1 <> [] /\ ov_selected s1 ∈ map op_id (ov_operations s1)
  /\ NoDup (flat_map op_ids (ov_operations s1)) /\ Forall op_well (ov_operations s1).
Proof.
  intros now s0 s' events. eapply (override_invariant now id (fun x _ => x) [] s0 s' events).
  - done.
  - reflexivity.
  - repeat constructor.
Defined.
