(* ===== verification/ParamOverrideSave.v ===== *)
(** * Parameter override rules: what is saved

    Companion of [ParamOverride] and [ParamOverrideEditor]: the rules of a saved document
    are ones the server accepts, opening a saved document and saving it again keeps its
    text, and what the editor does not keep. *)
From S2P Require Import RecordUpdate Prelude JsString JsNumber JsValue Json ParamOverride ParamOverrideEditor.
From S2P Require Import ParamOverrideProofs.

(** ** Fields of a payload *)

Lemma prop_cons k v r k' : prop ((k, v) :: r) k' = if k' ==? k then v else prop r k'.
Proof. unfold prop. cbn. by destruct (k' ==? k). Qed.

Lemma prop_field b k v r k' : prop (field_if b k v ++ r) k' = if (k' ==? k) && b then v else prop r k'.
Proof. destruct b; cbn [field_if app]; [rewrite prop_cons, andb_true_r|rewrite andb_false_r]; done. Qed.

Lemma prop_field_last b k v k' : prop (field_if b k v) k' = if (k' ==? k) && b then v else JUndef.
Proof. rewrite <- (app_nil_r (field_if b k v)). apply prop_field. Qed.

Ltac payload_field :=
  rewrite ?prop_cons, ?prop_field, ?prop_field_last; closed_keys; cbn [andb].

Section Payload.
Variable o : ParamOverrideOperation.
Let mode := str_or (op_mode o) "set".
Let meta := mode_meta mode.
Let path := trim (op_path o).
Let from := trim (op_from o).
Let to := trim (op_to o).
Let conditions := filter_some buildConditionPayload (op_conditions o).
Let conditional := negb (length conditions =? 0)%nat.

Ltac start := unfold operation_payload; cbn zeta; cbn [app]; fold mode meta path from to conditions conditional; payload_field.

Lemma payload_mode : prop (operation_payload o) "mode" = JStr mode.
Proof. start. done. Qed.

Lemma payload_description :
  prop (operation_payload o) "description"
  = if non_empty (trim (op_description o)) then JStr (trim (op_description o)) else JUndef.
Proof. start. done. Qed.

Lemma payload_path :
  prop (operation_payload o) "path" = if mm_path meta || (mm_pathOptional meta && non_empty path) then JStr path else JUndef.
Proof. start. done. Qed.

Lemma payload_value :
  prop (operation_payload o) "value" = if mm_value meta then parseLooseValue (op_value_text o) else JUndef.
Proof. start. done. Qed.

Lemma payload_keep_origin :
  prop (operation_payload o) "keep_origin" = if mm_keepOrigin meta && op_keep_origin o then JBool true else JUndef.
Proof. start. done. Qed.

Lemma payload_from :
  prop (operation_payload o) "from" = if mm_from meta then JStr (aliased (mm_pathAlias meta) path from) else JUndef.
Proof. start. done. Qed.

Lemma payload_to :
  prop (operation_payload o) "to" = if mm_to meta || non_empty to then JStr (aliased (mm_pathAlias meta) path to) else JUndef.
Proof. start. done. Qed.

Lemma payload_conditions :
  prop (operation_payload o) "conditions" = if conditional then JArr (map JObj conditions) else JUndef.
Proof. start. done. Qed.

Lemma payload_logic :
  prop (operation_payload o) "logic"
  = if conditional then JStr (if op_logic o ==? "AND" then "AND" else "OR") else JUndef.
Proof. start. done. Qed.
End Payload.

(** ** The text of a value *)

(** A value whose text stays the same value: not a quoted text that reads as JSON, or has
    outer spaces, without its quotes. *)
Definition stable_text (text : jstr) : Prop :=
  match parse (trim text) with
  | Some (JStr s) => parse s = None /\ trim s = s /\ s <> []
  | _ => True
  end.

Lemma parse_nil : parse [] = None.
Proof. reflexivity. Qed.

Lemma loose_trim text : parseLooseValue (trim text) = parseLooseValue text.
Proof. unfold parseLooseValue. by rewrite trim_idemp. Qed.

(** What the rules look at in a value text. *)
Definition same_value (text text' : jstr) : Prop :=
  parseLooseValue text' = parseLooseValue text
  /\ (trim text' = [] <-> trim text = [])
  /\ (forall o, parse (trim text') = Some (JObj o) <-> parse (trim text) = Some (JObj o)).

(** A value is blank, a text that is not JSON, or what its text reads as. *)
Lemma loose_cases text :
  (trim text = [] /\ parseLooseValue text = JStr [])
  \/ (trim text <> [] /\ parse (trim text) = None /\ parseLooseValue text = JStr (trim text))
  \/ (trim text <> [] /\ parse (trim text) = Some (parseLooseValue text)).
Proof.
  unfold parseLooseValue. destruct (trim text) as [|c x]; [by left|]. right.
  destruct (parse (c :: x)); [by right|by left].
Qed.

Lemma toValueText_json v : v <> JUndef -> (forall s, v <> JStr s) -> toValueText v = stringify v.
Proof. destruct v as [| | | |s| |]; try done. intros _ H. by destruct (H s). Qed.

(** A text without outer spaces that is not JSON. *)
Lemma loose_plain s : trim s = s -> s <> [] -> parse s = None -> parseLooseValue s = JStr s.
Proof. intros Ht Hs Hp. unfold parseLooseValue. rewrite Ht. destruct s; [done|by rewrite Hp]. Qed.

Lemma loose_stringify v : json_ok v = true -> parseLooseValue (stringify v) = v.
Proof.
  intros H. pose proof (parse_stringify v H) as Hp. pose proof (stringify_nonempty v H). unfold parseLooseValue.
  rewrite trim_stringify by done. destruct (stringify v); [done|by rewrite Hp].
Qed.

(** Reading a value back into its text keeps it. *)
Lemma value_text_kept text : stable_text text -> json_ok (parseLooseValue text) = true ->
  same_value text (toValueText (parseLooseValue text)).
Proof.
  intros Hst Hok. unfold same_value. destruct (loose_cases text) as [[Et El]|[(Et & Ep & El)|(Et & Ep)]].
  - rewrite El, Et. done.
  - rewrite El. cbn [toValueText]. rewrite trim_idemp, loose_trim. by rewrite El.
  - unfold stable_text in Hst. rewrite Ep in Hst. destruct (parseLooseValue text) as [| |b|n|s|l|o] eqn:El; [done|..];
      try (rewrite toValueText_json by done; rewrite loose_stringify, trim_stringify, parse_stringify by done;
           split_and!; [done| |intros o'; by rewrite Ep]; split; [intros H; by apply stringify_nonempty in H|done]).
    destruct Hst as (Hp & Ht & Hs). cbn [toValueText]. rewrite loose_plain, Ht by done. split_and!; [done|done|].
    intros o. by rewrite Hp, Ep.
Qed.

Lemma value_error_same (t_line : jstr -> Z -> jstr) mode text text' line :
  same_value text text' -> value_error t_line mode text line = None -> value_error t_line mode text' line = None.
Proof.
  intros (Hv & Hb & Ho). unfold value_error. rewrite !loose_trim, Hv.
  destruct (trim text') as [|c' x'] eqn:E', (trim text) as [|c x] eqn:E;
    try (by destruct Hb as [H _]; discriminate H); try (by destruct Hb as [_ H]; discriminate H); [done|].
  destruct (mode ==? "return_error"); [|done]. intros H.
  destruct (parse (c' :: x')) as [[| | | | | |o]|]; try done. by rewrite (proj1 (Ho o) eq_refl) in H.
Qed.

(** ** Reading a payload *)

Section Reading.
Variable now : Z -> Z.

(** The condition read from [p]. *)
Definition reads_condition (p : jsobj) (c : ParamOverrideCondition) : Prop :=
  cd_path c = string_or_blank (prop p "path") /\ cd_mode c = known_mode CONDITION_MODE_VALUES "full" (prop p "mode")
  /\ cd_value_text c = toValueText (prop p "value") /\ cd_invert c = (prop p "invert" ==? JBool true)
  /\ cd_pass_missing_key c = (prop p "pass_missing_key" ==? JBool true).

Lemma read_conditions l : forall seed,
  exists cs seed', ids_map (normalizeCondition now) (map JObj l) seed = (Ok cs, seed') /\ Forall2 reads_condition l cs.
Proof.
  induction l as [|p l IH]; intros seed; cbn [map ids_map]; [by eexists _, _|].
  destruct (IH (seed + 1)%Z) as (cs & seed' & E & H). eexists _, _. split.
  - unfold ids_bind. change (normalizeCondition now (JObj p) seed) with
      (Ok {| cd_id := local_id now seed; cd_path := string_or_blank (prop p "path");
             cd_mode := known_mode CONDITION_MODE_VALUES "full" (prop p "mode");
             cd_value_text := toValueText (prop p "value"); cd_invert := prop p "invert" ==? JBool true;
             cd_pass_missing_key := prop p "pass_missing_key" ==? JBool true |}, (seed + 1)%Z).
    cbv beta iota. rewrite E. reflexivity.
  - constructor; [|done]. by split_and!.
Qed.

(** The rule read from [p], which has the conditions [cs]. *)
Record reads_operation (p : jsobj) (cs : list jsobj) (o : ParamOverrideOperation) : Prop := {
  read_description : op_description o = string_or_blank (prop p "description");
  read_path : op_path o = string_or_blank (prop p "path");
  read_mode : op_mode o = known_mode OPERATION_MODE_VALUES "set" (prop p "mode");
  read_from : op_from o = string_or_blank (prop p "from");
  read_to : op_to o = string_or_blank (prop p "to");
  read_value : op_value_text o = toValueText (prop p "value");
  read_keep : op_keep_origin o = (prop p "keep_origin" ==? JBool true);
  read_logic : op_logic o = normalize_logic (prop p "logic");
  read_conds : Forall2 reads_condition cs (op_conditions o)
}.

Lemma read_operation p cs seed :
  (prop p "conditions" = JUndef /\ cs = []) \/ prop p "conditions" = JArr (map JObj cs) ->
  exists o seed', normalizeOperation now (JObj p) seed = (Ok o, seed') /\ reads_operation p cs o.
Proof.
  intros Hc. assert (exists l seed',
    (match prop p "conditions" with JArr l => ids_map (normalizeCondition now) l | _ => ids_ret [] end) (seed + 1)%Z = (Ok l, seed')
    /\ Forall2 reads_condition cs l) as (l & seed' & E & H).
  { destruct Hc as [[-> ->]| ->]; [by eexists _, _|apply read_conditions]. }
  eexists _, seed'. split.
  - unfold normalizeOperation, ids_bind, ids_lift, nextLocalId, or_no_object, js_get. cbv beta iota zeta.
    rewrite E. reflexivity.
  - by constructor.
Qed.
End Reading.

(** ** Payloads are kept *)

Lemma loose_defined text : parseLooseValue text <> JUndef.
Proof.
  unfold parseLooseValue. destruct (trim text) as [|c x]; [done|]. pose proof (parse_not_undefined (c :: x)).
  destruct (parse (c :: x)) as [v|]; [|done]. by intros ->.
Qed.

Lemma json_ok_prop o k : json_ok (JObj o) = true -> prop o k <> JUndef -> json_ok (prop o k) = true.
Proof.
  cbn [json_ok]. intros H Hd. bools. unfold prop in *. destruct (obj_get k o) as [v|] eqn:E; [|done].
  apply obj_get_In in E. rewrite forallb_forall in H0. apply list_elem_of_In in E. specialize (H0 _ E). by bools.
Qed.

Lemma json_ok_cons v l : json_ok (JArr (v :: l)) = json_ok v && json_ok (JArr l).
Proof. done. Qed.

Lemma known_mode_kept modes d m : m ∈ modes -> known_mode modes d (JStr m) = m.
Proof. intros H. unfold known_mode, mode_in. by rewrite bool_decide_true. Qed.

Lemma condition_mode_or d m : m ∈ CONDITION_MODE_VALUES -> str_or m d = m.
Proof.
  intros H. destruct m; [|done]. apply (bool_decide_eq_true ([] ∈ CONDITION_MODE_VALUES)) in H. discriminate H.
Qed.

Lemma operation_mode_or d m : m ∈ OPERATION_MODE_VALUES -> str_or m d = m.
Proof. intros H. destruct m; [|done]. apply (bool_decide_eq_true ([] ∈ OPERATION_MODE_VALUES)) in H. discriminate H. Qed.

Definition cond_stable (c : ParamOverrideCondition) : Prop := stable_text (cd_value_text c).

Lemma condition_kept c p c' : cond_well c -> cond_stable c -> buildConditionPayload c = Some p ->
  json_ok (JObj p) = true -> reads_condition p c' -> buildConditionPayload c' = Some p.
Proof.
  unfold cond_well, cond_stable, buildConditionPayload. destruct (trim (cd_path c)) as [|u x] eqn:Et; [done|].
  intros Hm. rewrite condition_mode_or by done. intros Hst [= <-] Hok (Hp & Hmode & Hv & Hi & Hpm).
  revert Hp Hmode Hv Hi Hpm. payload_field. cbn [string_or_blank]. intros Hp Hmode Hv Hi Hpm.
  rewrite known_mode_kept in Hmode by done.
  assert (json_ok (parseLooseValue (cd_value_text c)) = true) as Hvok.
  { pose proof (json_ok_prop _ "value" Hok) as H. revert H. payload_field. intros H. apply H, loose_defined. }
  rewrite Hp, <- Et, trim_idemp, Et, Hmode, Hv. rewrite condition_mode_or by done.
  destruct (value_text_kept _ Hst Hvok) as [-> _]. rewrite Hi, Hpm.
  by destruct (cd_invert c), (cd_pass_missing_key c).
Qed.

Lemma conditions_kept cs : forall l, Forall cond_well cs -> Forall cond_stable cs ->
  json_ok (JArr (map JObj (filter_some buildConditionPayload cs))) = true ->
  Forall2 reads_condition (filter_some buildConditionPayload cs) l ->
  filter_some buildConditionPayload l = filter_some buildConditionPayload cs.
Proof.
  induction cs as [|c cs IH]; intros l Hw Hst Hok H; cbn [filter_some] in *; [by inversion H|].
  inversion Hw; inversion Hst; subst. destruct (buildConditionPayload c) as [p|] eqn:E; [|by apply IH].
  inversion H as [|? c' ? l' Hc Hl]; subst. cbn [map] in Hok. rewrite json_ok_cons in Hok.
  apply andb_true_iff in Hok as [Hp Hr]. cbn [filter_some]. rewrite (condition_kept c p c') by done. f_equal. by apply IH.
Qed.

(** What the modes that require a field make of it. *)
Lemma mode_facts mode : mode ∈ OPERATION_MODE_VALUES ->
  (mode_in FROM_REQUIRED_MODES mode = true -> mm_from (mode_meta mode) = true)
  /\ (mode_in TO_REQUIRED_MODES mode = true -> mm_to (mode_meta mode) = true)
  /\ (mm_value (mode_meta mode) = false ->
      mode_in VALUE_REQUIRED_MODES mode = false /\ (mode ==? "return_error") = false
      /\ (mode ==? "prune_objects") = false /\ (mode ==? "pass_headers") = false)
  /\ ((mode ==? "set") = true -> mm_path (mode_meta mode) = true).
Proof.
  assert (forallb (fun mode =>
    (negb (mode_in FROM_REQUIRED_MODES mode) || mm_from (mode_meta mode))
    && (negb (mode_in TO_REQUIRED_MODES mode) || mm_to (mode_meta mode))
    && (mm_value (mode_meta mode) || negb (mode_in VALUE_REQUIRED_MODES mode || (mode ==? "return_error")
          || (mode ==? "prune_objects") || (mode ==? "pass_headers")))
    && (negb (mode ==? "set") || mm_path (mode_meta mode))) OPERATION_MODE_VALUES = true) as H by (vm_compute; reflexivity).
  intros Hm. rewrite forallb_forall in H. apply list_elem_of_In in Hm. specialize (H _ Hm). clear Hm.
  rewrite !andb_true_iff, !orb_true_iff, !negb_true_iff, !orb_false_iff in H. destruct H as [[[H1 H2] H3] H4]. split_and!.
  - intros E. rewrite E in H1. by destruct H1.
  - intros E. rewrite E in H2. by destruct H2.
  - intros E. rewrite E in H3. destruct H3 as [|[[[]]]]; done.
  - intros E. rewrite E in H4. by destruct H4.
Qed.

Definition op_stable (o : ParamOverrideOperation) : Prop :=
  stable_text (op_value_text o) /\ Forall cond_stable (op_conditions o).

(** The rule [o'] read from the payload of [o], field by field. *)
Section Kept.
Variables o o' : ParamOverrideOperation.
Let mode := op_mode o.
Let meta := mode_meta mode.
Let path := trim (op_path o).
Let from := trim (op_from o).
Let to := trim (op_to o).
Let conditions := filter_some buildConditionPayload (op_conditions o).
Let conditional := negb (length conditions =? 0)%nat.

Hypothesis Hwell : op_well o.
Hypothesis Hstable : op_stable o.
Hypothesis Hok : json_ok (JObj (operation_payload o)) = true.
Hypothesis Hread : reads_operation (operation_payload o) conditions o'.

Lemma mode_or : str_or (op_mode o) "set" = mode.
Proof. apply operation_mode_or, Hwell. Qed.

Lemma kept_mode : op_mode o' = mode.
Proof.
  rewrite (read_mode _ _ _ Hread), payload_mode, mode_or. apply known_mode_kept, Hwell.
Qed.

Lemma kept_description : op_description o' = trim (op_description o).
Proof. rewrite (read_description _ _ _ Hread), payload_description. by destruct (trim (op_description o)). Qed.

Lemma kept_path : op_path o' = if mm_path meta || (mm_pathOptional meta && non_empty path) then path else [].
Proof.
  rewrite (read_path _ _ _ Hread), payload_path, mode_or. fold meta path. by destruct (_ || _).
Qed.

Lemma kept_from : op_from o' = if mm_from meta then aliased (mm_pathAlias meta) path from else [].
Proof. rewrite (read_from _ _ _ Hread), payload_from, mode_or. fold meta path from. by destruct (mm_from meta). Qed.

Lemma kept_to : op_to o' = if mm_to meta || non_empty to then aliased (mm_pathAlias meta) path to else [].
Proof. rewrite (read_to _ _ _ Hread), payload_to, mode_or. fold meta path to. by destruct (_ || _). Qed.

Lemma kept_keep : op_keep_origin o' = mm_keepOrigin meta && op_keep_origin o.
Proof. rewrite (read_keep _ _ _ Hread), payload_keep_origin, mode_or. fold meta. by destruct (_ && _). Qed.

Lemma kept_value : if mm_value meta then same_value (op_value_text o) (op_value_text o') else op_value_text o' = [].
Proof.
  rewrite (read_value _ _ _ Hread), payload_value, mode_or. fold meta. destruct (mm_value meta) eqn:E; [|done].
  apply value_text_kept; [apply Hstable|]. pose proof (json_ok_prop _ "value" Hok) as H. revert H.
  rewrite payload_value, mode_or. fold meta. rewrite E. intros H. apply H, loose_defined.
Qed.

Lemma kept_conditions : filter_some buildConditionPayload (op_conditions o') = conditions.
Proof.
  apply conditions_kept; [apply Hwell|apply Hstable| |apply Hread].
  fold conditions. pose proof (json_ok_prop _ "conditions" Hok) as H. revert H. rewrite payload_conditions.
  fold conditions. fold conditional. destruct conditional eqn:E; [intros H; by apply H|].
  subst conditional. destruct conditions; done.
Qed.

Lemma kept_logic : conditional = true -> op_logic o' = op_logic o.
Proof.
  intros E. rewrite (read_logic _ _ _ Hread), payload_logic. fold conditions. fold conditional. rewrite E.
  destruct Hwell as (_ & [-> | ->] & _); reflexivity.
Qed.

Lemma trim_aliased alias p v : trim p = p -> trim v = v -> trim (aliased alias p v) = aliased alias p v.
Proof. intros Hp Hv. destruct alias; [|done]. by destruct v. Qed.

Lemma aliased_twice alias (b : bool) p v : aliased alias (if b then p else []) (aliased alias p v) = aliased alias p v.
Proof. destruct alias; [|done]. cbn. destruct v, b; cbn; [by destruct p..|done|done]. Qed.

Lemma kept_payload : operation_payload o' = operation_payload o.
Proof.
  unfold operation_payload. rewrite kept_mode, kept_description, kept_path, kept_from, kept_to, kept_conditions.
  cbn zeta. rewrite mode_or. rewrite (operation_mode_or "set" mode) by apply Hwell.
  fold conditions meta path from to. fold conditional. rewrite trim_idemp.
  assert (trim (if mm_path meta || (mm_pathOptional meta && non_empty path) then path else [])
          = if mm_path meta || (mm_pathOptional meta && non_empty path) then path else []) as ->
    by (destruct (_ || _); [apply trim_idemp|done]).
  assert (field_if (mm_value meta) "value" (parseLooseValue (op_value_text o'))
          = field_if (mm_value meta) "value" (parseLooseValue (op_value_text o))) as ->
    by (pose proof kept_value as H; destruct (mm_value meta); [by destruct H as [-> _]|done]).
  rewrite kept_keep. fold meta. do 2 f_equal. f_equal; [|f_equal; f_equal; [|f_equal; [|f_equal; [|f_equal]]]].
  - destruct (mm_path meta); [done|]. cbn. destruct (mm_pathOptional meta); [|done]. by destruct path.
  - by destruct (mm_keepOrigin meta), (op_keep_origin o).
  - destruct (mm_from meta); [|done]. by rewrite trim_aliased, aliased_twice by apply trim_idemp.
  - destruct (mm_to meta); cbn [orb].
    + by rewrite trim_aliased, aliased_twice by apply trim_idemp.
    + destruct (non_empty to) eqn:E; [|done]. rewrite trim_aliased, aliased_twice by apply trim_idemp.
      assert (non_empty (aliased (mm_pathAlias meta) path to) = true) as ->; [|done].
      destruct to; [done|]. by destruct (mm_pathAlias meta).
  - destruct conditional eqn:E; [|done]. by rewrite kept_logic.
Qed.

Lemma kept_no_error (t_line : jstr -> Z -> jstr) line :
  operation_error t_line o line = None -> operation_error t_line o' line = None.
Proof.
  unfold operation_error. cbn zeta. rewrite kept_mode, mode_or.
  rewrite (operation_mode_or "set" mode) by apply Hwell. fold meta path from to.
  destruct (mode_facts mode) as (Hf & Ht & Hv & _); [apply Hwell|]. fold meta in Hf, Ht, Hv.
  assert (forall b, mm_path meta && negb (non_empty path) = false -> mm_path meta = b ->
    mm_path meta && negb (non_empty (trim (op_path o'))) = false) as Hp.
  { intros b. rewrite kept_path. destruct (mm_path meta); [|done]. cbn [orb andb]. unfold path. by rewrite trim_idemp. }
  destruct (mm_path meta && negb (non_empty path)) eqn:E1; [done|]. rewrite (Hp (mm_path meta)) by done.
  assert (forall f f', trim f' = aliased (mm_pathAlias meta) path f ->
    negb (non_empty f) && negb (mm_pathAlias meta && non_empty path) = false -> negb (non_empty (trim f')) = false) as Ha.
  { intros f f' ->. destruct (mm_pathAlias meta); cbn; [|by rewrite andb_true_r]. by destruct f, path. }
  destruct (mode_in FROM_REQUIRED_MODES mode && negb (non_empty from) && negb (mm_pathAlias meta && non_empty path)) eqn:E2; [done|].
  assert (mode_in FROM_REQUIRED_MODES mode && negb (non_empty (trim (op_from o'))) = false) as ->.
  { destruct (mode_in FROM_REQUIRED_MODES mode); [|done]. cbn [andb] in *. apply (Ha from); [|exact E2].
    rewrite kept_from. fold meta path from. rewrite Hf by done. apply trim_aliased; apply trim_idemp. }
  destruct (mode_in TO_REQUIRED_MODES mode && negb (non_empty to) && negb (mm_pathAlias meta && non_empty path)) eqn:E3; [done|].
  assert (mode_in TO_REQUIRED_MODES mode && negb (non_empty (trim (op_to o'))) = false) as ->.
  { destruct (mode_in TO_REQUIRED_MODES mode); [|done]. cbn [andb] in *. apply (Ha to); [|exact E3].
    rewrite kept_to. fold meta path to. rewrite Ht by done. apply trim_aliased; apply trim_idemp. }
  cbn [andb]. pose proof kept_value as Hk. destruct (mm_value meta).
  - assert ((trim (op_value_text o') ==? []) = (trim (op_value_text o) ==? [])) as ->.
    { destruct Hk as (_ & Hb & _). clear -Hb. do 2 case_bool_decide; tauto. }
    destruct (mode_in VALUE_REQUIRED_MODES mode && (trim (op_value_text o) ==? [])); [done|]. by apply value_error_same.
  - destruct Hv as (-> & E4 & E5 & E6); [done|]. cbn [andb]. unfold value_error. by rewrite E4, E5, E6.
Qed.

Lemma kept_not_blank (t_line : jstr -> Z -> jstr) line : operation_error t_line o line = None -> isOperationBlank o' = false.
Proof.
  unfold operation_error, isOperationBlank. cbn zeta. rewrite kept_mode, mode_or, kept_path. fold meta path.
  destruct (mode_facts mode) as (_ & _ & _ & Hs); [apply Hwell|]. fold meta in Hs.
  destruct (mode ==? "set"); [|done]. rewrite Hs by done. cbn [andb orb].
  assert (trim path = path) as -> by apply trim_idemp. by destruct (non_empty path).
Qed.
End Kept.

(** ** What is saved *)

(** A text field of a payload: not blank and without outer spaces. *)
Definition text_field (v : jsval) : Prop := exists s, v = JStr s /\ s <> [] /\ trim s = s.

(** A condition and a rule that have what their modes require. *)
Record accepted_condition (p : jsobj) : Prop := {
  acc_path : text_field (prop p "path");
  acc_mode : exists m, prop p "mode" = JStr m /\ m ∈ CONDITION_MODE_VALUES;
  acc_value : prop p "value" <> JUndef
}.

Record accepted_fields (mode : jstr) (p : jsobj) : Prop := {
  acc_target : mm_path (mode_meta mode) = true -> text_field (prop p "path");
  acc_from : mode_in FROM_REQUIRED_MODES mode = true -> text_field (prop p "from");
  acc_to : mode_in TO_REQUIRED_MODES mode = true -> text_field (prop p "to");
  acc_defined : mm_value (mode_meta mode) = true -> prop p "value" <> JUndef;
  acc_message : mode = "return_error" -> forall e, prop p "value" = JObj e -> trimmed_text (prop e "message") <> [];
  acc_headers : mode = "pass_headers" -> parsePassHeaderNames (prop p "value") <> []
}.

Definition accepted (p : jsobj) : Prop :=
  (exists mode, prop p "mode" = JStr mode /\ mode ∈ OPERATION_MODE_VALUES /\ accepted_fields mode p)
  /\ ((prop p "conditions" = JUndef /\ prop p "logic" = JUndef)
      \/ exists cs, prop p "conditions" = JArr (map JObj cs) /\ cs <> [] /\ Forall accepted_condition cs
                    /\ (prop p "logic" = JStr "AND" \/ prop p "logic" = JStr "OR")).

Lemma text_field_trim s : non_empty (trim s) = true -> text_field (JStr (trim s)).
Proof. intros H. exists (trim s). split_and!; [done| |apply trim_idemp]. by destruct (trim s). Qed.

Lemma built_condition c p : cond_well c -> buildConditionPayload c = Some p -> accepted_condition p.
Proof.
  unfold cond_well, buildConditionPayload. destruct (trim (cd_path c)) as [|u x] eqn:E; [done|]. intros Hm.
  rewrite condition_mode_or by done. intros [= <-]. constructor; payload_field.
  - rewrite <- E. apply text_field_trim. by rewrite E.
  - by exists (cd_mode c).
  - apply loose_defined.
Qed.

Lemma built_conditions cs : Forall cond_well cs -> Forall accepted_condition (filter_some buildConditionPayload cs).
Proof.
  induction 1 as [|c cs Hc _ IH]; cbn [filter_some]; [constructor|].
  destruct (buildConditionPayload c) eqn:E; [|done]. constructor; [by eapply built_condition|done].
Qed.

Lemma aliased_field alias p v : negb (non_empty (trim v)) && negb (alias && non_empty (trim p)) = false ->
  text_field (JStr (aliased alias (trim p) (trim v))).
Proof.
  destruct alias; cbn [aliased andb]; intros H.
  - destruct (trim v) as [|c x] eqn:E; cbn in *; [|rewrite <- E; apply text_field_trim; by rewrite E].
    apply text_field_trim. by destruct (non_empty (trim p)).
  - apply text_field_trim. by destruct (non_empty (trim v)).
Qed.

Section Accepted.
Variable t_line : jstr -> Z -> jstr.

(** A rule without an error is accepted. *)
Lemma payload_fields o line : op_well o -> operation_error t_line o line = None ->
  accepted_fields (op_mode o) (operation_payload o).
Proof.
  intros Hw. unfold operation_error. cbn zeta. rewrite mode_or by done. set (mode := op_mode o). set (meta := mode_meta mode).
  destruct (mode_facts mode) as (Hf & Ht & _); [apply Hw|]. fold meta in Hf, Ht.
  destruct (mm_path meta && negb (non_empty (trim (op_path o)))) eqn:E1; [done|].
  destruct (_ && _ && negb (mm_pathAlias meta && non_empty (trim (op_path o)))) eqn:E2; [done|].
  destruct (mode_in TO_REQUIRED_MODES mode && _ && negb (mm_pathAlias meta && non_empty (trim (op_path o)))) eqn:E3; [done|].
  destruct (mode_in VALUE_REQUIRED_MODES mode && _); [done|]. intros He.
  assert (prop (operation_payload o) "value" = if mm_value meta then parseLooseValue (op_value_text o) else JUndef) as Hv
    by (rewrite payload_value, mode_or by done; done).
  constructor; rewrite ?Hv.
  - intros Hp. fold meta in Hp. rewrite payload_path, mode_or by done. fold mode meta. rewrite Hp in *. cbn [orb].
    apply text_field_trim. by destruct (non_empty (trim (op_path o))).
  - intros Hr. rewrite payload_from, mode_or by done. fold mode meta. rewrite Hf by done. apply aliased_field. by rewrite Hr in E2.
  - intros Hr. rewrite payload_to, mode_or by done. fold mode meta. rewrite Ht by done. apply aliased_field. by rewrite Hr in E3.
  - fold meta. intros ->. apply loose_defined.
  - intros Hm e. unfold value_error in He. rewrite Hm in He. cbn in He. destruct (mm_value meta); [|done].
    destruct (loose_cases (op_value_text o)) as [[_ El]|[(_ & _ & El)|(Ht' & Ep)]]; rewrite ?El; try done.
    intros Ee. rewrite Ee in Ep. destruct (trim (op_value_text o)) as [|c x]; [done|]. rewrite Ep in He.
    by destruct (trimmed_text (prop e "message")).
  - intros Hm. unfold value_error in He. rewrite Hm in He. cbn -[trim] in He. rewrite loose_trim in He.
    assert (mm_value meta = true) as -> by (unfold meta; rewrite Hm; reflexivity).
    destruct (trim (op_value_text o)); [done|]. by destruct (parsePassHeaderNames _).
Qed.

Lemma payload_accepted o line : op_well o -> operation_error t_line o line = None -> accepted (operation_payload o).
Proof.
  intros Hw He. split.
  - exists (op_mode o). rewrite payload_mode, mode_or by done. split_and!; [done|apply Hw|by eapply payload_fields].
  - rewrite payload_conditions, payload_logic. set (cs := filter_some buildConditionPayload (op_conditions o)).
    destruct (length cs =? 0)%nat eqn:E; [by left|]. right. exists cs. split_and!; [done| |apply built_conditions, Hw|].
    + intros H. rewrite H in E. done.
    + cbn. destruct (op_logic o ==? "AND"); auto.
Qed.
End Accepted.

(** ** Documents *)

Section Document.
Variable now : Z -> Z.
Variable t : jstr -> jstr.
Variable t_line : jstr -> Z -> jstr.
Hypothesis line_text : forall message line, t_line message line <> [].

Lemma operation_error_text o line message : operation_error t_line o line = Some message -> message <> [].
Proof.
  unfold operation_error, value_error. cbn zeta. intros H.
  repeat match type of H with
    | (if ?b then _ else _) = Some _ => destruct b
    | match ?x with _ => _ end = Some _ => destruct x
    end; simplify_eq; apply line_text.
Qed.

Lemma validate_cons o l line : validate_from t_line (o :: l) line = [] <->
  operation_error t_line o line = None /\ validate_from t_line l (line + 1) = [].
Proof.
  cbn [validate_from]. destruct (operation_error t_line o line) as [m|] eqn:E; [|tauto].
  split; [|by intros [H _]]. intros ->. by apply operation_error_text in E.
Qed.

Definition kept_rules (s : OverrideState) : list ParamOverrideOperation :=
  List.filter (fun o => negb (isOperationBlank o)) (ov_operations s).

(** What is saved is the document of the rules that are not blank, all without an error. *)
Lemma saved_document s text : ov_editMode s = EditVisual -> ov_visualMode s = VisualOperations ->
  handleSave t t_line s = Ok text -> text <> [] ->
  kept_rules s <> [] /\ validate_from t_line (kept_rules s) 1 = [] /\ text = stringify2 (operations_document (kept_rules s)).
Proof.
  intros He Hv. unfold handleSave, buildVisualJson, buildOperationsJson, validateOperations. rewrite He, Hv.
  fold (kept_rules s). destruct (kept_rules s) as [|o l]; [by intros [= <-]|]. cbn [res_catch].
  destruct (validate_from t_line (o :: l) 1); [|done]. by intros [= <-].
Qed.

Lemma payloads_accepted l : forall line, Forall op_well l -> validate_from t_line l line = [] ->
  Forall accepted (map operation_payload l).
Proof.
  induction l as [|o l IH]; intros line Hw Hv; [constructor|]. apply validate_cons in Hv as [He Hv]. inversion Hw; subst.
  constructor; [by eapply payload_accepted|by eapply IH].
Qed.

Lemma filter_Forall {A} (P : A -> Prop) p l : Forall P l -> Forall P (List.filter p l).
Proof. intros H. eapply sublist_forall; [apply filter_sublist|exact H]. Qed.

(** C17: whatever the visual editor of rules saves, after any use of the dialog, is empty or
    a document whose rules each have a mode of the server and the fields that mode requires,
    with well-formed conditions. *)
Theorem saved_rules_sound value s0 s events text :
  (0 <= ov_seed s0)%Z ->
  open_dialog now value s0 = Ok s ->
  Forall event_ok events ->
  let s1 := run now t t_line events s in
  ov_editMode s1 = EditVisual -> ov_visualMode s1 = VisualOperations ->
  handleSave t t_line s1 = Ok text -> text <> [] ->
  exists rules, text = stringify2 (JObj [("operations" : jstr, JArr (map JObj rules))]) /\ rules <> [] /\ Forall accepted rules.
Proof.
  intros Hseed Ho He. cbn zeta. intros Hm Hv Hs Ht.
  destruct (run_sound now t t_line events s (open_sound _ _ _ _ Hseed Ho) He) as [(_ & _ & _ & _ & Hw) _].
  destruct (saved_document _ _ Hm Hv Hs Ht) as (Hl & Hval & ->). exists (map operation_payload (kept_rules (run now t t_line events s))).
  split_and!; [by rewrite map_map| |].
  - by destruct (kept_rules _).
  - eapply payloads_accepted; [apply filter_Forall, Hw|exact Hval].
Qed.

(** ** Reopening *)

Lemma json_ok_obj1 k v : json_ok (JObj [(k, v)]) = true -> json_ok v = true.
Proof. cbn. intros H. by bools. Qed.

Lemma read_document l : forall line seed, validate_from t_line l line = [] -> Forall op_well l -> Forall op_stable l ->
  json_ok (JArr (map (fun o => JObj (operation_payload o)) l)) = true ->
  exists l' seed', ids_map (normalizeOperation now) (map (fun o => JObj (operation_payload o)) l) seed = (Ok l', seed')
    /\ map operation_payload l' = map operation_payload l /\ validate_from t_line l' line = []
    /\ Forall (fun o => isOperationBlank o = false) l'.
Proof.
  induction l as [|o l IH]; intros line seed Hv Hw Hst Hok; [by eexists _, _|].
  apply validate_cons in Hv as [He Hv]. cbn [map] in Hok. rewrite json_ok_cons in Hok. apply andb_true_iff in Hok as [Hp Hr].
  inversion Hw; inversion Hst; subst.
  destruct (read_operation now (operation_payload o) (filter_some buildConditionPayload (op_conditions o)) seed) as (o' & s1 & E1 & Hread).
  { rewrite payload_conditions. destruct (filter_some _ _); [by left|by right]. }
  destruct (IH (line + 1)%Z s1) as (l' & s2 & E2 & Hpl & Hv' & Hb); [done..|].
  exists (o' :: l'), s2. cbn [map ids_map]. split_and!.
  - unfold ids_bind. rewrite E1, E2. reflexivity.
  - f_equal; [by apply kept_payload|done].
  - apply validate_cons. split; [by apply (kept_no_error o)|done].
  - constructor; [by apply (kept_not_blank o o') with (t_line := t_line) (line := line)|done].
Qed.

Lemma not_blank_filter l : Forall (fun o => isOperationBlank o = false) l ->
  List.filter (fun o => negb (isOperationBlank o)) l = l.
Proof. induction 1 as [|o l Ho _ IH]; [done|]. cbn. by rewrite Ho, IH. Qed.

Lemma open_operations text l seed l' seed' :
  trim text = text -> text <> [] -> parse text = Some (JObj [("operations" : jstr, JArr l)]) ->
  document_operations now l seed = (Ok l', seed') ->
  parseInitialState now text seed =
    (Ok {| es_editMode := EditVisual; es_visualMode := VisualOperations; es_legacyValue := []; es_operations := l';
           es_jsonText := stringify2 (JObj [("operations" : jstr, JArr l)]); es_jsonError := [] |}, seed').
Proof.
  intros Ht Hne Hp Hd. unfold parseInitialState. rewrite Ht. destruct text as [|c x]; [done|]. rewrite Hp.
  cbv zeta. change (prop [("operations" : jstr, JArr l)] "operations") with (JArr l). cbv beta iota.
  unfold ids_bind. rewrite Hd. reflexivity.
Qed.

(** C18: opening what the visual editor saved shows the same rules: it opens in the visual
    editor of rules, and saving again, whatever the page looked like before, gives the same
    text. This needs values that are not quoted texts which read as JSON without their quotes. *)
Theorem reopen_save_stable s text s0 :
  ov_editMode s = EditVisual -> ov_visualMode s = VisualOperations ->
  Forall op_well (ov_operations s) -> Forall op_stable (kept_rules s) ->
  json_ok (operations_document (kept_rules s)) = true ->
  handleSave t t_line s = Ok text -> text <> [] ->
  exists s', open_dialog now text s0 = Ok s' /\ ov_editMode s' = EditVisual /\ ov_visualMode s' = VisualOperations
    /\ map operation_payload (ov_operations s') = map operation_payload (kept_rules s)
    /\ handleSave t t_line s' = Ok text.
Proof.
  intros Hm Hv Hw Hst Hok Hs Ht. destruct (saved_document _ _ Hm Hv Hs Ht) as (Hl & Hval & ->).
  destruct (read_document (kept_rules s) 1 (ov_seed s0) Hval) as (l' & seed' & E & Hp & Hval' & Hb);
    [by apply filter_Forall|done|by eapply json_ok_obj1|].
  assert (l' <> []) as Hl' by (intros ->; by destruct (kept_rules s)).
  assert (document_operations now (map (fun o => JObj (operation_payload o)) (kept_rules s)) (ov_seed s0) = (Ok l', seed')) as Ed.
  { destruct (kept_rules s); [done|]. exact E. }
  assert (parseInitialState now (stringify2 (operations_document (kept_rules s))) (ov_seed s0) =
    (Ok {| es_editMode := EditVisual; es_visualMode := VisualOperations; es_legacyValue := []; es_operations := l';
           es_jsonText := stringify2 (operations_document (kept_rules s)); es_jsonError := [] |}, seed')) as Ei.
  { apply open_operations; [by apply trim_stringify2|done|by apply parse_stringify2|done]. }
  unfold open_dialog. rewrite Ei. eexists. split_and!; [reflexivity|done|done|exact Hp|].
  unfold handleSave, buildVisualJson. cbn [ov_editMode ov_visualMode ov_operations es_editMode es_visualMode es_operations].
  unfold buildOperationsJson, validateOperations. rewrite not_blank_filter by done.
  destruct l' as [|o l']; [done|]. rewrite Hval'. unfold operations_document. by rewrite <- !(map_map operation_payload), Hp.
Qed.
End Document.

(** ** Examples *)

Definition demo_now (seed : Z) : Z := 0.
Definition demo_line (message : jstr) (line : Z) : jstr := str_or message "error".

Definition demo_closed : OverrideState :=
  {| ov_editMode := EditVisual; ov_visualMode := VisualOperations; ov_legacyValue := []; ov_operations := [];
     ov_jsonText := []; ov_jsonError := []; ov_selected := []; ov_preset := []; ov_seed := 0 |}.

Definition demo_open (value : jstr) : OverrideState := res_catch (open_dialog demo_now value demo_closed) demo_closed.

(** Opens a text and saves it at once. *)
Definition resave (value : jstr) : res jstr := handleSave id demo_line (demo_open value).

(** Two rules and a condition are typed in. *)
Definition demo_events : list OverrideEvent :=
  let first := local_id demo_now 0 in
  let second := local_id demo_now 1 in
  [ EvUpdateOperation first (PatchPath "temperature"); EvUpdateOperation first (PatchValueText " 0.7");
    EvAddOperation; EvUpdateOperation second (PatchMode "copy_header"); EvUpdateOperation second (PatchPath " X-Id ");
    EvUpdateOperation second (PatchTo "X-Trace"); EvAddCondition second;
    EvUpdateCondition second (local_id demo_now 2) (CondPath "model");
    EvUpdateCondition second (local_id demo_now 2) (CondValueText "gpt-4"); EvAddOperation ].

Definition demo_state : OverrideState := run demo_now id demo_line demo_events (demo_open []).

Definition demo_text : jstr := res_catch (handleSave id demo_line demo_state) [].

Lemma demo_line_text message line : demo_line message line <> [].
Proof. unfold demo_line. by destruct message. Qed.

Example demo_saved :
  option_map stringify (parse demo_text)
  = Some (sq "{'operations':[{'mode':'set','path':'temperature','value':0.7},{'mode':'copy_header','from':'X-Id','to':'X-Trace','conditions':[{'path':'model','mode':'full','value':'gpt-4'}],'logic':'OR'}]}").
Proof. vm_compute. reflexivity. Qed.

Lemma demo_opened : open_dialog demo_now [] demo_closed = Ok (demo_open []).
Proof. vm_compute. reflexivity. Qed.

Lemma demo_events_ok : Forall event_ok demo_events.
Proof.
  unfold demo_events. repeat (apply Forall_cons; split; [try exact I|]); [|constructor].
  apply (bool_decide_eq_true (_ ∈ OPERATION_MODE_VALUES)). vm_compute. reflexivity.
Qed.

Lemma saved_rules_sound_witness :
  exists rules, demo_text = stringify2 (JObj [("operations" : jstr, JArr (map JObj rules))]) /\ rules <> [] /\ Forall accepted rules.
Proof.
  apply (saved_rules_sound demo_now id demo_line demo_line_text [] demo_closed (demo_open []) demo_events demo_text).
  - done.
  - exact demo_opened.
  - exact demo_events_ok.
  - vm_compute. reflexivity.
  - vm_compute. reflexivity.
  - vm_compute. reflexivity.
  - vm_compute. discriminate.
Defined.

Lemma demo_stable : Forall op_stable (kept_rules demo_state).
Proof.
  let l := eval vm_compute in (kept_rules demo_state) in change (kept_rules demo_state) with l.
  repeat (apply Forall_cons; split); try (apply Forall_nil; exact I);
    (split; [vm_compute; exact I|]); cbn [op_conditions];
    repeat (apply Forall_cons; split); try (apply Forall_nil; exact I); vm_compute; exact I.
Qed.

Lemma reopen_save_stable_witness :
  exists s', open_dialog demo_now demo_text demo_closed = Ok s' /\ ov_editMode s' = EditVisual /\ ov_visualMode s' = VisualOperations
    /\ map operation_payload (ov_operations s') = map operation_payload (kept_rules demo_state)
    /\ handleSave id demo_line s' = Ok demo_text.
Proof.
  apply (reopen_save_stable demo_now id demo_line demo_line_text demo_state demo_text demo_closed).
  - vm_compute. reflexivity.
  - vm_compute. reflexivity.
  - apply (run_sound demo_now id demo_line demo_events (demo_open []) (open_sound demo_now [] demo_closed (demo_open []) ltac:(done) demo_opened) demo_events_ok).
  - exact demo_stable.
  - vm_compute. reflexivity.
  - vm_compute. reflexivity.
  - vm_compute. discriminate.
Defined.

(** ** What opening and saving changes *)

Definition resaved (text : jstr) : option jsval := match resave (sq text) with Ok saved => parse saved | Throw _ => None end.
Definition document (text : jstr) : option jsval := parse (sq text).

(** A text value that reads as JSON is saved as what it reads as. *)
Lemma text_value_retyped :
  resaved "{'operations':[{'mode':'set','path':'a','value':'0.7'}]}"
  = document "{'operations':[{'mode':'set','path':'a','value':0.7}]}".
Proof. vm_compute. reflexivity. Qed.

(** Conditions given as one object, which the server reads, are lost: the rule always applies. *)
Lemma object_conditions_dropped :
  resaved "{'operations':[{'mode':'delete','path':'a','conditions':{'model':'gpt-4'}}]}"
  = document "{'operations':[{'mode':'delete','path':'a'}]}".
Proof. vm_compute. reflexivity. Qed.

(** The fields next to [operations], which the server applies too, are lost. *)
Lemma mixed_document_loses_keys :
  resaved "{'temperature':0.5,'operations':[{'mode':'set','path':'a','value':1}]}"
  = document "{'operations':[{'mode':'set','path':'a','value':1}]}".
Proof. vm_compute. reflexivity. Qed.

(** A document with a rule that is not an object takes the page down. *)
Lemma null_rule_throws : open_dialog demo_now (sq "{'operations':[null]}") demo_closed = Throw "TypeError".
Proof. vm_compute. reflexivity. Qed.

(** A pruning rule without any condition passes the check. *)
Lemma empty_prune_saved :
  resaved "{'operations':[{'mode':'prune_objects','value':{'logic':'AND'}}]}"
  = document "{'operations':[{'mode':'prune_objects','value':{'logic':'AND'}}]}"
  /\ buildPruneObjectsValueText (default_prune_draft{{ po_simpleMode := false }}) = sq "{'logic':'AND'}".
Proof. split; vm_compute; reflexivity. Qed.
