(* ===== verification/ParamOverridePrune.v ===== *)
(** * Parameter override rules: the drafts of the dialog

    Companion of [ParamOverrideEditor]: an error draft reads back from the text it is
    written to, and why the rules of a pruning draft cannot be edited. *)
From S2P Require Import RecordUpdate Prelude JsString JsNumber JsValue Json ParamOverride ParamOverrideEditor.
From S2P Require Import ParamOverrideProofs ParamOverrideSave.

(** ** Pruning drafts *)

Section Prune.
Variable now : Z -> Z.

(** The rules of a draft get new identifiers whenever the draft is read. *)
Definition new_rule_ids (a b : Z) (l : list PruneRule) : Prop := Forall (drawn_between now a b) (flat_map cond_ids l).

Lemma draws_rules {A} (f : A -> Ids PruneRule) l :
  (forall x, draws (f x) (made now cond_ids cond_well)) -> draws (ids_map f l) new_rule_ids.
Proof.
  intros Hf seed Hs. destruct (draws_map now f cond_ids cond_well l Hf seed Hs) as [H1 H2].
  split; [done|]. intros x Hx. apply (H2 x Hx).
Qed.

Lemma draws_no_rules : draws (ids_ret []) new_rule_ids.
Proof. apply draws_ret. intros. constructor. Qed.

Lemma draws_draft text : draws (parsePruneObjectsDraft now text) (fun a b d => new_rule_ids a b (po_rules d)).
Proof.
  assert (forall o, draws (ids_map (entry_rule now) o) new_rule_ids) as He.
  { intros o. apply draws_rules. intros e. apply draws_condition. }
  assert (forall v, draws (where_rules now v) new_rule_ids) as Hw.
  { intros [| | | | |l'|o]; [apply draws_no_rules..|apply He]. }
  assert (forall v, draws (condition_rules now v) new_rule_ids) as Hc.
  { intros [| | | | |l'|o]; [apply draws_no_rules..| |apply He]. apply draws_rules. intros v. apply draws_condition. }
  unfold parsePruneObjectsDraft. destruct (trim text); [apply draws_ret; constructor|].
  destruct (parse _) as [v|]; [|apply draws_ret; constructor].
  destruct v as [| | | | | |o]; try (apply draws_ret; constructor). cbn zeta.
  eapply (draws_bind _ _ _ (fun x a b d => exists r, po_rules d = x ++ r /\ new_rule_ids a b r)); [apply Hw| |].
  - intros x. eapply draws_then_ret; [apply Hc|]. intros a b r _ _ Hr. by exists r.
  - intros a b c x d Ha Hab Hbc Hx (r & -> & Hr). unfold new_rule_ids. rewrite flat_map_app. apply Forall_app.
    split; (eapply between_mono; [| |eassumption]; lia).
Qed.

(** Two updates with the same effect on the text, on every draft with new identifiers. *)
Definition same_text (a : Z) (u1 u2 : PruneObjectsDraft -> Ids PruneObjectsDraft) : Prop :=
  forall d b, new_rule_ids a b (po_rules d) ->
    exists d1 d2, fst (u1 d b) = Ok d1 /\ fst (u2 d b) = Ok d2 /\ buildPruneObjectsValueText d1 = buildPruneObjectsValueText d2.

Lemma update_others id u l : forall seed, id ∉ map op_id l -> ids_map (update_prune now id u) l seed = (Ok l, seed).
Proof.
  induction l as [|o l IH]; intros seed H; [done|]. cbn [map] in H. cbn [ids_map]. unfold ids_bind, update_prune at 1.
  rewrite bool_decide_false by set_solver. cbn. rewrite IH by set_solver. done.
Qed.

Lemma update_prune_congr id u1 u2 l seed : (0 <= seed)%Z -> NoDup (map op_id l) -> same_text seed u1 u2 ->
  fst (ids_map (update_prune now id u1) l seed) = fst (ids_map (update_prune now id u2) l seed).
Proof.
  intros Hs Hn Hu. induction l as [|o l IH]; [done|]. inversion Hn as [|? ? Hni Hn']; subst. specialize (IH Hn').
  cbn [ids_map]. unfold ids_bind, update_prune at 1 3. destruct (decide (op_id o = id)) as [<-|Hne].
  - rewrite bool_decide_true by done. cbn [negb]. unfold ids_bind.
    destruct (draws_draft (op_value_text o) seed Hs) as [_ Hd].
    destruct (parsePruneObjectsDraft now (op_value_text o) seed) as [[d|e] b]; [|done].
    destruct (Hu d b (Hd d eq_refl)) as (d1 & d2 & E1 & E2 & E). destruct (u1 d b) as [r1 b1], (u2 d b) as [r2 b2].
    cbn in E1, E2. subst. unfold ids_ret. rewrite !update_others by done. by rewrite E.
  - rewrite bool_decide_false by done. cbn [negb]. unfold ids_ret.
    destruct (ids_map (update_prune now id u1) l seed) as [[l1|e1] s1], (ids_map (update_prune now id u2) l seed) as [[l2|e2] s2];
      cbn in *; by simplify_eq.
Qed.

Lemma updates_agree id u1 u2 s : sound now s -> same_text (ov_seed s) u1 u2 ->
  ov_operations (updatePruneObjectsDraft now id u1 s) = ov_operations (updatePruneObjectsDraft now id u2 s).
Proof.
  intros (Hs & _ & Hn & _) Hu. apply NoDup_op_ids in Hn.
  pose proof (update_prune_congr id u1 u2 _ _ Hs Hn Hu) as E. unfold updatePruneObjectsDraft, with_ids.
  destruct (ids_map (update_prune now id u1) _ _) as [[l1|e1] s1], (ids_map (update_prune now id u2) _ _) as [[l2|e2] s2];
    cbn in *; by simplify_eq.
Qed.

(** No rule of a draft read now has an identifier made before. *)
Lemma shown_rule_absent s rid b l : (0 <= ov_seed s)%Z -> drawn now (ov_seed s) rid -> new_rule_ids (ov_seed s) b l ->
  Forall (fun r => cd_id r <> rid) l.
Proof.
  intros Hs Hr Hl. unfold new_rule_ids in Hl. induction l as [|r l IH]; [constructor|]. cbn in Hl.
  inversion Hl as [|? ? H1 H2]; subst. constructor; [|by apply IH]. intros E. rewrite E in H1.
  by apply (drawn_fresh now (ov_seed s) b rid).
Qed.

(** The rules of a pruning draft that the dialog shows have identifiers that no later
    reading of the draft gives again: changing or removing one writes the draft back
    unchanged, and adding one only leaves the simple form. *)
Lemma prune_rules_frozen s id rid p : sound now s -> drawn now (ov_seed s) rid ->
  let unchanged := ov_operations (updatePruneObjectsDraft now id ids_ret s) in
  ov_operations (updatePruneRule now id rid p s) = unchanged
  /\ ov_operations (removePruneRule now id rid s) = unchanged
  /\ ov_operations (addPruneRule now id s) = ov_operations (patchPruneObjectsDraft now id (PruneSimpleMode false) s).
Proof.
  intros Hs Hr. cbn zeta. assert (0 <= ov_seed s)%Z as H0 by apply Hs. split_and!.
  - apply updates_agree; [done|]. intros d b Hd. eexists _, _. split_and!; [reflexivity..|].
    apply (shown_rule_absent s rid) in Hd; [|done..]. do 2 f_equal. destruct d as [m ty lg rc rules]; cbn in *.
    unfold PruneObjectsDraft_eta. f_equal. induction Hd as [|r l Hne _ IH]; [done|]. cbn. rewrite bool_decide_false by done. by rewrite IH.
  - apply updates_agree; [done|]. intros d b Hd. eexists _, _. split_and!; [reflexivity..|].
    apply (shown_rule_absent s rid) in Hd; [|done..]. destruct d as [m ty lg rc rules]; cbn in *. do 2 f_equal.
    induction Hd as [|r l Hne _ IH]; [done|]. cbn. rewrite bool_decide_false by done. cbn. by rewrite IH.
  - apply updates_agree; [done|]. intros d b _. eexists _, _. split_and!; [reflexivity..|].
    unfold buildPruneObjectsValueText. cbn -[prune_payload]. do 2 f_equal. unfold prune_payload. cbn zeta. cbn -[trim].
    rewrite List.filter_app. cbn. by rewrite app_nil_r.
Qed.
End Prune.

(** ** Error drafts *)

Lemma valid_status_idem n : valid_status (valid_status n) = valid_status n.
Proof.
  unfold valid_status. destruct (is_integer n && nle (num_of_Z 100) n && nle n (num_of_Z 599)) eqn:E; [by rewrite E|].
  vm_compute. reflexivity.
Qed.

(** A draft with all its fields trimmed and a valid status. *)
Definition settled_error (d : ReturnErrorDraft) : ReturnErrorDraft :=
  {| re_message := trim (re_message d); re_statusCode := valid_status (re_statusCode d); re_code := trim (re_code d);
     re_type := trim (re_type d); re_skipRetry := re_skipRetry d; re_simpleMode := re_simpleMode d |}.

Lemma trimmed_text_trim s : trimmed_text (JStr (trim s)) = trim s.
Proof.
  unfold trimmed_text, js_or. cbn [truthy]. destruct (trim s) as [|c x] eqn:E; [done|]. cbn [non_empty js_to_string].
  rewrite <- E. apply trim_idemp.
Qed.

(** A field read back: an optional one, and the message. *)
Lemma trimmed_text_field s : trimmed_text (if non_empty (trim s) then JStr (trim s) else JUndef) = trim s.
Proof. destruct (non_empty (trim s)) eqn:E; [apply trimmed_text_trim|]. by destruct (trim s). Qed.

Lemma trimmed_text_message s : trimmed_text (js_or (JStr (trim s)) JUndef) = trim s.
Proof.
  unfold js_or. cbn [truthy]. destruct (non_empty (trim s)) eqn:E; [apply trimmed_text_trim|]. by destruct (trim s).
Qed.

(** The full form of an error draft reads back from its text as the draft, settled. *)
Lemma error_draft_reads_back d : re_simpleMode d = false -> json_ok (JObj (return_error_payload d)) = true ->
  parseReturnErrorDraft (buildReturnErrorValueText d) = settled_error d.
Proof.
  intros Hs Hok. unfold buildReturnErrorValueText, parseReturnErrorDraft. rewrite Hs, trim_stringify by done.
  pose proof (parse_stringify _ Hok) as Hp. pose proof (stringify_nonempty _ Hok) as Hn.
  destruct (stringify (JObj (return_error_payload d))) as [|c x]; [done|]. rewrite Hp. unfold settled_error. rewrite Hs.
  unfold return_error_payload. cbn [app]. payload_field. cbn [js_to_number].
  rewrite valid_status_idem, trimmed_text_message, !trimmed_text_field. f_equal. by destruct (re_skipRetry d).
Qed.

(** ** Ends of a synchronisation *)

Lemma index_of_colon (name key : jstr) : forallb (fun c => negb (c =? 58)%N) name = true ->
  index_of ":" (name ++ 58%N :: key) = Some (length name).
Proof.
  induction name as [|c name IH]; intros H; [done|]. cbn [forallb] in H. bools.
  cbn [app index_of length]. unfold startsWith at 1. cbn [strip_prefix].
  rewrite (proj2 (N.eqb_neq 58 c)) by done. by rewrite IH.
Qed.

Lemma trimmed_prefix c (m s : jstr) : is_space c = false -> s <> [] -> trimmed s = true -> trimmed (c :: m ++ s) = true.
Proof.
  unfold trimmed. intros Hc Hs H. rewrite Hc. cbn [rev]. rewrite rev_app_distr. destruct s as [|d s]; [done|].
  bools. destruct (rev (d :: s)) as [|e r] eqn:E; [|by cbn; rewrite ?H0].
  apply (f_equal length) in E. by rewrite length_rev in E.
Qed.

(** A target reads back from its text, with the key trimmed. *)
Lemma sync_target_reads_back type key : non_empty (trim key) = true ->
  parseSyncTargetSpec (buildSyncTargetSpec type key) = (type, trim key).
Proof.
  intros Hk. unfold buildSyncTargetSpec. destruct (trim key) as [|c k] eqn:E; [done|].
  assert (trimmed (sync_name type ++ ":" ++ c :: k) = true) as Ht.
  { assert (trimmed (c :: k) = true) as Hck by (rewrite <- E; apply trimmed_trim).
    destruct type; [apply (trimmed_prefix 106%N "son:")|apply (trimmed_prefix 104%N "eader:")]; done. }
  pose proof (trim_id _ Ht) as Hid. pose proof (index_of_colon (sync_name type) (c :: k) ltac:(by destruct type)) as Hix.
  unfold parseSyncTargetSpec. rewrite Hid.
  destruct type; cbn [sync_name app] in *; rewrite Hix; cbn [length take drop]; rewrite <- E, trim_idemp; reflexivity.
Qed.
