(* ===== verification/ChannelForm.v ===== *)
(** * The channel form (features/channels/lib: channel-form.ts, channel-form-errors.ts; hooks/use-channel-mutate-form.ts)

    A channel of the gateway as the administrator edits it: its check, how a stored
    channel opens, and what is sent to create or update one. The fields the form reads from
    a JSON column are untyped values until the check; types and identifiers of channels are
    integers. *)
From S2P Require Import Prelude JsString JsNumber JsValue Json AdvancedCustom.

(** ** Channels and forms *)

Record ChannelInfo := {
  ci_is_multi_key : bool;
  ci_multi_key_size : Z;
  ci_multi_key_status_list : option (list (jstr * Z));
  ci_multi_key_disabled_reason : option (list (jstr * jstr));
  ci_multi_key_disabled_time : option (list (jstr * Z));
  ci_multi_key_polling_index : Z;
  ci_multi_key_mode : jstr
}.

(** A stored channel; [None] is [null] or absent. Amounts and times are in [A]. *)
Record Channel {A : Type} := {
  ch_id : Z;
  ch_type : Z;
  ch_key : jstr;
  ch_openai_organization : option jstr;
  ch_test_model : option jstr;
  ch_status : Z;
  ch_name : jstr;
  ch_weight : option num;
  ch_created_time : A;
  ch_test_time : A;
  ch_response_time : A;
  ch_cooldown_until : A;
  ch_failure_count : Z;
  ch_base_url : option jstr;
  ch_other : jstr;
  ch_balance : A;
  ch_balance_updated_time : A;
  ch_models : jstr;
  ch_group : jstr;
  ch_used_quota : A;
  ch_model_mapping : option jstr;
  ch_status_code_mapping : option jstr;
  ch_priority : option num;
  ch_auto_ban : option num;
  ch_other_info : jstr;
  ch_tag : option jstr;
  ch_setting : option jstr;
  ch_param_override : option jstr;
  ch_header_override : option jstr;
  ch_remark : option jstr;
  ch_max_input_tokens : Z;
  ch_channel_info : ChannelInfo;
  ch_settings : jstr
}.
Arguments Channel A : clear implicits.

Inductive MultiKeyMode := Single | Batch | MultiToSingle.
Inductive KeyMode := KeyAppend | KeyReplace.

#[export] Instance MultiKeyMode_eq : EqDecision MultiKeyMode.
Proof. solve_decision. Defined.

Record ChannelFormValues := {
  cf_name : jstr;
  cf_type : Z;
  cf_base_url : jstr;
  cf_key : jstr;
  cf_openai_organization : jstr;
  cf_models : jstr;
  cf_group : list jstr;
  cf_model_mapping : jstr;
  cf_priority : option num;
  cf_weight : option num;
  cf_test_model : jstr;
  cf_auto_ban : option num;
  cf_status : Z;
  cf_status_code_mapping : jstr;
  cf_tag : jstr;
  cf_remark : jstr;
  cf_setting : jstr;
  cf_param_override : jstr;
  cf_header_override : jstr;
  cf_settings : jstr;
  cf_advanced_custom : jstr;
  cf_other : jstr;
  cf_multi_key_mode : MultiKeyMode;
  cf_multi_key_type : jstr;
  cf_batch_prefix : bool;
  cf_key_mode : KeyMode;
  (* stored in the setting column *)
  cf_force_format : jsval;
  cf_thinking_to_content : jsval;
  cf_proxy : jsval;
  cf_pass_through_body_enabled : jsval;
  cf_system_prompt : jsval;
  cf_system_prompt_override : jsval;
  (* stored in the settings column *)
  cf_is_enterprise_account : bool;
  cf_vertex_key_type : jsval;
  cf_aws_key_type : jsval;
  cf_azure_responses_version : jsval;
  cf_allow_service_tier : bool;
  cf_disable_store : bool;
  cf_allow_safety_identifier : bool;
  cf_allow_include_obfuscation : bool;
  cf_allow_inference_geo : bool;
  cf_allow_speed : bool;
  cf_claude_beta_query : bool;
  cf_disable_task_polling_sleep : bool;
  cf_check_enabled : bool;
  cf_auto_sync_enabled : bool;
  cf_ignored_models : jstr
}.

(** ** The check *)

(** [None] is an exception, [Some JUndef] is [undefined]. *)
Definition parseOptionalJson (value : jstr) : option jsval :=
  if non_empty (trim value) then parse value else Some JUndef.

Definition isJsonObjectValue (v : jsval) : bool := match v with JObj _ => true | _ => false end.

Definition isOptionalJsonObject (value : jstr) : bool :=
  match parseOptionalJson value with Some JUndef => true | Some v => isJsonObjectValue v | None => false end.

Definition is_string (v : jsval) : bool := match v with JStr _ => true | _ => false end.

Definition isOptionalModelMapping (value : jstr) : bool :=
  match parseOptionalJson value with
  | Some JUndef => true
  | Some (JObj o) => forallb is_string (obj_values o)
  | _ => false
  end.

Definition status_code_number (n : num) : bool := is_integer n && nle (num_of_Z 100) n && nle n (num_of_Z 599).

Definition isOptionalStatusCodeMapping (value : jstr) : bool :=
  match parseOptionalJson value with
  | Some JUndef => true
  | Some (JObj o) =>
      forallb (fun kv => status_code_number (num_of_string (fst kv)) && status_code_number (js_to_number (snd kv))) o
  | _ => false
  end.

Definition filled_string (v : jsval) : bool := match v with JStr s => non_empty (trim s) | _ => false end.

Definition isCodexCredential (value : jstr) : bool :=
  match parseOptionalJson value with
  | Some JUndef => true
  | Some (JObj o) => filled_string (prop o "access_token") && filled_string (prop o "account_id")
  | _ => false
  end.

Definition isVertexJsonKey (value : jstr) : bool :=
  match parseOptionalJson value with
  | Some JUndef => true
  | Some (JArr l) => forallb isJsonObjectValue l
  | Some v => isJsonObjectValue v
  | None => false
  end.

Definition type_in (l : list Z) (type : Z) : bool := bool_decide (type ∈ l).

Definition is_boolean (v : jsval) : bool := match v with JBool _ => true | _ => false end.
Definition one_of_texts (l : list jstr) (v : jsval) : bool := match v with JStr s => bool_decide (s ∈ l) | _ => false end.
Definition optional_number (n : option num) : bool := match n with Some x => is_finite x | None => true end.

(** The fields have their types. *)
Definition types_valid (f : ChannelFormValues) : bool :=
  optional_number (cf_priority f) && optional_number (cf_weight f) && optional_number (cf_auto_ban f)
  && one_of_texts ["random"; "polling"] (JStr (cf_multi_key_type f))
  && forallb is_boolean [cf_force_format f; cf_thinking_to_content f; cf_pass_through_body_enabled f; cf_system_prompt_override f]
  && forallb is_string [cf_proxy f; cf_system_prompt f; cf_azure_responses_version f]
  && one_of_texts ["json"; "api_key"] (cf_vertex_key_type f) && one_of_texts ["ak_sk"; "api_key"] (cf_aws_key_type f).

(** The check of the fields one by one. *)
Definition fields_valid (f : ChannelFormValues) : bool :=
  non_empty (cf_name f) && (0 <=? cf_type f)%Z && non_empty (cf_models f) && negb (length (cf_group f) =? 0)%nat
  && isOptionalModelMapping (cf_model_mapping f) && isOptionalStatusCodeMapping (cf_status_code_mapping f)
  && (length (cf_remark f) <=? 255)%nat
  && forallb isOptionalJsonObject [cf_setting f; cf_param_override f; cf_header_override f; cf_settings f].

Section Check.
Context `{UrlParser}.

(** What an advanced custom channel needs. *)
Definition advanced_custom_valid (f : ChannelFormValues) : res bool :=
  let advancedCustomConfig := parseAdvancedCustomConfig (Some (cf_advanced_custom f)) in
  let* advancedCustomError := validateAdvancedCustomConfig advancedCustomConfig in
  let* relative := advancedCustomConfigUsesRelativeUpstreamPath advancedCustomConfig in
  Ok ((match advancedCustomError with None => true | Some _ => false end)
      && negb (relative && negb (non_empty (trim (cf_base_url f))))).

Definition many_keys (f : ChannelFormValues) : bool := negb (cf_multi_key_mode f ==? Single).

(** [schema.safeParse(f).success]. Values of a wrong type end the check; an exception of the
    advanced check is thrown on. *)
Definition channelFormSchema (f : ChannelFormValues) : res bool :=
  let type := cf_type f in
  if negb (types_valid f) then Ok false
  else
    let* advanced := (if (type =? CHANNEL_TYPE_ADVANCED_CUSTOM)%Z then advanced_custom_valid f else Ok true) in
    Ok (fields_valid f
        && negb (type_in [3; 8; 36; 45]%Z type && negb (non_empty (trim (cf_base_url f))))
        && advanced
        && negb (type_in [3; 18; 21; 39; 41; 49]%Z type && negb (non_empty (trim (cf_other f))))
        && negb ((type =? 57)%Z && many_keys f)
        && negb ((type =? 57)%Z && non_empty (trim (cf_key f)) && negb (isCodexCredential (cf_key f)))
        && negb ((type =? 41)%Z && (cf_vertex_key_type f ==? JStr "json") && non_empty (trim (cf_key f))
                 && negb (isVertexJsonKey (cf_key f)))
        && negb ((type =? 41)%Z && (cf_vertex_key_type f ==? JStr "api_key") && many_keys f)).
End Check.

(** ** Lists in text *)

(** The names of a comma-separated text. *)
Definition parseModels (models : jstr) : list jstr := List.filter non_empty (map trim (split "," models)).
Definition parseGroups (groups : jstr) : list jstr := List.filter non_empty (map trim (split "," groups)).
Definition formatModels (models : list jstr) : jstr := join "," models.
Definition formatGroups (groups : list jstr) : jstr := join "," groups.

Definition validateJSON (value : jstr) : bool :=
  if non_empty (trim value) then match parse value with Some _ => true | None => false end else true.

Definition validateModelMapping (value : jstr) : bool := if non_empty (trim value) then validateJSON value else true.

(** ** A stored channel opens *)

Definition CHANNEL_FORM_DEFAULT_VALUES : ChannelFormValues :=
  {| cf_name := []; cf_type := 1; cf_base_url := []; cf_key := []; cf_openai_organization := []; cf_models := [];
     cf_group := ["default"]; cf_model_mapping := []; cf_priority := Some nzero; cf_weight := Some nzero;
     cf_test_model := []; cf_auto_ban := Some (num_of_Z 1); cf_status := 1; cf_status_code_mapping := []; cf_tag := [];
     cf_remark := []; cf_setting := []; cf_param_override := []; cf_header_override := []; cf_settings := "{}";
     cf_advanced_custom := []; cf_other := []; cf_multi_key_mode := Single; cf_multi_key_type := "random";
     cf_batch_prefix := false; cf_key_mode := KeyAppend; cf_force_format := JBool false;
     cf_thinking_to_content := JBool false; cf_proxy := JStr []; cf_pass_through_body_enabled := JBool false;
     cf_system_prompt := JStr []; cf_system_prompt_override := JBool false; cf_is_enterprise_account := false;
     cf_vertex_key_type := JStr "json"; cf_aws_key_type := JStr "ak_sk"; cf_azure_responses_version := JStr [];
     cf_allow_service_tier := false; cf_disable_store := false; cf_allow_safety_identifier := false;
     cf_allow_include_obfuscation := false; cf_allow_inference_geo := false; cf_allow_speed := false;
     cf_claude_beta_query := false; cf_disable_task_polling_sleep := false; cf_check_enabled := false;
     cf_auto_sync_enabled := false; cf_ignored_models := [] |}.

(** What a JSON column reads as; [None] when reading any field of it would throw. *)
Definition column_value (text : jstr) : option jsval :=
  match text with
  | [] => None
  | _ => match parse text with Some JNull | None => None | v => v end
  end.

(** [parsed.key], on a value that is not [null] *)
Definition field (column : option jsval) (key : jstr) : jsval :=
  match column with Some (JObj o) => prop o key | _ => JUndef end.

Definition text_or_blank (v : option jstr) : jstr := default [] v.

Section Opening.
Context {A : Type}.

Definition transformChannelToFormDefaults (channel : Channel A) : ChannelFormValues :=
  let setting := field (column_value (text_or_blank (ch_setting channel))) in
  let settings := field (column_value (ch_settings channel)) in
  let on key := settings key ==? JBool true in
  {| cf_name := ch_name channel; cf_type := ch_type channel; cf_base_url := text_or_blank (ch_base_url channel);
     cf_key := []; cf_openai_organization := text_or_blank (ch_openai_organization channel);
     cf_models := ch_models channel; cf_group := parseGroups (str_or (ch_group channel) "default");
     cf_model_mapping := text_or_blank (ch_model_mapping channel);
     cf_priority := Some (num_or (default nzero (ch_priority channel)) nzero);
     cf_weight := Some (num_or (default nzero (ch_weight channel)) nzero);
     cf_test_model := text_or_blank (ch_test_model channel);
     cf_auto_ban := Some (default (num_of_Z 1) (ch_auto_ban channel)); cf_status := ch_status channel;
     cf_status_code_mapping := text_or_blank (ch_status_code_mapping channel); cf_tag := text_or_blank (ch_tag channel);
     cf_remark := text_or_blank (ch_remark channel); cf_setting := text_or_blank (ch_setting channel);
     cf_param_override := text_or_blank (ch_param_override channel);
     cf_header_override := text_or_blank (ch_header_override channel); cf_settings := str_or (ch_settings channel) "{}";
     cf_advanced_custom :=
       (if truthy (settings "advanced_custom") then res_catch (stringifyAdvancedCustomConfig (settings "advanced_custom")) []
        else []);
     cf_other := ch_other channel; cf_multi_key_mode := Single;
     cf_multi_key_type := str_or (ci_multi_key_mode (ch_channel_info channel)) "random"; cf_batch_prefix := false;
     cf_key_mode := KeyAppend;
     cf_force_format := js_or (setting "force_format") (JBool false);
     cf_thinking_to_content := js_or (setting "thinking_to_content") (JBool false);
     cf_proxy := js_or (setting "proxy") (JStr []);
     cf_pass_through_body_enabled := js_or (setting "pass_through_body_enabled") (JBool false);
     cf_system_prompt := js_or (setting "system_prompt") (JStr []);
     cf_system_prompt_override := js_or (setting "system_prompt_override") (JBool false);
     cf_is_enterprise_account := on "openrouter_enterprise";
     cf_vertex_key_type := js_or (settings "vertex_key_type") (JStr "json");
     cf_aws_key_type := js_or (settings "aws_key_type") (JStr "ak_sk");
     cf_azure_responses_version := js_or (settings "azure_responses_version") (JStr []);
     cf_allow_service_tier := on "allow_service_tier"; cf_disable_store := on "disable_store";
     cf_allow_safety_identifier := on "allow_safety_identifier";
     cf_allow_include_obfuscation := on "allow_include_obfuscation"; cf_allow_inference_geo := on "allow_inference_geo";
     cf_allow_speed := on "allow_speed"; cf_claude_beta_query := on "claude_beta_query";
     cf_disable_task_polling_sleep := on "disable_task_polling_sleep";
     cf_check_enabled := on "upstream_model_update_check_enabled";
     cf_auto_sync_enabled := on "upstream_model_update_auto_sync_enabled";
     cf_ignored_models :=
       (match settings "upstream_model_update_ignored_models" with JArr l => js_to_string (JArr l) | _ => [] end) |}.
End Opening.

(** ** What is sent *)

Definition MODEL_FETCHABLE_TYPES : list Z := [1; 4; 14; 17; 20; 23; 24; 25; 26; 27; 31; 34; 35; 40; 42; 43; 47; 48; 59]%Z.

Definition setting_object (f : ChannelFormValues) : jsobj :=
  [ ("force_format", js_or (cf_force_format f) (JBool false));
    ("thinking_to_content", js_or (cf_thinking_to_content f) (JBool false));
    ("proxy", js_or (cf_proxy f) (JStr []));
    ("pass_through_body_enabled", js_or (cf_pass_through_body_enabled f) (JBool false));
    ("system_prompt", js_or (cf_system_prompt f) (JStr []));
    ("system_prompt_override", js_or (cf_system_prompt_override f) (JBool false)) ].

Definition buildSettingJSON (f : ChannelFormValues) : jstr := stringify (JObj (setting_object f)).

(** [if (b) o[key] = v else if (key in o) delete o[key]] *)
Definition put_or_delete (b : bool) (key : jstr) (v : jsval) (o : jsobj) : jsobj :=
  if b then obj_set key v o else obj_delete key o.

Definition put_if (b : bool) (key : jstr) (v : jsval) (o : jsobj) : jsobj := if b then obj_set key v o else o.

(** The names of the ignored models, without repetitions. *)
Definition ignored_list (text : jstr) : list jstr := uniq (parseModels text).

(** The settings of the upstream model update. *)
Definition upstream_settings (f : ChannelFormValues) (o : jsobj) : jsobj :=
  let check := cf_check_enabled f in
  let o := obj_set "upstream_model_update_check_enabled" (JBool check) o in
  let o := obj_set "upstream_model_update_auto_sync_enabled" (JBool (check && cf_auto_sync_enabled f)) o in
  let o := obj_set "upstream_model_update_ignored_models" (JArr (map JStr (ignored_list (cf_ignored_models f)))) o in
  let o :=
    put_if (negb (match prop o "upstream_model_update_last_detected_models" with JArr _ => true | _ => false end) || negb check)
      "upstream_model_update_last_detected_models" (JArr []) o in
  put_if (match prop o "upstream_model_update_last_check_time" with JNum _ => false | _ => true end)
    "upstream_model_update_last_check_time" (JNum nzero) o.

(** The settings of the type, set on the object of the former settings. *)
Definition build_settings (f : ChannelFormValues) (o : jsobj) : jsobj :=
  let type := cf_type f in
  let o := put_or_delete (type =? 41)%Z "vertex_key_type" (js_or (cf_vertex_key_type f) (JStr "json")) o in
  let o := put_or_delete ((type =? 3)%Z && truthy (cf_azure_responses_version f)) "azure_responses_version"
             (cf_azure_responses_version f) o in
  let o := put_or_delete (type =? 20)%Z "openrouter_enterprise" (JBool (cf_is_enterprise_account f)) o in
  let o := put_or_delete (type =? 33)%Z "aws_key_type" (js_or (cf_aws_key_type f) (JStr "ak_sk")) o in
  let o := put_or_delete (type_in [1; 14; 57]%Z type) "allow_service_tier" (JBool (cf_allow_service_tier f)) o in
  let openai := type_in [1; 57]%Z type in
  let o := put_or_delete openai "disable_store" (JBool (cf_disable_store f)) o in
  let o := put_or_delete openai "allow_safety_identifier" (JBool (cf_allow_safety_identifier f)) o in
  let o := put_or_delete openai "allow_include_obfuscation" (JBool (cf_allow_include_obfuscation f)) o in
  let o :=
    if openai then obj_set "allow_inference_geo" (JBool (cf_allow_inference_geo f)) o
    else if negb (type =? 14)%Z then obj_delete "allow_inference_geo" o else o in
  let anthropic := (type =? 14)%Z in
  let o := put_if anthropic "allow_inference_geo" (JBool (cf_allow_inference_geo f)) o in
  let o := put_or_delete anthropic "allow_speed" (JBool (cf_allow_speed f)) o in
  let o := put_or_delete anthropic "claude_beta_query" (JBool (cf_claude_beta_query f)) o in
  let o := obj_set "disable_task_polling_sleep" (JBool (cf_disable_task_polling_sleep f)) o in
  let o := if type_in MODEL_FETCHABLE_TYPES type then upstream_settings f o else o in
  if (type =? CHANNEL_TYPE_ADVANCED_CUSTOM)%Z
  then
    match parseAdvancedCustomConfig (Some (cf_advanced_custom f)) with
    | Some config => obj_set "advanced_custom" config o
    | None => o
    end
  else obj_delete "advanced_custom" o.

(** Properties set on an array have no text, and cannot be set on other values. *)
Definition buildSettingsJSON (f : ChannelFormValues) : res jstr :=
  match (if non_empty (cf_settings f) && (cf_settings f !=? "{}") then default (JObj []) (parse (cf_settings f)) else JObj []) with
  | JObj o => Ok (stringify (JObj (build_settings f o)))
  | JArr l => Ok (stringify (JArr l))
  | _ => type_error
  end.

(** [s.replace(/\/+$/, '')] *)
Fixpoint drop_slashes (s : jstr) : jstr := match s with c :: t => if (c =? 47)%N then drop_slashes t else s | [] => [] end.

Definition normalizeBaseUrl (value : jstr) : jstr := rev (drop_slashes (rev (trim value))).

Definition text_or_null (s : jstr) : jsval := match s with [] => JNull | _ => JStr s end.
Definition number_or_null (n : option num) : jsval :=
  match n with Some x => if num_truthy x then JNum x else JNull | None => JNull end.
Definition number_or (d : num) (n : option num) : jsval := JNum (default d n).

(** Empty texts become [null]. *)
Definition blanks_to_null (o : jsobj) : jsobj := map (fun kv => (fst kv, if snd kv ==? JStr [] then JNull else snd kv)) o.

Record CreatePayload := {
  cp_mode : MultiKeyMode;
  cp_multi_key_mode : option jstr;
  cp_batch_prefix : option bool;
  cp_channel : jsobj
}.

Definition transformFormDataToCreatePayload (f : ChannelFormValues) : res CreatePayload :=
  let* settings := buildSettingsJSON f in
  Ok {| cp_mode := cf_multi_key_mode f;
        cp_multi_key_mode := (if cf_multi_key_mode f ==? MultiToSingle then Some (cf_multi_key_type f) else None);
        cp_batch_prefix := (if cf_multi_key_mode f ==? Batch then Some (cf_batch_prefix f) else None);
        cp_channel := blanks_to_null
          [ ("name", JStr (cf_name f)); ("type", JNum (num_of_Z (cf_type f)));
            ("base_url", text_or_null (normalizeBaseUrl (cf_base_url f))); ("key", JStr (cf_key f));
            ("openai_organization", text_or_null (cf_openai_organization f)); ("models", JStr (cf_models f));
            ("group", JStr (formatGroups (cf_group f))); ("model_mapping", text_or_null (cf_model_mapping f));
            ("priority", number_or_null (cf_priority f)); ("weight", number_or_null (cf_weight f));
            ("test_model", text_or_null (cf_test_model f)); ("auto_ban", number_or (num_of_Z 1) (cf_auto_ban f));
            ("status", JNum (num_of_Z (cf_status f))); ("status_code_mapping", text_or_null (cf_status_code_mapping f));
            ("tag", text_or_null (cf_tag f)); ("remark", JStr (cf_remark f)); ("setting", JStr (buildSettingJSON f));
            ("param_override", text_or_null (cf_param_override f));
            ("header_override", text_or_null (cf_header_override f)); ("settings", JStr settings);
            ("other", JStr (cf_other f)) ] |}.

Definition key_mode_text (m : KeyMode) : jstr := match m with KeyAppend => "append" | KeyReplace => "replace" end.

(** The texts an update can clear. *)
Definition cleared_texts (f : ChannelFormValues) : jsobj :=
  [ ("base_url", JStr (normalizeBaseUrl (cf_base_url f))); ("openai_organization", JStr (cf_openai_organization f));
    ("test_model", JStr (cf_test_model f)); ("tag", JStr (cf_tag f)); ("remark", JStr (cf_remark f));
    ("model_mapping", JStr (cf_model_mapping f)); ("status_code_mapping", JStr (cf_status_code_mapping f));
    ("param_override", JStr (cf_param_override f)); ("header_override", JStr (cf_header_override f)) ].

Definition update_fields (f : ChannelFormValues) (channelId : Z) (settings : jstr) : jsobj :=
  [ ("id", JNum (num_of_Z channelId)); ("name", JStr (cf_name f)); ("type", JNum (num_of_Z (cf_type f)));
    ("base_url", text_or_null (normalizeBaseUrl (cf_base_url f)));
    ("openai_organization", text_or_null (cf_openai_organization f)); ("models", JStr (cf_models f));
    ("group", JStr (formatGroups (cf_group f))); ("model_mapping", text_or_null (cf_model_mapping f));
    ("priority", number_or nzero (cf_priority f)); ("weight", number_or nzero (cf_weight f));
    ("test_model", text_or_null (cf_test_model f)); ("auto_ban", number_or (num_of_Z 1) (cf_auto_ban f));
    ("status_code_mapping", text_or_null (cf_status_code_mapping f)); ("tag", text_or_null (cf_tag f));
    ("remark", JStr (cf_remark f)); ("setting", JStr (buildSettingJSON f));
    ("param_override", text_or_null (cf_param_override f)); ("header_override", text_or_null (cf_header_override f));
    ("settings", JStr settings); ("other", JStr (cf_other f)) ]
  ++ (if non_empty (trim (cf_key f))
      then [("key" : jstr, JStr (cf_key f)); ("key_mode" : jstr, JStr (key_mode_text (cf_key_mode f)))] else []).

Definition transformFormDataToUpdatePayload (f : ChannelFormValues) (channelId : Z) : res jsobj :=
  let* settings := buildSettingsJSON f in
  Ok (obj_spread (blanks_to_null (update_fields f channelId settings)) (cleared_texts f)).

(** ** The update of an administrator *)

Definition SENSITIVE_UPDATE_FIELDS : list jstr :=
  [ "type"; "key"; "base_url"; "openai_organization"; "param_override"; "header_override"; "setting"; "settings"; "other";
    "key_mode" ].

(** What the update request carries. *)
Definition update_request (canEditSensitive : bool) (f : ChannelFormValues) (channelId : Z) : res jsobj :=
  let* payload := transformFormDataToUpdatePayload f channelId in
  let payload := if non_empty (trim (cf_key f)) then payload else obj_delete "key" payload in
  Ok (if canEditSensitive then payload else fold_left (fun o key => obj_delete key o) SENSITIVE_UPDATE_FIELDS payload).

(** ** Errors of the form *)

Definition ADVANCED_SETTINGS_FIELDS : list jstr :=
  [ "priority"; "weight"; "test_model"; "auto_ban"; "tag"; "remark"; "param_override"; "header_override";
    "status_code_mapping"; "advanced_custom"; "force_format"; "thinking_to_content"; "pass_through_body_enabled"; "proxy";
    "system_prompt"; "system_prompt_override"; "allow_service_tier"; "disable_store"; "allow_safety_identifier";
    "allow_include_obfuscation"; "allow_inference_geo"; "allow_speed"; "claude_beta_query"; "disable_task_polling_sleep";
    "upstream_model_update_check_enabled"; "upstream_model_update_auto_sync_enabled";
    "upstream_model_update_ignored_models" ].

Definition isAdvancedSettingsField (fieldName : jstr) : bool := bool_decide (fieldName ∈ ADVANCED_SETTINGS_FIELDS).
Definition hasAdvancedSettingsErrors (errors : list jstr) : bool := existsb isAdvancedSettingsField errors.
