(* ===== verification/ChannelFormProofs.v ===== *)
(** * The channel form: what is sent and what opens again

    Companion of [ChannelForm]: the settings a form writes, key by key, and what an
    administrator without the right to secrets can send. *)
From S2P Require Import Prelude JsString JsNumber JsValue Json AdvancedCustom AdvancedCustomProofs ChannelForm.

(** ** Settings *)

Lemma get_put_or_delete b k v o k' :
  obj_get k' (put_or_delete b k v o) = if k' ==? k then (if b then Some v else None) else obj_get k' o.
Proof. destruct b; cbn [put_or_delete]; [apply obj_get_set|apply obj_get_delete]. Qed.

Lemma get_put_if b k v o k' : obj_get k' (put_if b k v o) = if (k' ==? k) && b then Some v else obj_get k' o.
Proof. destruct b; cbn [put_if]; [rewrite obj_get_set|]; by destruct (k' ==? k). Qed.

(** The value a key has in the settings written from a form and the former settings. *)
Definition settings_field (f : ChannelFormValues) (old : jsobj) (key : jstr) : option jsval :=
  let type := cf_type f in
  let only (b : bool) (v : jsval) := if b then Some v else None in
  let openai := type_in [1; 57]%Z type in
  let anthropic := (type =? 14)%Z in
  let fetchable := type_in MODEL_FETCHABLE_TYPES type in
  let fetched (v : jsval) := if fetchable then Some v else obj_get key old in
  let check := cf_check_enabled f in
  if key ==? "vertex_key_type" then only (type =? 41)%Z (js_or (cf_vertex_key_type f) (JStr "json"))
  else if key ==? "azure_responses_version"
  then only ((type =? 3)%Z && truthy (cf_azure_responses_version f)) (cf_azure_responses_version f)
  else if key ==? "openrouter_enterprise" then only (type =? 20)%Z (JBool (cf_is_enterprise_account f))
  else if key ==? "aws_key_type" then only (type =? 33)%Z (js_or (cf_aws_key_type f) (JStr "ak_sk"))
  else if key ==? "allow_service_tier" then only (type_in [1; 14; 57]%Z type) (JBool (cf_allow_service_tier f))
  else if key ==? "disable_store" then only openai (JBool (cf_disable_store f))
  else if key ==? "allow_safety_identifier" then only openai (JBool (cf_allow_safety_identifier f))
  else if key ==? "allow_include_obfuscation" then only openai (JBool (cf_allow_include_obfuscation f))
  else if key ==? "allow_inference_geo" then only (openai || anthropic) (JBool (cf_allow_inference_geo f))
  else if key ==? "allow_speed" then only anthropic (JBool (cf_allow_speed f))
  else if key ==? "claude_beta_query" then only anthropic (JBool (cf_claude_beta_query f))
  else if key ==? "disable_task_polling_sleep" then Some (JBool (cf_disable_task_polling_sleep f))
  else if key ==? "upstream_model_update_check_enabled" then fetched (JBool check)
  else if key ==? "upstream_model_update_auto_sync_enabled" then fetched (JBool (check && cf_auto_sync_enabled f))
  else if key ==? "upstream_model_update_ignored_models"
  then fetched (JArr (map JStr (ignored_list (cf_ignored_models f))))
  else if key ==? "upstream_model_update_last_detected_models"
  then fetched (match prop old key with JArr l => JArr (if check then l else []) | _ => JArr [] end)
  else if key ==? "upstream_model_update_last_check_time"
  then fetched (match prop old key with JNum n => JNum n | _ => JNum nzero end)
  else if key ==? "advanced_custom"
  then
    if (type =? CHANNEL_TYPE_ADVANCED_CUSTOM)%Z
    then match parseAdvancedCustomConfig (Some (cf_advanced_custom f)) with Some config => Some config | None => obj_get key old end
    else None
  else obj_get key old.

(** Either [k] is [key], or no comparison with [key] succeeds. *)
Ltac on_key k key :=
  destruct (decide (k = key)) as [->|?]; [closed_keys|rewrite ?(bool_decide_false (k = key)) by assumption]; cbn [andb].

Lemma get_upstream f o k :
  obj_get k (upstream_settings f o) =
    if k ==? "upstream_model_update_check_enabled" then Some (JBool (cf_check_enabled f))
    else if k ==? "upstream_model_update_auto_sync_enabled" then Some (JBool (cf_check_enabled f && cf_auto_sync_enabled f))
    else if k ==? "upstream_model_update_ignored_models" then Some (JArr (map JStr (ignored_list (cf_ignored_models f))))
    else if k ==? "upstream_model_update_last_detected_models"
    then Some (match prop o k with JArr l => JArr (if cf_check_enabled f then l else []) | _ => JArr [] end)
    else if k ==? "upstream_model_update_last_check_time"
    then Some (match prop o k with JNum n => JNum n | _ => JNum nzero end)
    else obj_get k o.
Proof.
  unfold upstream_settings. cbn zeta. unfold prop. rewrite !get_put_if, !obj_get_set. closed_keys. cbn [andb].
  on_key k ("upstream_model_update_last_check_time" : jstr).
  { destruct (obj_get _ o) as [[]|] eqn:E; cbn; by rewrite ?E. }
  on_key k ("upstream_model_update_last_detected_models" : jstr).
  { destruct (obj_get _ o) as [[]|] eqn:E; cbn; rewrite ?E; cbn; by destruct (cf_check_enabled f). }
  on_key k ("upstream_model_update_ignored_models" : jstr); [done|].
  on_key k ("upstream_model_update_auto_sync_enabled" : jstr); [done|].
  by destruct (k ==? "upstream_model_update_check_enabled").
Qed.

Lemma get_geo (openai anthropic : bool) key v o k :
  obj_get k (put_if anthropic key v
    (if openai then obj_set key v o else if negb anthropic then obj_delete key o else o))
  = if k ==? key then (if openai || anthropic then Some v else None) else obj_get k o.
Proof.
  rewrite get_put_if. destruct openai, anthropic; cbn [negb orb andb]; rewrite ?obj_get_set, ?obj_get_delete;
    by destruct (k ==? key).
Qed.

Lemma get_advanced f o k :
  obj_get k (if (cf_type f =? CHANNEL_TYPE_ADVANCED_CUSTOM)%Z
             then match parseAdvancedCustomConfig (Some (cf_advanced_custom f)) with
                  | Some config => obj_set "advanced_custom" config o
                  | None => o
                  end
             else obj_delete "advanced_custom" o)
  = if k ==? "advanced_custom"
    then
      if (cf_type f =? CHANNEL_TYPE_ADVANCED_CUSTOM)%Z
      then match parseAdvancedCustomConfig (Some (cf_advanced_custom f)) with Some config => Some config | None => obj_get k o end
      else None
    else obj_get k o.
Proof.
  destruct (_ =? _)%Z; [destruct (parseAdvancedCustomConfig _)|]; rewrite ?obj_get_set, ?obj_get_delete; by destruct (k ==? _).
Qed.

Lemma get_fetched f (b : bool) o k :
  obj_get k (if b then upstream_settings f o else o) = if b then obj_get k (upstream_settings f o) else obj_get k o.
Proof. by destruct b. Qed.

(** Both sides agree on [key]; any other [k] is not [key]. *)
Ltac other_key k key :=
  destruct (decide (k = key)) as [->|?];
  [repeat (closed_key; cbv iota); by destruct (type_in MODEL_FETCHABLE_TYPES _)|rewrite !(bool_decide_false (k = key)) by assumption].

(** What the form writes under each key, whatever the order of the steps. *)
Lemma get_settings f old k : obj_get k (build_settings f old) = settings_field f old k.
Proof.
  unfold build_settings, settings_field. cbn zeta. rewrite get_advanced, get_fetched, get_upstream.
  unfold prop. rewrite !obj_get_set, !get_put_or_delete, !get_geo, !get_put_or_delete.
  other_key k ("vertex_key_type" : jstr).
  other_key k ("azure_responses_version" : jstr).
  other_key k ("openrouter_enterprise" : jstr).
  other_key k ("aws_key_type" : jstr).
  other_key k ("allow_service_tier" : jstr).
  other_key k ("disable_store" : jstr).
  other_key k ("allow_safety_identifier" : jstr).
  other_key k ("allow_include_obfuscation" : jstr).
  other_key k ("allow_inference_geo" : jstr).
  other_key k ("allow_speed" : jstr).
  other_key k ("claude_beta_query" : jstr).
  other_key k ("disable_task_polling_sleep" : jstr).
  other_key k ("upstream_model_update_check_enabled" : jstr).
  other_key k ("upstream_model_update_auto_sync_enabled" : jstr).
  other_key k ("upstream_model_update_ignored_models" : jstr).
  other_key k ("upstream_model_update_last_detected_models" : jstr).
  other_key k ("upstream_model_update_last_check_time" : jstr).
  by destruct (k ==? "advanced_custom"), (type_in MODEL_FETCHABLE_TYPES _).
Qed.

(** The object the form's settings text holds. *)
Definition former_settings (f : ChannelFormValues) : jsobj :=
  match parse (cf_settings f) with Some (JObj o) => o | _ => [] end.

Lemma settings_text f : isOptionalJsonObject (cf_settings f) = true ->
  buildSettingsJSON f = Ok (stringify (JObj (build_settings f (former_settings f)))).
Proof.
  unfold isOptionalJsonObject, parseOptionalJson, buildSettingsJSON, former_settings.
  destruct (cf_settings f) as [|c s] eqn:E; [done|]. cbn [non_empty andb].
  destruct (decide (c :: s = "{}")) as [->|Hne]; [done|]. rewrite bool_decide_false by done. cbn [negb].
  destruct (non_empty (trim (c :: s))) eqn:Et.
  - pose proof (parse_not_undefined (c :: s)). destruct (parse (c :: s)) as [v|]; [|done]. by destruct v.
  - intros _. rewrite parse_blank; [done|]. by destruct (trim (c :: s)).
Qed.

(** C24: saving a channel writes every key of its settings that the form does not manage as it
    was, whatever it holds, and under each managed key exactly the value that belongs to the
    channel's type, or nothing when the type has no such setting. *)
Theorem settings_written f : isOptionalJsonObject (cf_settings f) = true ->
  exists o, buildSettingsJSON f = Ok (stringify (JObj o)) /\ forall key, obj_get key o = settings_field f (former_settings f) key.
Proof.
  intros H. exists (build_settings f (former_settings f)). split; [by apply settings_text|]. intros key. apply get_settings.
Qed.

(** A stored channel of Anthropic, with a setting of another program. *)
Definition demo_channel : Channel unit :=
  {| ch_id := 7; ch_type := 14; ch_key := "sk"; ch_openai_organization := None; ch_test_model := None; ch_status := 1;
     ch_name := "claude"; ch_weight := Some nzero; ch_created_time := tt; ch_test_time := tt; ch_response_time := tt;
     ch_cooldown_until := tt; ch_failure_count := 0; ch_base_url := Some ("https://host/" : jstr);
     ch_other := "old"; ch_balance := tt; ch_balance_updated_time := tt; ch_models := "a,b"; ch_group := "default,vip"; ch_used_quota := tt;
     ch_model_mapping := None; ch_status_code_mapping := None; ch_priority := None; ch_auto_ban := None; ch_other_info := [];
     ch_tag := Some ("t" : jstr); ch_setting := Some (sq "{'proxy':'p','force_format':true}"); ch_param_override := None;
     ch_header_override := None; ch_remark := None; ch_max_input_tokens := 0;
     ch_channel_info := {| ci_is_multi_key := false; ci_multi_key_size := 0; ci_multi_key_status_list := None;
                           ci_multi_key_disabled_reason := None; ci_multi_key_disabled_time := None;
                           ci_multi_key_polling_index := 0;
                           ci_multi_key_mode := [] |};
     ch_settings := sq "{'x':1,'allow_speed':true,'disable_store':true,'upstream_model_update_ignored_models':['m','n']}" |}.

Definition demo_form : ChannelFormValues := transformChannelToFormDefaults demo_channel.

Lemma settings_written_witness :
  exists o, buildSettingsJSON demo_form = Ok (stringify (JObj o))
  /\ forall key, obj_get key o = settings_field demo_form (former_settings demo_form) key.
Proof. apply (settings_written demo_form). vm_compute. reflexivity. Defined.
