(* ===== verification/ChannelReopen.v ===== *)
(** * The channel form: a saved form opens again

    Companion of [ChannelForm]: what the server stores of an update, and that the stored
    channel opens as the form that was saved. *)
From S2P Require Import Prelude JsString JsNumber JsValue Json ModelMapping AdvancedCustom AdvancedCustomProofs ChannelForm.
From S2P Require Import ChannelFormProofs.

(** ** A saved form opens again *)

Section Reopen.
Context {A : Type}.

(** What the server stores of an update it accepts (model/channel.go, [Updates] of gorm): a
    column that is a text keeps its value when the request has none or a blank one, one that
    may be null takes every text of the request. The numbers are integers of the server: a
    request with a fraction, or a weight below zero, is refused as a whole and is no update. *)
Definition stored_text (p : jsobj) (key old : jstr) : jstr := match prop p key with JStr s => str_or s old | _ => old end.
Definition stored_option (p : jsobj) (key : jstr) (old : option jstr) : option jstr :=
  match prop p key with JStr s => Some s | _ => old end.
Definition stored_number (p : jsobj) (key : jstr) (old : option num) : option num :=
  match prop p key with JNum n => Some n | _ => old end.
Definition stored_type (p : jsobj) (old : Z) : Z :=
  match prop p "type" with
  | JNum n => match num_floor n with Some z => if (z =? 0)%Z then old else z | None => old end
  | _ => old
  end.

(** The server works out the keys and their record by itself. *)
Definition updated (p : jsobj) (key : jstr) (info : ChannelInfo) (ch : Channel A) : Channel A :=
  {| ch_id := ch_id ch; ch_type := stored_type p (ch_type ch); ch_key := key;
     ch_openai_organization := stored_option p "openai_organization" (ch_openai_organization ch);
     ch_test_model := stored_option p "test_model" (ch_test_model ch); ch_status := ch_status ch;
     ch_name := stored_text p "name" (ch_name ch); ch_weight := stored_number p "weight" (ch_weight ch);
     ch_created_time := ch_created_time ch;
     ch_test_time := ch_test_time ch; ch_response_time := ch_response_time ch; ch_cooldown_until := ch_cooldown_until ch;
     ch_failure_count := ch_failure_count ch; ch_base_url := stored_option p "base_url" (ch_base_url ch);
     ch_other := stored_text p "other" (ch_other ch); ch_balance := ch_balance ch;
     ch_balance_updated_time := ch_balance_updated_time ch;
     ch_models := stored_text p "models" (ch_models ch); ch_group := stored_text p "group" (ch_group ch);
     ch_used_quota := ch_used_quota ch; ch_model_mapping := stored_option p "model_mapping" (ch_model_mapping ch);
     ch_status_code_mapping := stored_option p "status_code_mapping" (ch_status_code_mapping ch);
     ch_priority := stored_number p "priority" (ch_priority ch); ch_auto_ban := stored_number p "auto_ban" (ch_auto_ban ch);
     ch_other_info := stored_text p "other_info" (ch_other_info ch); ch_tag := stored_option p "tag" (ch_tag ch); ch_setting := stored_option p "setting" (ch_setting ch);
     ch_param_override := stored_option p "param_override" (ch_param_override ch);
     ch_header_override := stored_option p "header_override" (ch_header_override ch);
     ch_remark := stored_option p "remark" (ch_remark ch); ch_max_input_tokens := ch_max_input_tokens ch; ch_channel_info := info;
     ch_settings := stored_text p "settings" (ch_settings ch) |}.

(** The form of a saved channel: what was entered, with the fields the channel's type does
    not have at their defaults. *)
Definition settled (f : ChannelFormValues) (ch : Channel A) : ChannelFormValues :=
  let type := cf_type f in
  let old := former_settings f in
  let openai := type_in [1; 57]%Z type in
  let fetchable := type_in MODEL_FETCHABLE_TYPES type in
  let on key := prop old key ==? JBool true in
  {| cf_name := cf_name f; cf_type := type; cf_base_url := normalizeBaseUrl (cf_base_url f); cf_key := [];
     cf_openai_organization := cf_openai_organization f; cf_models := cf_models f; cf_group := cf_group f;
     cf_model_mapping := cf_model_mapping f; cf_priority := Some (num_or (default nzero (cf_priority f)) nzero);
     cf_weight := Some (num_or (default nzero (cf_weight f)) nzero); cf_test_model := cf_test_model f;
     cf_auto_ban := Some (default (num_of_Z 1) (cf_auto_ban f)); cf_status := ch_status ch;
     cf_status_code_mapping := cf_status_code_mapping f; cf_tag := cf_tag f; cf_remark := cf_remark f;
     cf_setting := buildSettingJSON f; cf_param_override := cf_param_override f;
     cf_header_override := cf_header_override f; cf_settings := stringify (JObj (build_settings f old));
     cf_advanced_custom :=
       (if (type =? CHANNEL_TYPE_ADVANCED_CUSTOM)%Z
        then match parseAdvancedCustomConfig (Some (cf_advanced_custom f)) with Some config => stringify2 config | None => [] end
        else []);
     cf_other := str_or (cf_other f) (ch_other ch); cf_multi_key_mode := Single;
     cf_multi_key_type := str_or (ci_multi_key_mode (ch_channel_info ch)) "random"; cf_batch_prefix := false;
     cf_key_mode := KeyAppend; cf_force_format := cf_force_format f; cf_thinking_to_content := cf_thinking_to_content f;
     cf_proxy := cf_proxy f; cf_pass_through_body_enabled := cf_pass_through_body_enabled f;
     cf_system_prompt := cf_system_prompt f; cf_system_prompt_override := cf_system_prompt_override f;
     cf_is_enterprise_account := (type =? 20)%Z && cf_is_enterprise_account f;
     cf_vertex_key_type := (if (type =? 41)%Z then cf_vertex_key_type f else JStr "json");
     cf_aws_key_type := (if (type =? 33)%Z then cf_aws_key_type f else JStr "ak_sk");
     cf_azure_responses_version := (if (type =? 3)%Z then cf_azure_responses_version f else JStr []);
     cf_allow_service_tier := type_in [1; 14; 57]%Z type && cf_allow_service_tier f;
     cf_disable_store := openai && cf_disable_store f;
     cf_allow_safety_identifier := openai && cf_allow_safety_identifier f;
     cf_allow_include_obfuscation := openai && cf_allow_include_obfuscation f;
     cf_allow_inference_geo := (openai || (type =? 14)%Z) && cf_allow_inference_geo f;
     cf_allow_speed := (type =? 14)%Z && cf_allow_speed f; cf_claude_beta_query := (type =? 14)%Z && cf_claude_beta_query f;
     cf_disable_task_polling_sleep := cf_disable_task_polling_sleep f;
     cf_check_enabled := (if fetchable then cf_check_enabled f else on "upstream_model_update_check_enabled");
     cf_auto_sync_enabled :=
       (if fetchable then cf_check_enabled f && cf_auto_sync_enabled f else on "upstream_model_update_auto_sync_enabled");
     cf_ignored_models :=
       (if fetchable then formatModels (ignored_list (cf_ignored_models f))
        else match prop old "upstream_model_update_ignored_models" with JArr l => js_to_string (JArr l) | _ => [] end) |}.

(** *** The request, field by field *)

Lemma get_blanks k o : obj_get k (blanks_to_null o) = option_map (fun v => if v ==? JStr [] then JNull else v) (obj_get k o).
Proof. unfold blanks_to_null. induction o as [|[k' v] o IH]; cbn; [done|]. by destruct (k ==? k'). Qed.

Lemma cleared_keys f : NoDup (obj_keys (cleared_texts f)).
Proof. apply (bool_decide_eq_true (NoDup _)). vm_compute. reflexivity. Qed.

Lemma get_request f id settings k :
  obj_get k (obj_spread (blanks_to_null (update_fields f id settings)) (cleared_texts f))
  = match obj_get k (cleared_texts f) with
    | Some v => Some v
    | None => option_map (fun v => if v ==? JStr [] then JNull else v) (obj_get k (update_fields f id settings))
    end.
Proof. rewrite obj_get_spread by apply cleared_keys. by rewrite get_blanks. Qed.

Section Request.
Variables (f : ChannelFormValues) (id : Z) (settings : jstr).
Let request := obj_spread (blanks_to_null (update_fields f id settings)) (cleared_texts f).

Lemma cleared_option k s old : obj_get k (cleared_texts f) = Some (JStr s) -> stored_option request k old = Some s.
Proof. intros H. unfold stored_option, prop, request. by rewrite get_request, H. Qed.

Lemma sent_text k s old : obj_get k (cleared_texts f) = None -> obj_get k (update_fields f id settings) = Some (JStr s) ->
  stored_text request k old = str_or s old.
Proof. intros H1 H2. unfold stored_text, prop, request. rewrite get_request, H1, H2. by destruct s. Qed.

Lemma sent_option k s old : s <> [] ->
  obj_get k (cleared_texts f) = None -> obj_get k (update_fields f id settings) = Some (JStr s) ->
  stored_option request k old = Some s.
Proof. intros Hs H1 H2. unfold stored_option, prop, request. rewrite get_request, H1, H2. by destruct s. Qed.

Lemma sent_number k n : obj_get k (cleared_texts f) = None -> obj_get k (update_fields f id settings) = Some (JNum n) ->
  prop request k = JNum n.
Proof. intros H1 H2. unfold prop, request. by rewrite get_request, H1, H2. Qed.
End Request.

Lemma stringify_object o : stringify (JObj o) <> [].
Proof. unfold stringify. rewrite ser_obj. unfold wrap. by destruct (ser_members _ _ o). Qed.

(** Finds a key in a literal object. *)
Ltac find_key := unfold cleared_texts, update_fields; cbn [app obj_get]; repeat (closed_key; cbv iota); reflexivity.

(** The stored channel, as far as the form reads it. *)
Lemma updated_fields f id settings key info ch : cf_name f <> [] -> cf_models f <> [] -> formatGroups (cf_group f) <> [] ->
  settings <> [] -> cf_type f <> 0%Z -> num_floor (num_of_Z (cf_type f)) = Some (cf_type f) ->
  let ch' := updated (obj_spread (blanks_to_null (update_fields f id settings)) (cleared_texts f)) key info ch in
  ch_name ch' = cf_name f /\ ch_type ch' = cf_type f /\ ch_base_url ch' = Some (normalizeBaseUrl (cf_base_url f))
  /\ ch_openai_organization ch' = Some (cf_openai_organization f) /\ ch_models ch' = cf_models f
  /\ ch_group ch' = formatGroups (cf_group f) /\ ch_model_mapping ch' = Some (cf_model_mapping f)
  /\ ch_priority ch' = Some (default nzero (cf_priority f)) /\ ch_weight ch' = Some (default nzero (cf_weight f))
  /\ ch_test_model ch' = Some (cf_test_model f) /\ ch_auto_ban ch' = Some (default (num_of_Z 1) (cf_auto_ban f))
  /\ ch_status_code_mapping ch' = Some (cf_status_code_mapping f) /\ ch_tag ch' = Some (cf_tag f)
  /\ ch_remark ch' = Some (cf_remark f) /\ ch_setting ch' = Some (buildSettingJSON f)
  /\ ch_param_override ch' = Some (cf_param_override f) /\ ch_header_override ch' = Some (cf_header_override f)
  /\ ch_settings ch' = settings /\ ch_other ch' = str_or (cf_other f) (ch_other ch).
Proof.
  intros Hn Hm Hg Hs Hz Ht. cbn zeta. unfold updated. cbn [ch_name ch_type ch_base_url ch_openai_organization ch_models
    ch_group ch_model_mapping ch_priority ch_weight ch_test_model ch_auto_ban ch_status_code_mapping ch_tag ch_remark
    ch_setting ch_param_override ch_header_override ch_settings ch_other].
  unfold stored_number, stored_type.
  rewrite (sent_number f id settings "type" (num_of_Z (cf_type f))), (sent_number f id settings "priority" (default nzero (cf_priority f))),
    (sent_number f id settings "weight" (default nzero (cf_weight f))),
    (sent_number f id settings "auto_ban" (default (num_of_Z 1) (cf_auto_ban f))) by find_key.
  rewrite Ht. destruct (Z.eqb_spec (cf_type f) 0) as [?|_]; [done|]. split_and!; try (first [reflexivity|eapply cleared_option; find_key]).
  - rewrite (sent_text f id settings "name" (cf_name f)) by find_key. by destruct (cf_name f).
  - rewrite (sent_text f id settings "models" (cf_models f)) by find_key. by destruct (cf_models f).
  - rewrite (sent_text f id settings "group" (formatGroups (cf_group f))) by find_key. by destruct (formatGroups (cf_group f)).
  - apply sent_option; [apply stringify_object|find_key|find_key].
  - rewrite (sent_text f id settings "settings" settings) by find_key. by destruct settings.
  - apply sent_text; find_key.
Qed.

(** *** The columns read back *)

Lemma column_object o : json_ok (JObj o) = true -> column_value (stringify (JObj o)) = Some (JObj o).
Proof.
  intros H. pose proof (stringify_object o) as Hn. pose proof (parse_stringify _ H) as Hp. unfold column_value.
  destruct (stringify (JObj o)); [done|]. by rewrite Hp.
Qed.

Lemma groups_kept g : forallb clean_name g = true -> g <> [] -> parseGroups (formatGroups g) = g /\ formatGroups g <> [].
Proof.
  intros Hc Hg. unfold parseGroups, formatGroups. change "," with [44%N].
  assert (forallb (without 44) g = true /\ forallb non_empty g = true) as [Hw Hn].
  { split; revert Hc; rewrite !forallb_forall; intros H x Hx%H; unfold clean_name in Hx; by bools. }
  rewrite split_join by done. split; [by apply clean_names_kept|]. intros H. by apply join_nil in H.
Qed.

Lemma join_texts l : js_to_string (JArr (map JStr l)) = join "," l.
Proof. cbn [js_to_string]. f_equal. rewrite map_map. apply map_id. Qed.

Lemma parsed_config text config : parseAdvancedCustomConfig text = Some config ->
  normalizeAdvancedCustomConfig config = Ok config /\ truthy config = true.
Proof.
  unfold parseAdvancedCustomConfig. destruct (negb _); [done|].
  destruct (json_parse _) as [v|]; [|done]. cbn [res_bind]. destruct (plain_object v); [|done].
  destruct (normalizeAdvancedCustomConfig v) as [n|] eqn:E; [|done]. cbn. intros [= <-].
  by destruct (normalize_config_idem _ _ E) as (H & routes & -> & _).
Qed.

(** *** Values that need no default *)

Lemma or_boolean v : is_boolean v = true -> js_or (js_or v (JBool false)) (JBool false) = v.
Proof. destruct v as [| |b| | | |]; try done. by destruct b. Qed.

Lemma or_string v : is_string v = true -> js_or (js_or v (JStr [])) (JStr []) = v.
Proof. destruct v as [| | | |s| |]; try done. by destruct s. Qed.

Lemma or_text l v d : [] ∉ l -> one_of_texts l v = true -> js_or v d = v /\ truthy v = true.
Proof.
  intros Hl. destruct v as [| | | |s| |]; try done. cbn. intros H%bool_decide_eq_true. unfold js_or. cbn.
  by destruct s.
Qed.

(** What the settings text of a saved form reads as. *)
Lemma settings_read f key : json_ok (JObj (build_settings f (former_settings f))) = true ->
  field (column_value (stringify (JObj (build_settings f (former_settings f))))) key
  = default JUndef (settings_field f (former_settings f) key).
Proof. intros H. rewrite column_object by done. cbn [field]. unfold prop. by rewrite get_settings. Qed.

Lemma setting_read f key : json_ok (JObj (setting_object f)) = true ->
  field (column_value (buildSettingJSON f)) key = prop (setting_object f) key.
Proof. intros H. unfold buildSettingJSON. by rewrite column_object. Qed.

(** A boolean setting reads as it was written. *)
Lemma on_only (b v : bool) : (default JUndef (if b then Some (JBool v) else None) ==? JBool true) = b && v.
Proof. by destruct b, v. Qed.

Lemma on_fetched (b v : bool) (old : option jsval) :
  (default JUndef (if b then Some (JBool v) else old) ==? JBool true) = if b then v else (default JUndef old ==? JBool true).
Proof. by destruct b, v. Qed.

(** The field of a literal key. *)
Ltac settings_key := unfold settings_field; cbv zeta; repeat (closed_key; cbv iota).

Ltac setting_key := unfold setting_object, prop; cbn [obj_get]; repeat (closed_key; cbv iota); cbn [default from_option].

Lemma schema_valid `{UrlParser} f : channelFormSchema f = Ok true ->
  types_valid f = true /\ fields_valid f = true
  /\ ((cf_type f =? CHANNEL_TYPE_ADVANCED_CUSTOM)%Z = true -> exists config, parseAdvancedCustomConfig (Some (cf_advanced_custom f)) = Some config).
Proof.
  unfold channelFormSchema. destruct (types_valid f); [|done]. cbn [negb]. intros Hv. apply res_bind_Ok in Hv as (a & E & Hv).
  injection Hv as Hv. do 5 apply andb_true_iff in Hv as [Hv _]. apply andb_true_iff in Hv as [Hv Ha].
  apply andb_true_iff in Hv as [Hv _]. split_and!; [done|done|].
  intros E58. rewrite E58 in E. unfold advanced_custom_valid in E.
  destruct (parseAdvancedCustomConfig _) as [config|]; [by exists config|]. cbn in E. injection E as <-. done.
Qed.

(** What the check gives of the fields. *)
Lemma fields_facts f : fields_valid f = true ->
  cf_name f <> [] /\ cf_models f <> [] /\ cf_group f <> [] /\ isOptionalJsonObject (cf_settings f) = true.
Proof.
  unfold fields_valid. intros H. repeat (apply andb_true_iff in H as [H ?]). split_and!.
  - by destruct (cf_name f).
  - by destruct (cf_models f).
  - by destruct (cf_group f).
  - match goal with H : forallb isOptionalJsonObject _ = true |- _ => rewrite forallb_forall in H; apply H end.
    cbn [In]. auto.
Qed.

Lemma types_facts f : types_valid f = true ->
  (forall v, v ∈ [cf_force_format f; cf_thinking_to_content f; cf_pass_through_body_enabled f; cf_system_prompt_override f] ->
    is_boolean v = true)
  /\ (forall v, v ∈ [cf_proxy f; cf_system_prompt f; cf_azure_responses_version f] -> is_string v = true)
  /\ one_of_texts ["json"; "api_key"] (cf_vertex_key_type f) = true /\ one_of_texts ["ak_sk"; "api_key"] (cf_aws_key_type f) = true.
Proof.
  unfold types_valid. intros H. apply andb_true_iff in H as [H H4]. apply andb_true_iff in H as [H H3].
  apply andb_true_iff in H as [H H2]. apply andb_true_iff in H as [_ H1]. rewrite forallb_forall in H1, H2.
  split_and!; [|..|done|done]; intros v Hv%list_elem_of_In; auto.
Qed.

(** C22: what is entered in the form of a channel and saved is what the form shows when the
    channel is opened again: every field of the channel's type as entered, the others at their
    defaults, and the settings of other programs untouched. An entry of the field [other] that
    was cleared comes back. *)
Theorem saved_form_reopens `{UrlParser} f channelId ch key info request :
  channelFormSchema f = Ok true ->
  cf_type f <> 0%Z ->
  forallb clean_name (cf_group f) = true ->
  num_floor (num_of_Z (cf_type f)) = Some (cf_type f) ->
  json_ok (JObj (setting_object f)) = true ->
  json_ok (JObj (build_settings f (former_settings f))) = true ->
  transformFormDataToUpdatePayload f channelId = Ok request ->
  str_or (ci_multi_key_mode info) "random" = str_or (ci_multi_key_mode (ch_channel_info ch)) "random" ->
  transformChannelToFormDefaults (updated request key info ch) = settled f ch.
Proof.
  intros Hvalid Hz Hg Ht Hset Hsets Hr Hmode. apply schema_valid in Hvalid as (Htypes & Hfields & Hadv).
  apply fields_facts in Hfields as (Hn & Hm & Hgn & Hs). destruct (groups_kept _ Hg Hgn) as [Hgroups Hgne].
  unfold transformFormDataToUpdatePayload in Hr. rewrite settings_text in Hr by done.
  cbn [res_bind] in Hr. apply Ok_inj in Hr as <-.
  pose proof (updated_fields f channelId _ key info ch Hn Hm Hgne (stringify_object (build_settings f (former_settings f))) Hz Ht) as E.
  cbn zeta in E. set (ch' := updated _ key info ch) in *.
  assert (ch_status ch' = ch_status ch /\ ch_channel_info ch' = info) as [Estatus Einfo] by done.
  clearbody ch'.
  destruct E as (Ename & Etype & Ebase & Eorg & Emodels & Egroup & Emap & Eprio & Eweight & Etest & Eban & Ecodes & Etag & Eremark
        & Esetting & Eparam & Eheader & Esettings & Eother).
  unfold transformChannelToFormDefaults, settled. cbv zeta.
  rewrite Ename, Etype, Ebase, Eorg, Emodels, Egroup, Emap, Eprio, Eweight, Etest, Eban, Ecodes, Etag, Eremark, Esetting,
    Eparam, Eheader, Esettings, Eother, Estatus, Einfo, Hmode.
  cbn [text_or_blank default from_option id]. rewrite !setting_read, !settings_read by done.
  destruct (types_facts f Htypes) as (Hb & Hstr & Hvertex & Haws).
  f_equal;
    first
      [ by settings_key; first [apply on_only|apply on_fetched|destruct (cf_disable_task_polling_sleep f)]
      | setting_key; first [apply or_boolean, Hb|apply or_string, Hstr]; rewrite !elem_of_cons; tauto
      | idtac ].
  - destruct (formatGroups (cf_group f)); done.
  - pose proof (stringify_object (build_settings f (former_settings f))) as Hne. by destruct (stringify _).
  - settings_key. destruct (_ =? _)%Z; [|done]. destruct Hadv as [config Hc]; [done|]. rewrite Hc.
    apply parsed_config in Hc as [Hc Ht']. cbn [default from_option id]. rewrite Ht'. unfold stringifyAdvancedCustomConfig. by rewrite Hc.
  - settings_key. destruct (_ =? 41)%Z; [|done]. apply (or_text ["json"; "api_key"]) with (d := JStr "json") in Hvertex as [E _].
    + by rewrite !E.
    + apply (bool_decide_eq_true (_ ∉ _)). vm_compute. reflexivity.
  - settings_key. destruct (_ =? 33)%Z; [|done]. apply (or_text ["ak_sk"; "api_key"]) with (d := JStr "ak_sk") in Haws as [E _].
    + by rewrite !E.
    + apply (bool_decide_eq_true (_ ∉ _)). vm_compute. reflexivity.
  - settings_key. destruct (_ =? 3)%Z; [|done]. assert (is_string (cf_azure_responses_version f) = true) as Hv
      by (apply Hstr; rewrite !elem_of_cons; tauto).
    destruct (cf_azure_responses_version f) as [| | | |s| |]; try done. by destruct s.
  - settings_key. destruct (type_in MODEL_FETCHABLE_TYPES _); [|done]. apply join_texts.
Qed.
(** The field [other] cannot be cleared: a blank one is sent as [null], which the server
    takes to leave the column as it is. *)
Theorem other_not_cleared f id request key info ch : cf_other f = [] ->
  transformFormDataToUpdatePayload f id = Ok request ->
  prop request "other" = JNull /\ ch_other (updated request key info ch) = ch_other ch.
Proof.
  unfold transformFormDataToUpdatePayload. intros Ho (settings & _ & Hp)%res_bind_Ok. apply Ok_inj in Hp as <-.
  assert (prop (obj_spread (blanks_to_null (update_fields f id settings)) (cleared_texts f)) "other" = JNull) as Hnull.
  { unfold prop. rewrite get_request. replace (obj_get "other" (cleared_texts f)) with (@None jsval) by (symmetry; find_key).
    replace (obj_get "other" (update_fields f id settings)) with (Some (JStr (cf_other f))) by (symmetry; find_key).
    by rewrite Ho. }
  split; [done|]. unfold updated, stored_text. cbn [ch_other]. by rewrite Hnull.
Qed.
End Reopen.

Definition demo_request : jsobj :=
  Eval vm_compute in match transformFormDataToUpdatePayload demo_form 7 with Ok p => p | _ => [] end.

Lemma saved_form_reopens_witness :
  transformChannelToFormDefaults (updated demo_request "sk" (ch_channel_info demo_channel) demo_channel)
  = settled demo_form demo_channel.
Proof.
  apply (saved_form_reopens (H := demo_url) demo_form 7 demo_channel "sk" (ch_channel_info demo_channel) demo_request);
    [vm_compute; reflexivity|discriminate|vm_compute; reflexivity..].
Defined.

(** What opening this channel and saving it leaves: the base URL without its slash. *)
Example demo_settled : cf_base_url (settled demo_form demo_channel) = "https://host"
  /\ cf_allow_speed (settled demo_form demo_channel) = true /\ cf_disable_store (settled demo_form demo_channel) = false.
Proof. vm_compute. auto. Qed.
