(* ===== verification/ChannelRights.v ===== *)
(** * The channel form: updates without the right to secrets

    Companion of [ChannelForm]: how the server decides whether an update needs the right to
    the sensitive fields of a channel (controller/channel_authz.go), and that what the form
    sends for an administrator without that right never does. *)
From S2P Require Import Prelude JsString JsNumber JsValue Json AdvancedCustom ChannelForm ChannelFormProofs ChannelReopen.

(** ** The rights of the server *)

(** How the server decodes a field of the request: a text, and a text that may be null. *)
Definition sent_string (p : jsobj) (key : jstr) : jstr := match prop p key with JStr s => s | _ => [] end.
Definition sent_pointer (p : jsobj) (key : jstr) : option jstr := match prop p key with JStr s => Some s | _ => None end.
Definition sent_int (p : jsobj) (key : jstr) : Z := match prop p key with JNum n => default 0%Z (num_floor n) | _ => 0%Z end.

Definition channelSensitiveFields : list jstr :=
  [ "type"; "key"; "base_url"; "openai_organization"; "header_override"; "param_override"; "setting"; "other"; "settings";
    "key_mode" ].

Definition channelOperationalFields : list jstr := ["status"].

Definition channelReadOnlyFields : list jstr :=
  [ "created_time"; "test_time"; "response_time"; "balance"; "balance_updated_time"; "used_quota"; "cooldown_until";
    "failure_count" ].

Definition channelNonSensitiveFields : list jstr :=
  [ "id"; "test_model"; "name"; "weight"; "models"; "group"; "model_mapping"; "status_code_mapping"; "priority"; "auto_ban";
    "other_info"; "tag"; "remark"; "channel_info"; "multi_key_mode" ].

Definition classified (field : jstr) : bool :=
  existsb (fun l : list jstr => bool_decide (field ∈ l))
    [channelSensitiveFields; channelNonSensitiveFields; channelOperationalFields; channelReadOnlyFields].

Section Rights.
Context {A : Type}.

Definition channelHasSensitiveChanges (p : jsobj) (origin : Channel A) : bool :=
  let changed (k : jstr) (old : option jstr) := obj_has k p && negb (sent_pointer p k ==? old) in
  (obj_has "type" p && negb (sent_int p "type" =? ch_type origin)%Z)
  || (obj_has "key" p && (sent_string p "key" !=? []) && (sent_string p "key" !=? ch_key origin))
  || changed "base_url" (ch_base_url origin)
  || changed "openai_organization" (ch_openai_organization origin)
  || changed "header_override" (ch_header_override origin)
  || changed "param_override" (ch_param_override origin)
  || changed "setting" (ch_setting origin)
  || (obj_has "other" p && (sent_string p "other" !=? ch_other origin))
  || (obj_has "settings" p && (sent_string p "settings" !=? ch_settings origin))
  || (obj_has "key_mode" p && (match prop p "key_mode" with JStr _ => true | _ => false end))
  || existsb (fun k => negb (classified k)) (obj_keys p).
End Rights.

(** ** Restricted updates *)

Lemma get_restricted l (o : jsobj) k :
  obj_get k (fold_left (fun o key => obj_delete key o) l o) = if bool_decide (k ∈ l) then None else obj_get k o.
Proof.
  revert o. induction l as [|key l IH]; intros o; cbn [fold_left]; [done|]. rewrite IH, obj_get_delete.
  destruct (decide (k = key)) as [->|Hne].
  - rewrite (bool_decide_true (key ∈ key :: l)) by set_solver. rewrite (bool_decide_true (key = key)) by done. by destruct (bool_decide _).
  - rewrite (bool_decide_false (k = key)) by done. rewrite (bool_decide_ext (k ∈ key :: l) (k ∈ l)); [done|set_solver].
Qed.

(** The keys a request can have. *)
Definition request_keys : list jstr :=
  obj_keys (update_fields CHANNEL_FORM_DEFAULT_VALUES 0 []) ++ ["key"; "key_mode"].

Lemma update_keys f id settings k : k ∈ obj_keys (update_fields f id settings) -> k ∈ request_keys.
Proof.
  unfold request_keys, update_fields, obj_keys. rewrite !map_app, !elem_of_app. intros [H|H]; [left; left; exact H|right].
  destruct (non_empty (trim (cf_key f))); [exact H|by apply elem_of_nil in H].
Qed.

Lemma cleared_in_request f k : k ∈ obj_keys (cleared_texts f) -> k ∈ request_keys.
Proof.
  change (obj_keys (cleared_texts f)) with (obj_keys (cleared_texts CHANNEL_FORM_DEFAULT_VALUES)). intros H.
  assert (forallb (fun k => bool_decide (k ∈ request_keys)) (obj_keys (cleared_texts CHANNEL_FORM_DEFAULT_VALUES)) = true) as Hall
    by (vm_compute; reflexivity).
  rewrite forallb_forall in Hall. apply list_elem_of_In, Hall, bool_decide_eq_true in H. exact H.
Qed.

Lemma obj_get_keys k (o : jsobj) : obj_get k o <> None <-> k ∈ obj_keys o.
Proof. rewrite obj_get_None. destruct (decide (k ∈ obj_keys o)); tauto. Qed.

Lemma payload_keys f id p k : transformFormDataToUpdatePayload f id = Ok p -> obj_get k p <> None -> k ∈ request_keys.
Proof.
  unfold transformFormDataToUpdatePayload. intros (settings & _ & Hp)%res_bind_Ok. apply Ok_inj in Hp as <-.
  rewrite get_request. destruct (obj_get k (cleared_texts f)) eqn:E.
  - intros _. eapply cleared_in_request, obj_get_keys. by rewrite E.
  - intros H. eapply update_keys, obj_get_keys. intros E'. by rewrite E' in H.
Qed.

Lemma request_classified k : k ∈ request_keys ->
  k <> ("status" : jstr) /\ (k ∈ SENSITIVE_UPDATE_FIELDS \/ classified k = true).
Proof.
  assert (forallb (fun k => (k !=? "status") && (bool_decide (k ∈ SENSITIVE_UPDATE_FIELDS) || classified k)) request_keys = true)
    as Hall by (vm_compute; reflexivity).
  rewrite forallb_forall in Hall. intros [H1 H2]%list_elem_of_In%Hall%andb_true_iff. apply negb_true_iff, bool_decide_eq_false in H1.
  apply orb_true_iff in H2 as [H2|H2]; [apply bool_decide_eq_true in H2|]; auto.
Qed.

(** A request without sensitive fields, and of known ones. *)
Lemma no_sensitive_changes {A} p (origin : Channel A) :
  (forall k, k ∈ SENSITIVE_UPDATE_FIELDS -> obj_get k p = None) ->
  (forall k, obj_get k p <> None -> classified k = true) -> channelHasSensitiveChanges p origin = false.
Proof.
  intros Hs Hc. assert (forall k, k ∈ SENSITIVE_UPDATE_FIELDS -> obj_has k p = false) as Hh
    by (intros k Hk; unfold obj_has; by rewrite Hs).
  unfold channelHasSensitiveChanges. cbv zeta. rewrite !Hh by (apply (bool_decide_eq_true (_ ∈ SENSITIVE_UPDATE_FIELDS)); vm_compute; reflexivity).
  cbn [andb orb]. destruct (existsb _ _) eqn:E; [|done]. apply existsb_exists in E as (k & Hk%list_elem_of_In & E).
  apply obj_get_keys, Hc in Hk. by rewrite Hk in E.
Qed.

(** C23: what is sent for an administrator without the right to secrets has every field of the
    full request but the sensitive ones, and the server never takes it to change a sensitive
    field, whatever channel is stored. *)
Theorem restricted_update f id full : update_request true f id = Ok full ->
  exists limited, update_request false f id = Ok limited
  /\ (forall k, obj_get k limited = if bool_decide (k ∈ SENSITIVE_UPDATE_FIELDS) then None else obj_get k full)
  /\ obj_get "status" limited = None
  /\ (forall (A : Type) (origin : Channel A), channelHasSensitiveChanges limited origin = false).
Proof.
  unfold update_request. destruct (transformFormDataToUpdatePayload f id) as [p|] eqn:Ep; [|done]. cbn [res_bind].
  intros H. apply Ok_inj in H as Hfull. eexists. split; [reflexivity|].
  assert (forall k, obj_get k full <> None -> k ∈ request_keys) as Hk.
  { intros k. rewrite <-Hfull. intros Hk. apply (payload_keys f id p k Ep). destruct (non_empty _); [done|].
    rewrite obj_get_delete in Hk. by destruct (k ==? "key"). }
  rewrite Hfull. split_and!.
  - intros k. apply get_restricted.
  - rewrite get_restricted. destruct (bool_decide _); [done|]. destruct (obj_get "status" full) eqn:E; [|done].
    destruct (request_classified "status") as [Hs _]; [apply Hk; by rewrite E|done].
  - intros A origin. apply no_sensitive_changes; intros k; rewrite get_restricted.
    + intros Hin. by rewrite bool_decide_true.
    + case_bool_decide as Hin; [done|]. intros Hg%Hk%request_classified. tauto.
Qed.

Lemma restricted_update_witness :
  exists full limited, update_request true demo_form 7 = Ok full /\ update_request false demo_form 7 = Ok limited
  /\ (forall k, obj_get k limited = if bool_decide (k ∈ SENSITIVE_UPDATE_FIELDS) then None else obj_get k full)
  /\ obj_get "status" limited = None
  /\ (forall (A : Type) (origin : Channel A), channelHasSensitiveChanges limited origin = false).
Proof.
  exists demo_request. destruct (restricted_update demo_form 7 demo_request) as (limited & H); [vm_compute; reflexivity|].
  exists limited. split; [vm_compute; reflexivity|exact H].
Defined.

(** The full request of the same form does change one: the base URL is sent without its slash. *)
Example full_request_sensitive : channelHasSensitiveChanges demo_request demo_channel = true.
Proof. vm_compute. reflexivity. Qed.
