(* ===== verification/TieredEditor.v ===== *)
(** * The editor of tiered prices (features/system-settings/models/tiered-pricing-editor.tsx)

    The editor of a billing expression: a list of tiers and of rule groups, or the text of
    the expression. It is a state machine over the page around it, which keeps the two
    expressions: a callback changes the state, React renders, and after each render the
    component's effects run in order, on the values of that render, until nothing changes.
    Labels, colours, toasts and the text of the language model prompt are left out. *)
From S2P Require Import RecordUpdate Prelude JsString JsNumber JsValue Regex Json BillingExpr TierExpr.

(** ** Drafts of numbers *)

Inductive DraftValue :=
| DraftNumber (n : num)
| DraftText (s : jstr).

(** [Number(uc) || 0], of a number or a text. *)
Definition draft_number (v : DraftValue) : num := match v with DraftNumber n => n | DraftText s => num_of_string s end.
Definition unitCostToPrice (uc : DraftValue) : num := num_or (draft_number uc) nzero.
Definition priceToUnitCost (price : DraftValue) : num := num_or (draft_number price) nzero.

Definition formatNumberDraft (value : DraftValue) : jstr :=
  match value with
  | DraftNumber n => if is_finite n then num_to_string n else "0"
  | DraftText s => s
  end.

Definition parseNumberDraft (value : jstr) : num :=
  if trim value ==? [] then nzero else let next := num_of_string value in if is_finite next then next else nzero.

Definition isZeroDraft (value : jstr) : bool := (trim value !=? []) && neq (parseNumberDraft value) nzero.

(** [n] in the locale: [toLocaleString] is the environment's. *)
Definition formatTokenHint (toLocaleString : num -> jstr) (n : option DraftValue) : jstr :=
  match n with
  | None | Some (DraftText []) => []
  | Some d =>
      let v := draft_number d in
      if is_nan v then []
      else if neq v nzero then "= 0"
      else if nle (num_of_Z 1000000) v then "= " ++ toLocaleString (ndiv v (num_of_Z 1000000)) ++ "M tokens"
      else if nle (num_of_Z 1000) v then "= " ++ toLocaleString (ndiv v (num_of_Z 1000)) ++ "K tokens"
      else "= " ++ toLocaleString v ++ " tokens"
  end.

(** The input of a number: its text while it has the focus. *)
Record DraftNumberInput := { di_draft : jstr; di_focused : bool }.

Definition open_draft (value : DraftValue) : DraftNumberInput := {| di_draft := formatNumberDraft value; di_focused := false |}.

(** The effect that follows the value while the input has no focus. *)
Definition sync_draft (value : DraftValue) (s : DraftNumberInput) : DraftNumberInput :=
  if di_focused s then s else {| di_draft := formatNumberDraft value; di_focused := false |}.

(** A callback and the value it passes on. *)
Definition handleChange (nextDraft : jstr) (s : DraftNumberInput) : DraftNumberInput * num :=
  ({| di_draft := nextDraft; di_focused := di_focused s |}, parseNumberDraft nextDraft).
Definition handleFocus (s : DraftNumberInput) : DraftNumberInput := {| di_draft := di_draft s; di_focused := true |}.
Definition handleBlur (s : DraftNumberInput) : DraftNumberInput * num :=
  let normalized := parseNumberDraft (di_draft s) in
  ({| di_draft := num_to_string normalized; di_focused := false |}, normalized).

(** ** One tier *)

Definition CONDITION_INPUT_OPTIONS : list (jstr * jstr) :=
  [("len", "Full input length"); ("p", "Billable input tokens"); ("c", "Billable output tokens")].
Definition OPS : list jstr := ["<"; "<="; ">"; ">="].

Definition CACHE_PRICE_VARS : list BillingVar := List.filter (fun v => bv_group v ==? Some ("cache" : jstr)) BILLING_EXTRA_VARS.
Definition MEDIA_PRICE_VARS : list BillingVar := List.filter (fun v => bv_group v ==? Some ("media" : jstr)) BILLING_EXTRA_VARS.

(** [l.filter((_, i) => i !== index)] *)
Definition remove_at {A} (index : nat) (l : list A) : list A := take index l ++ drop (S index) l.

Definition conditions_of (tier : jsobj) : list jsval := default [] (array_of (prop tier "conditions")).

(** The React keys of tiers and conditions. *)
Definition getVisualTierKey (tier : jsobj) : jstr := stringify (JObj tier).
Definition getTierConditionKey (condition : jsobj) : jstr := stringify (JObj condition).

(** What the card of a tier can change. *)
Inductive TierEdit :=
| TierLabel (label : jstr)
| TierConditionField (index : nat) (field : jstr) (value : jsval)
| TierConditionRemove (index : nat)
| TierPrice (field : jstr) (value : num)
| TierCacheMode (mode : jstr).

Definition handleConditionChange (index : nat) (next : jsval) (tier : jsobj) : jsobj :=
  obj_set "conditions" (JArr (<[index := next]> (conditions_of tier))) tier.
Definition handleConditionRemove (index : nat) (tier : jsobj) : jsobj :=
  obj_set "conditions" (JArr (remove_at index (conditions_of tier))) tier.
Definition handlePriceChange (field : jstr) (value : num) (tier : jsobj) : jsobj := obj_set field (JNum value) tier.
Definition handleCacheModeChange (mode : jstr) (tier : jsobj) : jsobj :=
  obj_set "cache_create_1h_unit_cost"
    (if mode ==? CACHE_MODE_TIMED then js_nullish (prop tier "cache_create_1h_unit_cost") (JNum nzero) else JNum nzero)
    (obj_set "cache_mode" (JStr mode) tier).

Definition edit_tier (e : TierEdit) (tier : jsobj) : jsobj :=
  match e with
  | TierLabel label => obj_set "label" (JStr label) tier
  | TierConditionField i field value =>
      handleConditionChange i (JObj (obj_set field value (as_tier (default JUndef (conditions_of tier !! i))))) tier
  | TierConditionRemove i => handleConditionRemove i tier
  | TierPrice field value => handlePriceChange field (priceToUnitCost (DraftNumber value)) tier
  | TierCacheMode mode => handleCacheModeChange mode tier
  end.

(** The prices shown: the one-hour cache price only when the cache is timed. *)
Definition shown_cache_vars (tier : jsobj) : list BillingVar :=
  List.filter (fun v => negb ((bv_key v ==? "cc1h") && (getTierCacheMode tier !=? CACHE_MODE_TIMED))) CACHE_PRICE_VARS.

(** [unitCostToPrice(tier[variable.tierField] ?? 0)] *)
Definition tier_price (tier : jsobj) (v : BillingVar) : num := number_or_zero (prop tier (default [] (bv_tierField v))).

Definition hasMediaPricing (tier : jsobj) : bool := existsb (fun v => nlt nzero (tier_price tier v)) MEDIA_PRICE_VARS.

(** ** The list of tiers *)

Definition default_condition (var : jstr) : jsval :=
  JObj [("var", JStr var); ("op", JStr "<"); ("value", JNum (num_of_Z 200000))].

Definition config_tiers (config : jsobj) : list jsobj := map as_tier (default [] (array_of (prop config "tiers"))).
Definition with_tiers (config : jsobj) (tiers : list jsobj) : jsobj := obj_set "tiers" (JArr (map JObj tiers)) config.

(** Its operations change the normalised configuration. *)
Definition handleTierChange (index : nat) (next : jsobj) (config : jsobj) : jsobj :=
  with_tiers config (<[index := normalizeVisualTier next]> (config_tiers config)).

Definition new_tier (count : nat) : jsobj :=
  normalizeVisualTier
    [ ("label", JStr ("tier_" ++ Z_to_jstr (Z.of_nat (count + 1)))); ("conditions", JArr []);
      ("input_unit_cost", JNum nzero); ("output_unit_cost", JNum nzero) ].

(** The last tier, with an upper bound when it has no condition. *)
Definition bounded (tier : jsobj) : jsobj :=
  match conditions_of tier with
  | [] => normalizeVisualTier (obj_set "conditions" (JArr [default_condition "len"]) tier)
  | _ => tier
  end.

Definition handleAddTier (config : jsobj) : jsobj :=
  let tiers := config_tiers config in
  let lastIndex := length tiers - 1 in
  with_tiers config (alter bounded lastIndex tiers ++ [new_tier (length tiers)]).

Definition handleRemoveTier (index : nat) (config : jsobj) : jsobj :=
  match remove_at index (config_tiers config) with
  | [] => with_tiers config (config_tiers config)
  | tiers => with_tiers config tiers
  end.

Definition condition_var (c : jsval) : jsval := prop (as_tier c) "var".

Definition handleAddCondition (index : nat) (config : jsobj) : jsobj :=
  match config_tiers config !! index with
  | None => config
  | Some tier =>
      let conditions := conditions_of tier in
      if (2 <=? length conditions)%nat then config
      else
        let usedLen := existsb (fun c => condition_var c ==? JStr "len") conditions in
        let tier' := obj_set "conditions" (JArr (conditions ++ [default_condition (if usedLen then "c" else "len")])) tier in
        with_tiers config (<[index := tier']> (config_tiers config))
  end.

Inductive VisualEdit :=
| EditTier (index : nat) (e : TierEdit)
| AddTier
| RemoveTier (index : nat)
| AddCondition (index : nat).

(** The remove button of a lone tier is disabled. *)
Definition edit_visual (e : VisualEdit) (visualConfig : option jsobj) : jsobj :=
  let config := normalizeVisualConfig visualConfig in
  match e with
  | EditTier i e =>
      match config_tiers config !! i with
      | Some tier => handleTierChange i (edit_tier e tier) config
      | None => config
      end
  | AddTier => handleAddTier config
  | RemoveTier i => if (length (config_tiers config) <=? 1)%nat then config else handleRemoveTier i config
  | AddCondition i => handleAddCondition i config
  end.

(** ** Rules *)

(** What the row of a condition can change. *)
Inductive RuleEdit :=
| RuleSource (source : jstr)
| RuleMode (mode : jstr)
| RulePath (path : jstr)
| RuleValue (value : jstr)
| RuleTimeFunc (timeFunc : jstr)
| RuleTimezone (timezone : jstr)
| RuleTimeValue (value : num)
| RuleRangeStart (value : num)
| RuleRangeEnd (value : num).

(** Any other source changes nothing. *)
Definition handleSourceChange (source : jstr) (condition : RequestCondition) : RequestCondition :=
  if source ==? SOURCE_TIME then CondTime createEmptyTimeCondition
  else if (source ==? SOURCE_HEADER) || (source ==? SOURCE_PARAM)
  then
    CondParamHeader
      {| ph_source := source; ph_path := ph_path createEmptyCondition; ph_mode := ph_mode createEmptyCondition;
         ph_value := ph_value createEmptyCondition |}
  else condition.

Definition set_time (timeFunc timezone mode value rangeStart rangeEnd : jstr) : RequestCondition :=
  CondTime {| tm_timeFunc := timeFunc; tm_timezone := timezone; tm_mode := mode; tm_value := value;
              tm_rangeStart := rangeStart; tm_rangeEnd := rangeEnd |}.

(** A field of the other kind of condition is not shown. *)
Definition edit_rule (e : RuleEdit) (condition : RequestCondition) : RequestCondition :=
  match e, condition with
  | RuleSource source, _ => handleSourceChange source condition
  | RuleMode mode, CondTime t =>
      set_time (tm_timeFunc t) (tm_timezone t) mode (tm_value t) (tm_rangeStart t) (tm_rangeEnd t)
  | RuleTimeFunc f, CondTime t => set_time f (tm_timezone t) (tm_mode t) (tm_value t) (tm_rangeStart t) (tm_rangeEnd t)
  | RuleTimezone z, CondTime t => set_time (tm_timeFunc t) z (tm_mode t) (tm_value t) (tm_rangeStart t) (tm_rangeEnd t)
  | RuleTimeValue v, CondTime t =>
      set_time (tm_timeFunc t) (tm_timezone t) (tm_mode t) (num_to_string v) (tm_rangeStart t) (tm_rangeEnd t)
  | RuleRangeStart v, CondTime t =>
      set_time (tm_timeFunc t) (tm_timezone t) (tm_mode t) (tm_value t) (num_to_string v) (tm_rangeEnd t)
  | RuleRangeEnd v, CondTime t =>
      set_time (tm_timeFunc t) (tm_timezone t) (tm_mode t) (tm_value t) (tm_rangeStart t) (num_to_string v)
  | RuleMode mode, CondParamHeader p => ph (ph_source p) (ph_path p) mode (ph_value p)
  | RulePath path, CondParamHeader p => ph (ph_source p) path (ph_mode p) (ph_value p)
  | RuleValue v, CondParamHeader p => ph (ph_source p) (ph_path p) (ph_mode p) v
  | _, _ => condition
  end.

Definition getMatchLabel (t : jstr -> jstr) (mode : jstr) : jstr :=
  if mode ==? MATCH_EQ then t "Equals"
  else if mode ==? MATCH_CONTAINS then t "Contains"
  else if mode ==? MATCH_EXISTS then t "Exists"
  else if mode ==? MATCH_GT then t "Greater than"
  else if mode ==? MATCH_GTE then t "Greater than or equal"
  else if mode ==? MATCH_LT then t "Less than"
  else if mode ==? MATCH_LTE then t "Less than or equal"
  else if mode ==? MATCH_RANGE then t "Overnight range"
  else mode.

Definition getTimeFuncLabel (t : jstr -> jstr) (timeFunc : jstr) : jstr :=
  if timeFunc ==? "hour" then t "Hour of day"
  else if timeFunc ==? "minute" then t "Minute"
  else if timeFunc ==? "weekday" then t "Weekday"
  else if timeFunc ==? "month" then t "Month number"
  else if timeFunc ==? "day" then t "Day of month"
  else timeFunc.

(** What the card of a rule group can change. *)
Inductive GroupEdit :=
| GroupCondition (index : nat) (e : RuleEdit)
| GroupAddCondition (timeMode : bool)
| GroupRemoveCondition (index : nat)
| GroupMultiplier (value : num).

Definition with_conditions (group : RequestRuleGroup) (conditions : list RequestCondition) : RequestRuleGroup :=
  {| rg_conditions := conditions; rg_multiplier := rg_multiplier group |}.

Definition handleRuleConditionChange (index : nat) (next : RequestCondition) (group : RequestRuleGroup) : RequestRuleGroup :=
  with_conditions group (<[index := next]> (rg_conditions group)).

Definition handleAddRuleCondition (timeMode : bool) (group : RequestRuleGroup) : RequestRuleGroup :=
  with_conditions group
    (rg_conditions group
     ++ [if timeMode then CondTime createEmptyTimeCondition else CondParamHeader createEmptyCondition]).

Definition edit_group (e : GroupEdit) (group : RequestRuleGroup) : RequestRuleGroup :=
  match e with
  | GroupCondition i e =>
      match rg_conditions group !! i with
      | Some c => handleRuleConditionChange i (edit_rule e c) group
      | None => group
      end
  | GroupAddCondition timeMode => handleAddRuleCondition timeMode group
  | GroupRemoveCondition i => with_conditions group (remove_at i (rg_conditions group))
  | GroupMultiplier value => {| rg_conditions := rg_conditions group; rg_multiplier := num_to_string value |}
  end.

Inductive GroupsEdit :=
| EditGroup (index : nat) (e : GroupEdit)
| RemoveGroup (index : nat)
| AddGroup.

Definition edit_groups (e : GroupsEdit) (groups : list RequestRuleGroup) : list RequestRuleGroup :=
  match e with
  | EditGroup i e => alter (edit_group e) i groups
  | RemoveGroup i => remove_at i groups
  | AddGroup => groups ++ [createEmptyRuleGroup]
  end.

(** ** The estimate *)

Record CostEstimator := { ce_promptTokens : num; ce_completionTokens : num; ce_extras : ExtraTokenValues }.

Definition no_tokens : CostEstimator :=
  {| ce_promptTokens := nzero; ce_completionTokens := nzero;
     ce_extras := {| ev_cacheReadTokens := nzero; ev_cacheCreateTokens := nzero; ev_cacheCreate1hTokens := nzero;
                     ev_imageTokens := nzero; ev_imageOutputTokens := nzero; ev_audioInputTokens := nzero;
                     ev_audioOutputTokens := nzero |} |}.

(** [variable.field.replace('Price', 'Tokens')] *)
Definition estimator_key (field : jstr) : jstr :=
  match index_of "Price" field with
  | Some i => take i field ++ "Tokens" ++ drop (i + 5) field
  | None => field
  end.

(** [{...prev, [stateKey]: value}]: every variable has one of these keys. *)
Definition set_extra (stateKey : jstr) (value : num) (e : ExtraTokenValues) : ExtraTokenValues :=
  let at_key k old := if stateKey ==? k then value else old in
  {| ev_cacheReadTokens := at_key "cacheReadTokens" (ev_cacheReadTokens e);
     ev_cacheCreateTokens := at_key "cacheCreateTokens" (ev_cacheCreateTokens e);
     ev_cacheCreate1hTokens := at_key "cacheCreate1hTokens" (ev_cacheCreate1hTokens e);
     ev_imageTokens := at_key "imageTokens" (ev_imageTokens e);
     ev_imageOutputTokens := at_key "imageOutputTokens" (ev_imageOutputTokens e);
     ev_audioInputTokens := at_key "audioInputTokens" (ev_audioInputTokens e);
     ev_audioOutputTokens := at_key "audioOutputTokens" (ev_audioOutputTokens e) |}.

(** The inputs shown: a variable without a field has none. *)
Definition estimator_inputs (effectiveExpr : jstr) : list (BillingVar * jstr) :=
  if exprUsesExtraVars effectiveExpr
  then flat_map (fun v => match bv_field v with Some f => [(v, estimator_key f)] | None => [] end) BILLING_EXTRA_VARS
  else [].

Definition estimate (run : list (jstr * EnvValue) -> jstr -> RunResult) (effectiveExpr : jstr) (s : CostEstimator) : EvalResult :=
  evalExprLocally run effectiveExpr (ce_promptTokens s) (ce_completionTokens s) (ce_extras s).

(** ** Templates *)

Record Preset := { pr_key : jstr; pr_label : jstr; pr_expr : jstr; pr_requestRules : list RequestRuleGroup }.
Record PresetGroup := { pg_group : jstr; pg_presets : list Preset }.

Definition price_preset (key label expr : jstr) : Preset :=
  {| pr_key := key; pr_label := label; pr_expr := sq expr; pr_requestRules := [] |}.

Definition rule_of (condition : RequestCondition) (multiplier : jstr) : RequestRuleGroup :=
  {| rg_conditions := [condition]; rg_multiplier := multiplier |}.

Definition PRESET_GROUPS : list PresetGroup :=
  [ {| pg_group := "Fixed price";
       pg_presets :=
         [ price_preset "flat" "Flat" "tier('base', p * 2 + c * 4)";
           price_preset "claude-opus" "Claude Opus 4.6" "tier('base', p * 5 + c * 25 + cr * 0.5 + cc * 6.25 + cc1h * 10)";
           price_preset "gpt-5.4" "GPT-5.4"
             "len <= 272000 ? tier('standard', p * 2.5 + c * 15 + cr * 0.25) : tier('long_context', p * 5 + c * 22.5 + cr * 0.5)" ] |};
    {| pg_group := "Tiered";
       pg_presets :=
         [ price_preset "claude-sonnet" "Claude Sonnet 4.5"
             "len <= 200000 ? tier('standard', p * 3 + c * 15 + cr * 0.3 + cc * 3.75 + cc1h * 6) : tier('long_context', p * 6 + c * 22.5 + cr * 0.6 + cc * 7.5 + cc1h * 12)";
           price_preset "qwen3-max" "Qwen3 Max"
             "len <= 32000 ? tier('short', p * 1.2 + c * 6 + cr * 0.24 + cc * 1.5) : len <= 128000 ? tier('mid', p * 2.4 + c * 12 + cr * 0.48 + cc * 3) : tier('long', p * 3 + c * 15 + cr * 0.6 + cc * 3.75)";
           price_preset "glm-4.5-air" "GLM-4.5 Air"
             "len < 32000 && c < 200 ? tier('short_output', p * 0.8 + c * 2 + cr * 0.16) : len < 32000 && c >= 200 ? tier('long_output', p * 0.8 + c * 6 + cr * 0.16) : tier('mid_context', p * 1.2 + c * 8 + cr * 0.24)";
           price_preset "doubao-seed-1.8" "Doubao Seed 1.8"
             "len <= 32000 && c <= 200 ? tier('discount', p * 0.8 + c * 2 + cr * 0.16 + cc * 0.17) : len <= 32000 ? tier('short', p * 0.8 + c * 8 + cr * 0.16 + cc * 0.17) : len <= 128000 ? tier('mid', p * 1.2 + c * 16 + cr * 0.16 + cc * 0.17) : tier('long', p * 2.4 + c * 24 + cr * 0.16 + cc * 0.17)" ] |};
    {| pg_group := "Multimodal";
       pg_presets :=
         [ price_preset "gpt-image-1-mini" "GPT Image 1 Mini" "tier('base', p * 2 + c * 8 + img * 2.5)";
           price_preset "gemini-2.5-flash" "Gemini 2.5 Flash" "tier('base', p * 0.3 + c * 2.5 + cr * 0.03 + ai * 1.0)";
           price_preset "gemini-3-pro-image" "Gemini 3 Pro Image" "tier('base', p * 2 + c * 12 + img_o * 120)";
           price_preset "qwen3-omni-flash" "Qwen3 Omni Flash"
             "tier('base', p * 0.43 + c * 3.06 + img * 0.78 + ai * 3.81 + ao * 15.11)" ] |};
    {| pg_group := "Request rule";
       pg_presets :=
         [ {| pr_key := "claude-opus-fast"; pr_label := "Claude Opus 4.6 Fast";
              pr_expr := sq "tier('base', p * 5 + c * 25 + cr * 0.5 + cc * 6.25 + cc1h * 10)";
              pr_requestRules := [rule_of (ph SOURCE_HEADER "anthropic-beta" MATCH_CONTAINS "fast-mode-2026-02-01") "6"] |};
           {| pr_key := "gpt-5.4-tiers"; pr_label := "GPT-5.4 Priority/Flex";
              pr_expr := sq "len <= 272000 ? tier('standard', p * 2.5 + c * 15 + cr * 0.25) : tier('long_context', p * 5 + c * 22.5 + cr * 0.5)";
              pr_requestRules := [rule_of (ph SOURCE_PARAM "service_tier" MATCH_EQ "priority") "2";
                                  rule_of (ph SOURCE_PARAM "service_tier" MATCH_EQ "flex") "0.5"] |} ] |};
    {| pg_group := "Time-based";
       pg_presets :=
         [ {| pr_key := "night-discount"; pr_label := "Night discount (50%)"; pr_expr := sq "tier('base', p * 3 + c * 15)";
              pr_requestRules := [rule_of (set_time "hour" "Asia/Shanghai" MATCH_RANGE [] "21" "6") "0.5"] |};
           {| pr_key := "weekend-discount"; pr_label := "Weekend discount (80%)"; pr_expr := sq "tier('base', p * 3 + c * 15)";
              pr_requestRules := [rule_of (set_time "weekday" "Asia/Shanghai" MATCH_EQ "0" [] []) "0.8";
                                  rule_of (set_time "weekday" "Asia/Shanghai" MATCH_EQ "6" [] []) "0.8"] |} ] |} ].

Definition visible_presets (expanded : bool) : list PresetGroup := if expanded then PRESET_GROUPS else take 2 PRESET_GROUPS.

(** ** The editor and its page *)

Inductive EditorMode := VisualEditing | RawEditing.

#[export] Instance EditorMode_eq : EqDecision EditorMode.
Proof. solve_decision. Defined.

(** The state of the component. [te_init] is the value of [initRef]; [te_loaded] and
    [te_named] are the dependencies of the first two effects at the last render. *)
Record TieredEditor := {
  te_mode : EditorMode;
  te_visualConfig : option jsobj;
  te_rawExpr : jstr;
  te_groups : list RequestRuleGroup;
  te_init : bool;
  te_loaded : option (jstr * jstr);
  te_named : option jstr
}.

(** The page keeps the name of the model and the two expressions. *)
Record TieredPage := {
  tp_editor : TieredEditor;
  tp_modelName : jstr;
  tp_billingExpr : jstr;
  tp_requestRuleExpr : jstr
}.

Definition TieredEditor_eta (s : TieredEditor) : TieredEditor :=
  {| te_mode := te_mode s; te_visualConfig := te_visualConfig s; te_rawExpr := te_rawExpr s; te_groups := te_groups s;
     te_init := te_init s; te_loaded := te_loaded s; te_named := te_named s |}.
Definition TieredPage_eta (p : TieredPage) : TieredPage :=
  {| tp_editor := tp_editor p; tp_modelName := tp_modelName p; tp_billingExpr := tp_billingExpr p;
     tp_requestRuleExpr := tp_requestRuleExpr p |}.

#[export] Hint Extern 0 (@Setter TieredEditor ?E ?getter) =>
  projections_setter TieredEditor_eta TieredEditor E getter : typeclass_instances.
#[export] Hint Extern 0 (@Setter TieredPage ?E ?getter) =>
  projections_setter TieredPage_eta TieredPage E getter : typeclass_instances.

(** [set] on the component within the page *)
Definition on_editor (f : TieredEditor -> TieredEditor) (p : TieredPage) : TieredPage := p{{ tp_editor := f (tp_editor p) }}.

(** The first render. An exception of a parser ends the model. *)
Definition mount_editor (modelName billingExpr requestRuleExpr : jstr) : res TieredPage :=
  let* groups := tryParseRequestRuleExpr requestRuleExpr in
  Ok {| tp_editor :=
          {| te_mode := VisualEditing; te_visualConfig := tryParseVisualConfig billingExpr;
             te_rawExpr := combineBillingExpr billingExpr requestRuleExpr; te_groups := default [] groups;
             te_init := false; te_loaded := None; te_named := None |};
        tp_modelName := modelName; tp_billingExpr := billingExpr; tp_requestRuleExpr := requestRuleExpr |}.

(** *** What a render computes *)

Definition effectiveExpr (s : TieredEditor) : res jstr :=
  match te_mode s with
  | VisualEditing => Ok (generateExprFromVisualConfig (te_visualConfig s))
  | RawEditing => let* split := splitBillingExprAndRequestRules (te_rawExpr s) in Ok (sp_billingExpr split)
  end.

Definition canUseVisualRules (requestRuleExpr : jstr) : res bool :=
  match requestRuleExpr with
  | [] => Ok true
  | _ => let* groups := tryParseRequestRuleExpr requestRuleExpr in Ok (match groups with Some _ => true | None => false end)
  end.

(** *** The effects, each on the values of the render [r], changing the page [p] *)

(** The state read from the expressions of the page. *)
Definition load_state (billingExpr requestRuleExpr : jstr) (groups : list RequestRuleGroup) (s : TieredEditor) : TieredEditor :=
  let s := s{{ te_rawExpr := combineBillingExpr billingExpr requestRuleExpr }}{{ te_groups := groups }} in
  match tryParseVisualConfig billingExpr with
  | Some config => s{{ te_visualConfig := Some config }}{{ te_mode := VisualEditing }}
  | None =>
      if non_empty billingExpr then s{{ te_visualConfig := None }}{{ te_mode := RawEditing }}
      else s{{ te_visualConfig := Some createDefaultVisualConfig }}
  end.

Definition reload_effect (r p : TieredPage) : res TieredPage :=
  let deps := Some (tp_billingExpr r, tp_requestRuleExpr r) in
  if deps ==? te_loaded (tp_editor r) then Ok p
  else
    let p := on_editor (fun s => s{{ te_loaded := deps }}) p in
    if te_init (tp_editor p) then Ok p
    else
      let* groups := tryParseRequestRuleExpr (tp_requestRuleExpr r) in
      Ok (on_editor (fun s => (load_state (tp_billingExpr r) (tp_requestRuleExpr r) (default [] groups) s){{ te_init := true }}) p).

Definition name_effect (r p : TieredPage) : TieredPage :=
  let deps := Some (tp_modelName r) in
  if deps ==? te_named (tp_editor r) then p
  else on_editor (fun s => s{{ te_named := deps }}{{ te_init := false }}) p.

(** The last two effects call back only when the page has another expression, so that they
    may run after every render. *)
Definition expr_effect (effective : jstr) (r p : TieredPage) : TieredPage :=
  if effective !=? tp_billingExpr r then p{{ tp_billingExpr := effective }} else p.

Definition rule_effect (r p : TieredPage) : TieredPage :=
  match te_mode (tp_editor r) with
  | RawEditing => p
  | VisualEditing =>
      let ruleExpr := buildRequestRuleExpr (te_groups (tp_editor r)) in
      if ruleExpr !=? tp_requestRuleExpr r then p{{ tp_requestRuleExpr := ruleExpr }} else p
  end.

(** A render and its effects. *)
Definition commit (p : TieredPage) : res TieredPage :=
  let* _ := canUseVisualRules (tp_requestRuleExpr p) in
  let* effective := effectiveExpr (tp_editor p) in
  let* next := reload_effect p p in
  Ok (rule_effect p (expr_effect effective p (name_effect p next))).

Fixpoint commits (n : nat) (p : TieredPage) : res TieredPage :=
  match n with
  | O => Ok p
  | S n => let* p := commit p in commits n p
  end.

(** *** Callbacks *)

Definition handleVisualChange (next : jsobj) (p : TieredPage) : TieredPage :=
  on_editor (fun s => s{{ te_visualConfig := Some next }}) p.

Definition handleRawChange (value : jstr) (p : TieredPage) : res TieredPage :=
  let* split := splitBillingExprAndRequestRules value in
  Ok ((on_editor (fun s => s{{ te_rawExpr := value }}) p){{ tp_requestRuleExpr := sp_requestRuleExpr split }}).

Definition handleModeChange (next : EditorMode) (p : TieredPage) : res TieredPage :=
  let s := tp_editor p in
  match next with
  | VisualEditing =>
      let* split := splitBillingExprAndRequestRules (te_rawExpr s) in
      let ruleStr := sp_requestRuleExpr split in
      let config := default createDefaultVisualConfig (tryParseVisualConfig (sp_billingExpr split)) in
      let* parsedGroups := tryParseRequestRuleExpr ruleStr in
      Ok ((on_editor
             (fun s => s{{ te_visualConfig := Some config }}{{ te_groups := default [] parsedGroups }}{{ te_mode := next }}) p)
            {{ tp_requestRuleExpr := ruleStr }})
  | RawEditing =>
      let expr := generateExprFromVisualConfig (te_visualConfig s) in
      let ruleExpr := buildRequestRuleExpr (te_groups s) in
      Ok (on_editor (fun s => s{{ te_rawExpr := str_or (combineBillingExpr expr ruleExpr) expr }}{{ te_mode := next }}) p)
  end.

Definition applyPreset (preset : Preset) (p : TieredPage) : TieredPage :=
  let presetGroups := pr_requestRules preset in
  let ruleExpr := buildRequestRuleExpr presetGroups in
  let combined := str_or (combineBillingExpr (pr_expr preset) ruleExpr) (pr_expr preset) in
  let parsed := tryParseVisualConfig (pr_expr preset) in
  (on_editor
     (fun s => s{{ te_rawExpr := combined }}{{ te_visualConfig := parsed }}
                {{ te_mode := (match parsed with Some _ => VisualEditing | None => RawEditing end) }}
                {{ te_groups := presetGroups }}) p)
    {{ tp_requestRuleExpr := ruleExpr }}.

Definition handleRuleGroupsChange (next : list RequestRuleGroup) (p : TieredPage) : TieredPage :=
  on_editor (fun s => s{{ te_groups := next }}) p.

(** What the user does: the lists are shown in visual mode, the rules when they can be read,
    the text in raw mode. The page has the input of the model's name. *)
Inductive TieredEvent :=
| VisualEdited (e : VisualEdit)
| GroupsEdited (e : GroupsEdit)
| RawEdited (value : jstr)
| ModeChanged (next : EditorMode)
| PresetApplied (preset : Preset)
| NameChanged (name : jstr).

Definition handle_tiered (e : TieredEvent) (p : TieredPage) : res TieredPage :=
  let visual := te_mode (tp_editor p) ==? VisualEditing in
  match e with
  | VisualEdited e => Ok (if visual then handleVisualChange (edit_visual e (te_visualConfig (tp_editor p))) p else p)
  | GroupsEdited e =>
      let* can := canUseVisualRules (tp_requestRuleExpr p) in
      Ok (if visual && can then handleRuleGroupsChange (edit_groups e (te_groups (tp_editor p))) p else p)
  | RawEdited value => if visual then Ok p else handleRawChange value p
  | ModeChanged next => handleModeChange next p
  | PresetApplied preset => Ok (applyPreset preset p)
  | NameChanged name => Ok (p{{ tp_modelName := name }})
  end.

(** Nothing changes any more. *)
Definition at_rest (p : TieredPage) : Prop := commit p = Ok p.

(** An event and the renders after it; five are enough ([editor_settles]). *)
Definition tiered_step (e : TieredEvent) (p : TieredPage) : res TieredPage := let* p := handle_tiered e p in commits 5 p.
Definition open_tiered (modelName billingExpr requestRuleExpr : jstr) : res TieredPage :=
  let* p := mount_editor modelName billingExpr requestRuleExpr in commits 5 p.

Fixpoint tiered_run (es : list TieredEvent) (p : TieredPage) : res TieredPage :=
  match es with
  | [] => Ok p
  | e :: es => let* p := tiered_step e p in tiered_run es p
  end.
