(* ===== verification/TieredEditorProofs.v ===== *)
(** * The editor of tiered prices: what reaches the page

    Companion of [TieredEditor]: its effects come to rest, and then the page has the
    expressions the editor shows; what is opened and edited in the visual editor reaches the
    page; and the expressions that opening the editor destroys. *)
From S2P Require Import RecordUpdate Prelude JsString JsNumber JsValue Regex Json BillingExpr BillingRoundtrip BillingRules.
From S2P Require Import TierExpr TierRoundtrip TieredEditor.

(** ** Rest *)

Record rest (p : TieredPage) : Prop := {
  rest_loaded : te_loaded (tp_editor p) = Some (tp_billingExpr p, tp_requestRuleExpr p);
  rest_named : te_named (tp_editor p) = Some (tp_modelName p);
  rest_shown : effectiveExpr (tp_editor p) = Ok (tp_billingExpr p);
  rest_rules : te_mode (tp_editor p) = VisualEditing -> buildRequestRuleExpr (te_groups (tp_editor p)) = tp_requestRuleExpr p;
  rest_read : exists can, canUseVisualRules (tp_requestRuleExpr p) = Ok can
}.

(** The page a commit leaves: the text the editor shows, and its rules in visual mode. *)
Definition sent_rules (p : TieredPage) : jstr :=
  match te_mode (tp_editor p) with
  | VisualEditing => buildRequestRuleExpr (te_groups (tp_editor p))
  | RawEditing => tp_requestRuleExpr p
  end.

Lemma expr_effect_eq effective r p : tp_billingExpr p = tp_billingExpr r ->
  expr_effect effective r p = p{{ tp_billingExpr := effective }}.
Proof.
  intros H. unfold expr_effect. destruct (decide (effective = tp_billingExpr r)) as [->|Hne].
  - rewrite bool_decide_true by done. cbn. rewrite <- H. by destruct p.
  - by rewrite bool_decide_false.
Qed.

Lemma rule_effect_eq r p : tp_requestRuleExpr p = tp_requestRuleExpr r ->
  rule_effect r p = p{{ tp_requestRuleExpr := sent_rules r }}.
Proof.
  intros H. unfold rule_effect, sent_rules. destruct (te_mode _).
  - destruct (decide (buildRequestRuleExpr (te_groups (tp_editor r)) = tp_requestRuleExpr r)) as [E|Hne].
    + rewrite bool_decide_true by done. cbn. rewrite E, <- H. by destruct p.
    + by rewrite bool_decide_false.
  - cbn. rewrite <- H. by destruct p.
Qed.

(** A commit, as the editor the first two effects leave and the texts sent. *)
Lemma commit_inv p q : commit p = Ok q ->
  exists can effective loaded, canUseVisualRules (tp_requestRuleExpr p) = Ok can
  /\ effectiveExpr (tp_editor p) = Ok effective /\ reload_effect p p = Ok loaded
  /\ q = {| tp_editor := tp_editor (name_effect p loaded); tp_modelName := tp_modelName p;
            tp_billingExpr := effective; tp_requestRuleExpr := sent_rules p |}.
Proof.
  unfold commit. intros (can & Ec & (effective & Ee & (loaded & El & H)%res_bind_Ok)%res_bind_Ok)%res_bind_Ok.
  exists can, effective, loaded. split_and!; [done..|]. injection H as <-.
  assert (tp_modelName loaded = tp_modelName p /\ tp_billingExpr loaded = tp_billingExpr p
          /\ tp_requestRuleExpr loaded = tp_requestRuleExpr p) as (H1 & H2 & H3).
  { unfold reload_effect in El. destruct (_ ==? _) in El; [by injection El as <-|]. destruct (te_init _) in El; [by injection El as <-|].
    apply res_bind_Ok in El as (groups & _ & El). by injection El as <-. }
  assert (tp_modelName (name_effect p loaded) = tp_modelName p /\ tp_billingExpr (name_effect p loaded) = tp_billingExpr p
          /\ tp_requestRuleExpr (name_effect p loaded) = tp_requestRuleExpr p) as (H4 & H5 & H6)
    by (unfold name_effect; destruct (_ ==? _); done).
  rewrite expr_effect_eq, rule_effect_eq by done. cbn. by rewrite H4.
Qed.

(** What the first effect leaves: a page it has read already, one it does not read, or the
    state read from the page. *)
Lemma load_known p : te_loaded (tp_editor p) = Some (tp_billingExpr p, tp_requestRuleExpr p) -> reload_effect p p = Ok p.
Proof. intros H. unfold reload_effect. by rewrite H, bool_decide_true. Qed.

Definition seen (p : TieredPage) (s : TieredEditor) : TieredEditor :=
  s{{ te_loaded := Some (tp_billingExpr p, tp_requestRuleExpr p) }}.

Lemma load_initialised p : te_init (tp_editor p) = true -> reload_effect p p = Ok (on_editor (seen p) p).
Proof.
  intros H. unfold reload_effect. destruct (decide (Some (tp_billingExpr p, tp_requestRuleExpr p) = te_loaded (tp_editor p))) as [E|Hne].
  - rewrite bool_decide_true by done. unfold on_editor, seen. rewrite E. by destruct p as [[] ? ? ?].
  - rewrite bool_decide_false by done. cbn. by rewrite H.
Qed.

Lemma load_reads p groups :
  te_loaded (tp_editor p) <> Some (tp_billingExpr p, tp_requestRuleExpr p) -> te_init (tp_editor p) = false ->
  tryParseRequestRuleExpr (tp_requestRuleExpr p) = Ok groups ->
  reload_effect p p =
    Ok (on_editor (fun s => (load_state (tp_billingExpr p) (tp_requestRuleExpr p) (default [] groups) (seen p s)){{ te_init := true }}) p).
Proof.
  intros H Hi Hg. unfold reload_effect. rewrite bool_decide_false by congruence. cbn. rewrite Hi, Hg. done.
Qed.

Lemma load_inv p l : reload_effect p p = Ok l ->
  (te_loaded (tp_editor p) = Some (tp_billingExpr p, tp_requestRuleExpr p) /\ l = p)
  \/ (te_init (tp_editor l) = true /\ te_named (tp_editor l) = te_named (tp_editor p)).
Proof.
  destruct (decide (te_loaded (tp_editor p) = Some (tp_billingExpr p, tp_requestRuleExpr p))) as [E|Hne].
  { rewrite load_known by done. intros [= <-]. by left. }
  intros H. right. destruct (te_init (tp_editor p)) eqn:Ei.
  { rewrite load_initialised in H by done. by injection H as <-. }
  destruct (tryParseRequestRuleExpr (tp_requestRuleExpr p)) as [groups|] eqn:Eg.
  - rewrite (load_reads p groups) in H by done. injection H as <-. unfold load_state. cbn.
    destruct (tryParseVisualConfig _); [done|]. by destruct (non_empty _).
  - unfold reload_effect in H. rewrite bool_decide_false in H by congruence. cbn in H. by rewrite Ei, Eg in H.
Qed.

Lemma name_known p l : te_named (tp_editor p) = Some (tp_modelName p) -> name_effect p l = l.
Proof. intros H. unfold name_effect. by rewrite H, bool_decide_true. Qed.

(** After a commit the second effect has seen the name. *)
Lemma commit_named p q : commit p = Ok q -> te_named (tp_editor q) = Some (tp_modelName q).
Proof.
  intros (can & eff & l & _ & _ & El & ->)%commit_inv. cbn. unfold name_effect.
  destruct (decide (Some (tp_modelName p) = te_named (tp_editor p))) as [E|Hne].
  - rewrite bool_decide_true by done. apply load_inv in El as [[_ ->]|[_ ->]]; done.
  - by rewrite bool_decide_false.
Qed.

Lemma rest_commit p : rest p -> commit p = Ok p.
Proof.
  intros [Hl Hn Hs Hr [can Hc]]. unfold commit. rewrite Hc, Hs. cbn [res_bind]. rewrite load_known by done. cbn [res_bind].
  rewrite name_known, expr_effect_eq, rule_effect_eq by done. f_equal. unfold sent_rules.
  destruct p as [s m b r]. cbn in *. destruct (te_mode s); [by rewrite Hr|done].
Qed.

Lemma rest_commits n p : rest p -> commits n p = Ok p.
Proof. intros H. induction n as [|n IH]; [done|]. cbn [commits]. by rewrite rest_commit. Qed.

(** The texts sent do not depend on what the first effect has seen. *)
Lemma effective_seen p s : effectiveExpr (seen p s) = effectiveExpr s.
Proof. done. Qed.

Lemma canUse_commit p q : commit p = Ok q -> exists can, canUseVisualRules (tp_requestRuleExpr p) = Ok can.
Proof. intros (can & ? & ? & H & _)%commit_inv. by exists can. Qed.

(** Once the first effect has run for good, two commits are enough. *)
Lemma quiet_rest p p1 p2 : te_init (tp_editor p) = true -> te_named (tp_editor p) = Some (tp_modelName p) ->
  commit p = Ok p1 -> commit p1 = Ok p2 -> rest p2.
Proof.
  intros Hi Hn H1 H2. pose proof (canUse_commit _ _ H2) as Hc.
  apply commit_inv in H1 as (can & eff & l & _ & He & El & ->). rewrite load_initialised in El by done. injection El as <-.
  rewrite name_known in H2, Hc by done. apply commit_inv in H2 as (can2 & eff2 & l2 & _ & He2 & El2 & ->).
  cbn [tp_editor on_editor] in He2. rewrite load_initialised in El2 by done. injection El2 as <-.
  change (effectiveExpr (tp_editor p) = Ok eff2) in He2. rewrite He in He2. injection He2 as <-.
  rewrite name_known by done.
  match goal with |- context [sent_rules {| tp_editor := ?e; tp_modelName := ?m; tp_billingExpr := ?b; tp_requestRuleExpr := ?r |}] =>
    assert (sent_rules {| tp_editor := e; tp_modelName := m; tp_billingExpr := b; tp_requestRuleExpr := r |} = sent_rules p) as ->
      by (unfold sent_rules; cbn; by destruct (te_mode _))
  end.
  split; cbn; [done|done|exact He| |exact Hc]. unfold sent_rules. intros Hm. by rewrite Hm.
Qed.

(** Five commits are enough, from any state. *)
Lemma commits_rest p q : commits 5 p = Ok q -> rest q.
Proof.
  cbn [commits]. intros (p1 & H1 & (p2 & H2 & (p3 & H3 & (p4 & H4 & (p5 & H5 & [= <-])%res_bind_Ok)%res_bind_Ok)%res_bind_Ok)%res_bind_Ok)%res_bind_Ok.
  pose proof (commit_named _ _ H1) as N1. pose proof (commit_named _ _ H2) as N2. pose proof (commit_named _ _ H3) as N3.
  destruct (te_init (tp_editor p1)) eqn:E1.
  { pose proof (quiet_rest _ _ _ E1 N1 H2 H3) as R. rewrite (rest_commit _ R) in H4. injection H4 as <-.
    rewrite (rest_commit _ R) in H5. by injection H5 as <-. }
  destruct (te_init (tp_editor p2)) eqn:E2.
  { pose proof (quiet_rest _ _ _ E2 N2 H3 H4) as R. rewrite (rest_commit _ R) in H5. by injection H5 as <-. }
  destruct (te_init (tp_editor p3)) eqn:E3; [exact (quiet_rest _ _ _ E3 N3 H4 H5)|].
  (* without a load the second and the third commit change nothing *)
  assert (forall a b, te_named (tp_editor a) = Some (tp_modelName a) -> te_init (tp_editor b) = false -> commit a = Ok b ->
    te_loaded (tp_editor a) = Some (tp_billingExpr a, tp_requestRuleExpr a) /\ tp_editor b = tp_editor a
    /\ tp_modelName b = tp_modelName a /\ effectiveExpr (tp_editor a) = Ok (tp_billingExpr b)
    /\ tp_requestRuleExpr b = sent_rules a) as Hstay.
  { intros a b Na Ib (can & eff & l & _ & He & El & ->)%commit_inv. rewrite name_known in * by done.
    apply load_inv in El as [[El ->]|[El _]]; [done|]. cbn in Ib. congruence. }
  destruct (Hstay p1 p2 N1 E2 H2) as (L1 & S2 & M2 & B2 & R2). destruct (Hstay p2 p3 N2 E3 H3) as (L2 & S3 & M3 & B3 & R3).
  assert (p2 = p1) as ->.
  { destruct p1 as [s1 m1 b1 r1], p2 as [s2 m2 b2 r2]. cbn in *. subst s2 m2. rewrite L1 in L2. by injection L2 as -> ->. }
  rewrite H3 in H2. assert (rest p1) as R.
  { split; [done|done|exact B2| |eapply canUse_commit; exact H3]. intros Hm. rewrite R2. unfold sent_rules. by rewrite Hm. }
  rewrite (rest_commit _ R) in H3. injection H3 as <-. rewrite (rest_commit _ R) in H4. injection H4 as <-.
  rewrite (rest_commit _ R) in H5. injection H5 as <-. exact R.
Qed.

(** ** What the visual editor shows reaches the page *)

Lemma canUse_parsed r groups : tryParseRequestRuleExpr r = Ok groups -> exists can, canUseVisualRules r = Ok can.
Proof. intros H. unfold canUseVisualRules. destruct r; [by exists true|]. rewrite H. eexists. reflexivity. Qed.

(** The editor shows the tiers of [c] and the groups [gs], and the page has their text. *)
Record shows_sent (c : jsobj) (gs : list RequestRuleGroup) (p : TieredPage) : Prop := {
  sent_rest : rest p;
  sent_mode : te_mode (tp_editor p) = VisualEditing;
  sent_billing : tp_billingExpr p = generateExprFromVisualConfig (Some c);
  sent_rule : tp_requestRuleExpr p = buildRequestRuleExpr gs;
  sent_groups : te_groups (tp_editor p) = gs;
  sent_tiers : exists c', te_visualConfig (tp_editor p) = Some c' /\ map tier_view (tiers_of c') = map tier_view (tiers_of c)
}.

(** The page once it has read its own text. *)
Lemma read_back c gs p : canonical_config c = true -> fallback_last c = true -> forallb canonical_group gs = true ->
  te_named (tp_editor p) = Some (tp_modelName p) -> te_mode (tp_editor p) = VisualEditing ->
  te_visualConfig (tp_editor p) = Some c -> te_groups (tp_editor p) = gs ->
  tp_billingExpr p = generateExprFromVisualConfig (Some c) -> tp_requestRuleExpr p = buildRequestRuleExpr gs ->
  exists q, commit p = Ok q /\ shows_sent c gs q.
Proof.
  intros Hc Hf Hg Hn Hm Ev Eg Eb Er. pose proof (rules_parse _ Hg) as Hp. rewrite <- Er in Hp.
  destruct (visual_config_read c Hc) as (c' & Hc1 & Hc2 & Hc3). rewrite (fallback_views c Hf) in Hc3.
  destruct (canUse_parsed _ _ Hp) as [can Hcan].
  assert (effectiveExpr (tp_editor p) = Ok (tp_billingExpr p)) as He by (unfold effectiveExpr; by rewrite Hm, Ev, Eb).
  assert (sent_rules p = tp_requestRuleExpr p) as Hs by (unfold sent_rules; by rewrite Hm, Eg).
  assert (forall s, reload_effect p p = Ok (on_editor s p) ->
    commit p = Ok {| tp_editor := s (tp_editor p); tp_modelName := tp_modelName p; tp_billingExpr := tp_billingExpr p;
                     tp_requestRuleExpr := tp_requestRuleExpr p |}) as Hcommit.
  { intros s Hl. unfold commit. rewrite Hcan, He. cbn [res_bind]. rewrite Hl. cbn [res_bind].
    rewrite name_known by done. rewrite expr_effect_eq by done. rewrite rule_effect_eq by done. by rewrite Hs. }
  destruct (te_init (tp_editor p)) eqn:Ei; [|destruct (decide (te_loaded (tp_editor p) = Some (tp_billingExpr p, tp_requestRuleExpr p))) as [El|El]].
  - eexists. split; [apply Hcommit, load_initialised, Ei|]. split; cbn; [|done..|by exists c].
    split; cbn; [done|done|exact He|by rewrite Hm, Eg|by exists can].
  - exists p. assert (rest p) as R by (split; [done|done|exact He|by rewrite Eg|by exists can]).
    split; [by apply rest_commit|]. split; [done..|by exists c].
  - eexists. split; [apply Hcommit, load_reads; [done|done|exact Hp]|]. unfold load_state. rewrite Eb, Hc1.
    split; cbn; [|done..|by exists c'].
    split; [cbn; by rewrite Eb|done|change (Ok (generateExprFromVisualConfig (Some c')) = Ok (generateExprFromVisualConfig (Some c))); by rewrite Hc2
      |intros _; exact (eq_sym Er)|by exists can].
Qed.

(** A page that knows its text and shows [c] and [gs] sends them. *)
Lemma content_sent c gs p : canonical_config c = true -> fallback_last c = true -> forallb canonical_group gs = true ->
  te_loaded (tp_editor p) = Some (tp_billingExpr p, tp_requestRuleExpr p) ->
  te_named (tp_editor p) = Some (tp_modelName p) -> te_mode (tp_editor p) = VisualEditing ->
  te_visualConfig (tp_editor p) = Some c -> te_groups (tp_editor p) = gs ->
  (exists can, canUseVisualRules (tp_requestRuleExpr p) = Ok can) ->
  exists q, commits 5 p = Ok q /\ shows_sent c gs q /\ tp_modelName q = tp_modelName p.
Proof.
  intros Hc Hf Hg Hl Hn Hm Ev Eg [can Hcan].
  set (p1 := {| tp_editor := tp_editor p; tp_modelName := tp_modelName p;
                tp_billingExpr := generateExprFromVisualConfig (Some c); tp_requestRuleExpr := buildRequestRuleExpr gs |}).
  assert (commit p = Ok p1) as H1.
  { unfold commit. rewrite Hcan. unfold effectiveExpr. rewrite Hm, Ev. cbn [res_bind]. rewrite load_known by done. cbn [res_bind].
    rewrite name_known, expr_effect_eq, rule_effect_eq by done. unfold sent_rules. by rewrite Hm, Eg. }
  destruct (read_back c gs p1) as (q & H2 & Hq); [done..|]. exists q. split_and!; [|done|].
  - cbn [commits]. rewrite H1. cbn [res_bind]. rewrite H2. cbn [res_bind].
    rewrite (rest_commit _ (sent_rest _ _ _ Hq)). cbn [res_bind]. rewrite (rest_commit _ (sent_rest _ _ _ Hq)). cbn [res_bind].
    by rewrite (rest_commit _ (sent_rest _ _ _ Hq)).
  - apply commit_inv in H2 as (? & ? & ? & _ & _ & _ & ->). done.
Qed.

(** ** Theorems *)

(** What is at rest stays as it is. *)
Lemma run_rest es : forall p q, rest p -> tiered_run es p = Ok q -> rest q.
Proof.
  induction es as [|e es IH]; intros p q Hp; cbn [tiered_run]; [by intros [= <-]|].
  intros (p1 & (p2 & _ & H1)%res_bind_Ok & H2)%res_bind_Ok. apply (IH p1); [by apply (commits_rest p2)|done].
Qed.

(** C9: however the editor of tiered prices is used, five renders after each action its
    effects have come to rest, and the page then has the expression the editor shows, and in
    visual mode the rules it shows. *)
Theorem editor_settles modelName billingExpr requestRuleExpr p es q :
  open_tiered modelName billingExpr requestRuleExpr = Ok p -> tiered_run es p = Ok q ->
  at_rest q /\ effectiveExpr (tp_editor q) = Ok (tp_billingExpr q)
  /\ (te_mode (tp_editor q) = VisualEditing -> buildRequestRuleExpr (te_groups (tp_editor q)) = tp_requestRuleExpr q).
Proof.
  unfold open_tiered. intros (p0 & _ & Hp)%res_bind_Ok Hq. apply commits_rest in Hp. apply (run_rest _ _ _ Hp) in Hq.
  split_and!; [by apply rest_commit|by apply rest_shown|by apply rest_rules].
Qed.

(** C11: opening the editor on the text of canonical tiers and rules shows them and leaves
    the text as it is. *)
Theorem opening_keeps c gs modelName :
  canonical_config c = true -> fallback_last c = true -> forallb canonical_group gs = true ->
  exists p, open_tiered modelName (generateExprFromVisualConfig (Some c)) (buildRequestRuleExpr gs) = Ok p /\ shows_sent c gs p.
Proof.
  intros Hc Hf Hg. pose proof (rules_parse _ Hg) as Hp. destruct (visual_config_read c Hc) as (c' & Hc1 & Hc2 & Hc3).
  rewrite (fallback_views c Hf) in Hc3. destruct (canUse_parsed _ _ Hp) as [can Hcan].
  unfold open_tiered, mount_editor. rewrite Hp. cbn [res_bind]. rewrite Hc1.
  set (E := generateExprFromVisualConfig (Some c)) in *. set (R := buildRequestRuleExpr gs) in *.
  set (p0 := {| tp_editor := _ |}).
  set (p1 := {| tp_editor := {| te_mode := VisualEditing; te_visualConfig := Some c'; te_rawExpr := combineBillingExpr E R;
                                te_groups := gs; te_init := false; te_loaded := Some (E, R); te_named := Some modelName |};
                tp_modelName := modelName; tp_billingExpr := E; tp_requestRuleExpr := R |}).
  assert (commit p0 = Ok p1) as H1.
  { unfold commit. change (tp_requestRuleExpr p0) with R. rewrite Hcan.
    change (effectiveExpr (tp_editor p0)) with (Ok (generateExprFromVisualConfig (Some c')) : res jstr). rewrite Hc2. cbn [res_bind].
    rewrite (load_reads p0 (Some gs)) by done. cbn [res_bind].
    unfold load_state. change (tp_billingExpr p0) with E. rewrite Hc1.
    rewrite expr_effect_eq, rule_effect_eq by done. done. }
  assert (rest p1) as R1.
  { split; [done|done| |done|by exists can].
    change (Ok (generateExprFromVisualConfig (Some c')) = Ok E). by rewrite Hc2. }
  exists p1. split; [|split; [done..|by exists c']]. cbn [commits]. rewrite H1. cbn [res_bind]. apply (rest_commits 4 p1 R1).
Qed.

(** What an edit of the visual editor shows. *)
Definition edited_content (e : TieredEvent) (s : TieredEditor) : option (jsobj * list RequestRuleGroup) :=
  match e with
  | VisualEdited e => Some (edit_visual e (te_visualConfig s), te_groups s)
  | GroupsEdited e => option_map (fun c => (c, edit_groups e (te_groups s))) (te_visualConfig s)
  | _ => None
  end.

(** C10: an edit of the tiers or of the rules that leaves them canonical reaches the page, and
    the editor still shows it. *)
Theorem edits_sent e p c gs :
  rest p -> te_mode (tp_editor p) = VisualEditing -> canUseVisualRules (tp_requestRuleExpr p) = Ok true ->
  edited_content e (tp_editor p) = Some (c, gs) ->
  canonical_config c = true -> fallback_last c = true -> forallb canonical_group gs = true ->
  exists q, tiered_step e p = Ok q /\ shows_sent c gs q /\ tp_modelName q = tp_modelName p.
Proof.
  intros Hp Hm Hcan He Hc Hf Hg. destruct Hp as [Hl Hn _ _ _].
  assert (exists p', handle_tiered e p = Ok p' /\ tp_requestRuleExpr p' = tp_requestRuleExpr p /\ tp_modelName p' = tp_modelName p
    /\ te_loaded (tp_editor p') = Some (tp_billingExpr p', tp_requestRuleExpr p')
    /\ te_named (tp_editor p') = Some (tp_modelName p') /\ te_mode (tp_editor p') = VisualEditing
    /\ te_visualConfig (tp_editor p') = Some c /\ te_groups (tp_editor p') = gs)
    as (p' & Hh & Hr & Hname & Hl' & Hn' & Hm' & Hv' & Hg').
  { destruct e; cbn [edited_content] in He; [injection He as <- <-|..|done|done|done|done].
    - eexists. split; [cbn [handle_tiered]; rewrite Hm; reflexivity|]. by split_and!.
    - destruct (te_visualConfig (tp_editor p)) as [c'|] eqn:Ev; [|done]. cbn in He. injection He as <- <-.
      eexists. split; [cbn [handle_tiered]; rewrite Hcan, Hm; reflexivity|]. by split_and!. }
  unfold tiered_step. rewrite Hh. cbn [res_bind].
  destruct (content_sent c gs p') as (q & Hq & Hs & Hqn); [done..|by exists true; rewrite Hr|].
  exists q. split_and!; [done|done|congruence].
Qed.

(** ** What opening the editor destroys

    [initRef], which is to keep the first effect from reading the page again, is reset by the
    second effect of the first render. *)

Definition zero_expr : jstr := "p * 0 + c * 0".

Lemma commit_eq p can effective l : canUseVisualRules (tp_requestRuleExpr p) = Ok can ->
  effectiveExpr (tp_editor p) = Ok effective -> reload_effect p p = Ok l ->
  te_named (tp_editor p) = Some (tp_modelName p) -> tp_billingExpr l = tp_billingExpr p ->
  tp_requestRuleExpr l = tp_requestRuleExpr p ->
  commit p = Ok {| tp_editor := tp_editor l; tp_modelName := tp_modelName l; tp_billingExpr := effective;
                   tp_requestRuleExpr := sent_rules p |}.
Proof.
  intros Hc He Hl Hn Hb Hr. unfold commit. rewrite Hc, He, Hl. cbn [res_bind]. rewrite name_known by done.
  rewrite expr_effect_eq, rule_effect_eq by done. done.
Qed.

(** Opening the editor on an expression that only the expression editor can show replaces it
    by an expression whose price is zero. *)
Theorem opening_loses_expression modelName billingExpr sp :
  billingExpr <> [] -> billingExpr <> zero_expr -> tryParseVisualConfig billingExpr = None ->
  splitBillingExprAndRequestRules (combineBillingExpr billingExpr []) = Ok sp ->
  exists p, open_tiered modelName billingExpr [] = Ok p /\ tp_billingExpr p = zero_expr.
Proof.
  intros Hne Hz Hp Hs. set (raw := combineBillingExpr billingExpr []) in *.
  set (page mode text init loaded b :=
    {| tp_editor := {| te_mode := mode; te_visualConfig := None; te_rawExpr := text; te_groups := []; te_init := init;
                       te_loaded := loaded; te_named := Some modelName |};
       tp_modelName := modelName; tp_billingExpr := b; tp_requestRuleExpr := [] |}).
  set (p0 := {| tp_editor := {| te_mode := VisualEditing; te_visualConfig := None; te_rawExpr := raw; te_groups := [];
                                te_init := false; te_loaded := None; te_named := None |};
                tp_modelName := modelName; tp_billingExpr := billingExpr; tp_requestRuleExpr := [] |}).
  set (p1 := page RawEditing raw false (Some (billingExpr, [])) zero_expr).
  set (p2 := page RawEditing zero_expr true (Some (zero_expr, [])) (sp_billingExpr sp)).
  set (p3 := page RawEditing zero_expr true (Some (sp_billingExpr sp, [])) zero_expr).
  set (p4 := page RawEditing zero_expr true (Some (zero_expr, [])) zero_expr).
  assert (forall init loaded b, effectiveExpr (tp_editor (page RawEditing zero_expr init loaded b)) = Ok zero_expr) as Hzero by done.
  assert (commit p0 = Ok p1) as H1.
  { unfold commit. change (effectiveExpr (tp_editor p0)) with (Ok zero_expr : res jstr). cbn [canUseVisualRules res_bind p0 tp_requestRuleExpr].
    rewrite (load_reads p0 (Some [])) by done. cbn [res_bind]. unfold load_state. change (tp_billingExpr p0) with billingExpr.
    rewrite Hp. destruct billingExpr as [|u b] eqn:E; [done|]. cbn [non_empty].
    rewrite expr_effect_eq, rule_effect_eq by done. done. }
  assert (commit p1 = Ok p2) as H2.
  { rewrite (commit_eq p1 true (sp_billingExpr sp) _) by
      (first [done | unfold effectiveExpr, p1, page; cbn [te_mode tp_editor te_rawExpr]; by rewrite Hs
             | apply (load_reads p1 (Some [])); [unfold p1, page; cbn; congruence|done|done]]). done. }
  assert (commit p2 = Ok p3) as H3.
  { rewrite (commit_eq p2 true zero_expr _) by (first [done|by apply load_initialised]). done. }
  assert (commit p3 = Ok p4) as H4.
  { rewrite (commit_eq p3 true zero_expr _) by (first [done|by apply load_initialised]). done. }
  assert (rest p4) as R by (split; [done..|by exists true]).
  exists p4. split; [|done]. unfold open_tiered, mount_editor. cbn [tryParseRequestRuleExpr res_bind]. rewrite Hp.
  change (commits 5 p0 = Ok p4). cbn [commits]. rewrite H1. cbn [res_bind]. rewrite H2. cbn [res_bind]. rewrite H3. cbn [res_bind].
  rewrite H4. cbn [res_bind]. by rewrite (rest_commit _ R).
Qed.

(** Rules that the editor of rules cannot show are dropped as soon as the editor of tiers
    opens, although the page says that they are to be edited as an expression. *)
Theorem opening_loses_rules modelName c requestRuleExpr :
  canonical_config c = true -> requestRuleExpr <> [] -> tryParseRequestRuleExpr requestRuleExpr = Ok None ->
  exists p, open_tiered modelName (generateExprFromVisualConfig (Some c)) requestRuleExpr = Ok p
    /\ tp_requestRuleExpr p = [] /\ te_groups (tp_editor p) = [] /\ te_mode (tp_editor p) = VisualEditing.
Proof.
  intros Hc Hne Hp. destruct (visual_config_read c Hc) as (c' & Hc1 & Hc2 & _).
  assert (canUseVisualRules requestRuleExpr = Ok false) as Hcan
    by (unfold canUseVisualRules; destruct requestRuleExpr; [done|]; by rewrite Hp).
  set (E := generateExprFromVisualConfig (Some c)) in *.
  set (page text init loaded named r :=
    {| tp_editor := {| te_mode := VisualEditing; te_visualConfig := Some c'; te_rawExpr := text; te_groups := []; te_init := init;
                       te_loaded := loaded; te_named := named |};
       tp_modelName := modelName; tp_billingExpr := E; tp_requestRuleExpr := r |}).
  set (raw := combineBillingExpr E requestRuleExpr).
  set (p0 := page raw false None None requestRuleExpr).
  set (p1 := page raw false (Some (E, requestRuleExpr)) (Some modelName) []).
  set (p2 := page (combineBillingExpr E []) true (Some (E, [])) (Some modelName) []).
  assert (forall text init loaded named r, effectiveExpr (tp_editor (page text init loaded named r)) = Ok E) as He.
  { intros. change (Ok (generateExprFromVisualConfig (Some c')) = Ok E). by rewrite Hc2. }
  assert (commit p0 = Ok p1) as H1.
  { unfold commit. unfold p0 at 2. rewrite He. change (tp_requestRuleExpr p0) with requestRuleExpr. rewrite Hcan. cbn [res_bind].
    rewrite (load_reads p0 None) by done. cbn [res_bind]. unfold load_state. change (tp_billingExpr p0) with E. rewrite Hc1.
    rewrite expr_effect_eq, rule_effect_eq by done. done. }
  assert (commit p1 = Ok p2) as H2.
  { assert (reload_effect p1 p1 = Ok p2) as Hl.
    { rewrite (load_reads p1 (Some [])); [|unfold p1, page; cbn; congruence|done|done]. unfold load_state.
      change (tp_billingExpr p1) with E. by rewrite Hc1. }
    rewrite (commit_eq p1 true E p2) by (first [done|apply He|exact Hl]). done. }
  assert (rest p2) as R by (split; [done|done|apply He|done|by exists true]).
  exists p2. split; [|done]. unfold open_tiered, mount_editor. rewrite Hp. cbn [res_bind]. rewrite Hc1.
  change (commits 5 p0 = Ok p2). cbn [commits]. rewrite H1. cbn [res_bind]. rewrite H2. cbn [res_bind]. apply (rest_commits 3 p2 R).
Qed.

(** The React key of a tier is its text: an edit changes it, and the card is built anew, with
    its inputs, at every keystroke. *)
Theorem tier_key_changes t t' : json_ok (JObj t) = true -> json_ok (JObj t') = true -> t <> t' ->
  getVisualTierKey t <> getVisualTierKey t'.
Proof.
  intros H H' Hne E. apply Hne. unfold getVisualTierKey in E.
  pose proof (parse_stringify _ H) as P. rewrite E, (parse_stringify _ H') in P. by injection P as ->.
Qed.

Definition run_outcome (r : res TieredPage) : option (jstr * jstr * list RequestRuleGroup) :=
  match r with Ok p => Some (tp_billingExpr p, tp_requestRuleExpr p, te_groups (tp_editor p)) | _ => None end.

Definition one_tier : jstr := sq "tier('a', p * 2 + c * 3)".

(** A rule with a comparison, entered on a page that was just opened. *)
Definition enter_rule : list TieredEvent :=
  [ GroupsEdited AddGroup; GroupsEdited (EditGroup 0 (GroupCondition 0 (RulePath "max_tokens")));
    GroupsEdited (EditGroup 0 (GroupCondition 0 (RuleMode MATCH_GT)));
    GroupsEdited (EditGroup 0 (GroupCondition 0 (RuleValue "1000")));
    GroupsEdited (EditGroup 0 (GroupMultiplier (num_of_Z 2))) ].

(** The first comparison that is entered vanishes when its multiplier is: the first effect
    reads the rules back, and the parser does not know the text of a comparison. *)
Theorem first_rule_vanishes :
  run_outcome (let* p := open_tiered "m" one_tier [] in tiered_run (removelast enter_rule) p)
    = Some (one_tier, [], [rule_of (ph SOURCE_PARAM "max_tokens" MATCH_GT "1000") []])
  /\ run_outcome (let* p := open_tiered "m" one_tier [] in tiered_run enter_rule p) = Some (one_tier, [], []).
Proof. vm_compute. split; reflexivity. Qed.

Definition night_discount : Preset := 
  {| pr_key := "night-discount"; pr_label := "Night discount (50%)"; pr_expr := sq "tier('base', p * 3 + c * 15)";
     pr_requestRules := [rule_of (set_time "hour" "Asia/Shanghai" MATCH_RANGE [] "21" "6") "0.5"] |}.

(** A template with rules, applied on a page that was just opened, sets its rules and not its
    price. *)
Theorem first_template_keeps_price :
  night_discount ∈ flat_map pg_presets PRESET_GROUPS
  /\ run_outcome (let* p := open_tiered "m" one_tier [] in tiered_step (PresetApplied night_discount) p)
     = Some (one_tier, buildRequestRuleExpr (pr_requestRules night_discount), pr_requestRules night_discount).
Proof. split; [|vm_compute; reflexivity]. apply list_elem_of_In. vm_compute. do 13 right. left. reflexivity. Qed.

(** ** Witnesses *)

Definition demo_rules : list RequestRuleGroup := [rule_of (ph SOURCE_PARAM "service_tier" MATCH_EQ "flex") "0.5"].

Definition demo_page : TieredPage :=
  Eval vm_compute in
    match open_tiered "m" (generateExprFromVisualConfig (Some demo_config)) (buildRequestRuleExpr demo_rules) with
    | Ok p => p
    | _ => {| tp_editor := {| te_mode := VisualEditing; te_visualConfig := None; te_rawExpr := []; te_groups := [];
                              te_init := true; te_loaded := None; te_named := None |};
              tp_modelName := []; tp_billingExpr := []; tp_requestRuleExpr := [] |}
    end.

Lemma opening_keeps_witness :
  exists p, open_tiered "m" (generateExprFromVisualConfig (Some demo_config)) (buildRequestRuleExpr demo_rules) = Ok p
    /\ shows_sent demo_config demo_rules p.
Proof. apply opening_keeps; vm_compute; reflexivity. Defined.

Definition add_and_switch : list TieredEvent := [VisualEdited AddTier; ModeChanged RawEditing].

Lemma editor_settles_witness :
  exists q, tiered_run add_and_switch demo_page = Ok q /\ at_rest q /\ effectiveExpr (tp_editor q) = Ok (tp_billingExpr q).
Proof.
  destruct (tiered_run add_and_switch demo_page) as [q|] eqn:E; [|vm_compute in E; discriminate E].
  exists q. split; [reflexivity|].
  destruct (editor_settles "m" (generateExprFromVisualConfig (Some demo_config)) (buildRequestRuleExpr demo_rules)
              demo_page add_and_switch q) as (H1 & H2 & _); [vm_compute; reflexivity|exact E|split; [exact H1|exact H2]].
Defined.

Definition edited_demo : jsobj := Eval vm_compute in edit_visual (EditTier 1 (TierPrice "input_unit_cost" (num_of_Z 9))) (te_visualConfig (tp_editor demo_page)).

Lemma edits_sent_witness :
  exists q, tiered_step (VisualEdited (EditTier 1 (TierPrice "input_unit_cost" (num_of_Z 9)))) demo_page = Ok q
  /\ shows_sent edited_demo demo_rules q /\ tp_modelName q = "m".
Proof.
  apply (edits_sent (VisualEdited (EditTier 1 (TierPrice "input_unit_cost" (num_of_Z 9)))) demo_page edited_demo demo_rules);
    [split; [vm_compute; reflexivity..|intros _; vm_compute; reflexivity|exists true; vm_compute; reflexivity]|vm_compute; reflexivity..].
Defined.
