(* ===== verification/TieredSwitch.v ===== *)
(** * The editor of tiered prices: switching to the expression and back

    Companion of [TieredEditor]: the text of canonical tiers is one balanced factor, so that
    combining it with rules and splitting it again is exact. *)
From S2P Require Import RecordUpdate Prelude JsString JsNumber JsValue Regex Json BillingExpr BillingRoundtrip BillingSplit BillingRules.
From S2P Require Import TierExpr TierRoundtrip TieredEditor TieredEditorProofs.

(** ** The text of a rule *)

Lemma factor_shape s m : rx_exec factor_re s = Some m -> exists a t, s = a ++ " ? " ++ t ++ " : 1)".
Proof.
  unfold factor_re. cbn [rseq]. rewrite rx_exec_bol. destruct (rx_run _ _) as [|st l] eqn:E; [done|]. intros _.
  assert (In st (st :: l)) as Hin by (by left). rewrite <- E in Hin. clear E.
  apply in_lit_seq in Hin as (r & Er & Hin). cbn [ms_suf ms_pre ms_caps] in *.
  rewrite run_cap, in_flat_map in Hin. destruct Hin as (s1 & H1 & H2).
  apply (rx_run_only any_unit) in H1 as (x & Ex & _); [|by cbn].
  fold factor_tail in H2. destruct (factor_tail_shape _ _ H2) as (t & Et & _). cbn [ms_suf cap_set] in *.
  exists ("(" ++ x), t. rewrite Er, Ex, Et. by rewrite <- !app_assoc.
Qed.

(** A balanced text in parentheses that ends with a parenthesis is no rule. *)
Lemma wrapped_no_rule b : balanced (b ++ ")") = true -> tryParseRequestRuleExpr ("(" ++ (b ++ ")") ++ ")") = Ok None.
Proof.
  intros Hb. pose proof (wrapped_piece _ Hb) as Hp. set (s := "(" ++ (b ++ ")") ++ ")") in *.
  assert (trim s = s) as Ht by (by apply piece_split in Hp as (_ & _ & H)).
  unfold tryParseRequestRuleExpr. rewrite Ht.
  transitivity (parse_groups (splitTopLevelMultiply s)); [done|].
  replace (splitTopLevelMultiply s) with [s]
    by (symmetry; apply (splitTopLevelMultiply_join [s]); [done|cbn [forallb]; by rewrite Hp|done]).
  cbn [parse_groups]. unfold tryParseRuleGroupFactor. destruct (rx_exec factor_re s) as [m|] eqn:E; [|done].
  apply factor_shape in E as (a & t & E). exfalso. unfold s in E.
  apply (f_equal (fun l => nth 1 (rev l) 0%N)) in E. rewrite !rev_app_distr in E. discriminate E.
Qed.

(** ** The text of tiers *)

(** Without parentheses and without [*]. *)
Definition plain_head (s : jstr) : bool := flat s && no_unit 42 s.

Lemma plain_head_app a b : plain_head (a ++ b) = plain_head a && plain_head b.
Proof.
  unfold plain_head. rewrite flat_app, no_unit_app. by destruct (flat a), (flat b), (no_unit 42 a), (no_unit 42 b).
Qed.

Lemma quiet_plain a rest : plain_head a = true -> match rest with c :: _ => c <> 42%N | [] => False end ->
  quiet 42 0 (a ++ rest) = quiet 42 0 rest.
Proof.
  unfold plain_head. induction a as [|c a IH]; [done|]. intros H Hr. cbn in H. bools. cbn [app quiet].
  rewrite paren_depth_flat by done. rewrite IH by (first [done|by apply andb_true_iff]).
  destruct (a ++ rest) as [|d x] eqn:E; [by destruct a, rest|]. assert (d <> 42%N) as Hd.
  { destruct a as [|e a]; cbn in E; [by subst rest|]. injection E as <- _.
    match goal with H : forallb (not_unit 42) (_ :: _) = true |- _ => cbn in H end. bools. intros ->. done. }
  apply N.eqb_neq in Hd. rewrite Hd. cbn. by rewrite orb_true_r.
Qed.

(** A call: a plain head, and flat text in parentheses. *)
Lemma call_scan a b rest : plain_head a = true -> flat b = true ->
  quiet 42 0 (a ++ "(" ++ b ++ ")" ++ rest) = quiet 42 0 rest
  /\ balanced (a ++ "(" ++ b ++ ")" ++ rest) = balanced rest.
Proof.
  intros Ha Hb. assert (balanced b = true) as Hbb by (rewrite <- (app_nil_r b); by rewrite balanced_flat). split.
  - rewrite quiet_plain by done. change (quiet 42 (1 + 0) (b ++ ")" ++ rest) = quiet 42 0 rest).
    by rewrite (quiet_inside 42 0 b 1).
  - unfold plain_head in Ha. bools. rewrite balanced_flat by done. by apply balanced_wrap.
Qed.

Lemma num_unit_flat s : forallb num_unit s = true -> flat s = true.
Proof.
  intros H. unfold flat. revert H. apply forallb_impl. intros c Hc%num_unit_range. unfold not_paren.
  destruct (N.eqb_spec c 40), (N.eqb_spec c 41); subst; try done; lia.
Qed.

Lemma cond_unit_plain s : forallb cond_unit s = true -> plain_head s = true.
Proof.
  intros H. unfold plain_head, flat, no_unit. apply andb_true_iff. split; revert H; apply forallb_impl; intros c Hc%cond_unit_num%num_unit_range.
  - unfold not_paren. destruct (N.eqb_spec c 40), (N.eqb_spec c 41); subst; try done; lia.
  - unfold not_unit. destruct (N.eqb_spec c 42); subst; try done; lia.
Qed.

Lemma cost_flat s : cost_text s = true -> flat s = true.
Proof. unfold cost_text. intros H. bools. by apply num_unit_flat. Qed.

Lemma opt_text_flat vs : forallb flat vs = true -> forall ts,
  Forall (fun t => match t with Some t => cost_text t = true | None => True end) ts -> flat (opt_text vs ts) = true.
Proof.
  induction vs as [|v vs IH]; intros Hv ts Ht; [done|]. cbn in Hv. bools. destruct Ht as [|[t|] ts Ht Hts]; [done| |by apply IH].
  cbn [opt_text]. rewrite !flat_app. rewrite (cost_flat t), IH by done.
  match goal with H : flat v = true |- _ => rewrite H end. done.
Qed.

Lemma cond_plain c : cond_text_ok c -> plain_head (written_cond c) = true.
Proof.
  intros (Hv & Ho & _ & Hx). unfold written_cond. rewrite !plain_head_app, (cond_unit_plain (ct_value c)) by done.
  assert (forall l s, s ∈ l -> forallb plain_head l = true -> plain_head s = true) as Hin
    by (intros l s Hs Hl; rewrite forallb_forall in Hl; by apply Hl, list_elem_of_In).
  by rewrite (Hin _ _ Hv), (Hin _ _ Ho).
Qed.

Lemma conds_plain cs : Forall cond_text_ok cs -> plain_head (written_conds cs) = true.
Proof.
  intros H. unfold written_conds. induction H as [|c cs Hc Hcs IH]; [done|]. destruct cs as [|d cs]; [by apply cond_plain|].
  change (plain_head (written_cond c ++ " && " ++ join " && " (map written_cond (d :: cs))) = true).
  rewrite !plain_head_app, cond_plain by done. exact IH.
Qed.

(** A part is one call. *)
Lemma part_call p : part_ok p -> flat (tt_label (pa_tier p)) = true ->
  exists a b, written_part p = a ++ "(" ++ b ++ ")" /\ plain_head a = true /\ flat b = true.
Proof.
  intros [Hc (_ & Hi & Ho & _ & He)] Hl. set (t := pa_tier p) in *.
  set (b := dquote ++ tt_label t ++ sq "', p * " ++ tt_input t ++ " + c * " ++ tt_output t ++ opt_text cache_vars (tt_extras t)).
  assert (written_tier t = "tier" ++ "(" ++ b ++ ")") as Et.
  { unfold written_tier, b. rewrite <- !app_assoc. reflexivity. }
  assert (flat b = true) as Hb.
  { unfold b. rewrite !flat_app, Hl, (cost_flat (tt_input t)), (cost_flat (tt_output t)) by done.
    by rewrite (opt_text_flat cache_vars) by done. }
  unfold written_part. fold t. rewrite Et. destruct (pa_conds p) as [|c cs].
  - by exists "tier", b.
  - exists (written_conds (c :: cs) ++ " ? " ++ "tier"), b. split_and!; [by rewrite <- !app_assoc| |done].
    by rewrite !plain_head_app, conds_plain.
Qed.

Definition flat_label (p : PartText) : Prop := flat (tt_label (pa_tier p)) = true.

Lemma parts_scan ps : ps <> [] -> Forall part_ok ps -> Forall flat_label ps -> forall sep, plain_head sep = true ->
  quiet 42 0 (sep ++ written_parts ps []) = true /\ balanced (sep ++ written_parts ps []) = true
  /\ exists b, written_parts ps [] = b ++ ")".
Proof.
  intros Hne Hok Hl. induction Hok as [|p ps Hp Hps IH]; [done|]. intros sep Hsep. inversion Hl as [|? ? Hlp Hlps]; subst.
  destruct (part_call p Hp Hlp) as (a & b & E & Ha & Hb).
  assert (plain_head (sep ++ a) = true) as Hsa by (by rewrite plain_head_app, Hsep).
  destruct ps as [|q ps].
  - cbn [written_parts]. rewrite app_nil_r, E, (app_assoc sep).
    destruct (call_scan (sep ++ a) b [] Hsa Hb) as [H1 H2]. rewrite app_nil_r in H1, H2. split_and!; [done|done|].
    exists (a ++ "(" ++ b). by rewrite <- !app_assoc.
  - change (written_parts (p :: q :: ps) []) with (written_part p ++ " : " ++ written_parts (q :: ps) []).
    destruct (IH ltac:(done) Hlps " : ") as (H1 & H2 & b' & H3); [done|].
    rewrite E. rewrite <- (app_assoc a), <- (app_assoc "("), <- (app_assoc b), (app_assoc sep).
    destruct (call_scan (sep ++ a) b (" : " ++ written_parts (q :: ps) []) Hsa Hb) as [-> ->]. split_and!; [done|done|].
    exists (a ++ "(" ++ b ++ ")" ++ " : " ++ b'). rewrite H3, <- !app_assoc. done.
Qed.

Lemma part_head p rest : part_ok p -> exists c r, written_part p ++ rest = c :: r /\ is_space c = false /\ c <> 40%N.
Proof.
  intros [Hc _]. unfold written_part. destruct (pa_conds p) as [|d ds].
  - eexists _, _. split; [reflexivity|done].
  - inversion Hc as [|? ? (Hv & _) _]; subst. rewrite written_conds_cons. unfold written_cond. rewrite <- !app_assoc.
    repeat (apply elem_of_cons in Hv as [->|Hv]; [eexists _, _; split; [reflexivity|done]|]). by apply elem_of_nil in Hv.
Qed.

Definition flat_labels (c : jsobj) : bool := forallb (fun t => flat (label_of t)) (tiers_of c).

Lemma config_flat c : flat_labels c = true -> Forall flat_label (config_parts c).
Proof.
  unfold flat_labels, config_parts. intros H%forallb_Forall.
  assert (forall ts, Forall (fun t => flat (label_of t) = true) ts -> Forall flat_label (parts_of ts)) as Hps.
  { induction 1 as [|t ts Ht Hts IH]; [constructor|]. destruct ts; constructor; try done. }
  destruct (tiers_of c) as [|t [|u ts]]; [by apply Hps| |by apply Hps]. inversion H; subst. by constructor.
Qed.

(** The text of canonical tiers that end with a fallback is one factor. *)
Lemma config_factor c : canonical_config c = true -> config_tail c = [] -> flat_labels c = true ->
  exists b, generateExprFromVisualConfig (Some c) = b ++ ")" /\ piece 42 (b ++ ")") = true
    /\ startsWith (b ++ ")") "(" = false.
Proof.
  intros Hc Ht Hl. rewrite generate_written, Ht by done. destruct (parts_ok c Hc) as (Hok & Hne & _).
  destruct (parts_scan _ Hne Hok (config_flat c Hl) []) as (H1 & H2 & b & E); [done|]. cbn [app] in H1, H2.
  exists b. split; [done|]. rewrite <- E. unfold piece. rewrite H1, H2. cbn [andb].
  destruct (config_parts c) as [|p ps]; [done|]. inversion Hok as [|? ? Hp _]; subst.
  assert (exists rest, written_parts (p :: ps) [] = written_part p ++ rest) as [rest Er].
  { destruct ps as [|q ps]; eexists; [reflexivity|]. change (written_parts (p :: q :: ps) []) with (written_part p ++ " : " ++ written_parts (q :: ps) []).
    reflexivity. }
  destruct (part_head p rest Hp) as (u & r & Eu & Hu & Hu'). rewrite Er, Eu in *. split.
  - unfold trimmed. rewrite Hu, E, rev_app_distr. done.
  - unfold startsWith. cbn [strip_prefix]. destruct (N.eqb_spec 40 u); [congruence|done].
Qed.

Lemma split_combined_text c gs : canonical_config c = true -> config_tail c = [] -> flat_labels c = true ->
  forallb canonical_group gs = true ->
  let E := generateExprFromVisualConfig (Some c) in let R := buildRequestRuleExpr gs in
  combineBillingExpr E R <> []
  /\ splitBillingExprAndRequestRules (combineBillingExpr E R) = Ok {| sp_billingExpr := E; sp_requestRuleExpr := R |}.
Proof.
  intros Hc Ht Hl Hg. cbn zeta. destruct (config_factor c Hc Ht Hl) as (b & -> & Hp & Hs). set (R := buildRequestRuleExpr gs).
  assert (b ++ ")" <> []) as Hne by (by destruct b). pose proof (piece_split _ _ Hp) as (_ & _ & Htrim).
  assert (balanced (b ++ ")") = true /\ trimmed (b ++ ")") = true) as [Hb Htr] by (unfold piece in Hp; by bools).
  assert (unwrapOuterParens (b ++ ")") = b ++ ")") as Hu.
  { unfold unwrapOuterParens. rewrite Htrim. destruct (length (b ++ ")")); [done|]. cbn [unwrap_go].
    unfold hasFullOuterParens. by rewrite Hs. }
  destruct gs as [|g gs].
  - change R with ([] : jstr). unfold combineBillingExpr. rewrite Htrim. cbn [trim trimStart trimEnd rev].
    remember (b ++ ")") as s eqn:Es. clear Es. destruct s as [|x s]; [done|]. split; [done|].
    unfold splitBillingExprAndRequestRules. rewrite Htrim.
    replace (splitTopLevelMultiply (x :: s)) with [x :: s]; [done|].
    symmetry. apply (splitTopLevelMultiply_join [x :: s]); [done|cbn [forallb]; by rewrite Hp|done].
  - split.
    + unfold R. rewrite combine_text by done. cbn [map]. by rewrite join_cons.
    + unfold R. rewrite (split_combined (b ++ ")") (g :: gs)); [by rewrite Hu|done|done|done|by apply wrapped_no_rule|done|done].
Qed.

(** C12: while the editor shows canonical tiers and rules, the last of several tiers is the
    fallback without conditions, a lone tier has none either, and no label has a
    parenthesis, switching from the list of tiers to the text of the expression and back
    changes nothing that the page has, and shows the same tiers and rules again. Outside of
    these conditions tiers or rules can be lost. *)
Theorem mode_switch_roundtrip c gs p :
  canonical_config c = true -> fallback_last c = true -> config_tail c = [] -> flat_labels c = true ->
  forallb canonical_group gs = true -> shows_sent c gs p ->
  exists q r, tiered_step (ModeChanged RawEditing) p = Ok q /\ te_mode (tp_editor q) = RawEditing
  /\ tp_billingExpr q = tp_billingExpr p /\ tp_requestRuleExpr q = tp_requestRuleExpr p
  /\ tiered_step (ModeChanged VisualEditing) q = Ok r /\ shows_sent c gs r.
Proof.
  intros Hc Hf Ht Hl Hg [[Rl Rn Rs Rr Rc] Hm Hb Hr Hgs (c1 & Hv & _)].
  destruct (split_combined_text c gs Hc Ht Hl Hg) as [Hne Hsplit]. cbn zeta in Hne, Hsplit.
  destruct (visual_config_read c Hc) as (c2 & Hc1 & Hc2 & Hc3). rewrite (fallback_views c Hf) in Hc3.
  assert (generateExprFromVisualConfig (Some c1) = generateExprFromVisualConfig (Some c)) as Hgen.
  { unfold effectiveExpr in Rs. rewrite Hm, Hv in Rs. apply Ok_inj in Rs. by rewrite Rs. }
  set (E := generateExprFromVisualConfig (Some c)) in *. set (R := buildRequestRuleExpr gs) in *.
  set (q := on_editor (fun s => s{{ te_rawExpr := combineBillingExpr E R }}{{ te_mode := RawEditing }}) p).
  assert (handle_tiered (ModeChanged RawEditing) p = Ok q) as H1.
  { cbn [handle_tiered handleModeChange]. rewrite Hv, Hgen, Hgs. fold R. unfold q.
    assert (str_or (combineBillingExpr E R) E = combineBillingExpr E R) as -> by (by destruct (combineBillingExpr E R)). done. }
  assert (rest q) as Rq.
  { split; [exact Rl|exact Rn| |done|exact Rc].
    change ((let* split := splitBillingExprAndRequestRules (combineBillingExpr E R) in Ok (sp_billingExpr split)) = Ok (tp_billingExpr p)).
    rewrite Hsplit, Hb. done. }
  set (r := (on_editor (fun s => s{{ te_visualConfig := Some c2 }}{{ te_groups := gs }}{{ te_mode := VisualEditing }}) q)
              {{ tp_requestRuleExpr := R }}).
  assert (handle_tiered (ModeChanged VisualEditing) q = Ok r) as H2.
  { cbn [handle_tiered handleModeChange]. change (te_rawExpr (tp_editor q)) with (combineBillingExpr E R). rewrite Hsplit.
    cbn [res_bind sp_requestRuleExpr sp_billingExpr]. rewrite Hc1. unfold R. rewrite (rules_parse gs Hg). done. }
  assert (rest r) as Rr'.
  { split; [|exact Rn| |done|].
    - change (te_loaded (tp_editor p) = Some (tp_billingExpr p, R)). by rewrite Rl, Hr.
    - change (Ok (generateExprFromVisualConfig (Some c2)) = Ok (tp_billingExpr p)). by rewrite Hc2, Hb.
    - change (exists can, canUseVisualRules R = Ok can). by rewrite <- Hr. }
  exists q, r. unfold tiered_step. rewrite H1, H2. cbn [res_bind]. rewrite !rest_commits by done. split_and!; [done..|].
  split; [done|done|exact Hb|done|done|by exists c2].
Qed.

Lemma mode_switch_roundtrip_witness :
  exists q r, tiered_step (ModeChanged RawEditing) demo_page = Ok q /\ te_mode (tp_editor q) = RawEditing
  /\ tp_billingExpr q = tp_billingExpr demo_page /\ tp_requestRuleExpr q = tp_requestRuleExpr demo_page
  /\ tiered_step (ModeChanged VisualEditing) q = Ok r /\ shows_sent demo_config demo_rules r.
Proof.
  apply mode_switch_roundtrip; [vm_compute; reflexivity..|].
  split; [split; [vm_compute; reflexivity..|intros _; vm_compute; reflexivity|exists true; vm_compute; reflexivity]
         |vm_compute; reflexivity..|eexists; split; [reflexivity|vm_compute; reflexivity]].
Defined.
