(* ===== verification/PriceList.v ===== *)
(** * The public price list (features/pricing: constants.ts, types.ts, lib/filters.ts,
      lib/model-helpers.ts, hooks/, index.tsx, pricing-sidebar.tsx, model-card-grid.tsx)

    Models with their vendors, the filters of the page as a state machine over the
    callbacks of its controls, the options of the side bar with their counts, and the pages
    of the grid of cards. [localeCompare] and the answers of the server are the
    environment's; labels are left out where they are translations. *)
From S2P Require Import RecordUpdate Prelude JsString JsNumber NumberOrder JsValue Regex OrderedMap.

(** ** Constants *)

Definition FILTER_ALL : jstr := "all".
Definition SORT_NAME : jstr := "name".
Definition SORT_PRICE_LOW : jstr := "price-low".
Definition SORT_PRICE_HIGH : jstr := "price-high".
Definition QUOTA_ALL : jstr := "all".
Definition QUOTA_TOKEN : jstr := "token".
Definition QUOTA_REQUEST : jstr := "request".

(** The keys of [ENDPOINT_TYPES], without [all]. *)
Definition ENDPOINT_ALL : jstr := "all".
Definition ENDPOINT_TYPES : list jstr :=
  ["openai"; "openai-response"; "anthropic"; "gemini"; "jina-rerank"; "image-generation"; "embeddings"; "openai-video"].

Definition EXCLUDED_GROUPS : list jstr := [[]; "auto"].
Definition QUOTA_VALUE_TOKEN : Z := 0.
Definition QUOTA_VALUE_REQUEST : Z := 1.
Definition DEFAULT_PRICING_PAGE_SIZE : nat := 20.

Inductive TokenUnit := UnitM | UnitK.
#[global] Instance TokenUnit_eq_dec : EqDecision TokenUnit.
Proof. solve_decision. Defined.

Definition TOKEN_UNIT_DIVISORS (u : TokenUnit) : num := match u with UnitM => num_of_Z 1 | UnitK => num_of_Z 1000 end.
Definition DEFAULT_TOKEN_UNIT : TokenUnit := UnitM.

Inductive ViewMode := ViewCard | ViewTable.

(** ** Data *)

Record PricingVendor := {
  v_id : Z;
  v_name : jstr;
  v_icon : option jstr;
  v_description : option jstr
}.

(** The fields the prices and filters read; [None] is [undefined] or [null], which the
    source does not tell apart here. *)
Record PricingModel := {
  m_model_name : jstr;
  m_description : option jstr;
  m_vendor_id : option Z;
  m_vendor_name : option jstr;
  m_vendor_icon : option jstr;
  m_vendor_description : option jstr;
  m_quota_type : Z;
  m_model_ratio : num;
  m_completion_ratio : num;
  m_model_price : option num;
  m_cache_ratio : option num;
  m_create_cache_ratio : option num;
  m_image_ratio : option num;
  m_audio_ratio : option num;
  m_audio_completion_ratio : option num;
  m_discount : option num;
  m_enable_groups : option (list jstr);
  m_tags : option jstr;
  m_supported_endpoint_types : option (list jstr);
  m_group_ratio : option jsobj;
  m_billing_mode : option jstr;
  m_billing_expr : option jstr;
  m_billing_currency : option jstr;
  m_billing_fx_rate : option num;
  m_billing_input_per_million : option num;
  m_billing_output_per_million : option num;
  m_billing_per_request : option num;
  m_price_unset : option bool
}.

Definition PricingModel_eta (m : PricingModel) : PricingModel :=
  {| m_model_name := m_model_name m; m_description := m_description m; m_vendor_id := m_vendor_id m;
     m_vendor_name := m_vendor_name m; m_vendor_icon := m_vendor_icon m;
     m_vendor_description := m_vendor_description m; m_quota_type := m_quota_type m;
     m_model_ratio := m_model_ratio m; m_completion_ratio := m_completion_ratio m;
     m_model_price := m_model_price m; m_cache_ratio := m_cache_ratio m;
     m_create_cache_ratio := m_create_cache_ratio m; m_image_ratio := m_image_ratio m;
     m_audio_ratio := m_audio_ratio m; m_audio_completion_ratio := m_audio_completion_ratio m;
     m_discount := m_discount m; m_enable_groups := m_enable_groups m; m_tags := m_tags m;
     m_supported_endpoint_types := m_supported_endpoint_types m; m_group_ratio := m_group_ratio m;
     m_billing_mode := m_billing_mode m; m_billing_expr := m_billing_expr m;
     m_billing_currency := m_billing_currency m; m_billing_fx_rate := m_billing_fx_rate m;
     m_billing_input_per_million := m_billing_input_per_million m;
     m_billing_output_per_million := m_billing_output_per_million m;
     m_billing_per_request := m_billing_per_request m; m_price_unset := m_price_unset m |}.

#[export] Hint Extern 0 (@Setter PricingModel ?E ?getter) =>
  projections_setter PricingModel_eta PricingModel E getter : typeclass_instances.

Record PricingData := {
  pd_data : option (list PricingModel);
  pd_vendors : option (list PricingVendor);
  pd_group_ratio : jsobj
}.

(** ** The data of the page (hooks/use-pricing-data.ts) *)

Definition priceRate (price : option num) : num := math_max (default (num_of_Z 1) price) (num_of_string "0.001").
Definition usdExchangeRate (rate price : option num) : num := math_max (default (priceRate price) rate) (num_of_string "0.001").

(** A vendor id that is 0 or missing has no vendor; of vendors with one id the last counts. *)
Definition vendor_of (vendors : list PricingVendor) (id : option Z) : option PricingVendor :=
  match id with
  | Some z => if (z =? 0)%Z then None else map_get z (fold_left (fun m v => map_set (v_id v) v m) vendors [])
  | None => None
  end.

Definition with_vendor (data : PricingData) (vendors : list PricingVendor) (model : PricingModel) : PricingModel :=
  let vendor := vendor_of vendors (m_vendor_id model) in
  model{{ m_vendor_name := v_name <$> vendor }}{{ m_vendor_icon := vendor ≫= v_icon }}
    {{ m_vendor_description := vendor ≫= v_description }}{{ m_group_ratio := Some (pd_group_ratio data) }}.

Definition page_models (data : option PricingData) : list PricingModel :=
  match data with
  | Some d =>
      match pd_data d, pd_vendors d with
      | Some models, Some vendors => map (with_vendor d vendors) models
      | _, _ => []
      end
  | None => []
  end.

(** ** Groups and their ratios (lib/model-helpers.ts) *)

Definition groups_of (model : PricingModel) : list jstr := default [] (m_enable_groups model).

Definition getAvailableGroups (model : PricingModel) (usableGroup : jsobj) : list jstr :=
  List.filter (fun g => bool_decide (g ∈ groups_of model))
    (List.filter (fun g => negb (bool_decide (g ∈ EXCLUDED_GROUPS))) (obj_keys usableGroup)).

(** [typeof ratio === 'number' && Number.isFinite(ratio)] *)
Definition finite_number (v : jsval) : option num :=
  match v with JNum n => if is_finite n then Some n else None | _ => None end.

Definition getConfiguredGroupRatio (groupRatio : jsobj) (group : jstr) : num :=
  default (num_of_Z 1) (finite_number (prop groupRatio group)).

(** The loop over the groups of the model. *)
Definition least_ratio (groupRatio : jsobj) (minRatio : num) (group : jstr) : num :=
  match finite_number (prop groupRatio group) with
  | Some ratio => if nlt ratio minRatio then ratio else minRatio
  | None => minRatio
  end.

Definition getDisplayGroupRatio (model : PricingModel) (selectedGroup : option jstr) : num :=
  let modelEnableGroups := groups_of model in
  let groupRatio := default [] (m_group_ratio model) in
  let least :=
    match modelEnableGroups with
    | [] => num_of_Z 1
    | _ =>
        let minRatio := fold_left (least_ratio groupRatio) modelEnableGroups inf in
        if neq minRatio inf then num_of_Z 1 else minRatio
    end in
  match selectedGroup with
  | Some g =>
      if non_empty g && (g !=? FILTER_ALL) && bool_decide (g ∈ modelEnableGroups)
      then getConfiguredGroupRatio groupRatio g else least
  | None => least
  end.

Definition isPriceUnset (model : PricingModel) : bool := m_price_unset model ==? Some true.
Definition isTokenBasedModel (model : PricingModel) : bool :=
  (m_quota_type model =? QUOTA_VALUE_TOKEN)%Z && negb (isPriceUnset model).

(** ** Filters (lib/filters.ts) *)

(** [text?.toLowerCase().includes(query)] *)
Definition text_has (lowerQuery : jstr) (text : option jstr) : bool :=
  match text with Some t => includes (toLowerCase t) lowerQuery | None => false end.

Definition matches_search (query : jstr) (m : PricingModel) : bool :=
  let lowerQuery := toLowerCase query in
  text_has lowerQuery (Some (m_model_name m)) || text_has lowerQuery (m_description m)
  || text_has lowerQuery (m_tags m) || text_has lowerQuery (m_vendor_name m).

Definition filterBySearch (models : list PricingModel) (query : jstr) : list PricingModel :=
  if negb (non_empty query) then models else List.filter (matches_search query) models.

Definition matches_vendor (vendor : jstr) (m : PricingModel) : bool := m_vendor_name m ==? Some vendor.
Definition filterByVendor (models : list PricingModel) (vendor : jstr) : list PricingModel :=
  if vendor ==? FILTER_ALL then models else List.filter (matches_vendor vendor) models.

Definition matches_group (group : jstr) (m : PricingModel) : bool := bool_decide (group ∈ groups_of m).
Definition filterByGroup (models : list PricingModel) (group : jstr) : list PricingModel :=
  if group ==? FILTER_ALL then models else List.filter (matches_group group) models.

(** [!m.price_unset] *)
Definition unset (m : PricingModel) : bool := default false (m_price_unset m).

Definition matches_quota (quotaType : jstr) (m : PricingModel) : bool :=
  if quotaType ==? QUOTA_TOKEN then (m_quota_type m =? QUOTA_VALUE_TOKEN)%Z && negb (unset m)
  else (m_quota_type m =? QUOTA_VALUE_REQUEST)%Z.
Definition filterByQuotaType (models : list PricingModel) (quotaType : jstr) : list PricingModel :=
  if quotaType ==? QUOTA_ALL then models else List.filter (matches_quota quotaType) models.

Definition matches_endpoint (endpointType : jstr) (m : PricingModel) : bool :=
  bool_decide (endpointType ∈ default [] (m_supported_endpoint_types m)).
Definition filterByEndpointType (models : list PricingModel) (endpointType : jstr) : list PricingModel :=
  if endpointType ==? ENDPOINT_ALL then models else List.filter (matches_endpoint endpointType) models.

(** [/[,;|\s]+/] *)
Definition tag_separators : rx := rplus (RSet (fun c => is_space c || one_of ",;|" c)).

Definition parseTags (tagsString : option jstr) : list jstr :=
  match tagsString with
  | None | Some [] => []
  | Some s => List.filter non_empty (map trim (rx_split tag_separators s))
  end.

Definition lower_tags (m : PricingModel) : list jstr := map toLowerCase (parseTags (m_tags m)).

Definition matches_tag (tag : jstr) (m : PricingModel) : bool :=
  match m_tags m with
  | None | Some [] => false
  | Some _ => bool_decide (toLowerCase tag ∈ lower_tags m)
  end.
Definition filterByTag (models : list PricingModel) (tag : jstr) : list PricingModel :=
  if tag ==? FILTER_ALL then models else List.filter (matches_tag tag) models.

Definition getModelPrice (model : PricingModel) : num :=
  if (m_quota_type model =? 0)%Z then m_model_ratio model
  else match m_model_price model with Some p => num_or p nzero | None => nzero end.

(** The sign of a comparator's number. *)
Definition sign_of (d : num) : comparison := default Eq (SFcompare d nzero).

(** The comparators by price: models without a price last, then [price]. *)
Definition price_cmp (price : PricingModel -> PricingModel -> num) (a b : PricingModel) : comparison :=
  if m_price_unset a !=? m_price_unset b then (if unset a then Gt else Lt) else sign_of (price a b).

Definition cmp_low : PricingModel -> PricingModel -> comparison :=
  price_cmp (fun a b => nsub (getModelPrice a) (getModelPrice b)).
Definition cmp_high : PricingModel -> PricingModel -> comparison :=
  price_cmp (fun a b => nsub (getModelPrice b) (getModelPrice a)).

Section List.
Context (localeCompare : jstr -> jstr -> comparison).

Definition cmp_name (a b : PricingModel) : comparison := localeCompare (m_model_name a) (m_model_name b).

Definition sortModels (models : list PricingModel) (sortBy : jstr) : list PricingModel :=
  if sortBy ==? SORT_NAME then js_sort cmp_name models
  else if sortBy ==? SORT_PRICE_LOW then js_sort cmp_low models
  else if sortBy ==? SORT_PRICE_HIGH then js_sort cmp_high models
  else models.

Record ModelFilters := {
  mf_search : jstr;
  mf_vendor : jstr;
  mf_group : jstr;
  mf_quotaType : jstr;
  mf_endpointType : jstr;
  mf_tag : jstr;
  mf_sortBy : jstr
}.

Definition filterAndSortModels (models : list PricingModel) (f : ModelFilters) : list PricingModel :=
  let result := filterBySearch models (mf_search f) in
  let result := filterByVendor result (mf_vendor f) in
  let result := filterByGroup result (mf_group f) in
  let result := filterByQuotaType result (mf_quotaType f) in
  let result := filterByEndpointType result (mf_endpointType f) in
  let result := filterByTag result (mf_tag f) in
  sortModels result (mf_sortBy f).

Definition add_tags (tagSet : list jstr) (model : PricingModel) : list jstr :=
  match m_tags model with
  | None | Some [] => tagSet
  | Some _ => fold_left (fun s tag => set_add (toLowerCase tag) s) (parseTags (m_tags model)) tagSet
  end.

Definition extractAllTags (models : list PricingModel) : list jstr :=
  js_sort localeCompare (fold_left add_tags models []).

End List.

(** ** The filters of the page (hooks/use-filters.ts) *)

(** [None] is a missing key. *)
Record FilterState := {
  fs_search : option jstr;
  fs_sort : option jstr;
  fs_vendor : option jstr;
  fs_group : option jstr;
  fs_quotaType : option jstr;
  fs_endpointType : option jstr;
  fs_tag : option jstr;
  fs_tokenUnit : option TokenUnit;
  fs_view : option ViewMode;
  fs_rechargePrice : option bool
}.

Definition FilterState_eta (s : FilterState) : FilterState :=
  {| fs_search := fs_search s; fs_sort := fs_sort s; fs_vendor := fs_vendor s; fs_group := fs_group s;
     fs_quotaType := fs_quotaType s; fs_endpointType := fs_endpointType s; fs_tag := fs_tag s;
     fs_tokenUnit := fs_tokenUnit s; fs_view := fs_view s; fs_rechargePrice := fs_rechargePrice s |}.

Definition or_default (v : option jstr) (d : jstr) : jstr := str_or (default [] v) d.

Definition searchInput (s : FilterState) : jstr := default [] (fs_search s).
Definition sortBy (s : FilterState) : jstr := or_default (fs_sort s) SORT_NAME.
Definition vendorFilter (s : FilterState) : jstr := or_default (fs_vendor s) FILTER_ALL.
Definition groupFilter (s : FilterState) : jstr := or_default (fs_group s) FILTER_ALL.
Definition quotaTypeFilter (s : FilterState) : jstr := or_default (fs_quotaType s) QUOTA_ALL.
Definition endpointTypeFilter (s : FilterState) : jstr := or_default (fs_endpointType s) ENDPOINT_ALL.
Definition tagFilter (s : FilterState) : jstr := or_default (fs_tag s) FILTER_ALL.
Definition tokenUnit (s : FilterState) : TokenUnit :=
  match fs_tokenUnit s with Some UnitK => UnitK | _ => DEFAULT_TOKEN_UNIT end.
Definition viewMode (s : FilterState) : ViewMode := match fs_view s with Some ViewTable => ViewTable | _ => ViewCard end.
Definition showRechargePrice (s : FilterState) : bool := default false (fs_rechargePrice s).

(** The controls of the page. *)
Inductive FilterEvent :=
| SetSearch (v : jstr)
| SetSort (v : jstr)
| SetVendor (v : jstr)
| SetGroup (v : jstr)
| SetQuotaType (v : jstr)
| SetEndpointType (v : jstr)
| SetTag (v : jstr)
| SetTokenUnit (v : TokenUnit)
| SetViewMode (v : ViewMode)
| SetShowRechargePrice (v : bool)
| ClearFilters
| ClearSearch.

#[export] Hint Extern 0 (@Setter FilterState ?E ?getter) =>
  projections_setter FilterState_eta FilterState E getter : typeclass_instances.

(** [v === all ? undefined : v] *)
Definition unless (all v : jstr) : option jstr := if v ==? all then None else Some v.

Definition clearFilters (s : FilterState) : FilterState :=
  s{{ fs_vendor := None }}{{ fs_group := None }}{{ fs_quotaType := None }}{{ fs_endpointType := None }}{{ fs_tag := None }}.
Definition clearSearch (s : FilterState) : FilterState := s{{ fs_search := None }}.

(** [updateFilters] with the update of each callback: an undefined value deletes the key. *)
Definition updateFilters (e : FilterEvent) (s : FilterState) : FilterState :=
  match e with
  | SetSearch v => s{{ fs_search := if non_empty v then Some v else None }}
  | SetSort v => s{{ fs_sort := unless SORT_NAME v }}
  | SetVendor v => s{{ fs_vendor := unless FILTER_ALL v }}
  | SetGroup v => s{{ fs_group := unless FILTER_ALL v }}
  | SetQuotaType v => s{{ fs_quotaType := unless QUOTA_ALL v }}
  | SetEndpointType v => s{{ fs_endpointType := unless ENDPOINT_ALL v }}
  | SetTag v => s{{ fs_tag := unless FILTER_ALL v }}
  | SetTokenUnit v => s{{ fs_tokenUnit := if v ==? DEFAULT_TOKEN_UNIT then None else Some v }}
  | SetViewMode v => s{{ fs_view := match v with ViewCard => None | ViewTable => Some ViewTable end }}
  | SetShowRechargePrice v => s{{ fs_rechargePrice := if v then Some true else None }}
  | ClearFilters => clearFilters s
  | ClearSearch => clearSearch s
  end.

(** The button of the empty list (index.tsx). *)
Definition handleClearAll (s : FilterState) : FilterState := clearSearch (clearFilters s).

Definition run_filters (es : list FilterEvent) (s : FilterState) : FilterState :=
  fold_left (fun s e => updateFilters e s) es s.

(** What is asked for of the list. *)
Definition filters_of (s : FilterState) : ModelFilters :=
  {| mf_search := searchInput s; mf_vendor := vendorFilter s; mf_group := groupFilter s;
     mf_quotaType := quotaTypeFilter s; mf_endpointType := endpointTypeFilter s; mf_tag := tagFilter s;
     mf_sortBy := sortBy s |}.

Definition filteredModels (localeCompare : jstr -> jstr -> comparison) (models : list PricingModel) (s : FilterState)
  : list PricingModel :=
  match models with [] => [] | _ => filterAndSortModels localeCompare models (filters_of s) end.

Definition availableTags (localeCompare : jstr -> jstr -> comparison) (models : list PricingModel) : list jstr :=
  match models with [] => [] | _ => extractAllTags localeCompare models end.

Definition active_filters (s : FilterState) : list bool :=
  [vendorFilter s !=? FILTER_ALL; groupFilter s !=? FILTER_ALL; quotaTypeFilter s !=? QUOTA_ALL;
   endpointTypeFilter s !=? ENDPOINT_ALL; tagFilter s !=? FILTER_ALL].
Definition hasActiveFilters (s : FilterState) : bool := existsb id (active_filters s).
Definition activeFilterCount (s : FilterState) : nat := length (List.filter id (active_filters s)).

(** The model whose details are open, and the groups of the side bar (index.tsx). *)
Definition selectedModel (models : list PricingModel) (selectedModelName : option jstr) : option PricingModel :=
  match selectedModelName with
  | None | Some [] => None
  | Some n => List.find (fun m => m_model_name m ==? n) models
  end.
Definition availableGroups (usableGroup : jsobj) : list jstr :=
  List.filter (fun g => negb (bool_decide (g ∈ EXCLUDED_GROUPS))) (obj_keys usableGroup).

(** ** The side bar (pricing-sidebar.tsx) *)

Record FilterOption := { fo_value : jstr; fo_count : option nat; fo_suffix : option jstr }.

Definition countBy (models : list PricingModel) (predicate : PricingModel -> bool) : nat :=
  fold_left (fun count model => count + (if predicate model then 1 else 0)) models 0.

(** [ratio.toFixed(3)] without its zeros and its dot at the end. *)
Definition formatGroupRatio (ratio : option num) : option jstr :=
  match ratio with
  | None => None
  | Some r =>
      let formatted :=
        if is_integer r then num_to_string r
        else let s := rev (strip_zeros (rev (to_fixed 3 r))) in if endsWith s "." then removelast s else s in
      Some ("x" ++ formatted)
  end.

Definition counted (models : list PricingModel) (value : jstr) (predicate : PricingModel -> bool) : FilterOption :=
  {| fo_value := value; fo_count := Some (countBy models predicate); fo_suffix := None |}.
Definition everything (models : list PricingModel) : FilterOption :=
  {| fo_value := FILTER_ALL; fo_count := Some (length models); fo_suffix := None |}.

Definition vendorOptions (models : list PricingModel) (vendors : list PricingVendor) : list FilterOption :=
  everything models
  :: List.filter (fun o => match fo_count o with Some n => (0 <? n)%nat | None => false end)
       (map (fun v => counted models (v_name v) (fun m => m_vendor_name m ==? Some (v_name v))) vendors).

Definition groupOptions (groups : list jstr) (groupRatios : option jsobj) : list FilterOption :=
  {| fo_value := FILTER_ALL; fo_count := None; fo_suffix := None |}
  :: map (fun group =>
            {| fo_value := group; fo_count := None;
               fo_suffix := formatGroupRatio (groupRatios ≫= fun r => match prop r group with JNum n => Some n | _ => None end) |})
       groups.

Definition quotaOptions (models : list PricingModel) : list FilterOption :=
  [ everything models;
    counted models QUOTA_TOKEN (fun m => (m_quota_type m =? 0)%Z);
    counted models QUOTA_REQUEST (fun m => (m_quota_type m =? 1)%Z) ].

Definition tagOptions (models : list PricingModel) (tags : list jstr) : list FilterOption :=
  everything models
  :: map (fun tag => counted models tag (fun m => bool_decide (toLowerCase tag ∈ lower_tags m))) tags.

Definition endpointOptions (models : list PricingModel) : list FilterOption :=
  everything models
  :: map (fun value => counted models value (fun m => bool_decide (value ∈ default [] (m_supported_endpoint_types m))))
       ENDPOINT_TYPES.

(** ** The grid of cards (model-card-grid.tsx) *)

(** [Math.max(1, Math.ceil(n / pageSize))] *)
Definition totalPages (models : list PricingModel) : nat :=
  Nat.max 1 ((length models + (DEFAULT_PRICING_PAGE_SIZE - 1)) / DEFAULT_PRICING_PAGE_SIZE).
Definition currentPage (models : list PricingModel) (page : nat) : nat := Nat.min page (totalPages models).
Definition pagedModels (models : list PricingModel) (page : nat) : list PricingModel :=
  take DEFAULT_PRICING_PAGE_SIZE (drop ((currentPage models page - 1) * DEFAULT_PRICING_PAGE_SIZE) models).

(** The buttons, with the condition that disables each. *)
Definition previousPage (models : list PricingModel) (page : nat) : nat :=
  if (currentPage models page <=? 1)%nat then page else Nat.max 1 (page - 1).
Definition nextPage (models : list PricingModel) (page : nat) : nat :=
  if (totalPages models <=? currentPage models page)%nat then page else Nat.min (totalPages models) (page + 1).
