(* ===== verification/PriceListProofs.v ===== *)
(** * Properties of the public price list

    The list shows exactly the models that every filter accepts, in the order asked for and
    stably; the counts beside the filters are the models they show; and the pages of the
    grid are a partition of the list. *)
From stdpp Require Import sorting.
From S2P Require Import RecordUpdate Prelude JsString JsNumber NumberOrder JsValue OrderedMap PriceList.

(** ** What the filters accept *)

Definition visible (f : ModelFilters) (m : PricingModel) : bool :=
  (negb (non_empty (mf_search f)) || matches_search (mf_search f) m)
  && ((mf_vendor f ==? FILTER_ALL) || matches_vendor (mf_vendor f) m)
  && ((mf_group f ==? FILTER_ALL) || matches_group (mf_group f) m)
  && ((mf_quotaType f ==? QUOTA_ALL) || matches_quota (mf_quotaType f) m)
  && ((mf_endpointType f ==? ENDPOINT_ALL) || matches_endpoint (mf_endpointType f) m)
  && ((mf_tag f ==? FILTER_ALL) || matches_tag (mf_tag f) m).

Lemma filter_if {A} (c : bool) (p : A -> bool) l :
  (if c then l else List.filter p l) = List.filter (fun x => c || p x) l.
Proof.
  destruct c; [|done]. cbn. induction l as [|x l IH]; [done|]. cbn. by rewrite <- IH.
Qed.

Lemma filtered lc models f :
  filterAndSortModels lc models f = sortModels lc (List.filter (visible f) models) (mf_sortBy f).
Proof.
  unfold filterAndSortModels, filterByTag, filterByEndpointType, filterByQuotaType, filterByGroup,
    filterByVendor, filterBySearch. rewrite !filter_if, !filter_filter. f_equal.
  apply List.filter_ext. intros m. unfold visible. by rewrite !andb_assoc.
Qed.

Lemma filteredModels_eq lc models s :
  filteredModels lc models s = sortModels lc (List.filter (visible (filters_of s)) models) (sortBy s).
Proof.
  unfold filteredModels. destruct models as [|m models]; [|by rewrite filtered].
  unfold sortModels. cbn [List.filter]. by repeat (destruct (sortBy s ==? _); [reflexivity|]).
Qed.

(** ** The order *)

(** The collation of the browser's locale is a total preorder. *)
Class Collation (lc : jstr -> jstr -> comparison) : Prop := {
  lc_opp : forall a b, lc b a = CompOpp (lc a b);
  lc_trans : forall a b c, lc a b <> Gt -> lc b c <> Gt -> lc a c <> Gt
}.

(** A model as the server sends it: [price_unset] is true or missing, and its price a number
    of JSON. *)
Definition served (m : PricingModel) : Prop :=
  m_price_unset m <> Some false /\ is_finite (getModelPrice m) = true /\ valid (getModelPrice m) = true.

Definition price_before (rel : num -> num -> bool) (a b : PricingModel) : Prop :=
  (unset a = false /\ unset b = true)
  \/ (unset a = unset b /\ rel (getModelPrice a) (getModelPrice b) = true).

(** [a] may stand before [b]. *)
Definition listed_before lc (order : jstr) (a b : PricingModel) : Prop :=
  if order ==? SORT_NAME then lc (m_model_name a) (m_model_name b) <> Gt
  else if order ==? SORT_PRICE_LOW then price_before nle a b
  else if order ==? SORT_PRICE_HIGH then price_before (fun p q => nle q p) a b
  else True.

(** [a] and [b] have the same place. *)
Definition tied (lc : jstr -> jstr -> comparison) (order : jstr) (a b : PricingModel) : bool :=
  if order ==? SORT_NAME then (match lc (m_model_name a) (m_model_name b) with Eq => true | _ => false end)
  else if bool_decide (order ∈ [SORT_PRICE_LOW; SORT_PRICE_HIGH])
  then Bool.eqb (unset a) (unset b) && neq (getModelPrice a) (getModelPrice b)
  else true.

Lemma unset_same a b : served a -> served b -> (m_price_unset a !=? m_price_unset b) = negb (Bool.eqb (unset a) (unset b)).
Proof. intros [Ha _] [Hb _]. unfold unset. destruct (m_price_unset a) as [[]|], (m_price_unset b) as [[]|]; done. Qed.

Lemma cmp_low_eq a b : served a -> served b -> cmp_low a b =
  if Bool.eqb (unset a) (unset b) then default Eq (SFcompare (getModelPrice a) (getModelPrice b))
  else if unset a then Gt else Lt.
Proof.
  intros Ha Hb. unfold cmp_low, price_cmp. rewrite unset_same by done.
  destruct (Bool.eqb _ _); [|done]. cbn [negb]. unfold sign_of.
  destruct Ha as (_ & Ha1 & Ha2), Hb as (_ & Hb1 & Hb2). by rewrite nsub_sign.
Qed.

Lemma cmp_high_low a b : served a -> served b ->
  cmp_high a b = if Bool.eqb (unset a) (unset b) then cmp_low b a else cmp_low a b.
Proof.
  intros Ha Hb. rewrite (cmp_low_eq a b), (cmp_low_eq b a) by done. unfold cmp_high, price_cmp.
  rewrite unset_same by done. destruct (unset a), (unset b); cbn; try done; unfold sign_of;
    destruct Ha as (_ & Ha1 & Ha2), Hb as (_ & Hb1 & Hb2); by rewrite nsub_sign.
Qed.

Lemma SFcompare_total x y : is_finite x = true -> is_finite y = true ->
  (SFcompare x y = Some Gt -> nle y x = true) /\ (SFcompare x y <> Some Gt -> nle x y = true).
Proof.
  intros Hx Hy. split; intros H.
  - rewrite nle_negb_nlt by done. unfold nlt, SFltb. by rewrite H.
  - unfold nle, SFleb. destruct (SFcompare x y) as [[]|] eqn:E; try done. by destruct x, y.
Qed.

Lemma low_order a b : served a -> served b ->
  (cmp_low a b <> Gt -> price_before nle a b) /\ (cmp_low a b = Gt -> price_before nle b a).
Proof.
  intros Ha Hb. rewrite cmp_low_eq by done. unfold price_before.
  pose proof (SFcompare_total (getModelPrice a) (getModelPrice b) ltac:(apply Ha) ltac:(apply Hb)) as [H1 H2].
  destruct (unset a), (unset b); cbn; (split; intros Hc; try (by left); try done; right; (split; [done|])).
  all: first [apply H2; intros E; rewrite E in Hc; done | apply H1; by destruct (SFcompare _ _) as [[]|]].
Qed.

Lemma high_order a b : served a -> served b ->
  (cmp_high a b <> Gt -> price_before (fun p q => nle q p) a b)
  /\ (cmp_high a b = Gt -> price_before (fun p q => nle q p) b a).
Proof.
  intros Ha Hb. rewrite cmp_high_low by done. unfold price_before.
  pose proof (SFcompare_total (getModelPrice b) (getModelPrice a) ltac:(apply Hb) ltac:(apply Ha)) as [H1 H2].
  rewrite !cmp_low_eq by done.
  destruct (unset a), (unset b); cbn; (split; intros Hc; try (by left); try done; right; (split; [done|])).
  all: first [apply H2; intros E; rewrite E in Hc; done | apply H1; by destruct (SFcompare _ _) as [[]|]].
Qed.

Lemma price_before_trans (rel : num -> num -> bool) a b c :
  (forall x y z, rel x y = true -> rel y z = true -> rel x z = true) ->
  price_before rel a b -> price_before rel b c -> price_before rel a c.
Proof.
  intros Hr. unfold price_before. destruct (unset a), (unset b), (unset c); naive_solver.
Qed.

Lemma neq_compare x y : neq x y = true -> SFcompare x y = Some Eq.
Proof. unfold neq, SFeqb. by destruct (SFcompare x y) as [[]|]. Qed.

Lemma compare_eq_trans x y z : SFcompare x y = Some Eq -> SFcompare x z = Some Eq -> SFcompare y z = Some Eq.
Proof.
  intros H1 H2. pose proof (SFcompare_key x y) as K1. pose proof (SFcompare_key x z) as K2.
  pose proof (SFcompare_key y z) as K3.
  destruct (num_key x), (num_key y), (num_key z); try congruence. apply K3.
  destruct K1 as [_ K1], K2 as [_ K2]. transitivity p; [symmetry; by apply K1|by apply K2].
Qed.

Lemma tied_prices m x y : served x -> served y ->
  Bool.eqb (unset m) (unset x) && neq (getModelPrice m) (getModelPrice x) = true ->
  Bool.eqb (unset m) (unset y) && neq (getModelPrice m) (getModelPrice y) = true -> cmp_low x y = Eq.
Proof.
  intros Hx Hy [H1 E1]%andb_true_iff [H2 E2]%andb_true_iff. apply Bool.eqb_prop in H1, H2.
  rewrite cmp_low_eq by done. rewrite <- H1, <- H2, Bool.eqb_reflx.
  by rewrite (compare_eq_trans (getModelPrice m)) by (by apply neq_compare).
Qed.

Section Sorted.
Context (lc : jstr -> jstr -> comparison) `{!Collation lc}.

Lemma lc_eq_trans a b c : lc a b = Eq -> lc a c = Eq -> lc b c <> Gt.
Proof.
  intros H1 H2. apply (lc_trans _ a); [|by rewrite H2]. rewrite (lc_opp a b), H1. done.
Qed.

Lemma sortModels_perm models order : sortModels lc models order ≡ₚ models.
Proof. unfold sortModels. repeat (destruct (_ ==? _); [apply js_sort_perm|]). done. Qed.

Lemma sortModels_sorted models order : Forall served models ->
  StronglySorted (listed_before lc order) (sortModels lc models order).
Proof.
  intros Hm. unfold sortModels, listed_before. destruct (order ==? SORT_NAME).
  { apply (js_sort_strongly _ (fun _ => True)); [by apply Forall_true|done| |].
    - intros x y _ _ E. unfold cmp_name in E. by rewrite lc_opp, E.
    - intros x y z _ _ _. by apply lc_trans. }
  destruct (order ==? SORT_PRICE_LOW).
  { apply (js_sort_strongly _ served); [done| | |].
    - intros x y Hx Hy. by apply low_order.
    - intros x y Hx Hy. by apply low_order.
    - intros x y z _ _ _. apply price_before_trans. intros ???. apply nle_trans. }
  destruct (order ==? SORT_PRICE_HIGH).
  { apply (js_sort_strongly _ served); [done| | |].
    - intros x y Hx Hy. by apply high_order.
    - intros x y Hx Hy. by apply high_order.
    - intros x y z _ _ _. apply price_before_trans. intros ??? H1 H2. by eapply nle_trans. }
  clear Hm. induction models as [|m models IH]; constructor; [done|by apply Forall_true].
Qed.

Lemma sortModels_stable models order m : Forall served models ->
  List.filter (tied lc order m) (sortModels lc models order) = List.filter (tied lc order m) models.
Proof.
  intros Hm. unfold sortModels, tied. destruct (order ==? SORT_NAME).
  { apply (js_sort_stable _ served); [done|]. intros x y _ _ Hx Hy.
    destruct (lc (m_model_name m) (m_model_name x)) eqn:E1; try done.
    destruct (lc (m_model_name m) (m_model_name y)) eqn:E2; try done. by eapply lc_eq_trans. }
  destruct (bool_decide_reflect (order = SORT_PRICE_LOW)) as [->|Hl].
  { apply (js_sort_stable _ served); [done|]. intros x y Hx Hy H1 H2. by rewrite (tied_prices m x y). }
  destruct (bool_decide_reflect (order = SORT_PRICE_HIGH)) as [->|Hh].
  { apply (js_sort_stable _ served); [done|]. intros x y Hx Hy H1 H2. rewrite cmp_high_low by done.
    destruct (Bool.eqb (unset x) (unset y)); by rewrite (tied_prices m). }
  done.
Qed.

(** C20: the list shows exactly the models that every filter accepts, each once; by name, or
    by price with the models without a price last; and models of one place stay in the
    order of the server. *)
Theorem shown_models_spec models s :
  Forall served models ->
  let shown := filteredModels lc models s in
  let accepted := List.filter (visible (filters_of s)) models in
  shown ≡ₚ accepted
  /\ StronglySorted (listed_before lc (sortBy s)) shown
  /\ forall m, List.filter (tied lc (sortBy s) m) shown = List.filter (tied lc (sortBy s) m) accepted.
Proof.
  intros Hm. cbn zeta. rewrite filteredModels_eq.
  assert (Forall served (List.filter (visible (filters_of s)) models)) as Ha.
  { rewrite Forall_forall in Hm |- *. intros m Hin. apply list_elem_of_In, filter_In in Hin as [Hin _].
    by apply Hm, list_elem_of_In. }
  split_and!; [apply sortModels_perm|by apply sortModels_sorted|]. intros m. by apply sortModels_stable.
Qed.

(** ** The counts of the side bar *)

Lemma countBy_filter models p : countBy models p = length (List.filter p models).
Proof.
  unfold countBy. enough (forall n, fold_left (fun count m => count + (if p m then 1 else 0)) models n
    = n + length (List.filter p models)) as H by apply H.
  induction models as [|m models IH]; intros n; cbn; [lia|]. rewrite IH. destruct (p m); cbn; lia.
Qed.

Lemma shown_length models s : length (filteredModels lc models s) = countBy models (visible (filters_of s)).
Proof. by rewrite filteredModels_eq, sortModels_perm, countBy_filter. Qed.

Lemma countBy_ext models p q : (forall m, p m = q m) -> countBy models p = countBy models q.
Proof. intros H. rewrite !countBy_filter. f_equal. apply List.filter_ext. done. Qed.

(** Nothing is filtered or searched for. *)
Definition at_rest (s : FilterState) : Prop :=
  searchInput s = [] /\ vendorFilter s = FILTER_ALL /\ groupFilter s = FILTER_ALL
  /\ quotaTypeFilter s = QUOTA_ALL /\ endpointTypeFilter s = ENDPOINT_ALL /\ tagFilter s = FILTER_ALL.

Lemma rest_no_filters s : searchInput s = [] -> hasActiveFilters s = false -> at_rest s.
Proof.
  unfold hasActiveFilters, active_filters, at_rest. cbn [existsb id]. intros H1 H2. bools.
  by split_and!.
Qed.

Lemma or_unless all v : v <> [] -> or_default (unless all v) all = v.
Proof. intros Hv. unfold or_default, unless. bd; [done|]. by destruct v. Qed.

Ltac rest_visible H :=
  destruct H as (E1 & E2 & E3 & E4 & E5 & E6);
  unfold visible, filters_of, updateFilters, searchInput, vendorFilter, groupFilter, quotaTypeFilter,
    endpointTypeFilter, tagFilter in *; cbn in *;
  rewrite ?E1, ?E2, ?E3, ?E4, ?E5, ?E6, ?or_unless by done; cbn [non_empty negb orb andb];
  rewrite ?(bool_decide_true (_ = _)) by done; cbn [orb andb]; rewrite ?andb_true_r.

Lemma rest_everything s m : at_rest s -> visible (filters_of s) m = true.
Proof. intros H. by rest_visible H. Qed.

Lemma choose_vendor s v m : at_rest s -> v <> [] ->
  visible (filters_of (updateFilters (SetVendor v) s)) m = (v ==? FILTER_ALL) || (m_vendor_name m ==? Some v).
Proof. intros H Hv. by rest_visible H. Qed.

Lemma choose_quota s v m : at_rest s -> v <> [] ->
  visible (filters_of (updateFilters (SetQuotaType v) s)) m = (v ==? QUOTA_ALL) || matches_quota v m.
Proof. intros H Hv. by rest_visible H. Qed.

Lemma choose_endpoint s v m : at_rest s -> v <> [] ->
  visible (filters_of (updateFilters (SetEndpointType v) s)) m = (v ==? ENDPOINT_ALL) || matches_endpoint v m.
Proof. intros H Hv. by rest_visible H. Qed.

Lemma choose_tag s v m : at_rest s -> v <> [] ->
  visible (filters_of (updateFilters (SetTag v) s)) m = (v ==? FILTER_ALL) || matches_tag v m.
Proof. intros H Hv. by rest_visible H. Qed.

Lemma matches_tag_lower tag m : matches_tag tag m = bool_decide (toLowerCase tag ∈ lower_tags m).
Proof.
  unfold matches_tag, lower_tags, parseTags. destruct (m_tags m) as [[|c t]|]; [|done|];
    cbn; (rewrite bool_decide_false; [done|]); apply not_elem_of_nil.
Qed.

(** The count beside an option is the number of models that choosing it shows. *)
Definition counts_shown (models : list PricingModel) (s : FilterState) (ev : jstr -> FilterEvent) (o : FilterOption) : Prop :=
  fo_count o = Some (length (filteredModels lc models (updateFilters (ev (fo_value o)) s))).

(** An option that can be chosen: its name is not empty, and [all] only means everything. *)
Definition choosable (models : list PricingModel) (o : FilterOption) : Prop :=
  fo_value o <> [] /\ (fo_value o = FILTER_ALL -> o = everything models).

Lemma count_all models p : (forall m, p m = true) -> countBy models p = length models.
Proof.
  intros Hp. rewrite countBy_filter. induction models as [|m models IH]; [done|]. cbn. rewrite Hp. cbn. by rewrite IH.
Qed.

Lemma everything_shown models s ev :
  (forall m, visible (filters_of (updateFilters (ev FILTER_ALL) s)) m = true) -> counts_shown models s ev (everything models).
Proof. intros Hv. unfold counts_shown. cbn [everything fo_count fo_value]. by rewrite shown_length, count_all. Qed.

Lemma counted_shown models s ev v p : choosable models (counted models v p) ->
  (forall m, visible (filters_of (updateFilters (ev v) s)) m = (v ==? FILTER_ALL) || p m) ->
  counts_shown models s ev (counted models v p).
Proof.
  intros [_ Hall] Hv. destruct (decide (v = FILTER_ALL)) as [->|Hne].
  - rewrite (Hall eq_refl). apply everything_shown. intros m. by rewrite Hv.
  - unfold counts_shown. cbn [counted fo_count fo_value]. rewrite shown_length. f_equal. apply countBy_ext.
    intros m. by rewrite Hv, bool_decide_false.
Qed.

(** C30: from an unfiltered list, choosing a vendor, a tag, an endpoint or a kind of price shows
    as many models as the count beside it says; for the token-priced models as long as every
    model has a price. *)
Theorem option_counts models vendors tags s :
  searchInput s = [] -> hasActiveFilters s = false ->
  (forall o, o ∈ vendorOptions models vendors -> choosable models o -> counts_shown models s SetVendor o)
  /\ (forall o, o ∈ tagOptions models tags -> choosable models o -> counts_shown models s SetTag o)
  /\ (forall o, o ∈ endpointOptions models -> counts_shown models s SetEndpointType o)
  /\ (forall o, o ∈ quotaOptions models -> (fo_value o = QUOTA_TOKEN -> Forall (fun m => unset m = false) models) ->
      counts_shown models s SetQuotaType o).
Proof.
  intros H1 H2. pose proof (rest_no_filters s H1 H2) as Hs.
  assert (forall ev, (forall m, visible (filters_of (updateFilters (ev FILTER_ALL) s)) m = true) ->
    counts_shown models s ev (everything models)) as Hall by (intros; by apply everything_shown).
  split_and!.
  - intros o [->|Ho]%elem_of_cons Hc; [apply Hall; intros m; by rewrite choose_vendor|].
    apply list_elem_of_In, filter_In in Ho as [Ho _]. apply in_map_iff in Ho as (v & <- & _).
    apply counted_shown; [done|]. intros m. apply choose_vendor; [done|apply Hc].
  - intros o [->|Ho]%elem_of_cons Hc; [apply Hall; intros m; by rewrite choose_tag|].
    apply list_elem_of_In, in_map_iff in Ho as (tag & <- & _).
    apply counted_shown; [done|]. intros m. rewrite choose_tag by (done || apply Hc). by rewrite matches_tag_lower.
  - intros o [->|Ho]%elem_of_cons; [apply Hall; intros m; by rewrite choose_endpoint|].
    apply list_elem_of_In, in_map_iff in Ho as (v & <- & Hv).
    assert (v <> [] /\ v <> FILTER_ALL) as [Hv1 Hv2].
    { split; intros ->; by repeat (destruct Hv as [Hv|Hv]; [discriminate Hv|]). }
    apply counted_shown; [by split|]. intros m. by apply choose_endpoint.
  - intros o Ho Hu. apply elem_of_cons in Ho as [->|Ho]; [apply Hall; intros m; by rewrite choose_quota|].
    apply elem_of_cons in Ho as [->|Ho].
    + unfold counts_shown. cbn [counted fo_count fo_value]. rewrite shown_length, !countBy_filter. do 2 f_equal.
      specialize (Hu eq_refl). apply filter_ext_in. intros m Hm%list_elem_of_In. rewrite choose_quota by done.
      rewrite Forall_forall in Hu. change (matches_quota QUOTA_TOKEN m) with ((m_quota_type m =? 0)%Z && negb (unset m)).
      by rewrite (Hu m Hm), andb_true_r.
    + apply elem_of_cons in Ho as [->|Ho%elem_of_nil]; [|done].
      apply counted_shown; [done|]. intros m. by apply choose_quota.
Qed.

(** The button of the empty list: afterwards every model is listed. *)
Lemma clear_all_shows_all models s : filteredModels lc models (handleClearAll s) ≡ₚ models.
Proof.
  rewrite filteredModels_eq, sortModels_perm. assert (at_rest (handleClearAll s)) as Hs by done.
  induction models as [|m models IH]; [done|]. cbn [List.filter]. by rewrite rest_everything, IH.
Qed.
End Sorted.

(** ** The pages of the grid *)

Lemma totalPages_enough models : length models <= totalPages models * DEFAULT_PRICING_PAGE_SIZE.
Proof.
  unfold totalPages, DEFAULT_PRICING_PAGE_SIZE. pose proof (Nat.div_mod_eq (length models + (20 - 1)) 20).
  pose proof (Nat.mod_upper_bound (length models + (20 - 1)) 20). lia.
Qed.

Lemma pages_prefix {A} (l : list A) n p :
  concat (map (fun k => take n (drop ((k - 1) * n) l)) (seq 1 p)) = take (p * n) l.
Proof.
  induction p as [|p IH]; [done|]. rewrite seq_S, map_app, concat_app, IH. cbn [map concat].
  rewrite app_nil_r. replace (1 + p - 1) with p by lia. rewrite take_take_drop. f_equal. lia.
Qed.

(** The pages of the grid, one after the other, are the list; no page has more than 20
    cards, and whatever page is asked for, a list that is not empty shows one with cards. *)
Theorem pages_partition models :
  concat (map (pagedModels models) (seq 1 (totalPages models))) = models
  /\ (forall page, length (pagedModels models page) <= DEFAULT_PRICING_PAGE_SIZE)
  /\ (forall page, 1 <= page -> models <> [] -> pagedModels models page <> []).
Proof.
  pose proof (totalPages_enough models) as Hn. split_and!.
  - erewrite map_ext_in; [rewrite (pages_prefix models DEFAULT_PRICING_PAGE_SIZE); by apply take_ge|].
    intros k Hk%in_seq. unfold pagedModels, currentPage. by rewrite Nat.min_l by lia.
  - intros page. unfold pagedModels. rewrite length_take. lia.
  - intros page Hp Hne E%(f_equal length). unfold pagedModels, currentPage in E.
    rewrite length_take, length_drop in E. cbn [length] in E.
    assert (0 < length models) by (destruct models; [done|cbn; lia]).
    assert ((Nat.min page (totalPages models) - 1) * DEFAULT_PRICING_PAGE_SIZE < length models); [|unfold DEFAULT_PRICING_PAGE_SIZE in *; lia].
    unfold totalPages, DEFAULT_PRICING_PAGE_SIZE in *.
    pose proof (Nat.div_mod_eq (length models + (20 - 1)) 20). nia.
Qed.

(** After the list has become shorter, the button of the previous page does nothing visible
    until it has been pressed down to the last page. *)
Lemma previous_page_stuck models page : totalPages models < page -> 1 < totalPages models ->
  previousPage models page <> page /\ pagedModels models (previousPage models page) = pagedModels models page.
Proof.
  intros Hp Ht. unfold pagedModels, previousPage, currentPage. rewrite (Nat.min_r page) by lia.
  destruct (Nat.leb_spec (totalPages models) 1); [lia|]. split; [lia|]. by rewrite Nat.min_r by lia.
Qed.

(** ** Instances *)

Definition plain_model (name : jstr) (ratio : Z) : PricingModel :=
  {| m_model_name := name; m_description := None; m_vendor_id := Some 1%Z; m_vendor_name := Some "Acme";
     m_vendor_icon := None; m_vendor_description := None; m_quota_type := 0; m_model_ratio := num_of_Z ratio;
     m_completion_ratio := num_of_Z 2; m_model_price := None; m_cache_ratio := None; m_create_cache_ratio := None;
     m_image_ratio := None; m_audio_ratio := None; m_audio_completion_ratio := None; m_discount := None;
     m_enable_groups := Some ["default"; "vip"]; m_tags := Some "fast, Chat"; m_supported_endpoint_types := Some ["openai"];
     m_group_ratio := Some [("default", JNum (num_of_Z 2)); ("vip", JNum (num_of_Z 1))];
     m_billing_mode := None; m_billing_expr := None; m_billing_currency := None; m_billing_fx_rate := None;
     m_billing_input_per_million := None; m_billing_output_per_million := None; m_billing_per_request := None;
     m_price_unset := None |}.

Definition unset_model (name : jstr) : PricingModel := (plain_model name 0){{ m_price_unset := Some true }}.

Definition three_models : list PricingModel := [plain_model "b" 3; unset_model "c"; plain_model "a" 5].

Definition no_filters : FilterState :=
  {| fs_search := None; fs_sort := None; fs_vendor := None; fs_group := None; fs_quotaType := None;
     fs_endpointType := None; fs_tag := None; fs_tokenUnit := None; fs_view := None; fs_rechargePrice := None |}.

Lemma unit_order_collation : Collation unit_order.
Proof.
  split.
  - induction a as [|x a IH]; intros [|y b]; try done. cbn. rewrite (N.compare_antisym x y).
    destruct (x ?= y)%N; cbn; [apply IH|done..].
  - induction a as [|x a IH]; intros [|y b] [|z c]; try done. cbn.
    destruct (N.compare_spec x y), (N.compare_spec y z), (N.compare_spec x z); subst; try done; try lia. apply IH.
Qed.

Definition price_high : FilterState := updateFilters (SetSort SORT_PRICE_HIGH) no_filters.

Lemma shown_models_spec_witness :
  map m_model_name (filteredModels unit_order three_models price_high) = ["a"; "b"; "c"]
  /\ StronglySorted (listed_before unit_order SORT_PRICE_HIGH) (filteredModels unit_order three_models price_high).
Proof.
  split; [vm_compute; reflexivity|].
  apply (shown_models_spec unit_order (Collation0 := unit_order_collation) three_models price_high).
  repeat constructor; discriminate.
Defined.

Definition acme : PricingVendor := {| v_id := 1; v_name := "Acme"; v_icon := None; v_description := None |}.

Definition acme_models : list PricingModel :=
  [plain_model "b" 3; (plain_model "a" 5){{ m_vendor_name := None }}].

Lemma option_counts_witness :
  counts_shown unit_order acme_models no_filters SetVendor
    {| fo_value := "Acme"; fo_count := Some 1; fo_suffix := None |}
  /\ counts_shown unit_order acme_models no_filters SetQuotaType
    {| fo_value := QUOTA_TOKEN; fo_count := Some 2; fo_suffix := None |}.
Proof.
  destruct (option_counts unit_order acme_models [acme] [] no_filters eq_refl eq_refl) as (Hv & _ & _ & Hq). split.
  - apply Hv; [vm_compute; by right; left|by split].
  - apply Hq; [vm_compute; by right; left|]. repeat constructor.
Defined.

(** The count of token-priced models counts models without a price, which choosing it hides. *)
Lemma token_count_overstates :
  nth_error (quotaOptions three_models) 1 = Some {| fo_value := QUOTA_TOKEN; fo_count := Some 3; fo_suffix := None |}
  /\ length (filteredModels unit_order three_models (updateFilters (SetQuotaType QUOTA_TOKEN) no_filters)) = 2.
Proof. split; vm_compute; reflexivity. Qed.
