(* ===== verification/PriceDisplay.v ===== *)
(** * Displayed prices (features/pricing: lib/price.ts, lib/dynamic-price.ts, model-card.tsx,
      pricing-columns.tsx, model-details.tsx, dynamic-pricing-breakdown.tsx)

    The texts of prices of the public list: of token-priced and request-priced models, of
    models with a billing expression, and what the cards, the details of a model and the
    table of its tiers show. What is shown is data; labels are left out where they are
    translations. *)
From S2P Require Import Prelude JsString JsNumber JsValue Regex Json OrderedMap BillingExpr Currency PriceList.

(** ** Texts of numbers *)

(** [Number(v)] of a number that may be missing. *)
Definition num_opt (v : option num) : num := default nan v.

(** The currency symbol, the number and the suffix of a formatted price. *)
Definition price_re : rx :=
  rseq [RBol; RCap 1 (RStar (RSet (fun c => negb (is_digit c) && negb (c =? 45)%N)));
        RCap 2 (rseq [rplus (RSet (fun c => is_digit c || one_of "-," c)); ropt (RLit "."); RStar (RSet is_digit)]);
        RCap 3 (ropt (RLit "k")); REol].

(** The zeros at the end with the dot before them: the longest such suffix. *)
Definition strip_zero_tail (s : jstr) : jstr :=
  let r := rev s in
  let z := strip_zeros r in
  if (length z =? length r)%nat then s
  else rev (match z with c :: t => if (c =? 46)%N then t else z | [] => [] end).

Definition stripTrailingZeros (formatted : jstr) : jstr :=
  match rx_exec price_re formatted with
  | None => formatted
  | Some m =>
      let cleanNumber := List.filter (fun c => negb (c =? 44)%N) (group_or m 2) in
      let parsed := parse_float cleanNumber in
      if is_nan parsed then formatted
      else
        let result := num_to_string parsed in
        let result := if includes result "e" then strip_zero_tail (to_fixed 20 parsed) else result in
        group_or m 1 ++ result ++ group_or m 3
  end.

(** ** Prices of tokens and requests (lib/price.ts) *)

Inductive PriceType := TInput | TOutput | TCache | TCreateCache | TImage | TAudioInput | TAudioOutput.
Inductive PriceVariant := Discounted | Original.
#[global] Instance PriceVariant_eq_dec : EqDecision PriceVariant.
Proof. solve_decision. Defined.

Definition hasRatio (value : option num) : bool := match value with Some n => is_finite n | None => false end.

(** [hasRatio(ratio) ? base * ratio : NaN] *)
Definition scaled (base : num) (ratio : option num) : num := if hasRatio ratio then nmul base (num_opt ratio) else nan.

Definition calculateTokenPrice (model : PricingModel) (type : PriceType) (ratio : num) : num :=
  let localizedInput := num_opt (m_billing_input_per_million model) in
  let localizedOutput := num_opt (m_billing_output_per_million model) in
  let base :=
    if is_finite localizedInput then nmul localizedInput ratio
    else nmul (nmul (m_model_ratio model) (num_of_Z 2)) ratio in
  match type with
  | TInput => base
  | TOutput =>
      if is_finite localizedOutput then nmul localizedOutput ratio else nmul base (m_completion_ratio model)
  | TCache => scaled base (m_cache_ratio model)
  | TCreateCache => scaled base (m_create_cache_ratio model)
  | TImage => scaled base (m_image_ratio model)
  | TAudioInput => scaled base (m_audio_ratio model)
  | TAudioOutput =>
      if hasRatio (m_audio_ratio model) then scaled (nmul base (num_opt (m_audio_ratio model))) (m_audio_completion_ratio model)
      else nan
  end.

Definition some_text (v : option jstr) : bool := match v with Some (_ :: _) => true | _ => false end.

Definition hasLocalizedTokenPrice (model : PricingModel) : bool :=
  some_text (m_billing_currency model) && is_finite (num_opt (m_billing_input_per_million model))
  && is_finite (num_opt (m_billing_output_per_million model)).

Definition getModelDiscount (model : PricingModel) : num :=
  let rate := num_opt (m_discount model) in
  if negb (is_finite rate) || nle rate nzero || nle (num_of_Z 1) rate then num_of_Z 1 else rate.
Definition hasModelDiscount (model : PricingModel) : bool := nlt (getModelDiscount model) (num_of_Z 1).

Definition applyRechargeRate (price : num) (showWithRecharge : bool) (priceRate usdExchangeRate : num) : num :=
  if showWithRecharge then ndiv (nmul price priceRate) usdExchangeRate else price.

(** How the page shows prices. *)
Record PriceView := {
  pw_tokenUnit : TokenUnit;
  pw_showWithRecharge : bool;
  pw_priceRate : num;
  pw_usdExchangeRate : num
}.

Definition price_options (digitsLarge digitsSmall : nat) : option CurrencyFormatOptions :=
  Some {| o_digitsLarge := Some digitsLarge; o_digitsSmall := Some digitsSmall; o_abbreviate := Some false;
          o_minimumNonZero := None; o_compact := None; o_showSymbol := None; o_showCurrencyCode := None;
          o_locale := JUndef |}.

Section Prices.
Context `{NumberFormat} (site : CurrencyState).

Definition formatModelBillingAmount (model : PricingModel) (amount : num) (digits : nat) : option jstr :=
  match m_billing_currency model with
  | Some ((_ :: _) as c) => if isBillingCurrency c then Some (formatBillingAmount amount c digits) else None
  | _ => None
  end.

(** [localized || formatCurrencyFromUSD(price, ...)] *)
Definition price_text (model : PricingModel) (price : num) (digits : nat) : jstr :=
  match formatModelBillingAmount model price digits with
  | Some ((_ :: _) as localized) => localized
  | _ => formatCurrencyFromUSD site (Some price) (price_options 2 2)
  end.

Definition discounted (model : PricingModel) (variant : PriceVariant) (price : num) : num :=
  if variant ==? Discounted then nmul price (getModelDiscount model) else price.

(** The price of a type of tokens at a group's ratio. *)
Definition token_price (model : PricingModel) (type : PriceType) (w : PriceView) (variant : PriceVariant) (ratio : num) : jstr :=
  let priceInUSD := discounted model variant (calculateTokenPrice model type ratio) in
  let priceInUSD :=
    if hasLocalizedTokenPrice model then priceInUSD
    else applyRechargeRate priceInUSD (pw_showWithRecharge w) (pw_priceRate w) (pw_usdExchangeRate w) in
  price_text model (ndiv priceInUSD (TOKEN_UNIT_DIVISORS (pw_tokenUnit w))) 6.

Definition is_request (model : PricingModel) : bool := (m_quota_type model =? QUOTA_VALUE_REQUEST)%Z.

Definition formatPrice (model : PricingModel) (type : PriceType) (w : PriceView) (selectedGroup : option jstr)
    (variant : PriceVariant) : jstr :=
  if unset model || is_request model then "-"
  else token_price model type w variant (getDisplayGroupRatio model selectedGroup).

Definition formatGroupPrice (model : PricingModel) (group : jstr) (type : PriceType) (w : PriceView)
    (groupRatio : jsobj) (variant : PriceVariant) : jstr :=
  if is_request model then "-"
  else token_price model type w variant (getConfiguredGroupRatio groupRatio group).

(** The price of a request at a group's ratio. *)
Definition request_price (model : PricingModel) (w : PriceView) (variant : PriceVariant) (ratio : num) : jstr :=
  let localizedRequest := num_opt (m_billing_per_request model) in
  let hasLocalizedRequest := some_text (m_billing_currency model) && is_finite localizedRequest in
  let base :=
    if hasLocalizedRequest then localizedRequest
    else match m_model_price model with Some p => num_or p nzero | None => nzero end in
  let priceInUSD := discounted model variant (nmul base ratio) in
  let priceInUSD :=
    if hasLocalizedRequest then priceInUSD
    else applyRechargeRate priceInUSD (pw_showWithRecharge w) (pw_priceRate w) (pw_usdExchangeRate w) in
  price_text model priceInUSD 4.

Definition formatFixedPrice (model : PricingModel) (group : jstr) (w : PriceView) (groupRatio : jsobj)
    (variant : PriceVariant) : jstr :=
  if negb (is_request model) then "-"
  else request_price model w variant (getConfiguredGroupRatio groupRatio group).

Definition formatRequestPrice (model : PricingModel) (w : PriceView) (selectedGroup : option jstr)
    (variant : PriceVariant) : jstr :=
  if negb (is_request model) then "-"
  else request_price model w variant (getDisplayGroupRatio model selectedGroup).

(** ** Prices of a billing expression (lib/dynamic-price.ts) *)

Record DynamicPriceOptions := {
  do_view : PriceView;
  do_groupRatioMultiplier : num;
  do_billingCurrency : option jstr;
  do_billingFXRate : option num
}.

Definition PRIMARY_DYNAMIC_FIELDS : list jstr := ["inputPrice"; "outputPrice"].

Record DynamicPriceEntry := {
  de_field : jstr;
  de_value : num;
  de_formatted : jstr;
  de_variable : BillingVar
}.

Definition isDynamicPricingModel (model : PricingModel) : bool :=
  (m_billing_mode model ==? Some "tiered_expr") && some_text (m_billing_expr model).

Definition getDynamicDisplayGroupRatio : PricingModel -> option jstr -> num := getDisplayGroupRatio.

Definition formatDynamicUnitPrice (valuePerMillionTokens : num) (o : DynamicPriceOptions) : jstr :=
  let w := do_view o in
  let priceUSD :=
    ndiv (nmul valuePerMillionTokens (do_groupRatioMultiplier o)) (TOKEN_UNIT_DIVISORS (pw_tokenUnit w)) in
  let fx := num_opt (do_billingFXRate o) in
  match do_billingCurrency o with
  | Some ((_ :: _) as c) =>
      if isBillingCurrency c && is_finite fx && nlt nzero fx then formatBillingAmount (nmul priceUSD fx) c 6
      else formatBillingCurrencyFromUSD site
             (Some (applyRechargeRate priceUSD (pw_showWithRecharge w) (pw_priceRate w) (pw_usdExchangeRate w)))
             (price_options 4 6)
  | _ =>
      formatBillingCurrencyFromUSD site
        (Some (applyRechargeRate priceUSD (pw_showWithRecharge w) (pw_priceRate w) (pw_usdExchangeRate w)))
        (price_options 4 6)
  end.

Definition split_of (model : PricingModel) : res SplitExpr :=
  splitBillingExprAndRequestRules (default [] (m_billing_expr model)).

Definition getDynamicPricingTiers (model : PricingModel) : res (list ParsedTier) :=
  if isDynamicPricingModel model
  then let* sp := split_of model in Ok (parseTiersFromExpr (sp_billingExpr sp))
  else Ok [].

Definition hasDynamicRequestRules (model : PricingModel) : res bool :=
  if isDynamicPricingModel model then
    let* sp := split_of model in
    let* groups := tryParseRequestRuleExpr (sp_requestRuleExpr sp) in
    Ok (match groups with Some (_ :: _) => true | _ => false end)
  else Ok false.

(** [Number(tier[field])] *)
Definition tier_number (tier : ParsedTier) (field : jstr) : num := num_opt (obj_get field (pt_fields tier)).

Definition price_entry (tier : ParsedTier) (o : DynamicPriceOptions) (variable : BillingVar) : list DynamicPriceEntry :=
  match bv_field variable with
  | None => []
  | Some field =>
      let value := tier_number tier field in
      if negb (is_finite value) || nle value nzero then []
      else [{| de_field := field; de_value := value; de_formatted := formatDynamicUnitPrice value o;
               de_variable := variable |}]
  end.

Definition is_primary (e : DynamicPriceEntry) : bool := bool_decide (de_field e ∈ PRIMARY_DYNAMIC_FIELDS).

Definition primary_cmp (a b : DynamicPriceEntry) : comparison :=
  if Bool.eqb (is_primary a) (is_primary b) then Eq else if is_primary a then Lt else Gt.

Definition getDynamicPriceEntries (tier : option ParsedTier) (o : DynamicPriceOptions) : list DynamicPriceEntry :=
  match tier with
  | None => []
  | Some tier => js_sort primary_cmp (flat_map (price_entry tier o) BILLING_PRICING_VARS)
  end.

Record DynamicPricingSummary := {
  ds_tiers : list ParsedTier;
  ds_tier : option ParsedTier;
  ds_tierCount : nat;
  ds_hasRequestRules : bool;
  ds_isSpecialExpression : bool;
  ds_rawExpression : jstr;
  ds_entries : list DynamicPriceEntry;
  ds_primaryEntries : list DynamicPriceEntry;
  ds_secondaryEntries : list DynamicPriceEntry
}.

Definition getDynamicPricingSummary (model : PricingModel) (w : PriceView) (groupRatioMultiplier : num)
  : res (option DynamicPricingSummary) :=
  if negb (isDynamicPricingModel model) then Ok None
  else
    let* tiers := getDynamicPricingTiers model in
    let entries :=
      getDynamicPriceEntries (head tiers)
        {| do_view := w; do_groupRatioMultiplier := groupRatioMultiplier;
           do_billingCurrency := m_billing_currency model; do_billingFXRate := m_billing_fx_rate model |} in
    let rawExpression := default [] (m_billing_expr model) in
    let* hasRules := hasDynamicRequestRules model in
    Ok (Some {| ds_tiers := tiers; ds_tier := head tiers; ds_tierCount := length tiers; ds_hasRequestRules := hasRules;
                ds_isSpecialExpression := non_empty (trim rawExpression) && (tiers ==? []);
                ds_rawExpression := rawExpression; ds_entries := entries;
                ds_primaryEntries := List.filter is_primary entries;
                ds_secondaryEntries := List.filter (fun e => negb (is_primary e)) entries |}).

(** ** Summaries: the card of a model (model-card.tsx), its row in the table (pricing-columns.tsx) *)

(** [-{Math.round((1 - discount) * 100)}%] *)
Definition discount_badge (model : PricingModel) : option jstr :=
  if hasModelDiscount model
  then Some ("-" ++ num_to_string (math_round (nmul (nsub (num_of_Z 1) (getModelDiscount model)) (num_of_Z 100))) ++ "%")
  else None.

(** A price, with the price before the discount when there is one. *)
Record ShownPrice := { sp_original : option jstr; sp_price : jstr }.

Inductive PriceSummary :=
| SummaryUnset
| SummarySpecial (rawExpression : jstr)
| SummaryDynamic
| SummaryEntries (entries : list DynamicPriceEntry) (formatted : list jstr)
| SummaryTokens (discount : option jstr) (input output : ShownPrice)
| SummaryRequest (discount : option jstr) (price : ShownPrice).

Definition shown_price (model : PricingModel) (price : PriceVariant -> jstr) : ShownPrice :=
  {| sp_original := if hasModelDiscount model then Some (price Original) else None; sp_price := price Discounted |}.

Definition dynamic_summary (model : PricingModel) (w : PriceView) (selectedGroup : option jstr)
  : res (option DynamicPricingSummary) :=
  getDynamicPricingSummary model w (getDynamicDisplayGroupRatio model selectedGroup).

(** With the cached price of a token-priced model, in [snd]. *)
Definition card_summary (model : PricingModel) (w : PriceView) (selectedGroup : option jstr)
  : res (PriceSummary * option jstr) :=
  let* dynamicSummary := dynamic_summary model w selectedGroup in
  Ok (if isPriceUnset model then (SummaryUnset, None)
      else
        match dynamicSummary with
        | Some ds =>
            if ds_isSpecialExpression ds then (SummarySpecial (ds_rawExpression ds), None)
            else
              match ds_primaryEntries ds with
              | [] => (SummaryDynamic, None)
              | entries => (SummaryEntries entries (map de_formatted entries), None)
              end
        | None =>
            if isTokenBasedModel model then
              let prices type := shown_price model (formatPrice model type w selectedGroup) in
              (SummaryTokens (discount_badge model) (prices TInput) (prices TOutput),
               match m_cache_ratio model with
               | Some _ => Some (formatPrice model TCache w selectedGroup Discounted)
               | None => None
               end)
            else (SummaryRequest None (shown_price model (formatRequestPrice model w selectedGroup)), None)
        end).

(** The cell of the price column, with the number of tiers when it is shown. *)
Definition table_summary (model : PricingModel) (w : PriceView) (selectedGroup : option jstr)
  : res (PriceSummary * option nat) :=
  if isPriceUnset model then Ok (SummaryUnset, None)
  else
    let* dynamicSummary := dynamic_summary model w selectedGroup in
    Ok (match dynamicSummary with
        | Some ds =>
            if ds_isSpecialExpression ds then (SummarySpecial (ds_rawExpression ds), None)
            else
              match take 2 (ds_primaryEntries ds) with
              | [] => (SummaryDynamic, None)
              | entries =>
                  (SummaryEntries entries (map (fun e => stripTrailingZeros (de_formatted e)) entries),
                   if (1 <? ds_tierCount ds)%nat then Some (ds_tierCount ds) else None)
              end
        | None =>
            if isTokenBasedModel model then
              let prices type := shown_price model (fun v => stripTrailingZeros (formatPrice model type w selectedGroup v)) in
              (SummaryTokens (discount_badge model) (prices TInput) (prices TOutput), None)
            else
              (SummaryRequest (discount_badge model)
                 (shown_price model (fun v => stripTrailingZeros (formatRequestPrice model w selectedGroup v))), None)
        end).

(** The cell of the column of cached prices: a dash, the note of a special expression, or a price. *)
Inductive CachedCell := CachedNone | CachedSpecial | CachedPrice (price : jstr).

Definition cached_cell (model : PricingModel) (w : PriceView) (selectedGroup : option jstr) : res CachedCell :=
  if isPriceUnset model then Ok CachedNone
  else
    let* dynamicSummary := dynamic_summary model w selectedGroup in
    Ok (match dynamicSummary with
        | Some ds =>
            if ds_isSpecialExpression ds then CachedSpecial
            else
              match List.find (fun e => de_field e ==? "cacheReadPrice") (ds_entries ds) with
              | Some cacheEntry => CachedPrice (stripTrailingZeros (de_formatted cacheEntry))
              | None => CachedNone
              end
        | None =>
            match m_cache_ratio model with
            | Some _ =>
                if isTokenBasedModel model
                then CachedPrice (stripTrailingZeros (formatPrice model TCache w selectedGroup Discounted))
                else CachedNone
            | None => CachedNone
            end
        end).

(** ** The details of a model (model-details.tsx) *)

Definition autoChain (model : PricingModel) (autoGroups : list jstr) : list jstr :=
  List.filter (fun g => bool_decide (g ∈ groups_of model)) autoGroups.

(** The types of prices a model has besides input and output. *)
Definition extraPriceTypes (model : PricingModel) : list PriceType :=
  let present {A} (v : option A) t := match v with Some _ => [t] | None => [] end in
  present (m_cache_ratio model) TCache ++ present (m_create_cache_ratio model) TCreateCache
  ++ present (m_image_ratio model) TImage ++ present (m_audio_ratio model) TAudioInput
  ++ match m_audio_ratio model, m_audio_completion_ratio model with Some _, Some _ => [TAudioOutput] | _, _ => [] end.

(** [groupRatio[group] || 1] *)
Definition ratio_or_1 (groupRatio : jsobj) (group : jstr) : num :=
  match prop groupRatio group with JNum n => num_or n (num_of_Z 1) | _ => num_of_Z 1 end.

(** The last entry of each field, where the first of the field stands. *)
Definition getDynamicPriceFields (tiers : list ParsedTier) (o : DynamicPriceOptions) : list DynamicPriceEntry :=
  map_values (fold_left (fun m e => map_set (de_field e) e m)
    (flat_map (fun tier => getDynamicPriceEntries (Some tier) o) tiers) []).

Definition formatted_prices (tier : ParsedTier) (o : DynamicPriceOptions) : list (jstr * jstr) :=
  fold_left (fun m e => map_set (de_field e) (de_formatted e) m) (getDynamicPriceEntries (Some tier) o) [].

(** The options of the table by group: it passes no billing currency. *)
Definition group_options (w : PriceView) (ratio : num) : DynamicPriceOptions :=
  {| do_view := w; do_groupRatioMultiplier := ratio; do_billingCurrency := None; do_billingFXRate := None |}.

Record TierTable := {
  tt_group : jstr;
  tt_ratio : jstr;
  (** The label of each tier and its price in each field. *)
  tt_rows : list (jstr * list jstr)
}.

Record GroupRow := { gr_group : jstr; gr_ratio : jstr; gr_prices : list jstr }.

Inductive GroupPricing :=
| NoGroups
| GroupsUnset
| GroupsSpecial (billingExpr : jstr)
| GroupTiers (fields : list jstr) (tables : list TierTable)
| GroupRows (rows : list GroupRow).

Definition tier_table (tiers : list ParsedTier) (fields : list jstr) (groupRatio : jsobj) (w : PriceView) (group : jstr) : TierTable :=
  let ratio := ratio_or_1 groupRatio group in
  {| tt_group := group; tt_ratio := num_to_string ratio ++ "x";
     tt_rows :=
       map (fun tier =>
              let prices := formatted_prices tier (group_options w ratio) in
              (pt_label tier, map (fun f => default "-" (map_get f prices)) fields)) tiers |}.

Definition group_row (model : PricingModel) (groupRatio : jsobj) (w : PriceView) (group : jstr) : GroupRow :=
  {| gr_group := group; gr_ratio := num_to_string (ratio_or_1 groupRatio group) ++ "x";
     gr_prices :=
       if isTokenBasedModel model
       then map (fun type => formatGroupPrice model group type w groupRatio Discounted)
              (TInput :: TOutput :: extraPriceTypes model)
       else [formatFixedPrice model group w groupRatio Discounted] |}.

Definition group_pricing (model : PricingModel) (groupRatio usableGroup : jsobj) (w : PriceView) : res GroupPricing :=
  match getAvailableGroups model usableGroup with
  | [] => Ok NoGroups
  | groups =>
      if isPriceUnset model then Ok GroupsUnset
      else if isDynamicPricingModel model then
        let* dynamicTiers := getDynamicPricingTiers model in
        match dynamicTiers with
        | [] => Ok (GroupsSpecial (default [] (m_billing_expr model)))
        | _ =>
            let fields := map de_field (getDynamicPriceFields dynamicTiers (group_options w (num_of_Z 1))) in
            Ok (GroupTiers fields (map (tier_table dynamicTiers fields groupRatio w) groups))
        end
      else Ok (GroupRows (map (group_row model groupRatio w) groups))
  end.

Definition entry_label (e : DynamicPriceEntry) : jstr * jstr := (bv_shortLabel (de_variable e), de_formatted e).

(** The base price: the price at the ratio 1. *)
Definition base_ratio_map : jsobj := [("_base", JNum (num_of_Z 1))].

Inductive BasePrice :=
| BaseUnset
| BaseSpecial (rawExpression : jstr)
| BaseDynamic (primary secondary : list (jstr * jstr))
| BaseRequest (price : jstr)
| BaseTokens (prices : list (PriceType * jstr)).

Definition base_price (model : PricingModel) (w : PriceView) : res BasePrice :=
  if isPriceUnset model then Ok BaseUnset
  else
    let* dynamicSummary := getDynamicPricingSummary model w (num_of_Z 1) in
    Ok (match dynamicSummary with
        | Some ds =>
            if ds_isSpecialExpression ds then BaseSpecial (ds_rawExpression ds)
            else BaseDynamic (map entry_label (ds_primaryEntries ds)) (map entry_label (ds_secondaryEntries ds))
        | None =>
            if isTokenBasedModel model
            then BaseTokens (map (fun type => (type, formatGroupPrice model "_base" type w base_ratio_map Discounted))
                               (TInput :: TOutput :: extraPriceTypes model))
            else BaseRequest (formatFixedPrice model "_base" w base_ratio_map Discounted)
        end).
End Prices.

(** ** The table of tiers and rules (dynamic-pricing-breakdown.tsx) *)

Section Breakdown.
(** The translations. *)
Variable t : jstr -> jstr.

Definition VAR_LABELS : list (jstr * jstr) := [("p", "Input"); ("c", "Output"); ("len", "Length")].
Definition OP_LABELS : list (jstr * jstr) := [("<", "<"); ("<=", "≤"); (">", ">"); (">=", "≥")].
Definition TIME_FUNC_LABELS : list (jstr * jstr) :=
  [("hour", "Hour"); ("minute", "Minute"); ("weekday", "Weekday"); ("month", "Month"); ("day", "Day")].

(** [labels[key] || key] *)
Definition label_or (labels : list (jstr * jstr)) (key : jstr) : jstr := str_or (default [] (obj_get key labels)) key.

(** [n % k === 0], for a number of at least [k]. *)
Definition divides (k : Z) (n : num) : bool :=
  is_integer n && match num_floor n with Some z => (z mod k =? 0)%Z | None => false end.

Definition breakdown_hint (value : num) : jstr :=
  if negb (is_finite value) || neq value nzero then []
  else if nle (num_of_Z 1000000) value
  then to_fixed (if divides 1000000 value then 0 else 1) (ndiv value (num_of_Z 1000000)) ++ "M"
  else if nle (num_of_Z 1000) value
  then to_fixed (if divides 1000 value then 0 else 1) (ndiv value (num_of_Z 1000)) ++ "K"
  else num_to_string value.

Definition formatConditionSummary (conditions : list TierCondition) : jstr :=
  join " && "
    (List.filter non_empty
       (map (fun c => t (label_or VAR_LABELS (tc_var c)) ++ " " ++ label_or OP_LABELS (tc_op c) ++ " "
                        ++ str_or (breakdown_hint (tc_value c)) (num_to_string (tc_value c))) conditions)).

Definition time_ops : list (jstr * jstr) := [(MATCH_EQ, "="); (MATCH_GTE, "≥"); (MATCH_LT, "<")].
Definition value_ops : list (jstr * jstr) := [("eq", "="); ("gt", ">"); ("gte", "≥"); ("lt", "<"); ("lte", "≤")].

Definition describeCondition (cond : RequestCondition) : jstr :=
  match cond with
  | CondTime c =>
      let fn := t (label_or TIME_FUNC_LABELS (tm_timeFunc c)) in
      let tz := str_or (tm_timezone c) "UTC" in
      if tm_mode c ==? MATCH_RANGE
      then fn ++ " " ++ tm_rangeStart c ++ ":00~" ++ tm_rangeEnd c ++ ":00 (" ++ tz ++ ")"
      else fn ++ " " ++ str_or (default [] (obj_get (tm_mode c) time_ops)) "=" ++ " " ++ tm_value c ++ " (" ++ tz ++ ")"
  | CondParamHeader c =>
      let src := if ph_source c ==? "header" then t "Header" else t "Body param" in
      if ph_mode c ==? MATCH_EXISTS then src ++ " " ++ ph_path c ++ " " ++ t "Exists"
      else if ph_mode c ==? MATCH_CONTAINS
      then src ++ " " ++ ph_path c ++ " " ++ t "Contains" ++ " " ++ dquote ++ ph_value c ++ dquote
      else src ++ " " ++ ph_path c ++ " " ++ str_or (default [] (obj_get (ph_mode c) value_ops)) "=" ++ " " ++ ph_value c
  end.

Definition describeGroup (group : RequestRuleGroup) : jstr := join " && " (map describeCondition (rg_conditions group)).

(** The symbol and the rate, of the stored configuration. *)
Definition breakdown_currency (currency : StoredCurrency) : jstr * num :=
  let kind := default [] (sc_quotaDisplayType currency) in
  let or_rate v d := match v with Some n => num_or n d | None => d end in
  if kind ==? "CNY" then ("¥", or_rate (sc_usdExchangeRate currency) (num_of_Z 7))
  else if kind ==? "CUSTOM"
  then (str_or (default [] (sc_customCurrencySymbol currency)) "¤", or_rate (sc_customCurrencyExchangeRate currency) (num_of_Z 1))
  else ("$", num_of_Z 1).

(** [Number(tier[field] || 0)] *)
Definition shown_number (tier : ParsedTier) (v : BillingVar) : num :=
  match obj_get (default "null" (bv_field v)) (pt_fields tier) with Some n => num_or n nzero | None => nzero end.

Record BreakdownRow := {
  br_label : jstr;
  br_conditions : jstr;
  (** Highlighted in the table, and among the cards of a narrow screen. *)
  br_matched : bool;
  br_matchedNarrow : bool;
  br_cells : list jstr
}.

Inductive PricingBreakdown :=
| NoBreakdown
| RawBreakdown (expr : jstr)
| Breakdown (fields : list BillingVar) (rows : list BreakdownRow) (rules : list (jstr * jstr)).

Definition breakdown_cell (symbol : jstr) (rate : num) (tier : ParsedTier) (v : BillingVar) : jstr :=
  let value := shown_number tier v in
  if nlt nzero value then symbol ++ to_fixed 4 (nmul value rate) else "-".

Definition breakdown_row (symbol : jstr) (rate : num) (matched : option jstr) (fields : list BillingVar) (tier : ParsedTier)
  : BreakdownRow :=
  let normalized := normalizeTierLabel matched in
  {| br_label := str_or (pt_label tier) (t "Default");
     br_conditions := formatConditionSummary (pt_conditions tier);
     br_matched := non_empty normalized && (normalizeTierLabel (Some (pt_label tier)) ==? normalized);
     br_matchedNarrow := match matched with Some ((_ :: _) as m) => pt_label tier ==? m | _ => false end;
     br_cells := map (breakdown_cell symbol rate tier) fields |}.

Definition DynamicPricingBreakdown (currency : StoredCurrency) (billingExpr matchedTierLabel : option jstr)
    (hideCacheColumns : bool) : res PricingBreakdown :=
  let expr := default [] billingExpr in
  let '(symbol, rate) := breakdown_currency currency in
  let* split := splitBillingExprAndRequestRules expr in
  let tiers := parseTiersFromExpr (sp_billingExpr split) in
  let* parsedRules := tryParseRequestRuleExpr (sp_requestRuleExpr split) in
  let ruleGroups := default [] parsedRules in
  Ok (match expr, tiers with
      | [], _ => NoBreakdown
      | _, [] => RawBreakdown expr
      | _, _ =>
          let visiblePriceFields :=
            List.filter (fun v =>
                negb (hideCacheColumns && (bv_group v ==? Some ("cache" : jstr)))
                && existsb (fun tier => nlt nzero (shown_number tier v)) tiers) BILLING_PRICING_VARS in
          Breakdown visiblePriceFields (map (breakdown_row symbol rate matchedTierLabel visiblePriceFields) tiers)
            (map (fun g => (describeGroup g, rg_multiplier g)) ruleGroups)
      end).
End Breakdown.
