(* ===== verification/PriceDisplayProofs.v ===== *)
(** * Properties of displayed prices

    The card of a model shows the price of its cheapest configured group, and that of a chosen
    group; and where the details of a model disagree with its card. *)
From S2P Require Import RecordUpdate Prelude JsString JsNumber NumberOrder JsValue OrderedMap BillingExpr Currency CurrencyProofs.
From S2P Require Import PriceList PriceListProofs PriceDisplay.

(** ** The least ratio *)

(** [m] is the least configured ratio of the groups, or [inf] without any. *)
Definition least_of (groupRatio : jsobj) (groups : list jstr) (m : num) : Prop :=
  (m = inf \/ exists g, g ∈ groups /\ finite_number (prop groupRatio g) = Some m)
  /\ forall g r, g ∈ groups -> finite_number (prop groupRatio g) = Some r -> nle m r = true.

Lemma finite_number_finite v r : finite_number v = Some r -> is_finite r = true.
Proof. destruct v as [| |b|n|s|l|o]; try done. cbn. destruct (is_finite n) eqn:E; [|done]. by intros [= <-]. Qed.

Lemma nle_refl x : is_finite x = true -> nle x x = true.
Proof. intros H. unfold nle, SFleb. destruct x as [[]|[]| |[] m e]; try done; cbn; rewrite Z.compare_refl, Pos.compare_cont_refl; done. Qed.

Lemma least_step groupRatio g m :
  (m = inf \/ is_finite m = true) ->
  let m' := least_ratio groupRatio m g in
  (m' = inf \/ is_finite m' = true) /\ (m' = m \/ finite_number (prop groupRatio g) = Some m')
  /\ (forall r, is_finite r = true -> nle m r = true -> nle m' r = true)
  /\ (forall r, finite_number (prop groupRatio g) = Some r -> nle m' r = true).
Proof.
  intros Hm. cbn zeta. unfold least_ratio. destruct (finite_number _) as [r|] eqn:E; [|by split_and!; auto].
  pose proof (finite_number_finite _ _ E) as Hr. destruct (nlt r m) eqn:El.
  - split_and!; [by right|by right| |intros r' [= <-]; by apply nle_refl].
    intros r' Hr' Hle. apply (nle_trans _ m); [|done].
    rewrite nlt_key in El. rewrite nle_key. destruct El as (ka & kb & H1 & H2 & H3). exists ka, kb. auto.
  - split_and!; [done|by left|done|]. intros r' [= <-]. destruct Hm as [->|Hm].
    + by destruct r as [[]|[]| |[]].
    + rewrite nle_negb_nlt by done. by rewrite El.
Qed.

Lemma least_fold groupRatio groups : least_of groupRatio groups (fold_left (least_ratio groupRatio) groups inf).
Proof.
  unfold least_of.
  enough (forall acc, (acc = inf \/ is_finite acc = true) ->
    let m := fold_left (least_ratio groupRatio) groups acc in
    (m = acc \/ exists g, g ∈ groups /\ finite_number (prop groupRatio g) = Some m)
    /\ (forall r, is_finite r = true -> nle acc r = true -> nle m r = true)
    /\ forall g r, g ∈ groups -> finite_number (prop groupRatio g) = Some r -> nle m r = true) as H.
  { destruct (H inf ltac:(by left)) as (H1 & _ & H3). by split. }
  induction groups as [|g groups IH]; intros acc Ha; cbn zeta; cbn [fold_left].
  { split_and!; [by left|done|]. intros g r Hg. by apply elem_of_nil in Hg. }
  destruct (least_step groupRatio g acc Ha) as (S1 & S2 & S3 & S4).
  destruct (IH _ S1) as (I1 & I2 & I3). split_and!.
  - destruct I1 as [->|(g' & Hg' & E)]; [|right; exists g'; split; [by right|done]].
    destruct S2 as [->|E]; [by left|]. right. exists g. split; [left|done].
  - auto.
  - intros g' r [->|Hg']%elem_of_cons E; [|by apply (I3 g')].
    apply I2; [by eapply finite_number_finite|by apply S4].
Qed.

(** Some group of the model has a ratio. *)
Definition has_ratio (model : PricingModel) : Prop :=
  exists g r, g ∈ groups_of model /\ finite_number (prop (default [] (m_group_ratio model)) g) = Some r.

(** A group of the model whose ratio no other group undercuts. *)
Definition cheapest (model : PricingModel) (g : jstr) : Prop :=
  exists r, g ∈ groups_of model /\ finite_number (prop (default [] (m_group_ratio model)) g) = Some r
  /\ forall g' r', g' ∈ groups_of model -> finite_number (prop (default [] (m_group_ratio model)) g') = Some r' ->
     nle r r' = true.

Lemma display_ratio_least model : has_ratio model -> exists g, cheapest model g
  /\ getDisplayGroupRatio model (Some FILTER_ALL) = getConfiguredGroupRatio (default [] (m_group_ratio model)) g.
Proof.
  intros (g0 & r0 & Hg0 & E0). pose proof (least_fold (default [] (m_group_ratio model)) (groups_of model)) as [H1 H2].
  unfold getDisplayGroupRatio. cbv zeta. cbn [non_empty andb]. rewrite (bool_decide_true (FILTER_ALL = FILTER_ALL)) by done.
  cbn [negb andb]. rewrite andb_false_r. cbn [andb].
  set (gr := default [] (m_group_ratio model)) in *. set (m := fold_left (least_ratio gr) (groups_of model) inf) in *.
  assert (is_finite m = true -> neq m inf = false) as Hinf by (intros Hm; destruct m as [[]|[]| |[]]; done).
  destruct H1 as [Hm|(g & Hg & E)].
  { exfalso. specialize (H2 g0 r0 Hg0 E0). rewrite Hm in H2. apply finite_number_finite in E0. by destruct r0 as [[]|[]| |[]]. }
  exists g. split; [by exists m|]. rewrite (Hinf (finite_number_finite _ _ E)).
  unfold getConfiguredGroupRatio. rewrite E. cbn [default from_option id].
  destruct (groups_of model) as [|x l]; [by apply elem_of_nil in Hg|done].
Qed.

Section Cards.
Context `{NumberFormat} (site : CurrencyState).

(** C21: a model with a price and a group of configured ratio: without a chosen group a card
    shows the price of the group with the least configured ratio, of every type of tokens and
    of a request, before and after the discount; with a group of the model chosen it shows
    the prices of that group. *)
Theorem card_shows_cheapest_group model w :
  unset model = false -> has_ratio model ->
  let groupRatio := default [] (m_group_ratio model) in
  (exists g, cheapest model g
     /\ (forall type variant, formatPrice site model type w (Some FILTER_ALL) variant
          = formatGroupPrice site model g type w groupRatio variant)
     /\ (forall variant, formatRequestPrice site model w (Some FILTER_ALL) variant
          = formatFixedPrice site model g w groupRatio variant))
  /\ forall g, g ∈ groups_of model -> g <> [] -> g <> FILTER_ALL ->
     (forall type variant, formatPrice site model type w (Some g) variant
        = formatGroupPrice site model g type w groupRatio variant)
     /\ (forall variant, formatRequestPrice site model w (Some g) variant
        = formatFixedPrice site model g w groupRatio variant).
Proof.
  intros Hu Hr groupRatio. split.
  - destruct (display_ratio_least model Hr) as (g & Hg & E). exists g. split; [done|].
    unfold formatPrice, formatGroupPrice, formatRequestPrice, formatFixedPrice. rewrite Hu, E. by split.
  - intros g Hg Hne Hall.
    assert (getDisplayGroupRatio model (Some g) = getConfiguredGroupRatio groupRatio g) as E.
    { unfold getDisplayGroupRatio. rewrite (bool_decide_true (g ∈ groups_of model)), (bool_decide_false (g = FILTER_ALL)) by done.
      by destruct g. }
    unfold formatPrice, formatGroupPrice, formatRequestPrice, formatFixedPrice. rewrite Hu, E. by split.
Qed.

(** The table of prices by group shows a group that is free at the full price. *)
Lemma free_group_at_full_price tiers fields groupRatio w g :
  prop groupRatio g = JNum nzero ->
  tt_ratio (tier_table site tiers fields groupRatio w g) = "1x"
  /\ tt_rows (tier_table site tiers fields groupRatio w g)
     = tt_rows (tier_table site tiers fields [(g, JNum (num_of_Z 1))] w g)
  /\ getConfiguredGroupRatio groupRatio g = nzero.
Proof.
  intros E. unfold tier_table, ratio_or_1, getConfiguredGroupRatio. cbn [tt_ratio tt_rows]. rewrite E.
  unfold prop at 1. cbn [obj_get]. rewrite bool_decide_true by done. split_and!; [by vm_compute|done|done].
Qed.
End Cards.

(** ** Instances *)

(** A formatter that writes the currency before the number. *)
Definition code_format : NumberFormat :=
  {| format o x := default [] (nf_currency o) ++ to_fixed (nf_maximumFractionDigits o) x |}.

Definition per_million : PriceView :=
  {| pw_tokenUnit := UnitM; pw_showWithRecharge := false; pw_priceRate := num_of_Z 1; pw_usdExchangeRate := num_of_Z 1 |}.
Definition per_thousand : PriceView :=
  {| pw_tokenUnit := UnitK; pw_showWithRecharge := false; pw_priceRate := num_of_Z 1; pw_usdExchangeRate := num_of_Z 1 |}.

(** A model of one dollar per request. *)
Definition request_model : PricingModel := (plain_model "r" 0){{ m_quota_type := QUOTA_VALUE_REQUEST }}{{ m_model_price := Some (num_of_Z 1) }}.

Lemma card_shows_cheapest_group_witness :
  (exists g, cheapest (plain_model "m" 3) g
   /\ @formatPrice code_format (site_of "USD") (plain_model "m" 3) TInput per_million (Some FILTER_ALL) Discounted
      = @formatGroupPrice code_format (site_of "USD") (plain_model "m" 3) g TInput per_million
          [("default", JNum (num_of_Z 2)); ("vip", JNum (num_of_Z 1))] Discounted)
  /\ @formatRequestPrice code_format (site_of "USD") request_model per_million (Some "default") Discounted
     = @formatFixedPrice code_format (site_of "USD") request_model "default" per_million
         [("default", JNum (num_of_Z 2)); ("vip", JNum (num_of_Z 1))] Discounted.
Proof.
  assert (forall m, groups_of m = groups_of (plain_model "m" 3) -> m_group_ratio m = m_group_ratio (plain_model "m" 3) ->
    has_ratio m) as Hr.
  { intros m H1 H2. unfold has_ratio. rewrite H1, H2. exists "vip", (num_of_Z 1). split; [set_solver|reflexivity]. }
  split.
  - destruct (@card_shows_cheapest_group code_format (site_of "USD") (plain_model "m" 3) per_million eq_refl
      (Hr _ eq_refl eq_refl)) as [(g & Hg & H1 & _) _]. exists g. split; [exact Hg|apply H1].
  - pose proof (@card_shows_cheapest_group code_format (site_of "USD") request_model per_million eq_refl
      (Hr _ eq_refl eq_refl)) as [_ H]. apply (H "default"); [set_solver|done|done].
Defined.

(** A group without a ratio counts as 1 in the details, but not for the best price of the card. *)
Lemma unconfigured_group_cheaper :
  let m := (plain_model "m" 3){{ m_enable_groups := Some ["default"; "beta"] }} in
  getDisplayGroupRatio m (Some FILTER_ALL) = num_of_Z 2
  /\ getConfiguredGroupRatio (default [] (m_group_ratio m)) "beta" = num_of_Z 1.
Proof. split; vm_compute; reflexivity. Qed.

(** A model of 2 dollars and one of 10 dollars per million show one price per thousand. *)
Lemma small_prices_alike :
  @formatPrice code_format (site_of "USD") (plain_model "m" 1) TInput per_thousand (Some "vip") Discounted = "USD0.01"
  /\ @formatPrice code_format (site_of "USD") (plain_model "m" 5) TInput per_thousand (Some "vip") Discounted = "USD0.01".
Proof. split; vm_compute; reflexivity. Qed.

Definition yuan_model : PricingModel :=
  (plain_model "m" 0){{ m_billing_mode := Some "tiered_expr" }}{{ m_billing_expr := Some (sq "tier('base', p * 2 + c * 4)") }}
    {{ m_billing_currency := Some "cny" }}{{ m_billing_fx_rate := Some (num_of_Z 7) }}.

(** The details show the base price of an expression in the chosen currency and the prices by
    group in the currency of the site. *)
Lemma group_tiers_in_site_currency :
  @base_price code_format (site_of "USD") yuan_model per_million
    = Ok (BaseDynamic [("Input", "CNY14.000000"); ("Output", "CNY28.000000")] [])
  /\ @group_pricing code_format (site_of "USD") yuan_model [("vip", JNum (num_of_Z 1))] [("vip", JObj [])] per_million
    = Ok (GroupTiers ["inputPrice"; "outputPrice"]
            [{| tt_group := "vip"; tt_ratio := "1x"; tt_rows := [("base", ["USD2.0000"; "USD4.0000"])] |}]).
Proof. split; vm_compute; reflexivity. Qed.

(** The table of tiers has no Canadian dollars, and does not follow the user's choice. *)
Lemma breakdown_ignores_choice :
  option_map breakdown_currency (cs_config (site_of "CAD")) = Some ("$", num_of_Z 1)
  /\ (exists rate, getDisplayMeta (getConfig (site_of "CAD")) = MetaCurrency "C$" "CAD" rate)
  /\ option_map breakdown_currency (cs_config (handleChange (Some "CNY") (site_of "USD"))) = Some ("$", num_of_Z 1)
  /\ exists rate, getDisplayMeta (getConfig (handleChange (Some "CNY") (site_of "USD"))) = MetaCurrency "¥" "CNY" rate.
Proof. split_and!; [vm_compute; reflexivity|by eexists|vm_compute; reflexivity|by eexists]. Qed.

(** A matched tier whose label is spelt differently is highlighted in the table but not on a
    narrow screen. *)
Lemma matched_tier_narrow :
  let row := breakdown_row id "$" (num_of_Z 1) (Some "len<200K") []
               {| pt_label := "len ≤ 200k"; pt_conditions := []; pt_fields := [] |} in
  br_matched row = true /\ br_matchedNarrow row = false.
Proof. split; vm_compute; reflexivity. Qed.
