(* ===== verification/PriceTiers.v ===== *)
(** * What the tier editor writes, the price list shows

    The administrator's editor and the price list read a billing expression with different
    patterns: the editor's parser follows the whole body of a tier, the price list looks for
    each variable anywhere in it. On the text of canonical tiers and rules both read the
    same tiers. *)
From S2P Require Import RecordUpdate Prelude JsString JsNumber JsValue Regex Json BillingExpr BillingRoundtrip BillingSplit BillingRules RegexHits.
From S2P Require Import TierExpr TierRoundtrip OrderedMap Currency CurrencyProofs PriceList PriceListProofs PriceDisplay TieredSwitch.

(** ** The body of a tier *)

(** The costs that a tier writes, with their variables. *)
Fixpoint opt_entries (vs : list jstr) (ts : list (option jstr)) : list (jstr * jstr) :=
  match vs, ts with
  | v :: vs, Some t :: ts => (v, t) :: opt_entries vs ts
  | _ :: vs, None :: ts => opt_entries vs ts
  | _, _ => []
  end.

Definition entries_of (t : TierText) : list (jstr * jstr) :=
  ("p", tt_input t) :: ("c", tt_output t) :: opt_entries cache_vars (tt_extras t).

Definition entry_text (e : jstr * jstr) : jstr := e.1 ++ " * " ++ e.2.

Definition body_text (t : TierText) : jstr :=
  "p * " ++ tt_input t ++ " + c * " ++ tt_output t ++ opt_text cache_vars (tt_extras t).

(** The entries after the first. *)
Definition more_text (es : list (jstr * jstr)) : jstr := flat_map (fun e => " + " ++ entry_text e) es.

Lemma opt_text_entries vs : forall ts, opt_text vs ts = more_text (opt_entries vs ts).
Proof.
  induction vs as [|v vs IH]; intros [|[t|] ts]; try done; cbn [opt_text opt_entries more_text flat_map]; [|apply IH].
  rewrite IH. unfold entry_text, more_text. cbn [fst snd]. by rewrite <- !app_assoc.
Qed.

Lemma body_entries t : body_text t = entry_text ("p", tt_input t) ++ more_text (("c", tt_output t) :: opt_entries cache_vars (tt_extras t)).
Proof.
  unfold body_text, more_text. rewrite opt_text_entries. cbn [flat_map]. unfold entry_text, more_text. cbn [fst snd].
  by rewrite <- !app_assoc.
Qed.

Definition price_vars : list jstr := Eval vm_compute in map bv_key BILLING_PRICING_VARS.

Definition entry_ok (e : jstr * jstr) : Prop := e.1 ∈ price_vars /\ cost_text e.2 = true.

(** The pattern after the variable. *)
Lemma var_regex_eq : BILLING_VAR_REGEX = RSeq RWordB (RSeq (RCap 1 (rlits price_vars)) (rseq (cost_re 2))).
Proof. reflexivity. Qed.

Lemma cost_miss c x : is_space c = false -> c <> 42%N -> miss (rseq (cost_re 2)) (c :: x).
Proof.
  intros Hs Hc. unfold cost_re. apply miss_no_space; [done|]. apply miss_cons, miss_lit.
  unfold startsWith. cbn -[N.eqb]. by destruct (N.eqb_spec 42 c).
Qed.

(** The ways to read a variable: those that leave some of its letters come first. *)
Lemma vars_run v y pre : v ∈ price_vars -> exists ws,
  rx_run (rlits price_vars) (MSt pre (v ++ 32%N :: y) []) = ws ++ [MSt (rev v ++ pre) (32%N :: y) []]
  /\ Forall (fun st => exists c z, ms_suf st = c :: z /\ is_space c = false /\ c <> 42%N) ws.
Proof.
  intros Hv. repeat (apply elem_of_cons in Hv as [->|Hv];
    [first [exists []; split; [reflexivity|constructor]
           | eexists [_]; split; [reflexivity|repeat constructor; by do 2 eexists]
           | eexists [_; _]; split; [reflexivity|repeat constructor; by do 2 eexists]]|]).
  by apply elem_of_nil in Hv.
Qed.

Lemma var_hit v t rest pre : v ∈ price_vars -> cost_text t = true -> after_cost rest -> word_at pre = false ->
  exists pre', head (rx_run BILLING_VAR_REGEX (MSt pre (v ++ " * " ++ t ++ rest) [])) = Some (MSt pre' rest [(2, t); (1, v)]).
Proof.
  intros Hv Ht Hr Hp. rewrite var_regex_eq, run_seq. cbn [rx_run]. cbn [ms_pre ms_suf]. rewrite Hp.
  assert (word_at (v ++ " * " ++ t ++ rest) = true) as ->.
  { repeat (apply elem_of_cons in Hv as [->|Hv]; [reflexivity|]). by apply elem_of_nil in Hv. }
  cbn [xorb]. rewrite flat_map_singleton.
  destruct (vars_run v ("* " ++ t ++ rest) pre Hv) as (ws & E & Hws).
  change (" * " ++ t ++ rest) with (32%N :: "* " ++ t ++ rest). rewrite E, map_app, flat_map_app.
  assert (flat_map (rx_run (rseq (cost_re 2))) (map (cap_set 1 (MSt pre (v ++ 32%N :: "* " ++ t ++ rest) [])) ws) = []) as ->.
  { apply flat_map_nil. intros st (st' & <- & Hin)%in_map_iff. rewrite Forall_forall in Hws.
    destruct (Hws st') as (c & z & Ez & Hs & Hc); [by apply list_elem_of_In|].
    unfold cap_set. rewrite Ez. by apply cost_miss. }
  cbn [app map flat_map]. rewrite app_nil_r, cap_set_lit. by apply (hit_cost 2 t rest [(1, v)]).
Qed.

(** Between two entries nothing matches. *)
Lemma var_miss c x : is_word c = false -> miss BILLING_VAR_REGEX (c :: x).
Proof.
  intros Hc pre caps. change BILLING_VAR_REGEX with (RSeq RWordB (RSeq (RCap 1 (rlits price_vars)) (rseq (cost_re 2)))).
  cbn [rx_run ms_pre ms_suf].
  destruct (xorb _ _); [|done]. rewrite flat_map_singleton.
  assert (rx_run (rlits price_vars) (MSt pre (c :: x) caps) = []) as ->; [|done].
  assert (forall l, Forall (fun w => exists d w', w = d :: w' /\ is_word d = true) l ->
    rx_run (rlits l) (MSt pre (c :: x) caps) = []) as Hl.
  { assert (forall w, (exists d w', w = d :: w' /\ is_word d = true) -> rx_run (RLit w) (MSt pre (c :: x) caps) = []) as H1.
    { intros w (d & w' & -> & Hd). apply run_lit_fail. unfold startsWith. cbn -[N.eqb].
      destruct (N.eqb_spec d c); [congruence|done]. }
    intros l H. induction H as [|w l Hw Hl IH]; [done|]. destruct l as [|w2 l]; [by apply H1|].
    change (rx_run (RLit w) (MSt pre (c :: x) caps) ++ rx_run (rlits (w2 :: l)) (MSt pre (c :: x) caps) = []).
    by rewrite H1, IH. }
  apply Hl. repeat constructor; by do 2 eexists.
Qed.

(** A search passes the sign between two entries. *)
Lemma search_plus x pre : exists pre', rx_search BILLING_VAR_REGEX pre (" + " ++ x) = rx_search BILLING_VAR_REGEX (32%N :: pre') x.
Proof.
  eexists. change (" + " ++ x) with (32%N :: 43%N :: 32%N :: x). rewrite !search_skip by (by apply var_miss). done.
Qed.

Lemma search_entry v t rest pre : v ∈ price_vars -> cost_text t = true -> after_cost rest -> word_at pre = false ->
  exists pre', rx_search BILLING_VAR_REGEX pre (entry_text (v, t) ++ rest) = Some (MSt pre' rest [(2, t); (1, v)]).
Proof.
  intros Hv Ht Hr Hp. destruct (var_hit v t rest pre Hv Ht Hr Hp) as [pre' H]. exists pre'. unfold entry_text. cbn [fst snd].
  rewrite <- !app_assoc. destruct (v ++ " * " ++ t ++ rest) as [|c s] eqn:E.
  { exfalso. revert E. clear. destruct v; discriminate. }
  cbn [rx_search]. destruct (rx_run _ _); by inversion H.
Qed.

Lemma after_more es : after_cost (more_text es).
Proof. by destruct es as [|e es]. Qed.

(** The loop over the body finds the entries. *)
Lemma exec_more es : Forall entry_ok es -> forall fuel pre, length (more_text es) < fuel ->
  map ms_caps (rx_exec_from BILLING_VAR_REGEX fuel pre (more_text es)) = map (fun e => [(2, e.2); (1, e.1)]) es.
Proof.
  induction 1 as [|[v t] es [Hv Ht] Hes IH]; intros fuel pre Hf; cbn [fst snd] in *.
  { destruct fuel; [done|]. cbn [more_text flat_map rx_exec_from rx_search].
    rewrite var_regex_eq, run_seq. cbn [rx_run ms_pre ms_suf]. by destruct (xorb _ _). }
  destruct fuel as [|fuel]; [lia|].
  change (more_text ((v, t) :: es)) with ((" + " ++ entry_text (v, t)) ++ more_text es) in *.
  rewrite <- app_assoc in *. cbn [rx_exec_from].
  destruct (search_plus (entry_text (v, t) ++ more_text es) pre) as [pre1 ->].
  destruct (search_entry v t (more_text es) (32%N :: pre1) Hv Ht (after_more es) eq_refl) as [pre2 ->].
  cbn [map ms_pre ms_suf ms_caps fst snd]. f_equal. apply IH. rewrite !length_app in Hf.
  change (length (" + " : jstr)) with 3 in Hf. lia.
Qed.

Lemma exec_body t : Forall entry_ok (entries_of t) ->
  map ms_caps (rx_exec_all BILLING_VAR_REGEX (body_text t)) = map (fun e => [(2, e.2); (1, e.1)]) (entries_of t).
Proof.
  intros Hok. rewrite body_entries. unfold entries_of in *. apply Forall_cons in Hok as [[Hv Ht] Hes].
  set (es := ("c", tt_output t) :: opt_entries cache_vars (tt_extras t)) in *.
  unfold rx_exec_all. cbn [rx_exec_from].
  destruct (search_entry "p" (tt_input t) (more_text es) [] Hv Ht (after_more es) eq_refl) as [pre2 ->].
  cbn [map ms_pre ms_suf ms_caps fst snd]. f_equal. apply exec_more; [done|].
  rewrite length_app. unfold entry_text. cbn [fst snd]. rewrite !length_app. cbn. lia.
Qed.

Lemma opt_entries_ok vs : (forall v, v ∈ vs -> v ∈ price_vars) -> forall ts,
  Forall (fun t => match t with Some t => cost_text t = true | None => True end) ts -> Forall entry_ok (opt_entries vs ts).
Proof.
  induction vs as [|v vs IH]; intros Hv ts Hts; [constructor|].
  assert (forall w, w ∈ vs -> w ∈ price_vars) as Hvs by (intros w Hw; apply Hv; by right).
  destruct Hts as [|[t|] ts Ht Hts]; [constructor| |by apply IH].
  constructor; [split; [apply Hv; left|done]|by apply IH].
Qed.

Lemma entries_ok t : tier_text_ok t -> Forall entry_ok (entries_of t).
Proof.
  intros (_ & Hi & Ho & _ & He). unfold entries_of.
  repeat (constructor; [split; [by apply (bool_decide_unpack _)|done]|]). apply opt_entries_ok; [|done].
  intros v Hv. assert (forallb (fun v => bool_decide (v ∈ price_vars)) cache_vars = true) as H by reflexivity.
  rewrite forallb_forall in H. apply (bool_decide_unpack _), Is_true_true. by apply H, list_elem_of_In.
Qed.

(** The prices read: of the first entry of a variable. *)
Definition price_read (es : list (jstr * jstr)) (v : jstr) : num :=
  match obj_get v es with Some t => num_or (num_of_string t) nzero | None => nzero end.

Lemma coeffs_read ms es v : map ms_caps ms = map (fun e => [(2, e.2); (1, e.1)]) es -> forall acc,
  obj_get v (fold_left (fun coeffs m =>
     if obj_has (group_or m 1) coeffs then coeffs
     else obj_set (group_or m 1) (num_of_string (group_or m 2)) coeffs) ms acc)
  = match obj_get v acc with Some n => Some n | None => num_of_string <$> obj_get v es end.
Proof.
  revert es. induction ms as [|m ms IH]; intros [|[w t] es] E acc; try discriminate; [cbn; by destruct (obj_get v acc)|].
  injection E as Em E. cbn [fold_left]. rewrite (IH es E). clear IH.
  assert (group_or m 1 = w /\ group_or m 2 = t) as [-> ->].
  { split; unfold group_or, group; rewrite Em; reflexivity. }
  cbn [obj_get]. unfold obj_has. destruct (obj_get w acc) as [n|] eqn:Ew.
  - bd; [by rewrite Ew|done].
  - rewrite obj_get_set. bd; [by rewrite Ew|done].
Qed.

Lemma fields_fold (coeffs : list (jstr * num)) (f : jstr -> num) :
  (forall v, num_or (default nan (obj_get v coeffs)) nzero = f v) ->
  fold_left (fun tier vf => obj_set vf.2 (num_or (default nan (obj_get vf.1 coeffs)) nzero) tier) BILLING_VAR_KEY_TO_FIELD []
  = map (fun vf => (vf.2, f vf.1)) BILLING_VAR_KEY_TO_FIELD.
Proof.
  intros Hf.
  assert (forall l acc, fold_left (fun tier vf => obj_set vf.2 (num_or (default nan (obj_get vf.1 coeffs)) nzero) tier) l acc
    = fold_left (fun tier vf => obj_set vf.2 (f vf.1) tier) l acc) as ->.
  { induction l as [|vf l IH]; intros acc; [done|]. cbn [fold_left]. by rewrite Hf. }
  reflexivity.
Qed.

Lemma body_read t : tier_text_ok t ->
  parseTierBody (body_text t) = map (fun vf => (vf.2, price_read (entries_of t) vf.1)) BILLING_VAR_KEY_TO_FIELD.
Proof.
  intros Ht. unfold parseTierBody. apply fields_fold. intros v.
  rewrite (coeffs_read _ (entries_of t)) by (apply exec_body, entries_ok, Ht). cbn [obj_get].
  unfold price_read. by destruct (obj_get v (entries_of t)).
Qed.

(** ** The whole tier *)

(** The captures of the price list's pattern. *)
Definition list_caps (p : PartText) : list (nat * jstr) :=
  (3, body_text (pa_tier p)) :: (2, tt_label (pa_tier p))
  :: match pa_conds p with [] => [] | cs => [(1, written_conds cs)] end.

Lemma written_tier_body t : written_tier t = sq "tier('" ++ tt_label t ++ sq "'," ++ " " ++ body_text t ++ ")".
Proof. unfold written_tier, body_text. rewrite <- !app_assoc. done. Qed.

Lemma cost_no_paren t : cost_text t = true -> forallb (not_unit 41) t = true.
Proof.
  unfold cost_text. intros [_ H]%andb_true_iff. rewrite forallb_forall in H |- *. intros c Hc%H.
  unfold not_unit. by destruct (N.eqb_spec c 41) as [->|].
Qed.

Lemma body_no_paren t : tier_text_ok t -> forallb (not_unit 41) (body_text t) = true.
Proof.
  intros Ht. pose proof (entries_ok t Ht) as Hok. rewrite body_entries. unfold entries_of in Hok.
  assert (forall e, entry_ok e -> forallb (not_unit 41) (entry_text e) = true) as He.
  { intros [v s] [Hv Hs]. cbn [fst snd] in *. unfold entry_text. cbn [fst snd]. rewrite !forallb_app, (cost_no_paren s) by done.
    repeat (apply elem_of_cons in Hv as [->|Hv]; [reflexivity|]). by apply elem_of_nil in Hv. }
  apply Forall_cons in Hok as [H1 Hes]. rewrite forallb_app, He by done. cbn [andb].
  revert Hes. generalize (("c", tt_output t) :: opt_entries cache_vars (tt_extras t)) as es.
  induction 1 as [|e l H2 Hl IH]; [done|]. cbn [more_text flat_map]. rewrite !forallb_app, He by done. exact IH.
Qed.

Lemma hit_listed p rest : part_ok p -> hit tier_re (written_part p ++ rest) [] rest (list_caps p).
Proof.
  intros [Hc Ht]. pose proof (body_no_paren _ Ht) as Hb. destruct Ht as (Hl & _).
  assert (forall caps, hit (rseq [RLit (sq "tier('"); RCap 2 (RStar (RSet (not_unit 34))); RLit (sq "',"); rspaces;
      RCap 3 (rplus (RSet (not_unit 41))); RLit ")"]) (written_tier (pa_tier p) ++ rest) caps rest
      ((3, body_text (pa_tier p)) :: (2, tt_label (pa_tier p)) :: caps)) as Htier.
  { intros caps. rewrite written_tier_body, <- !app_assoc.
    eapply hit_cons; [apply hit_lit|]. eapply hit_cons; [by apply hit_cap, hit_star_set|].
    eapply hit_cons; [apply hit_lit|]. eapply hit_cons; [by apply hit_space|].
    eapply hit_cons; [by apply hit_cap_plus|]. eapply hit_cons; [apply hit_lit|apply hit_nil]. }
  unfold tier_re, written_part, list_caps. destruct (pa_conds p) as [|c cs].
  - eapply hit_cons; [|apply Htier]. apply hit_opt_no.
    unfold written_tier. rewrite <- !app_assoc. intros pre caps. reflexivity.
  - rewrite <- !app_assoc. eapply hit_cons; [|apply Htier]. apply hit_opt_yes.
    eapply hit_cons; [by apply (hit_condGroup c cs (written_tier (pa_tier p) ++ rest))|].
    eapply hit_cons; [by apply (hit_space ("? " ++ written_tier (pa_tier p) ++ rest))|].
    eapply hit_cons; [apply (hit_lit "?")|].
    eapply hit_cons; [|apply hit_nil]. by apply hit_space.
Qed.

Lemma list_separator s x pre : separator s -> exists pre', rx_search tier_re pre (s ++ x) = rx_search tier_re pre' x.
Proof.
  intros [->| ->]; [by exists pre|]. eexists.
  change (" : " ++ x) with (32%N :: 58%N :: 32%N :: x).
  rewrite !search_skip by (intros pre' caps; reflexivity). reflexivity.
Qed.

Lemma list_fallback s pre : fallback s -> rx_search tier_re pre s = None.
Proof. intros [->| ->]; reflexivity. Qed.

Definition tier_condition (c : CondText) : TierCondition :=
  {| tc_var := ct_var c; tc_op := ct_op c; tc_value := num_of_string (ct_value c) |}.

Lemma conditions_listed cs : Forall cond_text_ok cs -> parse_tier_conditions (written_conds cs) = map tier_condition cs.
Proof.
  intros Hok. destruct cs as [|c cs]; [done|]. unfold parse_tier_conditions.
  destruct (written_conds (c :: cs)) as [|x s] eqn:E.
  { rewrite written_conds_cons in E. unfold written_cond in E. by destruct (ct_var c). }
  rewrite <- E. unfold rx_split. rewrite split_conds by (done || lia). clear E.
  induction Hok as [|d ds Hd _ IH]; [done|]. cbn [map flat_map].
  destruct (exec_cond d Hd) as (m & -> & Em). unfold condition_object, condition_obj in Em.
  injection Em as E1 E2 E3. cbn [app]. rewrite IH. unfold tier_condition at 2. by rewrite E1, E2, E3.
Qed.

(** What the price list shows of a tier. *)
Definition extra_price_fields : list jstr := map (fun v => default "null" (bv_field v)) BILLING_EXTRA_VARS.

Definition listed_view (pt : ParsedTier) : jstr * list CondText * num * num * list num :=
  (pt_label pt,
   map (fun c => {| ct_var := tc_var c; ct_op := tc_op c; ct_value := num_to_string (tc_value c) |}) (pt_conditions pt),
   tier_number pt "inputPrice", tier_number pt "outputPrice", map (tier_number pt) extra_price_fields).

Lemma opt_read vs : NoDup vs -> forall ts, length ts = length vs -> map (fun v => obj_get v (opt_entries vs ts)) vs = ts.
Proof.
  induction 1 as [|v vs Hni _ IH]; intros [|t ts] Hl; try done. injection Hl as Hl. cbn [map].
  assert (obj_get v (opt_entries vs ts) = None) as Hn.
  { apply obj_get_None. intros Hin. apply Hni. clear -Hin. revert ts Hin.
    induction vs as [|w vs IH]; intros [|[t|] ts] Hin; cbn in Hin; try (by apply elem_of_nil in Hin).
    - apply elem_of_cons in Hin as [->|Hin]; [left|right; by eapply IH].
    - right. by eapply IH. }
  destruct t as [t|]; cbn [opt_entries].
  - cbn [obj_get]. rewrite bool_decide_true by done. f_equal.
    transitivity (map (fun w => obj_get w (opt_entries vs ts)) vs); [|by apply IH]. apply map_ext_in.
    intros w Hw. rewrite bool_decide_false; [done|]. intros ->. apply Hni. by apply list_elem_of_In.
  - rewrite Hn. f_equal. by apply IH.
Qed.

Lemma extras_read t : length (tt_extras t) = length cache_vars ->
  map (price_read (entries_of t)) cache_vars
  = map (fun v => match v with Some v => num_or (num_of_string v) nzero | None => nzero end) (tt_extras t).
Proof.
  intros Hl.
  transitivity (map (fun v => match v with Some v => num_or (num_of_string v) nzero | None => nzero end)
    (map (fun v => obj_get v (opt_entries cache_vars (tt_extras t))) cache_vars)).
  2: { f_equal. apply opt_read; [by apply (bool_decide_unpack _)|done]. }
  rewrite map_map.
  apply map_ext_in. intros v Hv. unfold price_read, entries_of. cbn [obj_get].
  assert (forallb (fun v => (v !=? "p") && (v !=? "c")) cache_vars = true) as Hn by reflexivity.
  rewrite forallb_forall in Hn. specialize (Hn v Hv). bools.
  by rewrite !bool_decide_false.
Qed.

Lemma listed_part m p : part_ok p -> Forall (fun c => cond_ok c = true) (pa_conds p) -> ms_caps m = list_caps p ->
  listed_view (parse_tier_match m) = part_view p.
Proof.
  intros [Hc Ht] Hcs Em. unfold parse_tier_match, listed_view, part_view. cbn [pt_label pt_conditions].
  assert (group_or m 2 = tt_label (pa_tier p) /\ group_or m 3 = body_text (pa_tier p)
    /\ group_or m 1 = written_conds (pa_conds p)) as (-> & E3 & ->).
  { unfold group_or, group. rewrite Em. unfold list_caps. split_and!; [done|done|]. by destruct (pa_conds p). }
  unfold tier_number. cbn [pt_fields]. rewrite E3, body_read by done.
  rewrite conditions_listed by done. rewrite map_map.
  apply (f_equal2 pair); [apply (f_equal2 pair); [apply (f_equal2 pair); [apply (f_equal2 pair); [done|]|]|]|].
  - rewrite <- (map_id (pa_conds p)) at 2. apply map_ext_in. intros c Hin%list_elem_of_In.
    rewrite Forall_forall in Hcs. specialize (Hcs c Hin). unfold cond_ok in Hcs. bools.
    destruct c as [v o x]. cbn in *. by f_equal.
  - reflexivity.
  - reflexivity.
  - rewrite <- extras_read by apply Ht. reflexivity.
Qed.

Lemma no_list_version s : match s with c :: _ => (c =? 118)%N = false | [] => True end -> se_body (stripExprVersion s) = s.
Proof.
  intros Hs. unfold stripExprVersion. destruct s as [|c s]; [done|].
  assert (rx_exec version_re (c :: s) = None) as ->; [|done].
  change version_re with (RSeq RBol (rseq [RLit "v"; RCap 1 (rplus (RSet is_digit)); RLit ":"; RCap 2 (RStar (RSet any_unit)); REol])).
  rewrite rx_exec_bol, run_rseq_cons, run_lit_fail; [done|].
  unfold startsWith. cbn -[N.eqb]. rewrite N.eqb_sym in Hs. by rewrite Hs.
Qed.

(** The price list reads the tiers that the editor wrote. *)
Lemma listed_tiers c : canonical_config c = true ->
  map listed_view (parseTiersFromExpr (generateExprFromVisualConfig (Some c))) = written_views (map tier_view (tiers_of c)).
Proof.
  intros Hc. pose proof (generated_start c Hc) as Hst. pose proof (parts_ok c Hc) as (Hok & Hne & Htail).
  pose proof (parts_conds c Hc) as Hcs. rewrite <- (parts_views c Hc). rewrite (generate_written c Hc) in Hst |- *.
  pose proof (search_all_parts tier_re list_caps hit_listed list_separator list_fallback
    (config_tail c) (config_parts c) Htail Hok Hne) as Hall.
  set (s := written_parts (config_parts c) (config_tail c)) in *.
  assert (se_body (stripExprVersion s) = s) as Es by (apply no_list_version; by destruct s).
  unfold parseTiersFromExpr. destruct s as [|x s']; [done|]. rewrite Es. rewrite map_map. clear Hc Hne Htail Hst Es.
  revert Hall. generalize (rx_exec_all tier_re (x :: s')) as ms.
  induction Hok as [|p ps Hp _ IH]; intros [|m ms] Hall; try done. injection Hall as Hm Hall.
  inversion Hcs as [|? ? Hcp Hcs']; subst. cbn [map]. f_equal; [by apply listed_part|by apply IH].
Qed.

(** ** The prices of a tier *)

(** The prices of a tier by the field of its parsed form. *)
Definition priced (v : jstr * list CondText * num * num * list num) : list (jstr * num) :=
  let '(_, _, ic, oc, ex) := v in ("inputPrice", ic) :: ("outputPrice", oc) :: combine extra_price_fields ex.

Definition positive (fv : jstr * num) : bool := is_finite fv.2 && nlt nzero fv.2.

Definition entry_view (e : DynamicPriceEntry) : jstr * num := (de_field e, de_value e).

(** A field of the first two prices. *)
Definition primary_field (f : jstr) : bool := bool_decide (f ∈ PRIMARY_DYNAMIC_FIELDS).

Section Entries.
Context `{NumberFormat} (site : CurrencyState) (o : DynamicPriceOptions).

Lemma sorted_primary l1 l2 : forallb is_primary l1 = true -> forallb (fun e => negb (is_primary e)) l2 = true ->
  js_sort primary_cmp (l1 ++ l2) = l1 ++ l2.
Proof.
  intros H1 H2. apply js_sort_id. induction l1 as [|e l1 IH]; cbn [app].
  - clear H1. induction l2 as [|e l2 IH]; [constructor|]. cbn in H2. bools. constructor; [by apply IH|].
    destruct l2 as [|f l2]; constructor. cbn in *. bools. unfold cmp_le, primary_cmp.
    by repeat match goal with H : is_primary _ = false |- _ => rewrite H; clear H end.
  - cbn in H1. bools. constructor; [by apply IH|].
    destruct (l1 ++ l2); constructor. unfold cmp_le, primary_cmp.
    match goal with H : is_primary e = true |- _ => rewrite H end. by destruct (is_primary d).
Qed.

Lemma entries_field tier vs (q : jstr -> bool) :
  forallb (fun v => match bv_field v with Some f => q f | None => true end) vs = true ->
  forallb (fun e => q (de_field e)) (flat_map (price_entry site tier o) vs) = true.
Proof.
  induction vs as [|v vs IH]; [done|]. cbn [forallb flat_map]. intros [Hv Hvs]%andb_true_iff.
  rewrite forallb_app, IH by done. rewrite andb_true_r. unfold price_entry. destruct (bv_field v) as [f|]; [|done].
  destruct (_ || _); [done|]. cbn. by rewrite Hv.
Qed.

Lemma entries_unsorted tier :
  getDynamicPriceEntries site (Some tier) o = flat_map (price_entry site tier o) BILLING_PRICING_VARS.
Proof.
  unfold getDynamicPriceEntries.
  change BILLING_PRICING_VARS with (take 2 BILLING_PRICING_VARS ++ BILLING_EXTRA_VARS). rewrite flat_map_app.
  apply sorted_primary.
  - by apply (entries_field tier _ primary_field).
  - by apply (entries_field tier _ (fun f => negb (primary_field f))).
Qed.

Lemma entry_positive x : negb (is_finite x) || nle x nzero = negb (is_finite x && nlt nzero x).
Proof.
  destruct (is_finite x) eqn:E; [|done]. cbn [negb orb andb]. by rewrite nle_negb_nlt.
Qed.

Lemma entries_view tier :
  map entry_view (getDynamicPriceEntries site (Some tier) o) = List.filter positive (priced (listed_view tier)).
Proof.
  rewrite entries_unsorted.
  assert (priced (listed_view tier) = map (fun v => (default "null" (bv_field v), tier_number tier (default "null" (bv_field v))))
    BILLING_PRICING_VARS) as -> by reflexivity.
  assert (forallb (fun v => match bv_field v with Some _ => true | None => false end) BILLING_PRICING_VARS = true) as Hf
    by reflexivity.
  revert Hf. generalize BILLING_PRICING_VARS as vs. induction vs as [|v vs IH]; [done|].
  cbn [forallb flat_map map List.filter]. intros [Hv Hvs]%andb_true_iff. rewrite map_app, IH by done. clear IH.
  unfold price_entry, positive. destruct (bv_field v) as [f|]; [|done]. cbn [default from_option id fst snd].
  rewrite entry_positive. by destruct (is_finite _ && nlt _ _).
Qed.
End Entries.

Section Shown.
Context `{NumberFormat} (site : CurrencyState).

(** C13: on the text that the tier editor writes for canonical tiers and rules, when a lone
    tier has no conditions and no label has a parenthesis, the price list shows the tiers of
    the editor (the last of several, which is the fallback, without its conditions: the
    same tiers when it has none), says whether there are rules, and lists exactly the
    positive prices of the first tier. *)
Theorem list_shows_editor c gs model w ratio :
  canonical_config c = true -> config_tail c = [] -> flat_labels c = true -> forallb canonical_group gs = true ->
  m_billing_mode model = Some "tiered_expr" ->
  m_billing_expr model
    = Some (combineBillingExpr (generateExprFromVisualConfig (Some c)) (buildRequestRuleExpr gs)) ->
  exists ds, getDynamicPricingSummary site model w ratio = Ok (Some ds)
  /\ map listed_view (ds_tiers ds) = written_views (map tier_view (tiers_of c))
  /\ (fallback_last c = true -> map listed_view (ds_tiers ds) = map tier_view (tiers_of c))
  /\ ds_isSpecialExpression ds = false
  /\ ds_hasRequestRules ds = negb (bool_decide (gs = []))
  /\ map entry_view (ds_entries ds)
     = match written_views (map tier_view (tiers_of c)) with v :: _ => List.filter positive (priced v) | [] => [] end.
Proof.
  intros Hc Ht Hl Hg Hm He. destruct (split_combined_text c gs Hc Ht Hl Hg) as [Hne Hsplit]. cbn zeta in Hne, Hsplit.
  pose proof (listed_tiers c Hc) as Hlist. pose proof (rules_parse gs Hg) as Hrules.
  set (E := generateExprFromVisualConfig (Some c)) in *. set (R := buildRequestRuleExpr gs) in *.
  assert (isDynamicPricingModel model = true) as Hd.
  { unfold isDynamicPricingModel. rewrite Hm, He. unfold some_text. by destruct (combineBillingExpr E R). }
  assert (split_of model = Ok {| sp_billingExpr := E; sp_requestRuleExpr := R |}) as Hs.
  { unfold split_of. rewrite He. exact Hsplit. }
  unfold getDynamicPricingSummary, getDynamicPricingTiers, hasDynamicRequestRules. rewrite Hd, Hs.
  cbn [negb res_bind sp_billingExpr sp_requestRuleExpr]. rewrite Hrules. cbn [res_bind].
  assert (written_views (map tier_view (tiers_of c)) <> []) as Hw.
  { pose proof (canonical_tiers c Hc) as [Hne' _]. destruct (tiers_of c) as [|t [|u ts]]; [done|done|].
    cbn [map written_views]. change (last_unconditional (tier_view t :: tier_view u :: map tier_view ts))
      with (tier_view t :: last_unconditional (tier_view u :: map tier_view ts)). done. }
  eexists. split; [reflexivity|]. cbn [ds_tiers ds_isSpecialExpression ds_hasRequestRules ds_entries].
  rewrite <- Hlist in *. destruct (parseTiersFromExpr E) as [|tier tiers]; [by destruct Hw|].
  split_and!; [done|intros Hf; rewrite <- (fallback_views c Hf); exact Hlist| |by destruct gs|].
  - rewrite (bool_decide_false (tier :: tiers = [])) by discriminate. by rewrite andb_false_r.
  - cbn [head map]. apply entries_view.
Qed.
End Shown.

Definition tiered_model : PricingModel :=
  (plain_model "tiered" 0){{ m_billing_mode := Some "tiered_expr" }}
    {{ m_billing_expr := Some (combineBillingExpr (generateExprFromVisualConfig (Some demo_config)) (buildRequestRuleExpr sample_rules)) }}.

Definition demo_view : PriceView :=
  {| pw_tokenUnit := UnitM; pw_showWithRecharge := false; pw_priceRate := num_of_Z 1; pw_usdExchangeRate := num_of_Z 1 |}.

Lemma list_shows_editor_witness :
  exists ds, @getDynamicPricingSummary toy_format (site_of "USD") tiered_model demo_view (num_of_Z 1) = Ok (Some ds)
  /\ map listed_view (ds_tiers ds) = map tier_view (tiers_of demo_config)
  /\ ds_hasRequestRules ds = true.
Proof.
  assert (canonical_config demo_config = true /\ config_tail demo_config = [] /\ flat_labels demo_config = true
    /\ forallb canonical_group sample_rules = true) as (Hc & Ht & Hl & Hg) by (split_and!; vm_compute; reflexivity).
  pose proof (@list_shows_editor toy_format (site_of "USD") demo_config sample_rules tiered_model demo_view (num_of_Z 1)
    Hc Ht Hl Hg eq_refl eq_refl) as (ds & H1 & _ & H2 & _ & H4 & _).
  exists ds. split; [exact H1|]. split; [by apply H2; vm_compute|]. rewrite H4. by rewrite bool_decide_false.
Defined.
