(* ===== verification/RatioSync.v ===== *)
(** * Upstream ratio sync (features/system-settings/models/
    upstream-ratio-sync-helpers.ts and the merge of upstream-ratio-sync.tsx)

    The prices an administrator picks from upstream channels, model by model, before
    they are merged into the options. A set of resolutions is an object of objects, a
    draft in progress a fresh copy of one of them. *)
From S2P Require Import Prelude JsString JsNumber JsValue OrderedMap ModelPricing.

(** ** Data *)

Record RatioDifferenceEntry := {
  rd_current : jsval;
  rd_upstreams : jsobj;
  rd_confidence : list (jstr * bool)
}.

(** [Partial<Record<RatioType, RatioDifferenceEntry>>] and the resolutions. *)
Abbreviation RatioTypes := (list (jstr * RatioDifferenceEntry)).
Abbreviation ResolutionsMap := (list (jstr * jsobj)).

Record ResolutionSelection := {
  rs_model : jstr;
  rs_ratioType : jstr;
  rs_value : jsval;
  rs_sourceName : jstr
}.

Record ResolutionRemoval := { rr_model : jstr; rr_ratioType : jstr }.

(** [Map<string, Set<RatioType>>] *)
Abbreviation ResolutionRemovalPlan := (list (jstr * list jstr)).

Definition RATIO_SYNC_FIELDS : list jstr :=
  ["model_ratio"; "completion_ratio"; "cache_ratio"; "create_cache_ratio"; "image_ratio"; "audio_ratio";
   "audio_completion_ratio"].
Definition SYNC_FIELD_ORDER : list jstr := RATIO_SYNC_FIELDS ++ ["model_price"; "billing_mode"; "billing_expr"].
Definition NUMERIC_SYNC_FIELDS : list jstr := RATIO_SYNC_FIELDS ++ ["model_price"].

(** ** Checks before a sync (model-pricing-core.ts) *)

Definition getInvalidUpstreamModelName (modelNames : list jstr) : option jstr := List.find isInvalidModelName modelNames.

Definition getTokenModelMissingOutput (modelRatios completionRatios modelPrices : jsobj) : option jstr :=
  List.find
    (fun modelName =>
       negb (obj_has modelName modelPrices)
       && (negb (hasPositiveTokenOutput (prop modelRatios modelName))
           || negb (hasPositiveTokenOutput (prop completionRatios modelName))))
    (obj_keys modelRatios).

(** ** Fields of a row *)

Definition RATIO_TYPE_OPTIONS : list (jstr * jstr) :=
  [("model_ratio", "Model ratio"); ("completion_ratio", "Completion ratio"); ("cache_ratio", "Cache ratio");
   ("create_cache_ratio", "Create cache ratio"); ("image_ratio", "Image ratio"); ("audio_ratio", "Audio ratio");
   ("audio_completion_ratio", "Audio completion ratio"); ("model_price", "Fixed price");
   ("billing_expr", "Expression billing")].

Definition getSyncFieldLabel (ratioType : jstr) (t : jstr -> jstr) : jstr :=
  match List.find (fun o => fst o ==? ratioType) RATIO_TYPE_OPTIONS with
  | Some (_, label) => t label
  | None => ratioType
  end.

Definition getOrderedRatioTypes (ratioTypes : RatioTypes) (filter : option jstr) : list jstr :=
  let keys := obj_keys ratioTypes in
  let ordered :=
    List.filter (fun f => bool_decide (f ∈ keys)) SYNC_FIELD_ORDER
      ++ List.filter (fun f => negb (bool_decide (f ∈ SYNC_FIELD_ORDER))) keys in
  match filter with
  | None | Some [] => ordered
  | Some filter => if filter ==? "__all__" then ordered else List.filter (fun f => f ==? filter) ordered
  end.

(** [value !== null && value !== undefined && value !== 'same'] *)
Definition isSelectableUpstreamValue (value : jsval) : bool :=
  match value with JUndef | JNull => false | _ => value !=? JStr "same" end.

(** [ratioTypes[ratioType]?.upstreams?.[sourceName]] *)
Definition upstream_value (ratioTypes : RatioTypes) (ratioType sourceName : jstr) : jsval :=
  match obj_get ratioType ratioTypes with
  | Some entry => prop (rd_upstreams entry) sourceName
  | None => JUndef
  end.

Definition getPreferredSyncField (ratioTypes : RatioTypes) (ratioType sourceName : jstr) : jstr :=
  if (ratioType !=? "billing_expr")
     && isSelectableUpstreamValue (upstream_value ratioTypes "billing_expr" sourceName)
  then "billing_expr" else ratioType.

Definition getVisibleRatioTypesForSource (ratioTypes : RatioTypes) (sourceName : jstr) (filter : option jstr)
  : list jstr :=
  List.filter (fun ratioType => getPreferredSyncField ratioTypes ratioType sourceName ==? ratioType)
    (getOrderedRatioTypes ratioTypes filter).

Definition getAlignedRatioTypes (ratioTypes : RatioTypes) (sourceNames : list jstr) (filter : option jstr) : list jstr :=
  let ordered := getOrderedRatioTypes ratioTypes filter in
  match sourceNames with
  | [] => ordered
  | _ =>
      let visible := flat_map (fun sourceName => getVisibleRatioTypesForSource ratioTypes sourceName filter) sourceNames in
      List.filter (fun ratioType => bool_decide (ratioType ∈ visible)) ordered
  end.

Inductive BillingCategory := CatPrice | CatRatio | CatTiered.

#[export] Instance BillingCategory_eq : EqDecision BillingCategory.
Proof. solve_decision. Defined.

Definition getBillingCategory (ratioType : jstr) : BillingCategory :=
  if ratioType ==? "model_price" then CatPrice
  else if (ratioType ==? "billing_mode") || (ratioType ==? "billing_expr") then CatTiered
  else CatRatio.

Definition OFFICIAL_CHANNEL_ID : Z := -100.
Definition OFFICIAL_CHANNEL_NAME : jstr := "官方倍率预设".
Definition MODELS_DEV_PRESET_ID : Z := -101.
Definition MODELS_DEV_PRESET_NAME : jstr := "models.dev 价格预设".

Definition getUpstreamDisplayName (sourceName : jstr) : jstr :=
  match List.find (fun '(name, id) => sourceName ==? (name ++ "(" ++ Z_to_jstr id ++ ")"))
          [(OFFICIAL_CHANNEL_NAME, OFFICIAL_CHANNEL_ID); (MODELS_DEV_PRESET_NAME, MODELS_DEV_PRESET_ID)] with
  | Some (name, _) => name
  | None => sourceName
  end.

Definition isSelectedResolutionValue (resolutions : ResolutionsMap) (model ratioType : jstr) (upstreamValue : jsval) : bool :=
  if negb (isSelectableUpstreamValue upstreamValue) then false
  else
    match obj_get model resolutions ≫= obj_get ratioType with
    | None | Some JUndef => false
    | Some selectedValue =>
        if bool_decide (ratioType ∈ NUMERIC_SYNC_FIELDS) then
          let selectedNumber := js_to_number selectedValue in
          let upstreamNumber := js_to_number upstreamValue in
          is_finite selectedNumber && is_finite upstreamNumber && neq selectedNumber upstreamNumber
        else selectedValue ==? upstreamValue
    end.

(** ** Selections *)

Abbreviation Differences := (list (jstr * RatioTypes)).

(** The type and the value a selection stands for. *)
Definition preferred_type (differences : Differences) (s : ResolutionSelection) : jstr :=
  getPreferredSyncField (default [] (obj_get (rs_model s) differences)) (rs_ratioType s) (rs_sourceName s).

Definition preferred_value (differences : Differences) (s : ResolutionSelection) : jsval :=
  let preferredType := preferred_type differences s in
  if preferredType ==? rs_ratioType s then rs_value s
  else js_nullish (upstream_value (default [] (obj_get (rs_model s) differences)) preferredType (rs_sourceName s))
         (rs_value s).

(** What a selection makes of the draft of its model. *)
Definition select_draft (differences : Differences) (s : ResolutionSelection) (newModelRes : jsobj) : jsobj :=
  let finalType := preferred_type differences s in
  let category := getBillingCategory finalType in
  let newModelRes :=
    List.filter
      (fun kv => negb ((category !=? CatTiered) && (getBillingCategory (fst kv) !=? CatTiered)
                       && (getBillingCategory (fst kv) !=? category))) newModelRes in
  let newModelRes := obj_set finalType (preferred_value differences s) newModelRes in
  match category, obj_get (rs_model s) differences with
  | CatTiered, Some modelDiffs =>
      let modeVal := upstream_value modelDiffs "billing_mode" (rs_sourceName s) in
      let exprVal := upstream_value modelDiffs "billing_expr" (rs_sourceName s) in
      let newModelRes :=
        if isSelectableUpstreamValue modeVal then obj_set "billing_mode" modeVal newModelRes
        else if finalType ==? "billing_expr" then obj_set "billing_mode" (JStr "tiered_expr") newModelRes
        else newModelRes in
      if isSelectableUpstreamValue exprVal then obj_set "billing_expr" exprVal newModelRes else newModelRes
  | _, _ => newModelRes
  end.

(** The drafts are a map from models to fresh objects. *)
Definition applyResolutionSelectionToDraft (resolutions : ResolutionsMap) (differences : Differences)
    (drafts : list (jstr * jsobj)) (s : ResolutionSelection) : list (jstr * jsobj) :=
  let draft := default (default [] (obj_get (rs_model s) resolutions)) (map_get (rs_model s) drafts) in
  map_set (rs_model s) (select_draft differences s draft) drafts.

Definition resolveResolutionSelection (differences : Differences) (s : ResolutionSelection) : ResolutionSelection :=
  {| rs_model := rs_model s; rs_ratioType := preferred_type differences s;
     rs_value := preferred_value differences s; rs_sourceName := rs_sourceName s |}.

(** [`${model}\u0000${ratioType}`] *)
Definition selection_key (s : ResolutionSelection) : jstr := rs_model s ++ [0%N] ++ rs_ratioType s.

Definition effective_step (differences : Differences) (effectiveByKey : list (jstr * ResolutionSelection))
    (s : ResolutionSelection) : list (jstr * ResolutionSelection) :=
  let resolved := resolveResolutionSelection differences s in
  let category := getBillingCategory (rs_ratioType resolved) in
  let effectiveByKey :=
    if category !=? CatTiered then
      List.filter
        (fun '(_, existing) =>
           negb ((rs_model existing ==? rs_model resolved)
                 && (getBillingCategory (rs_ratioType existing) !=? CatTiered)
                 && (getBillingCategory (rs_ratioType existing) !=? category))) effectiveByKey
    else effectiveByKey in
  map_set (selection_key resolved) resolved effectiveByKey.

Definition getEffectiveResolutionSelections (differences : Differences) (selections : list ResolutionSelection)
  : list ResolutionSelection :=
  map_values (fold_left (effective_step differences) selections []).

Definition put_draft (next : ResolutionsMap) (md : jstr * jsobj) : ResolutionsMap :=
  match snd md with [] => obj_delete (fst md) next | draft => obj_set (fst md) draft next end.

Definition applyResolutionSelections (resolutions : ResolutionsMap) (differences : Differences)
    (selections : list ResolutionSelection) : ResolutionsMap :=
  match selections with
  | [] => resolutions
  | _ => fold_left put_draft (fold_left (applyResolutionSelectionToDraft resolutions differences) selections []) resolutions
  end.

Definition applyResolutionSelection (resolutions : ResolutionsMap) (differences : Differences) (s : ResolutionSelection)
  : ResolutionsMap := applyResolutionSelections resolutions differences [s].

(** ** Removals *)

(** The types of a removal, in the order of the set. *)
Definition remove_types (ratioTypes : list jstr) (draft : jsobj) : jsobj :=
  fold_left
    (fun draft ratioType =>
       let draft := obj_delete ratioType draft in
       let draft := if ratioType ==? "billing_expr" then obj_delete "billing_mode" draft else draft in
       if ratioType ==? "billing_mode" then obj_delete "billing_expr" draft else draft) ratioTypes draft.

Definition remove_planned (resolutions : ResolutionsMap) (next : ResolutionsMap) (p : jstr * list jstr) : ResolutionsMap :=
  match obj_get (fst p) resolutions with
  | None => next
  | Some current => put_draft next (fst p, remove_types (snd p) current)
  end.

Definition applyResolutionRemovalPlan (resolutions : ResolutionsMap) (plan : ResolutionRemovalPlan) : ResolutionsMap :=
  match plan with [] => resolutions | _ => fold_left (remove_planned resolutions) plan resolutions end.

Definition plan_add (plan : ResolutionRemovalPlan) (r : ResolutionRemoval) : ResolutionRemovalPlan :=
  match map_get (rr_model r) plan with
  | Some ratioTypes => map_set (rr_model r) (set_add (rr_ratioType r) ratioTypes) plan
  | None => map_set (rr_model r) [rr_ratioType r] plan
  end.

Definition applyResolutionRemovals (resolutions : ResolutionsMap) (removals : list ResolutionRemoval) : ResolutionsMap :=
  match removals with
  | [] => resolutions
  | _ => applyResolutionRemovalPlan resolutions (fold_left plan_add removals [])
  end.

Definition deleteResolutionField (resolutions : ResolutionsMap) (model ratioType : jstr) : ResolutionsMap :=
  applyResolutionRemovals resolutions [{| rr_model := model; rr_ratioType := ratioType |}].

(** ** The merge into the options (performSync of upstream-ratio-sync.tsx) *)

(** [word.charAt(0).toUpperCase() + word.slice(1)], on ASCII. *)
Definition capitalize (word : jstr) : jstr :=
  match word with c :: w => (if ((97 <=? c) && (c <=? 122))%N then (c - 32)%N else c) :: w | [] => [] end.

Definition optionKeyBySyncField (ratioType : jstr) : jstr :=
  if ratioType ==? "billing_mode" then "billing_setting.billing_mode"
  else if ratioType ==? "billing_expr" then "billing_setting.billing_expr"
  else concat (map capitalize (split "_" ratioType)).

(** An option is an object of prices by model; the options are keyed by name. *)
Abbreviation Options := (list (jstr * jsobj)).

Definition RATIO_OPTIONS : list jstr := map optionKeyBySyncField RATIO_SYNC_FIELDS.

(** [delete finalRatios[option][model]] *)
Definition delete_price (model : jstr) (finalRatios : Options) (option : jstr) : Options :=
  map (fun '(k, o) => (k, if k ==? option then obj_delete model o else o)) finalRatios.

(** [finalRatios[option][model] = value]: a [TypeError] without the option. *)
Definition set_price (model : jstr) (finalRatios : Options) (rv : jstr * jsval) : res Options :=
  let option := optionKeyBySyncField (fst rv) in
  let value := if bool_decide (fst rv ∈ NUMERIC_SYNC_FIELDS) then JNum (js_to_number (snd rv)) else snd rv in
  if obj_has option finalRatios
  then Ok (map (fun '(k, o) => (k, if k ==? option then obj_set model value o else o)) finalRatios)
  else type_error.

Definition merge_model (finalRatios : Options) (mr : jstr * jsobj) : res Options :=
  let '(model, ratios) := mr in
  let selectedTypes := obj_keys ratios in
  let hasPrice := bool_decide ("model_price" ∈ selectedTypes) in
  let hasRatio := existsb (fun rt => bool_decide (rt ∈ RATIO_SYNC_FIELDS)) selectedTypes in
  let finalRatios := if hasPrice then fold_left (delete_price model) RATIO_OPTIONS finalRatios else finalRatios in
  let finalRatios := if hasRatio then delete_price model finalRatios "ModelPrice" else finalRatios in
  res_fold (set_price model) finalRatios ratios.

Definition merge_resolutions (currentRatios : Options) (resolutions : ResolutionsMap) : res Options :=
  res_fold merge_model currentRatios resolutions.

(** ** Lemmas *)

(** Resolutions are read by model. *)
Definition same_resolutions (a b : ResolutionsMap) : Prop := forall model, obj_get model a = obj_get model b.

Lemma obj_set_not_nil {V} k (v : V) o : obj_set k v o <> [].
Proof.
  intros E. pose proof (obj_get_set_eq k v o) as H. by rewrite E in H.
Qed.

(** A selection always leaves something selected. *)
Lemma select_draft_not_nil differences s draft : select_draft differences s draft <> [].
Proof.
  unfold select_draft. cbn zeta. destruct (getBillingCategory _); try apply obj_set_not_nil.
  destruct (obj_get (rs_model s) differences); [|apply obj_set_not_nil].
  repeat match goal with |- context [if ?b then _ else _] => destruct b end; apply obj_set_not_nil.
Qed.

Lemma obj_get_put next m d model : obj_get model (put_draft next (m, d))
  = if model ==? m then match d with [] => None | _ => Some d end else obj_get model next.
Proof. unfold put_draft. cbn [snd fst]. destruct d; [apply obj_get_delete|apply obj_get_set]. Qed.

Lemma obj_get_put_all drafts : forall next model, NoDup (map_keys drafts) ->
  obj_get model (fold_left put_draft drafts next)
  = match map_get model drafts with Some [] => None | Some d => Some d | None => obj_get model next end.
Proof.
  induction drafts as [|[m d] drafts IH]; intros next model Hnd; [done|]. inversion Hnd as [|? ? Hni Hnd']; subst.
  cbn [fold_left map_get]. rewrite IH, obj_get_put by done. destruct (decide (model = m)) as [->|Hne].
  - rewrite !bool_decide_true by done. apply map_get_None in Hni. rewrite Hni. by destruct d.
  - by rewrite !bool_decide_false by done.
Qed.

(** What a list of selections makes of the draft of one model. *)
Fixpoint selected (differences : Differences) (model : jstr) (ss : list ResolutionSelection) (draft : option jsobj)
  : option jsobj :=
  match ss with
  | [] => draft
  | s :: ss =>
      selected differences model ss
        (if rs_model s ==? model then Some (select_draft differences s (default [] draft)) else draft)
  end.

Lemma drafts_spec resolutions differences ss : forall drafts model, NoDup (map_keys drafts) ->
  let drafts' := fold_left (applyResolutionSelectionToDraft resolutions differences) ss drafts in
  NoDup (map_keys drafts')
  /\ from_option Some (obj_get model resolutions) (map_get model drafts')
     = selected differences model ss (from_option Some (obj_get model resolutions) (map_get model drafts))
  /\ (forall d, map_get model drafts' = Some d -> map_get model drafts = Some d \/ d <> []).
Proof.
  induction ss as [|s ss IH]; intros drafts model Hnd; cbn zeta; cbn [fold_left selected]; [by eauto|].
  set (d1 := applyResolutionSelectionToDraft resolutions differences drafts s).
  assert (NoDup (map_keys d1)) as Hnd1 by (by apply NoDup_map_set).
  destruct (IH d1 model Hnd1) as (H1 & H2 & H3). split_and!; [done| |].
  - rewrite H2. f_equal. unfold d1, applyResolutionSelectionToDraft. cbn zeta. rewrite map_get_set.
    destruct (decide (rs_model s = model)) as [->|Hne].
    + rewrite !bool_decide_true by done. cbn. do 2 f_equal. by destruct (map_get model drafts).
    + by rewrite !bool_decide_false by done.
  - intros d Hd. destruct (H3 d Hd) as [Hd1|]; [|by right]. unfold d1, applyResolutionSelectionToDraft in Hd1. cbn zeta in Hd1.
    rewrite map_get_set in Hd1. destruct (model ==? rs_model s); [|by left].
    apply Some_inj in Hd1. subst d. right. apply select_draft_not_nil.
Qed.

Lemma obj_get_selections resolutions differences ss model :
  obj_get model (applyResolutionSelections resolutions differences ss)
  = selected differences model ss (obj_get model resolutions).
Proof.
  destruct ss as [|s ss]; [done|]. unfold applyResolutionSelections.
  destruct (drafts_spec resolutions differences (s :: ss) [] model) as (H1 & H2 & H3); [constructor|].
  set (drafts := fold_left _ _ _) in *. rewrite obj_get_put_all by done. cbn [map_get from_option] in H2. rewrite <- H2.
  destruct (map_get model drafts) as [d|] eqn:E; [|done]. destruct (H3 d eq_refl) as [|Hd]; [done|]. by destruct d.
Qed.

Lemma selected_app differences model a b draft :
  selected differences model (a ++ b) draft = selected differences model b (selected differences model a draft).
Proof. revert draft. induction a as [|s a IH]; intros draft; [done|]. cbn. apply IH. Qed.

(** C38: selecting in bulk is selecting one value after the other. *)
Theorem bulk_select_is_sequential resolutions differences ss :
  same_resolutions (applyResolutionSelections resolutions differences ss)
    (fold_left (fun r s => applyResolutionSelection r differences s) ss resolutions).
Proof.
  intros model. rewrite obj_get_selections. revert resolutions.
  induction ss as [|s ss IH]; intros resolutions; [done|]. cbn [fold_left]. rewrite <- IH.
  unfold applyResolutionSelection. rewrite obj_get_selections. apply (selected_app differences model [s] ss).
Qed.

(** ** Removals *)

(** A removal takes a field, and the other half of the billing expression. *)
Definition removes (ratioType key : jstr) : bool :=
  (key ==? ratioType) || ((ratioType ==? "billing_expr") && (key ==? "billing_mode"))
  || ((ratioType ==? "billing_mode") && (key ==? "billing_expr")).

Definition kept (ratioTypes : list jstr) (kv : jstr * jsval) : bool :=
  negb (existsb (fun rt => removes rt (fst kv)) ratioTypes).

Lemma remove_types_kept ts : forall d, remove_types ts d = List.filter (kept ts) d.
Proof.
  unfold remove_types. induction ts as [|rt ts IH]; intros d; cbn [fold_left].
  { unfold kept. cbn. induction d as [|kv d IHd]; [done|]. cbn. by f_equal. }
  rewrite IH. unfold obj_delete.
  assert (forall (b c : bool) k1 k2 k3, (if b then List.filter (fun kv : jstr * jsval => k3 !=? kv.1)
            (if c then List.filter (fun kv => k2 !=? kv.1) (List.filter (fun kv => k1 !=? kv.1) d) else List.filter (fun kv => k1 !=? kv.1) d)
          else (if c then List.filter (fun kv => k2 !=? kv.1) (List.filter (fun kv => k1 !=? kv.1) d) else List.filter (fun kv => k1 !=? kv.1) d))
          = List.filter (fun kv => (k1 !=? kv.1) && (negb c || (k2 !=? kv.1)) && (negb b || (k3 !=? kv.1))) d) as ->.
  { intros b c k1 k2 k3. destruct b, c; rewrite ?filter_filter; apply filter_ext; intros kv;
      by destruct (k1 !=? kv.1), (k2 !=? kv.1), (k3 !=? kv.1). }
  rewrite filter_filter. apply filter_ext. intros [k v]. unfold kept, removes. cbn [existsb fst].
  rewrite !negb_orb, !negb_andb.
  assert (forall a b : jstr, (a !=? b) = (b !=? a)) as Hsym by (intros; f_equal; apply bool_decide_ext; split; done).
  rewrite (Hsym rt k), (Hsym "billing_mode" k), (Hsym "billing_expr" k). by rewrite <- !andb_assoc.
Qed.

Definition put_if_any (d : jsobj) : option jsobj := match d with [] => None | _ => Some d end.

Lemma obj_get_planned resolutions plan : forall next model, NoDup (map_keys plan) ->
  obj_get model (fold_left (remove_planned resolutions) plan next)
  = match map_get model plan, obj_get model resolutions with
    | Some ts, Some d => put_if_any (List.filter (kept ts) d)
    | _, _ => obj_get model next
    end.
Proof.
  induction plan as [|[m ts] plan IH]; intros next model Hnd; [done|]. inversion Hnd as [|? ? Hni Hnd']; subst.
  cbn [fold_left map_get]. rewrite IH by done. unfold remove_planned. cbn [fst snd].
  destruct (decide (model = m)) as [->|Hne].
  - rewrite bool_decide_true by done. apply map_get_None in Hni. rewrite Hni. destruct (obj_get m resolutions); [|done].
    rewrite obj_get_put, bool_decide_true by done. by rewrite remove_types_kept.
  - rewrite bool_decide_false by done. destruct (map_get model plan), (obj_get model resolutions); try done;
      destruct (obj_get m resolutions); try done; by rewrite obj_get_put, bool_decide_false.
Qed.

(** The types the removals name for a model. *)
Definition removed_types (removals : list ResolutionRemoval) (model : jstr) : list jstr :=
  map rr_ratioType (List.filter (fun r => rr_model r ==? model) removals).

Lemma plan_spec removals : forall plan, NoDup (map_keys plan) ->
  let plan' := fold_left plan_add removals plan in
  NoDup (map_keys plan')
  /\ forall model, (is_Some (map_get model plan') <-> is_Some (map_get model plan) \/ removed_types removals model <> [])
       /\ forall rt, rt ∈ default [] (map_get model plan') <-> rt ∈ default [] (map_get model plan) \/ rt ∈ removed_types removals model.
Proof.
  induction removals as [|r removals IH]; intros plan Hnd; cbn zeta; cbn [fold_left].
  { split; [done|]. intros model. split; [|intros rt]; unfold removed_types; cbn; [naive_solver|]. set_solver. }
  assert (NoDup (map_keys (plan_add plan r))) as Hnd1.
  { unfold plan_add. destruct (map_get _ _); by apply NoDup_map_set. }
  destruct (IH _ Hnd1) as [H1 H2]. split; [done|]. intros model. destruct (H2 model) as [H3 H4].
  assert ((is_Some (map_get model (plan_add plan r)) <-> is_Some (map_get model plan) \/ rr_model r = model)
          /\ forall rt, rt ∈ default [] (map_get model (plan_add plan r))
               <-> rt ∈ default [] (map_get model plan) \/ (rr_model r = model /\ rt = rr_ratioType r)) as [K1 K2].
  { unfold plan_add. destruct (map_get (rr_model r) plan) as [ts|] eqn:E; rewrite map_get_set;
      (destruct (decide (model = rr_model r)) as [->|Hne]; [rewrite bool_decide_true by done|rewrite bool_decide_false by done]);
      rewrite ?E; cbn; (split; [naive_solver|]); intros rt; rewrite ?elem_of_set_add; set_solver. }
  unfold removed_types in *. cbn [List.filter]. split.
  - rewrite H3, K1. destruct (decide (rr_model r = model)) as [->|Hne].
    + rewrite bool_decide_true by done. cbn. naive_solver.
    + rewrite bool_decide_false by done. naive_solver.
  - intros rt. rewrite H4, K2. destruct (decide (rr_model r = model)) as [->|Hne].
    + rewrite bool_decide_true by done. cbn. set_solver.
    + rewrite bool_decide_false by done. naive_solver.
Qed.

Lemma removal_eq resolutions removals model :
  obj_get model (applyResolutionRemovals resolutions removals)
  = match removed_types removals model with
    | [] => obj_get model resolutions
    | ts => obj_get model resolutions ≫= (fun d => put_if_any (List.filter (kept ts) d))
    end.
Proof.
  destruct removals as [|r removals]; [done|]. unfold applyResolutionRemovals, applyResolutionRemovalPlan.
  destruct (plan_spec (r :: removals) [] (NoDup_nil_2)) as [H1 H2]. set (plan := fold_left plan_add _ _) in *.
  destruct (H2 model) as [H3 H4]. cbn [map_get default] in H3, H4.
  assert (match plan with [] => resolutions | _ => fold_left (remove_planned resolutions) plan resolutions end
          = fold_left (remove_planned resolutions) plan resolutions) as -> by (by destruct plan).
  rewrite obj_get_planned by done. destruct (map_get model plan) as [ts|] eqn:E.
  - destruct (removed_types (r :: removals) model) as [|rt rts] eqn:Er.
    { destruct (proj1 H3 ltac:(by eexists)) as [[? ?]|?]; done. }
    rewrite <- Er in *. destruct (obj_get model resolutions) as [d|]; [|by rewrite Er]. rewrite Er. cbn [mbind option_bind].
    rewrite <- Er. f_equal. apply filter_ext. intros kv. unfold kept. f_equal.
    apply eq_true_iff_eq. rewrite !existsb_exists. setoid_rewrite <- list_elem_of_In. cbn in H4.
    split; intros (x & Hx & Hr); exists x; (split; [|done]); apply H4 in Hx || apply H4; set_solver.
  - destruct (removed_types (r :: removals) model) as [|rt rts]; [done|].
    destruct (proj2 H3 ltac:(by right)). done.
Qed.

(** A removal takes the named fields of the named models, with the other half of a
    billing expression, and drops a model that has no field left; everything else stays. *)
Theorem removal_spec resolutions removals model :
  obj_get model (applyResolutionRemovals resolutions removals)
  = match removed_types removals model with
    | [] => obj_get model resolutions
    | ts => obj_get model resolutions ≫= (fun d => put_if_any (List.filter (kept ts) d))
    end.
Proof. apply removal_eq. Qed.

(** ** The fields of a model *)

Lemma keys_set {V} k (v : V) o x : x ∈ obj_keys (obj_set k v o) <-> x = k \/ x ∈ obj_keys o.
Proof. rewrite <- !obj_has_keys. unfold obj_has. rewrite obj_get_set. bd; naive_solver. Qed.

Lemma keys_filter {V} (p : jstr -> bool) (o : list (jstr * V)) x :
  x ∈ obj_keys (List.filter (fun kv => p (fst kv)) o) <-> x ∈ obj_keys o /\ p x = true.
Proof.
  unfold obj_keys. rewrite !list_elem_of_In, !in_map_iff. setoid_rewrite filter_In. split.
  - intros (kv & <- & H1 & H2). eauto.
  - intros [(kv & <- & H1) H2]. eauto.
Qed.

(** A model has known fields, not both a price and ratios, and no expression without its
    mode. *)
Record fields_ok (d : jsobj) : Prop := {
  fo_known k : k ∈ obj_keys d -> k ∈ SYNC_FIELD_ORDER;
  fo_exclusive k : "model_price" ∈ obj_keys d -> k ∈ obj_keys d -> getBillingCategory k <> CatRatio;
  fo_paired : "billing_expr" ∈ obj_keys d -> "billing_mode" ∈ obj_keys d
}.

(** A selection of a known field of a model the upstreams differ on. *)
Definition selection_ok (differences : Differences) (s : ResolutionSelection) : bool :=
  bool_decide (rs_ratioType s ∈ SYNC_FIELD_ORDER)
  && match obj_get (rs_model s) differences with Some _ => true | None => false end.

Lemma tiered_category k : getBillingCategory k = CatTiered <-> k = "billing_mode" \/ k = "billing_expr".
Proof.
  unfold getBillingCategory. destruct (decide (k = "model_price")) as [->|Hne]; [vm_compute; naive_solver|].
  rewrite bool_decide_false by done. destruct (k ==? "billing_mode") eqn:E1, (k ==? "billing_expr") eqn:E2; bools; naive_solver.
Qed.

Lemma preferred_known differences s : rs_ratioType s ∈ SYNC_FIELD_ORDER -> preferred_type differences s ∈ SYNC_FIELD_ORDER.
Proof.
  intros H. unfold preferred_type, getPreferredSyncField. destruct (_ && _); [|done].
  apply (bool_decide_eq_true_1 _). vm_compute. reflexivity.
Qed.

(** Selecting a price or a ratio. *)
Lemma select_base_ok category finalType v d : fields_ok d -> finalType ∈ SYNC_FIELD_ORDER ->
  getBillingCategory finalType = category -> category <> CatTiered ->
  fields_ok (obj_set finalType v
    (List.filter (fun kv => negb ((category !=? CatTiered) && (getBillingCategory (fst kv) !=? CatTiered)
                                  && (getBillingCategory (fst kv) !=? category))) d)).
Proof.
  intros [Hk He Hp] Hf Hc Ht.
  set (p := fun k => negb ((category !=? CatTiered) && (getBillingCategory k !=? CatTiered) && (getBillingCategory k !=? category))).
  change (List.filter _ d) with (List.filter (fun kv => p (fst kv)) d).
  assert (forall x, p x = true <-> getBillingCategory x = CatTiered \/ getBillingCategory x = category) as Hpx.
  { intros x. unfold p. destruct category, (getBillingCategory x); vm_compute; intuition congruence. }
  assert (getBillingCategory "billing_expr" = CatTiered /\ getBillingCategory "billing_mode" = CatTiered) as [Ex Em] by done.
  split.
  - intros k. rewrite keys_set, (keys_filter p). intros [->|[H _]]; [done|by apply Hk].
  - intros k. rewrite !keys_set, !(keys_filter p), !Hpx. intros H1 H2 Hr.
    assert (category = CatPrice) as Hcat.
    { destruct H1 as [<-|[H1 [H|H]]]; [by rewrite <- Hc|done|by rewrite <- H]. }
    destruct H2 as [->|[H2 [H|H]]]; congruence.
  - rewrite !keys_set, !(keys_filter p), !Hpx. intros [E|[H _]]; [exfalso; apply Ht; rewrite <- Hc, <- E; done|]. right. auto.
Qed.

Lemma select_draft_ok differences s d : fields_ok d -> selection_ok differences s = true ->
  fields_ok (select_draft differences s d).
Proof.
  intros Hd [Hs Hdiff]%andb_true_iff. apply bool_decide_eq_true in Hs. pose proof (preferred_known differences s Hs) as Hf.
  unfold select_draft. cbn zeta. destruct (getBillingCategory (preferred_type differences s)) eqn:Hc;
    [by apply select_base_ok|by apply select_base_ok|].
  destruct (obj_get (rs_model s) differences) as [diffs|]; [|done]. apply tiered_category in Hc. cbn [bool_decide].
  destruct Hd as [Hk He Hp].
  assert (forall l, List.filter (fun kv : jstr * jsval => negb ((CatTiered !=? CatTiered) && (getBillingCategory (fst kv) !=? CatTiered)
            && (getBillingCategory (fst kv) !=? CatTiered))) l = l) as ->.
  { induction l as [|kv l IH]; [done|]. cbn [List.filter]. rewrite (bool_decide_true (CatTiered = CatTiered)) by done. cbn [negb andb]. by f_equal. }
  assert (forall k, k = "billing_mode" \/ k = "billing_expr" -> k ∈ SYNC_FIELD_ORDER /\ getBillingCategory k <> CatRatio) as Hb.
  { intros k [->| ->]; (split; [apply (bool_decide_eq_true_1 _); vm_compute; reflexivity|by vm_compute]). }
  set (v := preferred_value differences s). set (f := preferred_type differences s) in *.
  assert (forall d', (forall x, x ∈ obj_keys d' -> x ∈ obj_keys d \/ x = "billing_mode" \/ x = "billing_expr") ->
            ("billing_expr" ∈ obj_keys d' -> "billing_mode" ∈ obj_keys d') -> fields_ok d') as Hmk.
  { intros d' H1 H2. split; [|intros k Hpr Hkk Hr|done].
    - intros k Hkk. destruct (H1 k Hkk) as [H|H]; [by apply Hk|by apply Hb].
    - destruct (H1 k Hkk) as [H|H]; [|by destruct (Hb k H)]. destruct (H1 _ Hpr) as [H'|[H'|H']]; [by apply (He k)|done..]. }
  apply Hmk; clear Hmk; destruct (isSelectableUpstreamValue (upstream_value diffs "billing_mode" _)),
    (f ==? "billing_expr") eqn:Ef, (isSelectableUpstreamValue (upstream_value diffs "billing_expr" _)); bools;
    try intros x; rewrite ?keys_set; naive_solver.
Qed.

Lemma filter_kept_ok ts d : fields_ok d -> fields_ok (List.filter (kept ts) d).
Proof.
  intros [Hk He Hp]. set (p := fun k => negb (existsb (fun rt => removes rt k) ts)).
  assert (forall x, x ∈ obj_keys (List.filter (kept ts) d) <-> x ∈ obj_keys d /\ p x = true) as Hx by (intros x; apply (keys_filter p)).
  assert (p "billing_expr" = p "billing_mode") as Ep.
  { unfold p. clear. f_equal. induction ts as [|rt ts IH]; [done|]. cbn [existsb]. rewrite IH. f_equal. unfold removes.
    destruct (decide (rt = "billing_expr")) as [->|H1]; [by vm_compute|].
    destruct (decide (rt = "billing_mode")) as [->|H2]; [by vm_compute|].
    rewrite (bool_decide_false (rt = "billing_expr")), (bool_decide_false (rt = "billing_mode")),
      (bool_decide_false ("billing_expr" = rt)), (bool_decide_false ("billing_mode" = rt)) by congruence. done. }
  split.
  - intros k [H _]%Hx. by apply Hk.
  - intros k [H1 _]%Hx [H2 _]%Hx. by apply He.
  - rewrite !Hx, Ep. intros [H1 H2]. auto.
Qed.

(** What the table does to the resolutions: selections, and removals. *)
Inductive SyncAction :=
| SelectValues (ss : list ResolutionSelection)
| UnselectValues (removals : list ResolutionRemoval).

Definition act (differences : Differences) (resolutions : ResolutionsMap) (a : SyncAction) : ResolutionsMap :=
  match a with
  | SelectValues ss => applyResolutionSelections resolutions differences ss
  | UnselectValues removals => applyResolutionRemovals resolutions removals
  end.

Definition action_ok (differences : Differences) (a : SyncAction) : bool :=
  match a with SelectValues ss => forallb (selection_ok differences) ss | UnselectValues _ => true end.

Definition resolutions_ok (resolutions : ResolutionsMap) : Prop :=
  forall model d, obj_get model resolutions = Some d -> fields_ok d /\ d <> [].

Lemma selected_ok differences model ss : forall o, forallb (selection_ok differences) ss = true ->
  (forall d, o = Some d -> fields_ok d /\ d <> []) ->
  forall d, selected differences model ss o = Some d -> fields_ok d /\ d <> [].
Proof.
  induction ss as [|s ss IH]; intros o Hs Ho; [done|]. cbn [forallb selected] in *. apply andb_true_iff in Hs as [Hs Hss].
  apply IH; [done|]. destruct (rs_model s ==? model); [|done]. intros d Hd. apply Some_inj in Hd. subst d.
  split; [|apply select_draft_not_nil]. apply select_draft_ok; [|done]. destruct o as [d|]; [by apply (Ho d)|].
  split; cbn; set_solver.
Qed.

Lemma act_ok differences resolutions a : action_ok differences a = true -> resolutions_ok resolutions ->
  resolutions_ok (act differences resolutions a).
Proof.
  intros Ha Hr model d. destruct a as [ss|removals]; cbn [act action_ok] in *.
  - rewrite obj_get_selections. apply selected_ok; [done|]. intros d'. apply Hr.
  - rewrite removal_eq. destruct (removed_types removals model) as [|rt ts]; [apply Hr|].
    destruct (obj_get model resolutions) as [d0|] eqn:E; [|done]. cbn [mbind option_bind]. unfold put_if_any.
    pose proof (filter_kept_ok (rt :: ts) d0 (proj1 (Hr model d0 E))) as Hf. destruct (List.filter _ d0); [done|].
    intros Hd. apply Some_inj in Hd. by subst d.
Qed.

(** C15: whatever is selected and unselected, no model mixes a fixed price with ratios,
    none has a billing expression without its billing mode, and none is left empty. *)
Theorem resolutions_never_mix differences actions :
  forallb (action_ok differences) actions = true ->
  resolutions_ok (fold_left (act differences) actions []).
Proof.
  assert (forall r, resolutions_ok r -> forallb (action_ok differences) actions = true ->
            resolutions_ok (fold_left (act differences) actions r)) as H; [|intros Ha; by apply H].
  induction actions as [|a actions IH]; intros r Hr Ha; [done|]. cbn [forallb fold_left] in *.
  apply andb_true_iff in Ha as [H1 H2]. apply IH; [by apply act_ok|done].
Qed.

(** ** The merge *)

(** [finalRatios[name][model]] *)
Definition price_of (finalRatios : Options) (name model : jstr) : option jsval :=
  obj_get name finalRatios ≫= obj_get model.

Lemma obj_get_map_at (f : jsobj -> jsobj) option k (fr : Options) :
  obj_get k (map (fun '(k, o) => (k, if k ==? option then f o else o)) fr)
  = (if k ==? option then f else fun o => o) <$> obj_get k fr.
Proof.
  induction fr as [|[k' o] fr IH]; cbn; [done|]. destruct (decide (k = k')) as [->|Hne].
  - rewrite (bool_decide_true (k' = k')) by done. cbn. by destruct (k' ==? option).
  - by rewrite (bool_decide_false (k = k')).
Qed.

Lemma price_of_delete model fr option o m :
  price_of (delete_price model fr option) o m = if (o ==? option) && (m ==? model) then None else price_of fr o m.
Proof.
  unfold price_of, delete_price. rewrite obj_get_map_at. destruct (obj_get o fr) as [ps|]; cbn.
  - destruct (o ==? option); cbn; [apply obj_get_delete|done].
  - by destruct (_ && _).
Qed.

(** The options the merge writes. *)
Definition options_ok (fr : Options) : Prop := forall rt, rt ∈ SYNC_FIELD_ORDER -> obj_has (optionKeyBySyncField rt) fr = true.

Lemma has_map_at (f : jsobj -> jsobj) option fr k :
  obj_has k (map (fun '(k, o) => (k, if k ==? option then f o else o)) fr) = obj_has k fr.
Proof. unfold obj_has. rewrite obj_get_map_at. by destruct (obj_get k fr). Qed.

Lemma options_delete model fr option : options_ok fr -> options_ok (delete_price model fr option).
Proof. intros H rt Hrt. unfold delete_price. rewrite has_map_at. by apply H. Qed.

Lemma delete_all model options : forall fr, options_ok fr ->
  options_ok (fold_left (delete_price model) options fr)
  /\ forall o m, price_of (fold_left (delete_price model) options fr) o m
                 = if bool_decide (o ∈ options) && (m ==? model) then None else price_of fr o m.
Proof.
  induction options as [|x options IH]; intros fr Hfr; cbn [fold_left]; [by split|].
  destruct (IH (delete_price model fr x) (options_delete _ _ _ Hfr)) as [H1 H2]. split; [done|]. intros o m.
  rewrite H2, price_of_delete. destruct (decide (o = x)) as [->|Hne].
  - rewrite (bool_decide_true (x ∈ x :: options)) by left. rewrite (bool_decide_true (x = x)) by done.
    by destruct (bool_decide (x ∈ options)), (m ==? model).
  - rewrite (bool_decide_false (o = x)) by done. cbn [andb].
    rewrite (bool_decide_ext (o ∈ x :: options) (o ∈ options)); [done|]. rewrite elem_of_cons. naive_solver.
Qed.

Definition synced_value (rt : jstr) (v : jsval) : jsval :=
  if bool_decide (rt ∈ NUMERIC_SYNC_FIELDS) then JNum (js_to_number v) else v.

Lemma set_price_spec model fr rt v : options_ok fr -> rt ∈ SYNC_FIELD_ORDER ->
  exists fr', set_price model fr (rt, v) = Ok fr' /\ options_ok fr'
    /\ forall o m, price_of fr' o m
         = if (o ==? optionKeyBySyncField rt) && (m ==? model) then Some (synced_value rt v) else price_of fr o m.
Proof.
  intros Hfr Hrt. unfold set_price. cbn [fst snd]. rewrite (Hfr rt Hrt). eexists. split; [done|]. split.
  - intros x Hx. rewrite has_map_at. by apply Hfr.
  - intros o m. unfold price_of. rewrite obj_get_map_at. destruct (decide (o = optionKeyBySyncField rt)) as [->|Hne].
    + rewrite bool_decide_true by done. specialize (Hfr rt Hrt). unfold obj_has in Hfr.
      destruct (obj_get (optionKeyBySyncField rt) fr); [|done]. cbn. apply obj_get_set.
    + rewrite bool_decide_false by done. cbn [andb]. by destruct (obj_get o fr).
Qed.

Lemma option_keys_inj a b : a ∈ SYNC_FIELD_ORDER -> b ∈ SYNC_FIELD_ORDER ->
  optionKeyBySyncField a = optionKeyBySyncField b -> a = b.
Proof.
  intros Ha Hb.
  assert (forallb (fun a => forallb (fun b => (optionKeyBySyncField a !=? optionKeyBySyncField b) || (a ==? b)) SYNC_FIELD_ORDER)
            SYNC_FIELD_ORDER = true) as H by (vm_compute; reflexivity).
  rewrite forallb_forall in H. specialize (H a (proj1 (list_elem_of_In _ _) Ha)). rewrite forallb_forall in H.
  specialize (H b (proj1 (list_elem_of_In _ _) Hb)). intros E. rewrite E, bool_decide_true in H by done. by apply bool_decide_eq_true in H.
Qed.

Lemma set_all model d : forall fr, options_ok fr -> NoDup (obj_keys d) -> (forall k, k ∈ obj_keys d -> k ∈ SYNC_FIELD_ORDER) ->
  exists fr', res_fold (set_price model) fr d = Ok fr' /\ options_ok fr'
    /\ (forall rt v, obj_get rt d = Some v -> price_of fr' (optionKeyBySyncField rt) model = Some (synced_value rt v))
    /\ (forall o m, m <> model \/ (forall rt, rt ∈ obj_keys d -> optionKeyBySyncField rt <> o) ->
          price_of fr' o m = price_of fr o m).
Proof.
  induction d as [|[rt v] d IH]; intros fr Hfr Hnd Hk; cbn [res_fold]; [by exists fr|].
  inversion Hnd as [|? ? Hni Hnd']; subst.
  assert (rt ∈ SYNC_FIELD_ORDER) as Hrt by (apply Hk; left).
  assert (forall k, k ∈ obj_keys d -> k ∈ SYNC_FIELD_ORDER) as Hk' by (intros k H; apply Hk; by right).
  destruct (set_price_spec model fr rt v Hfr Hrt) as (fr1 & E1 & Hfr1 & Hp1). rewrite E1. cbn [res_bind].
  destruct (IH fr1 Hfr1 Hnd' Hk') as (fr' & E & Hfr' & Hv & Ho). exists fr'. split_and!; [done|done| |].
  - intros rt' v'. cbn [obj_get]. destruct (decide (rt' = rt)) as [->|Hne].
    + rewrite bool_decide_true by done. intros Hx. apply Some_inj in Hx. subst v'. rewrite Ho, Hp1; [by rewrite !bool_decide_true|].
      right. intros x Hx Ex. apply Hni. by rewrite <- (option_keys_inj x rt (Hk' x Hx) Hrt Ex).
    + rewrite bool_decide_false by done. apply Hv.
  - intros o m Hm. rewrite Ho, Hp1.
    + destruct Hm as [Hm|Hm]; [rewrite (bool_decide_false (m = model)) by done; by rewrite andb_false_r|].
      by rewrite bool_decide_false by (intros ->; apply (Hm rt); [left|done]).
    + destruct Hm as [Hm|Hm]; [by left|]. right. intros x Hx. apply Hm. by right.
Qed.

(** A model without both a price and ratios. *)
Definition not_mixed (fr : Options) (model : jstr) : Prop :=
  price_of fr "ModelPrice" model = None \/ forall o, o ∈ RATIO_OPTIONS -> price_of fr o model = None.

Lemma ratio_option rt : rt ∈ SYNC_FIELD_ORDER -> optionKeyBySyncField rt ∈ RATIO_OPTIONS <-> getBillingCategory rt = CatRatio.
Proof.
  intros H. assert (forallb (fun rt => Bool.eqb (bool_decide (optionKeyBySyncField rt ∈ RATIO_OPTIONS)) (getBillingCategory rt ==? CatRatio))
    SYNC_FIELD_ORDER = true) as Hall by (vm_compute; reflexivity).
  rewrite forallb_forall in Hall. specialize (Hall rt (proj1 (list_elem_of_In _ _) H)). apply eqb_prop in Hall.
  rewrite <- (bool_decide_eq_true (optionKeyBySyncField rt ∈ RATIO_OPTIONS)), Hall. apply bool_decide_eq_true.
Qed.

Lemma sync_ratio rt : rt ∈ SYNC_FIELD_ORDER -> rt ∈ RATIO_SYNC_FIELDS <-> getBillingCategory rt = CatRatio.
Proof.
  intros H. assert (forallb (fun rt => Bool.eqb (bool_decide (rt ∈ RATIO_SYNC_FIELDS)) (getBillingCategory rt ==? CatRatio))
    SYNC_FIELD_ORDER = true) as Hall by (vm_compute; reflexivity).
  rewrite forallb_forall in Hall. specialize (Hall rt (proj1 (list_elem_of_In _ _) H)). apply eqb_prop in Hall.
  rewrite <- (bool_decide_eq_true (rt ∈ RATIO_SYNC_FIELDS)), Hall. apply bool_decide_eq_true.
Qed.

Lemma merge_model_spec fr model d : options_ok fr -> NoDup (obj_keys d) -> fields_ok d ->
  exists fr', merge_model fr (model, d) = Ok fr' /\ options_ok fr'
    /\ (forall rt v, obj_get rt d = Some v -> price_of fr' (optionKeyBySyncField rt) model = Some (synced_value rt v))
    /\ (forall o m, m <> model -> price_of fr' o m = price_of fr o m)
    /\ (not_mixed fr model \/ (exists rt, rt ∈ obj_keys d /\ getBillingCategory rt <> CatTiered) -> not_mixed fr' model).
Proof.
  intros Hfr Hnd Hd. pose proof Hd as [Hk He _]. unfold merge_model.
  set (hasPrice := bool_decide ("model_price" ∈ obj_keys d)).
  set (hasRatio := existsb _ _).
  set (fr1 := if hasPrice then _ else fr).
  set (fr2 := if hasRatio then _ else fr1).
  destruct (delete_all model RATIO_OPTIONS fr Hfr) as [A1 A2].
  assert (options_ok fr1) as H1 by (unfold fr1; by destruct hasPrice).
  assert (options_ok fr2) as H2 by (unfold fr2; destruct hasRatio; [by apply options_delete|done]).
  assert (forall o m, m <> model -> price_of fr2 o m = price_of fr o m) as Hother.
  { intros o m Hm. unfold fr2, fr1. destruct hasRatio; [rewrite price_of_delete, (bool_decide_false (m = model)), andb_false_r by done|];
      (destruct hasPrice; [rewrite A2, (bool_decide_false (m = model)), andb_false_r by done; done|done]). }
  destruct (set_all model d fr2 H2 Hnd Hk) as (fr' & E & Hfr' & Hv & Ho).
  exists fr'. split_and!; [exact E|done|done|intros o m Hm; rewrite Ho by (by left); by apply Hother|].
  assert (hasRatio = true <-> exists rt, rt ∈ obj_keys d /\ getBillingCategory rt = CatRatio) as HR.
  { unfold hasRatio. rewrite existsb_exists. setoid_rewrite <- list_elem_of_In. split.
    - intros (rt & Hrt & Hb). apply bool_decide_eq_true in Hb. exists rt. split; [done|]. by apply sync_ratio; [apply Hk|].
    - intros (rt & Hrt & Hb). exists rt. split; [done|]. apply bool_decide_eq_true. by apply sync_ratio; [apply Hk|]. }
  intros Hmix. destruct hasPrice eqn:HP.
  - right. intros o Hor. unfold hasPrice in HP. apply bool_decide_eq_true in HP. rewrite Ho.
    + assert (price_of fr1 o model = None) as Hn.
      { unfold fr1. rewrite A2, !bool_decide_true by done. done. }
      unfold fr2. destruct hasRatio; [|done]. rewrite price_of_delete. by destruct (_ && _).
    + right. intros rt Hrt <-. apply (ratio_option rt (Hk rt Hrt)) in Hor. by apply (He rt).
  - unfold hasPrice in HP. apply bool_decide_eq_false in HP. destruct hasRatio eqn:ER.
    + left. rewrite Ho; [unfold fr2; by rewrite price_of_delete, !bool_decide_true|].
      right. intros rt Hrt Hx. apply HP. assert ("model_price" = rt) as ->; [|done]. symmetry. apply option_keys_inj; [by apply Hk| |done].
      apply (bool_decide_eq_true_1 _). vm_compute. reflexivity.
    + assert (forall rt, rt ∈ obj_keys d -> getBillingCategory rt = CatTiered) as Ht.
      { intros rt Hrt. destruct (getBillingCategory rt) eqn:Ec; [|pose proof (proj2 HR (ex_intro _ rt (conj Hrt Ec))); congruence|done].
        exfalso. apply HP. unfold getBillingCategory in Ec. destruct (decide (rt = "model_price")) as [->|Hne]; [done|].
        rewrite bool_decide_false in Ec by done. by destruct ((rt ==? "billing_mode") || (rt ==? "billing_expr")). }
      destruct Hmix as [Hmix|(rt & Hrt & Hc)]; [|by destruct (Hc (Ht rt Hrt))].
      assert (forall o, o = "ModelPrice" \/ o ∈ RATIO_OPTIONS -> price_of fr' o model = price_of fr o model) as Hsame.
      { intros o Hor. rewrite Ho; [done|]. right. intros rt Hrt Hx. destruct Hor as [->|Hor].
        - assert (rt = "model_price") as ->; [|by apply HP]. apply option_keys_inj; [by apply Hk| |done].
          apply (bool_decide_eq_true_1 _). vm_compute. reflexivity.
        - rewrite <- Hx in Hor. apply (ratio_option rt (Hk rt Hrt)) in Hor. by rewrite (Ht rt Hrt) in Hor. }
      destruct Hmix as [Hm|Hm]; [left; by rewrite Hsame by (by left)|right; intros o Hor; rewrite Hsame by (by right); by apply Hm].
Qed.

Lemma merge_all rs : forall fr, options_ok fr -> NoDup (obj_keys rs) ->
  (forall model d, obj_get model rs = Some d -> fields_ok d /\ NoDup (obj_keys d)) ->
  exists fr', res_fold merge_model fr rs = Ok fr' /\ options_ok fr'
    /\ forall model,
      (obj_get model rs = None -> forall o, price_of fr' o model = price_of fr o model)
      /\ (forall d, obj_get model rs = Some d ->
            (forall rt v, obj_get rt d = Some v -> price_of fr' (optionKeyBySyncField rt) model = Some (synced_value rt v))
            /\ (not_mixed fr model \/ (exists rt, rt ∈ obj_keys d /\ getBillingCategory rt <> CatTiered) -> not_mixed fr' model)).
Proof.
  induction rs as [|[m d] rs IH]; intros fr Hfr Hnd Hok; cbn [res_fold].
  { exists fr. split_and!; [done|done|]. intros model. split; [done|]. by intros d. }
  inversion Hnd as [|? ? Hni Hnd']; subst.
  destruct (Hok m d) as [Hd Hdk]; [cbn; by rewrite bool_decide_true|].
  destruct (merge_model_spec fr m d Hfr Hdk Hd) as (fr1 & E1 & H1 & V1 & O1 & M1). rewrite E1. cbn [res_bind].
  assert (obj_get m rs = None) as Hm by (by apply obj_get_None).
  destruct (IH fr1 H1 Hnd') as (fr' & E & H' & Hspec).
  { intros model d' Hd'. apply (Hok model d'). cbn. destruct (decide (model = m)) as [->|Hne]; [congruence|].
    by rewrite bool_decide_false. }
  exists fr'. split_and!; [done|done|]. intros model. destruct (Hspec model) as [S1 S2]. cbn [obj_get].
  destruct (decide (model = m)) as [->|Hne].
  - rewrite bool_decide_true by done. specialize (S1 Hm). split; [done|]. intros d' Hd'. apply Some_inj in Hd'. subst d'.
    split; [intros rt v Hv; rewrite S1; by apply V1|]. intros Hx. specialize (M1 Hx). unfold not_mixed in *.
    destruct M1 as [M|M]; [left; by rewrite S1|right; intros o Ho; rewrite S1; by apply M].
  - rewrite bool_decide_false by done. assert (forall o, price_of fr1 o model = price_of fr o model) as Hsame by (intros; by apply O1).
    split; [intros Hn o; rewrite S1 by done; apply Hsame|]. intros d' Hd'. destruct (S2 d' Hd') as [V M]. split; [done|].
    intros [Hx|Hx]; apply M; [|by right]. left. unfold not_mixed in *. setoid_rewrite Hsame. done.
Qed.

(** C16: the merge of resolutions into the options succeeds, writes the selected value
    of every field, leaves the other models alone, and a model for which a price or a ratio
    is selected ends with a price or with ratios, never both. *)
Theorem merge_resolutions_spec currentRatios resolutions :
  options_ok currentRatios -> NoDup (obj_keys resolutions) ->
  (forall model d, obj_get model resolutions = Some d -> fields_ok d /\ NoDup (obj_keys d)) ->
  exists finalRatios, merge_resolutions currentRatios resolutions = Ok finalRatios
    /\ forall model,
      (obj_get model resolutions = None -> forall o, price_of finalRatios o model = price_of currentRatios o model)
      /\ forall d, obj_get model resolutions = Some d ->
           (forall rt v, obj_get rt d = Some v ->
              price_of finalRatios (optionKeyBySyncField rt) model = Some (synced_value rt v))
           /\ ((exists rt, rt ∈ obj_keys d /\ getBillingCategory rt <> CatTiered) -> not_mixed finalRatios model).
Proof.
  intros Hc Hnd Hok. destruct (merge_all resolutions currentRatios Hc Hnd Hok) as (fr & E & _ & H).
  exists fr. split; [done|]. intros model. destruct (H model) as [H1 H2]. split; [done|]. intros d Hd.
  destruct (H2 d Hd) as [V M]. split; [done|]. intros Hx. apply M. by right.
Qed.

(** ** A concrete sync *)

Definition demo_entry (upstreams : jsobj) : RatioDifferenceEntry :=
  {| rd_current := JNull; rd_upstreams := upstreams; rd_confidence := [] |}.

Definition demo_differences : Differences :=
  [("gpt", [("model_ratio", demo_entry [("a", JNum (num_of_Z 2)); ("b", JNum (num_of_Z 3))]);
            ("model_price", demo_entry [("b", JNum (num_of_Z 1))]);
            ("billing_expr", demo_entry [("c", JStr "p * 1")])])].

Definition demo_pick (ratioType source : jstr) (v : jsval) : ResolutionSelection :=
  {| rs_model := "gpt"; rs_ratioType := ratioType; rs_value := v; rs_sourceName := source |}.

Definition demo_actions : list SyncAction :=
  [SelectValues [demo_pick "model_ratio" "a" (JNum (num_of_Z 2)); demo_pick "model_ratio" "c" (JNum (num_of_Z 9))];
   SelectValues [demo_pick "model_price" "b" (JNum (num_of_Z 1))]].

Definition demo_resolutions : ResolutionsMap := fold_left (act demo_differences) demo_actions [].

Example demo_resolutions_eq :
  demo_resolutions = [("gpt", [("billing_expr", JStr "p * 1"); ("billing_mode", JStr "tiered_expr");
                               ("model_price", JNum (num_of_Z 1))])].
Proof. vm_compute. reflexivity. Qed.

Lemma resolutions_never_mix_witness :
  forallb (action_ok demo_differences) demo_actions = true /\ resolutions_ok demo_resolutions.
Proof.
  assert (forallb (action_ok demo_differences) demo_actions = true) as H by (vm_compute; reflexivity).
  split; [exact H|]. exact (resolutions_never_mix demo_differences demo_actions H).
Defined.

Definition demo_options : Options :=
  map (fun rt => (optionKeyBySyncField rt, if rt ==? "model_ratio" then [("gpt", JNum (num_of_Z 5))] else [])) SYNC_FIELD_ORDER.

Lemma demo_options_ok : options_ok demo_options.
Proof.
  intros rt H.
  assert (forallb (fun rt => obj_has (optionKeyBySyncField rt) demo_options) SYNC_FIELD_ORDER = true) as Hall by (vm_compute; reflexivity).
  rewrite forallb_forall in Hall. by apply Hall, list_elem_of_In.
Qed.

Definition demo_priced : ResolutionsMap := [("gpt", [("model_price", JNum (num_of_Z 1))])].

Lemma demo_priced_ok model d : obj_get model demo_priced = Some d -> fields_ok d /\ NoDup (obj_keys d).
Proof.
  cbn. destruct (model ==? "gpt"); [|done]. intros H. apply Some_inj in H. subst d. split; [|apply NoDup_singleton].
  split; cbn.
  - intros k ->%list_elem_of_singleton. apply (bool_decide_eq_true_1 _). vm_compute. reflexivity.
  - intros k _ ->%list_elem_of_singleton. by vm_compute.
  - intros H. exfalso. revert H. apply (bool_decide_eq_false_1 _). vm_compute. reflexivity.
Qed.

Lemma merge_resolutions_spec_witness :
  exists finalRatios, merge_resolutions demo_options demo_priced = Ok finalRatios
    /\ price_of finalRatios "ModelPrice" "gpt" = Some (JNum (num_of_Z 1)) /\ not_mixed finalRatios "gpt".
Proof.
  destruct (merge_resolutions_spec demo_options demo_priced demo_options_ok) as (fr & E & H).
  - apply NoDup_singleton.
  - exact demo_priced_ok.
  - exists fr. split; [exact E|]. destruct (H "gpt") as [_ H2].
    destruct (H2 [("model_price", JNum (num_of_Z 1))] eq_refl) as [V M]. split.
    + refine (eq_trans (V "model_price" (JNum (num_of_Z 1)) eq_refl) _). vm_compute. reflexivity.
    + apply M. exists "model_price". split; [left|]. vm_compute. discriminate.
Defined.
